(* ===== verification/_CoqProject ===== *)
-Q . S2P
Prelude.v
External.v
ExecInfo.v
GasLimiter.v
Bundle.v
PoolTx.v
RevertProtection.v
BestTxs.v
Sidecar.v
Context.v
Replay.v
Sequencer.v
BestExec.v
SidecarExec.v
BuilderTx.v
FlashblocksCtx.v
BuilderTxImpls.v
Timing.v
BuildBlock.v
Flashblocks.v
BuildPayload.v
Schedule.v
Contents.v
Standard.v
NoPool.v
Generator.v
GeneratorSpec.v
Service.v
EngineApi.v
PayloadHandler.v
Peers.v
P2p.v
P2pBuild.v
Incoming.v
Network.v
WsPub.v
Subscriber.v
Quote.v
Attestation.v
Config.v
Playground.v
QuoteServer.v
Metrics.v
PoolMetrics.v
Launch.v
MockTx.v
UnitTests.v
