(* ===== verification/Prelude.v ===== *)
(** * A verification development for op-rbuilder

    ** The program

    op-rbuilder is the block builder of an OP Stack chain.  The consensus node asks it, over the engine
    API, to build a block on a parent; the _payload job generator_ starts a job, in which a _payload
    builder_ makes the block out of the transactions of the request (the sequencer's), its own builder
    transactions, the transactions of the pool and those of a compose _sidecar_.  The standard builder
    makes the block at once.  The flashblocks builder cuts the block's time into intervals, appends
    one _flashblock_ per interval, and publishes each as a difference to the one before; whatever it
    has built when the node asks for the payload is the block.  Around the builders are the bundle RPC
    with revert protection, a per-address gas limiter for what the builder simulates, and the
    iterators over the pool.  Flashblocks go to subscribers over websockets and the payloads to other
    builders over a peer-to-peer network, where a _payload handler_ executes them again.  In a trusted
    execution environment the builder holds an attested key (_flashtestations_), for which a quote server
    is part of the repository.

    ** The files

    Paths are relative to [crates/op-rbuilder/src].  A file requires the ones it uses; the order below is
    the order of dependence.

    - [Prelude]: machine integers with their wrap-around, Rust's [Result] with panics ([outcome]), loops
      with fuel ([while_loop]), the state, error and divergence monad with its weakest preconditions,
      generic lemmas, hint databases and tactics.
    - [External]: the types of reth, revm and alloy as records of what the sources observe of them; their
      functions as fields of [Externals]; the law classes; the executable instance [TestChain].
    - [ExecInfo]: [primitives/reth/execution.rs].  The state of a block under construction, the limit
      check, the invariant [wf_info].
    - [GasLimiter]: [gas_limiter/mod.rs], [args.rs], [error.rs].  Token buckets.
    - [Bundle], [PoolTx], [RevertProtection]: [primitives/bundle.rs], [tx.rs], [revert_protection.rs] and
      [monitor_tx_pool.rs].  From a searcher's bundle to a pool transaction, and the receipts of dropped
      transactions.
    - [BestTxs]: [builders/flashblocks/best_txs.rs] and the interface [PayloadTransactions] with its
      laws, which the pool's iterators promise and the execution loop uses.
    - [Sidecar]: [sidecar/*.rs].  The polling protocol and the state overrides.
    - [Context]: the data and accessors of [builders/context.rs]; [Replay]: what a block means;
      [Sequencer], [BestExec], [SidecarExec]: its three execution loops.
    - [BuilderTx], [FlashblocksCtx], [BuilderTxImpls]: [builders/builder_tx.rs] (the trait
      [BuilderTransactions] as a class with laws), [tx_signer.rs], and the four implementations of
      [builders/flashblocks/builder_tx.rs], [builders/standard/builder_tx.rs] and
      [flashtestations/builder_tx.rs].
    - [Timing]: [builders/mod.rs], [builders/flashblocks/config.rs] and the two computations of the times
      of the flashblocks of [builders/flashblocks/payload.rs].
    - [BuildBlock], [Flashblocks], [BuildPayload]: the rest of [builders/flashblocks/payload.rs]: sealing,
      one flashblock, and the whole job with its timer task.  [Schedule]: a timer that runs to its end.
      [Contents]: what the flashblocks of a job are made of.
    - [Standard]: [builders/standard/payload.rs].  [NoPool]: the two builders on a request without the pool.
    - [Generator]: [builders/generator.rs], as a transition system on a store of shared tokens and
      cells, against the interface [PayloadBuilder] with its laws.  [GeneratorSpec]: the abstract payload
      service, without tokens and cells, that the generator implements.
    - [Service]: the flashblocks builder discharges those laws; the two together.
    - [EngineApi]: [primitives/reth/engine_api_builder.rs]: the methods of the engine API, their names, and
      the RPC module that serves them.
    - [PayloadHandler]: [builders/flashblocks/payload_handler.rs], [ctx.rs] and [p2p.rs]: the re-execution of a
      received payload, and the handler's task as a transition system.  [Peers]: a flashblocks job at one
      end of the network and the handler of a peer at the other.
    - [P2p], [P2pBuild], [Incoming]: [crates/p2p]: outgoing streams and the event loop of a node; building
      and starting one; the handler of incoming streams as a transition system.
      [Network]: the way of a block from one builder to another, through both handlers and the node.
    - [WsPub]: [builders/flashblocks/wspub.rs]: the publisher and the tasks of its subscribers.
      [Subscriber]: a job, the publisher and a client that assembles the blocks.
    - [Quote]: the parsing of TDX quotes in [flashtestations/attestation.rs], against the layout of the report
      body.  [Attestation]: the rest of that file, [flashtestations/service.rs], [tx_manager.rs] and
      [crates/tdx-quote-provider].
    - [Config]: [args/op.rs], [args/mod.rs], the conversions of [builders/mod.rs] and
      [builders/flashblocks/config.rs], the decisions of [launcher.rs] and of the two [service.rs].
      [Playground]: [args/playground.rs].
    - [QuoteServer]: the routes, the start and the end of the quote server, and its command line
      ([crates/tdx-quote-provider/src/server.rs] and [main.rs]).
    - [Metrics]: [metrics.rs], [tokio_metrics.rs], [gas_limiter/metrics.rs] and the metrics of the end of a
      job and of [eth_sendBundle], over a registry of counters, gauges and histograms.  [PoolMetrics]: the
      counters of the pool loop of [builders/context.rs].
    - [Launch]: [launch] of [launcher.rs], [primitives/telemetry.rs], and the assembly of the two payload
      services ([builders/standard/service.rs], [builders/flashblocks/service.rs]).
    - [MockTx]: [mock_tx.rs], the transactions of the unit tests.  [UnitTests]: the tests that stand in the
      modelled files, and those of the quote server, run against the model.

    ** How code is translated

    Integers are [Z] and wrap, saturate or are checked where the source's operators do.  A function that
    changes its arguments returns them; a long function is a sequence of phases in the monad of the
    prelude, one phase per paragraph of the source.  A result has three cases, [Ok], [Err] and [Panic];
    where an error leaves the state changed, the state is returned along with it.  A cancellation token
    is the function from the number of looks at tokens so far to its answer, so that a theorem about
    every such function is one about every interleaving with the party that cancels.  Clocks, the pool,
    the sidecar's answers, the timer's signals and the subscribers' behaviour are arguments.  Metrics are
    in a file of their own; tracing and log output are left out, except for what the pool loop logs about
    a transaction ([TxnExecutionResult]), which is the only trace of a decision.

    Code outside the repository is a parameter.  The EVM, the fee and receipt functions, the trie, the
    secp256k1 signatures, the ABI encoder and the compressor are the fields of [Externals],
    [BuilderExternals], [StateExternals] and [JobExternals]; what the theorems need of them are the
    classes [EvmGas], [ReceiptLaws], [FeeLaws], [FlzLaws], [StateLaws], [JobLaws], [ProviderLaws]: gas used is at
    most the gas limit and a [u64], a receipt's status and cumulative gas are what they were built
    from, and the like.  [TestChain] implements all of them, with the laws proved, and every witness
    evaluates the code on it.  The handler adds the consensus checks ([SyncExternals], [EnvLaws],
    [ExtraDataLaws]), the network its message codec ([MessageLaws], [LinesLaws]), and the attestations
    hexadecimal text, files, HTTP, an RPC provider, socket addresses and the TDX device ([HexLaws],
    [FileLaws], [RuntimeLaws], [TdxLaws]), again with implementations that satisfy the laws.  libp2p ([Libp2p]), the OTLP exporter
    ([Otlp]) and reth's engine API ([OpEngineApi]) have no laws: the theorems hold whatever they answer.

    ** Loops and fuel

    A [while_loop] that runs out of fuel gives [None], which is told apart from every result of the
    code.  The pool loop runs with one unit more than the iterator's [remaining] transactions, the
    sidecar's polling loop with one more than [max_retries]; the laws of the iterators and of the
    protocol give that this is enough, and the theorems say so: [execute_best_transactions_refines],
    [poll_transactions_spec] and [standard_try_build_spec] state that there is a result, not only what it
    is when there is one.  The iterators of the flashblocks builder are live: they also yield
    transactions that arrive while they are read.  The law [BestTxs.PayloadTransactionsLaws] is that an
    iterator yields finitely many transactions in all, arrivals included; [BestTxs.TestPool.live_iter] is a
    live iterator that satisfies it.  For a pool that is filled as fast as it is read nothing is claimed.
    The retry counter is a [u32], so with [max_retries] the largest [u32] the polling loop does not end;
    the theorems exclude exactly that value.

    ** What is proved

    - _End to end._  [Service.get_payload_valid]: a payload the engine gets was built by the job it asks,
      and replays on the job's parent to its own receipts and gas.  [Launch.launched_service_sound]: the same
      from the command line on, with what the handler of the launched service announces.
      [BuildPayload.build_payload_spec]: what a flashblocks job publishes is a sequence of flashblocks with
      consecutive indices, each extending the one before, whose concatenation is the returned payload.
      [Standard.standard_try_build_spec]: the same for the standard builder.
      [NoPool.no_pool_builders_agree]: without the pool, both builders make the same block, if the standard
      builder has no transactions of its own ([NoPool.builder_txs_without_pool]: not if it has some).
      [Schedule.all_flashblocks_published]: in the dynamic mode, a job that is asked for in time publishes
      one flashblock for every interval that is left of the block.
      [Contents.block_composition]: the block is the transactions of the request without those the EVM finds
      invalid, the builder's of the fallback block, then for each flashblock the builder's at its top, what
      the pool loop picks, what the sidecar execution includes and the builder's at its bottom, each part
      determined by the run of its phase;
      [Contents.flashblock_stream_wf]: the shape of the published stream.
      [Subscriber.subscriber_assembles_block]: what a client of the websocket has read of a job, however
      little, describes a valid block the builder has sealed, and in the end the one it returns.
      [Peers.sent_payload_accepted]: every payload a job sends is accepted, and announced unchanged, by a
      peer on the same chain, exactly when its transactions are within the peer's limit.
      [Network.network_agreement]: across handlers, node and streams, a peer announces only hashes of
      payloads of the job.  When both execute in the same environment ([Peers.job_fits], [portable],
      [on_chain]) it announces the very blocks.
    - _One flashblock._  [Flashblocks.build_next_flashblock_spec], [BuildBlock.build_block_spec]: the
      invariant of a job across one flashblock, on every branch, the errors included.
    - _Execution._  [Replay.executes] is the promise of every execution loop: the execution info and the
      database are those of a replay of the included transactions.  For the pool,
      [BestExec.execute_best_transactions_refines] is a refinement of the abstract relation [inclusions];
      [_policy], [_limits] and [_executes] draw what a user relies on from it: a transaction that may not
      revert never does, nobody is above the limits, blob and deposit transactions are never included.
      Over a whole job, [Contents.bundle_honoured]: a bundle's transaction is included only in the blocks
      and flashblocks its bundle names and reverted only when the bundle allows it; and
      [Contents.block_gas_per_address]: no address gets more gas into a block than the limiter has for it.
      [Sequencer], [SidecarExec] and [BuilderTx] have the same for their transactions.
    - _Jobs._  [GeneratorSpec.generator_refines_service]: the generator refines the abstract service, by a
      refinement mapping and an invariant ([step_refines]); [Generator.one_live_job],
      [resolved_payload_good], [job_lifetime]: by induction on the steps, in every interleaving of
      requests, polls and builds.
    - _Network._  [PayloadHandler.execute_flashblock_sound]: a received payload that is accepted replays to the
      block with its hash; [handler_announces]: what the handler announces and forwards;
      [P2p.peer_reads_messages]: a peer reads the messages that were sent, in order;
      [P2p.node_streams_connected] and [WsPub.subscribers_served]: invariants of the two event loops
      ([WsPub.failed_setup_publishes_nothing]: the publisher when the listener's socket cannot be set up);
      [P2pBuild.built_node_spec] and [run_node_starts]: what a node that was built is, and when it starts;
      [Incoming.incoming_streams_independent]: streams do not disturb one another.
      [EngineApi.engine_api_served]: every method is served by the engine's method, under its specified
      name with one exception, and no other name is.
    - _Attestation._  [Quote.parse_report_body_roundtrip] and [workload_id_identifies]: the parser inverts the
      layout, and the workload id stands for the measurements; [Attestation.bootstrap_attested]: a builder
      that starts with the repository's quote provider holds a quote over the address of its own key;
      [tee_key_persists],
      [served_attestation_spec], and [QuoteServer.routed_serves], by which the server is what the client
      takes it for.
    - _Configuration._  [Config.job_times_no_panic]: exactly which arguments keep the times of every job from
      panicking.
    - _Metrics._  [Metrics.limiter_metrics_account], [collector_sums], [builder_records_declared]: what the
      counters and gauges count; [PoolMetrics.metrics_do_not_interfere] and [pool_counters_account]: the
      pool loop with its counters is the loop without them, and they count what it logs.
    - _Components._  The gas limiter never grants more than the initial capacity and what was refilled;
      committed transactions are never yielded again; the timing formulas give flashblocks inside the
      block; the sidecar's protocol ends and counts its retries; bundles are accepted exactly when their
      ranges are valid.
    - _Tests._  [UnitTests.unit_tests_pass]: the repository's own assertions hold of the model.
    - _What the code does and hardly means to._  [cleanup_removes_nothing], [next_targets],
      [refused_payload_diverges], [poll_gas_overstated], [failed_build_never_resolves],
      [is_tx_over_limits_wraps], [with_interop_deadline_drops_bundle],
      [withdrawals_unchecked], [lost_stream_not_reopened], [subscriber_limit_spec], [multiaddrs_panics],
      [dropped_needs_logging], [missing_key_file], [external_port_spec], [unusable_key_overwritten],
      [missing_flashblocks_understated], [telemetry_needs_endpoint], [failed_listener_leaves_node],
      [quote_server_starts], [best_payload_panics].

    ** What is not modelled

    The reads that a build takes from the generator: [cached_reads.as_db_mut] ([builders/flashblocks/payload.rs],
    [builders/standard/payload.rs], [payload_handler.rs]) puts them in front of the parent's state, and the
    builds are modelled on the parent's state itself.  [Generator.on_new_state] and [maybe_pre_cached] model
    how the reads are collected and handed to the build task of a job on the same block; that they agree
    with the state of this block is assumed of the chain's notifications.

    The command line parser and reth's own node builder, which runs the parts [Launch] assembles
    ([traits.rs] are the bounds of its generic parameters); libp2p, the HTTP frameworks and the websocket
    protocol; the Solidity interfaces beyond the calls in [BuilderTxImpls.ContractCall]; the durations of
    the phases of a build, whose only reader is the exporter; [Debug] output; the unit tests that check
    external cryptography, the integration tests with their framework, and
    [bin/tester]. *)

From stdpp Require Export prelude gmap list strings.

(** ** Scopes, notations and hint databases *)

Declare Scope builder_scope.
Delimit Scope builder_scope with builder.

Create HintDb builder.
Create Rewrite HintDb builder.
Create HintDb builder_wf.

Open Scope Z_scope.

(** ** Machine integers

    A [u64] is a [Z] with its wrap-around written out.  The release profiles of the workspace leave
    [overflow-checks] at its default, so the plain operators wrap. *)

Definition U64_MOD : Z := 2 ^ 64.
Definition U64_MAX : Z := 2 ^ 64 - 1.
Definition in_u64 (z : Z) : Prop := 0 <= z < U64_MOD.

Definition wrap64 (z : Z) : Z := z mod U64_MOD.
Definition add64 (a b : Z) : Z := wrap64 (a + b).
Definition sub64 (a b : Z) : Z := wrap64 (a - b).
Definition mul64 (a b : Z) : Z := wrap64 (a * b).
Definition saturating_add (a b : Z) : Z := Z.min (a + b) U64_MAX.
Definition saturating_sub (a b : Z) : Z := Z.max 0 (a - b).
Definition saturating_mul (a b : Z) : Z := Z.min (a * b) U64_MAX.
Definition checked_add (a b : Z) : option Z :=
  if U64_MAX <? a + b then None else Some (a + b).

(** The type [U256] of the fee accumulator; its operators wrap as well. *)
Definition U256_MOD : Z := 2 ^ 256.
Definition add256 (a b : Z) : Z := (a + b) mod U256_MOD.
Definition mul256 (a b : Z) : Z := (a * b) mod U256_MOD.

(** [Option::is_some_and] and [Option::unwrap_or]. *)
Definition is_some_and {A} (o : option A) (p : A -> bool) : bool :=
  match o with Some a => p a | None => false end.
Definition unwrap_or {A} (o : option A) (d : A) : A :=
  match o with Some a => a | None => d end.

(** ** Fallible computations

    [Ok] and [Err] are Rust's [Result]; [Panic] is an [expect]/[unwrap] that fails, an
    out-of-range index or a division by zero, which unwinds through every caller. *)

Inductive outcome (E A : Type) : Type :=
| Ok (a : A)
| Err (e : E)
| Panic.
Arguments Ok {E A} a.
Arguments Err {E A} e.
Arguments Panic {E A}.

Definition bind {E A B} (m : outcome E A) (k : A -> outcome E B) : outcome E B :=
  match m with Ok a => k a | Err e => Err e | Panic => Panic end.

Definition map_err {E F A} (f : E -> F) (m : outcome E A) : outcome F A :=
  match m with Ok a => Ok a | Err e => Err (f e) | Panic => Panic end.

Definition is_ok {E A} (m : outcome E A) : bool :=
  match m with Ok _ => true | _ => false end.

(** [Option::ok_or] and [Option::expect]. *)
Definition ok_or {E A} (o : option A) (e : E) : outcome E A :=
  match o with Some a => Ok a | None => Err e end.
Definition expect {E A} (o : option A) : outcome E A :=
  match o with Some a => Ok a | None => Panic end.

(** The result of a call of code outside, whose errors are numbers. *)
Definition of_sum {E A} (f : Z -> E) (r : Z + A) : outcome E A :=
  match r with inl e => Err (f e) | inr a => Ok a end.

Notation "'let?' x ':=' m 'in' k" := (bind m (fun x => k))
  (at level 10, x pattern, m at level 100, k at level 200)
  : builder_scope.
Open Scope builder_scope.

(** ** Loops

    The body of a loop either goes on with a new state ([continue], or falling through) or leaves
    it with a value ([break] or [return]). *)

Inductive ctl (S R : Type) : Type :=
| Next (s : S)
| Stop (r : R).
Arguments Next {S R} s.
Arguments Stop {S R} r.

(** [loop { ... }] and [while let Some(x) = it.next() { ... }]; [None] is running out of fuel. *)
Fixpoint while_loop {S R} (fuel : nat) (body : S -> ctl S R) (s : S) : option R :=
  match fuel with
  | O => None
  | Datatypes.S fuel' =>
      match body s with
      | Next s' => while_loop fuel' body s'
      | Stop r => Some r
      end
  end.

(** [for x in xs { ... }] *)
Fixpoint for_each {A S R} (body : A -> S -> ctl S R) (xs : list A) (s : S) : ctl S R :=
  match xs with
  | [] => Next s
  | x :: xs' =>
      match body x s with
      | Next s' => for_each body xs' s'
      | Stop r => Stop r
      end
  end.

(** ** Stateful computations

    An action changes a state, may fail, and may not return ([None]); an error keeps the state it
    was raised in. *)

Definition action (S E A : Type) : Type := S -> option (outcome E A * S).

Definition mret {S E A} (a : A) : action S E A := fun s => Some (Ok a, s).
Definition mfail {S E A} (e : E) : action S E A := fun s => Some (Err e, s).
Definition mget {S E A} (f : S -> A) : action S E A := fun s => Some (Ok (f s), s).
(** A computation that does not touch the state. *)
Definition mlift {S E A} (m : outcome E A) : action S E A := fun s => Some (m, s).
Definition mbind' {S E A B} (m : action S E A) (k : A -> action S E B) : action S E B := fun s =>
  match m s with
  | Some (Ok a, s') => k a s'
  | Some (Err e, s') => Some (Err e, s')
  | Some (Panic, s') => Some (Panic, s')
  | None => None
  end.

Notation "'do' x '<~' m 'then' k" := (mbind' m (fun x => k))
  (at level 10, x pattern, m at level 100, k at level 200)
  : builder_scope.

(** ** Tactics *)

(** Split every [match] and [if] of the goal and the hypotheses, and close what is absurd. *)
Ltac crush_match := repeat (case_match; simplify_eq/=).

(** Turn the boolean comparisons of the code into propositions. *)
Ltac reflect_bools :=
  repeat match goal with
  | H : _ && _ = true |- _ => apply andb_true_iff in H; destruct H
  | H : _ || _ = false |- _ => apply orb_false_iff in H; destruct H
  | H : _ || _ = true |- _ => apply orb_true_iff in H
  | H : _ && _ = false |- _ => apply andb_false_iff in H
  | H : negb _ = true |- _ => apply negb_true_iff in H
  | H : negb _ = false |- _ => apply negb_false_iff in H
  | H : (_ <? _) = true |- _ => apply Z.ltb_lt in H
  | H : (_ <? _) = false |- _ => apply Z.ltb_ge in H
  | H : (_ <=? _) = true |- _ => apply Z.leb_le in H
  | H : (_ <=? _) = false |- _ => apply Z.leb_gt in H
  | H : (_ >? _) = true |- _ => rewrite Z.gtb_ltb in H; apply Z.ltb_lt in H
  | H : (_ >? _) = false |- _ => rewrite Z.gtb_ltb in H; apply Z.ltb_ge in H
  | H : (_ =? _) = true |- _ => apply Z.eqb_eq in H
  | H : (_ =? _) = false |- _ => apply Z.eqb_neq in H
  | H : bool_decide _ = true |- _ => apply bool_decide_eq_true in H
  | H : bool_decide _ = false |- _ => apply bool_decide_eq_false in H
  end.

(** ** Lemmas on machine integers *)

Lemma wrap64_small z : in_u64 z -> wrap64 z = z.
Proof. intros H. apply Z.mod_small, H. Qed.

Lemma wrap64_range z : in_u64 (wrap64 z).
Proof. apply Z.mod_pos_bound. reflexivity. Qed.

Lemma add64_exact a b : 0 <= a -> 0 <= b -> a + b < U64_MOD -> add64 a b = a + b.
Proof. intros. apply wrap64_small. split; lia. Qed.

(** A sum that did not go down did not wrap. *)
Lemma add64_no_wrap a b : in_u64 a -> in_u64 b -> a <= add64 a b -> add64 a b = a + b.
Proof.
  unfold in_u64, add64, wrap64. intros Ha Hb Hle.
  destruct (Z.lt_ge_cases (a + b) U64_MOD); [apply Z.mod_small; lia|].
  rewrite <- (Z_mod_plus_full _ (-1)), Z.mod_small in Hle; unfold U64_MOD in *; lia.
Qed.

Lemma mul64_exact a b : 0 <= a * b < U64_MOD -> mul64 a b = a * b.
Proof. intros H. by apply wrap64_small. Qed.

Lemma add64_range a b : in_u64 (add64 a b).
Proof. apply wrap64_range. Qed.

Lemma saturating_add_range a b : 0 <= a -> 0 <= b -> in_u64 (saturating_add a b).
Proof. unfold in_u64, saturating_add, U64_MOD, U64_MAX. lia. Qed.

Lemma saturating_sub_range a b : in_u64 a -> 0 <= b -> in_u64 (saturating_sub a b).
Proof. unfold in_u64, saturating_sub. lia. Qed.

Lemma saturating_mul_range a b : 0 <= a * b -> in_u64 (saturating_mul a b).
Proof. unfold in_u64, saturating_mul, U64_MOD, U64_MAX. lia. Qed.

Lemma saturating_add_le a b m : m < U64_MAX -> saturating_add a b <= m -> a + b <= m.
Proof. unfold saturating_add. lia. Qed.

Lemma saturating_mul_le a b m : m < U64_MAX -> saturating_mul a b <= m -> a * b <= m.
Proof. unfold saturating_mul. lia. Qed.

#[export] Hint Resolve wrap64_range add64_range saturating_add_range saturating_sub_range
  saturating_mul_range : builder_wf.
#[export] Hint Rewrite wrap64_small using (assumption) : builder.

(** ** Lemmas on [outcome] *)

Lemma of_sum_Ok {E A} (f : Z -> E) (r : Z + A) a : of_sum f r = Ok a -> r = inr a.
Proof. destruct r; naive_solver. Qed.

Lemma bind_Ok {E A B} (m : outcome E A) (k : A -> outcome E B) b :
  bind m k = Ok b -> exists a, m = Ok a /\ k a = Ok b.
Proof. destruct m; naive_solver. Qed.

Lemma bind_not_Panic {E A B} (m : outcome E A) (k : A -> outcome E B) :
  m <> Panic -> (forall a, m = Ok a -> k a <> Panic) -> bind m k <> Panic.
Proof. destruct m; naive_solver. Qed.

(** ** Lemmas on actions *)

Lemma mbind'_Some {S E A B} (m : action S E A) (k : A -> action S E B) s r s' :
  mbind' m k s = Some (r, s') ->
  (exists a s1, m s = Some (Ok a, s1) /\ k a s1 = Some (r, s')) \/
  (exists e, m s = Some (Err e, s') /\ r = Err e) \/ (m s = Some (Panic, s') /\ r = Panic).
Proof.
  unfold mbind'. destruct (m s) as [[[a|e|] s1]|]; [|intros [= <- <-]..|done]; eauto 10.
Qed.

Lemma bind_returns {S E A B} (m : action S E A) (k : A -> action S E B) s :
  is_Some (m s) -> (forall a s2, is_Some (k a s2)) -> is_Some (mbind' m k s).
Proof. intros [[[a|e|] s2] Hm] Hk; unfold mbind'; rewrite Hm; eauto. Qed.

(** Total correctness: the action returns, and what it returns satisfies [Q]. *)
Definition wp {S E A} (m : action S E A) (Q : outcome E A -> S -> Prop) (s : S) : Prop :=
  exists r s', m s = Some (r, s') /\ Q r s'.

(** A postcondition for success; nothing is said of errors. *)
Definition on_ok {S E A} (P : A -> S -> Prop) (r : outcome E A) (s : S) : Prop :=
  match r with Ok a => P a s | _ => True end.

Lemma wp_bind {S E A B} (m : action S E A) (k : A -> action S E B) Q s :
  wp m (fun r s1 => match r with Ok a => wp (k a) Q s1 | Err e => Q (Err e) s1 | Panic => Q Panic s1 end)
    s ->
  wp (mbind' m k) Q s.
Proof. intros (r & s1 & Hm & H). unfold wp, mbind'. rewrite Hm. destruct r; eauto. Qed.

Lemma wp_bind_ok {S E A B} (m : action S E A) (k : A -> action S E B) (I : A -> S -> Prop) P s :
  wp m (on_ok I) s -> (forall a s1, I a s1 -> wp (k a) (on_ok P) s1) -> wp (mbind' m k) (on_ok P) s.
Proof.
  intros (r & s1 & Hm & HI) Hk. apply wp_bind. exists r, s1. split; [done|].
  destruct r; [by apply Hk|done..].
Qed.

Lemma wp_mono {S E A} (m : action S E A) (Q Q' : outcome E A -> S -> Prop) s :
  wp m Q s -> (forall r s', Q r s' -> Q' r s') -> wp m Q' s.
Proof. intros (r & s' & Hm & HQ) H. exists r, s'. auto. Qed.

Lemma wp_ret {S E A} (a : A) (Q : outcome E A -> S -> Prop) s : Q (Ok a) s -> wp (mret a) Q s.
Proof. intros H. by exists (Ok a), s. Qed.

Lemma wp_get {S E A} (f : S -> A) (Q : outcome E A -> S -> Prop) s : Q (Ok (f s)) s -> wp (mget f) Q s.
Proof. intros H. by exists (Ok (f s)), s. Qed.

Lemma wp_lift {S E A} (m : outcome E A) (Q : outcome E A -> S -> Prop) s : Q m s -> wp (mlift m) Q s.
Proof. intros H. by exists m, s. Qed.

(** ** Lemmas on loops *)

Section Loops.
Context {A S R : Type}.

Lemma while_loop_invariant (I : S -> Prop) (Q : R -> Prop) (body : S -> ctl S R) :
  (forall s s', I s -> body s = Next s' -> I s') ->
  (forall s r, I s -> body s = Stop r -> Q r) ->
  forall fuel s r, I s -> while_loop fuel body s = Some r -> Q r.
Proof.
  intros Hn Hs fuel. induction fuel as [|fuel IH]; intros s r HI; simpl; [done|].
  destruct (body s) eqn:E; intros; simplify_eq; eauto.
Qed.

(** A loop whose state has a measure that every iteration decreases returns. *)
Lemma while_loop_terminates (m : S -> nat) (body : S -> ctl S R) :
  (forall s s', body s = Next s' -> (m s' < m s)%nat) ->
  forall fuel s, (m s < fuel)%nat -> exists r, while_loop fuel body s = Some r.
Proof.
  intros Hd fuel. induction fuel as [|fuel IH]; intros s Hlt; [lia|]. simpl.
  destruct (body s) eqn:E; [|by eexists]. apply IH. apply Hd in E. lia.
Qed.

(** The same under an invariant of the states the loop goes through. *)
Lemma while_loop_terminates_inv (I : S -> Prop) (m : S -> nat) (body : S -> ctl S R) :
  (forall s s', I s -> body s = Next s' -> I s' /\ (m s' < m s)%nat) ->
  forall fuel s, I s -> (m s < fuel)%nat -> exists r, while_loop fuel body s = Some r.
Proof.
  intros Hd fuel. induction fuel as [|fuel IH]; intros s HI Hlt; [lia|]. simpl.
  destruct (body s) eqn:E; [|by eexists]. destruct (Hd _ _ HI E). apply IH; [done|lia].
Qed.

(** Fuel beyond what is needed changes nothing. *)
Lemma while_loop_more_fuel (body : S -> ctl S R) fuel s r :
  while_loop fuel body s = Some r ->
  forall fuel', (fuel <= fuel')%nat -> while_loop fuel' body s = Some r.
Proof.
  revert s. induction fuel as [|fuel IH]; intros s H fuel' Hle; [done|].
  destruct fuel' as [|fuel']; [lia|]. simpl in *.
  destruct (body s); [|done]. eapply IH; [done|lia].
Qed.

Lemma for_each_invariant (I : S -> Prop) (Q : R -> Prop) (body : A -> S -> ctl S R) xs :
  (forall x s s', x ∈ xs -> I s -> body x s = Next s' -> I s') ->
  (forall x s r, x ∈ xs -> I s -> body x s = Stop r -> Q r) ->
  forall s, I s ->
  match for_each body xs s with Next s' => I s' | Stop r => Q r end.
Proof.
  induction xs as [|x xs IH]; intros Hn Hs s HI; simpl; [done|].
  destruct (body x s) as [s'|r] eqn:E; [|eapply Hs; eauto; set_solver].
  apply IH; [intros; eapply Hn; eauto; set_solver
            |intros; eapply Hs; eauto; set_solver
            |eapply Hn; eauto; set_solver].
Qed.

(** An invariant indexed by the elements already processed. *)
Lemma for_each_prefix_invariant (I : list A -> S -> Prop) (Q : R -> Prop)
    (body : A -> S -> ctl S R) :
  (forall pre x s s', I pre s -> body x s = Next s' -> I (pre ++ [x]) s') ->
  (forall pre x s r, I pre s -> body x s = Stop r -> Q r) ->
  forall xs pre s, I pre s ->
  match for_each body xs s with Next s' => I (pre ++ xs) s' | Stop r => Q r end.
Proof.
  intros Hn Hs xs. induction xs as [|x xs IH]; intros pre s HI; simpl.
  { by rewrite app_nil_r. }
  destruct (body x s) as [s'|r] eqn:E; [|by eapply Hs].
  replace (pre ++ x :: xs) with ((pre ++ [x]) ++ xs) by (by rewrite <- app_assoc).
  apply IH. eauto.
Qed.

(** Where a loop was left. *)
Lemma for_each_Stop (body : A -> S -> ctl S R) xs s r :
  for_each body xs s = Stop r ->
  exists pre x post s1, xs = pre ++ x :: post ∧ for_each body pre s = Next s1 ∧ body x s1 = Stop r.
Proof.
  revert s. induction xs as [|x xs IH]; intros s; simpl; [done|].
  destruct (body x s) as [s'|r'] eqn:E.
  - intros (pre & y & post & s1 & -> & Hp & Hb)%IH. exists (x :: pre), y, post, s1.
    simpl. by rewrite E.
  - intros [= ->]. by exists [], x, xs, s.
Qed.

End Loops.

(** ** Lists *)

Lemma Forall_sublist {A} (P : A -> Prop) l k : l `sublist_of` k -> Forall P k -> Forall P l.
Proof. rewrite !Forall_forall. intros Hs H x Hx. apply H. by eapply elem_of_sublist. Qed.

Lemma fold_left_invariant {A S} (f : S -> A -> S) (I : S -> Prop) (P : A -> Prop) l s :
  (forall s x, P x -> I s -> I (f s x)) -> Forall P l -> I s -> I (fold_left f l s).
Proof. intros Hf Hl. revert s. induction Hl; intros s Hs; simpl; auto. Qed.

(** A list without duplicates in which only [x] satisfies a predicate. *)
Lemma filter_unique {A} (P : A -> Prop) `{!forall x, Decision (P x)} (l : list A) x :
  NoDup l -> x ∈ l -> P x -> (forall y, y ∈ l -> P y -> y = x) -> filter P l = [x].
Proof.
  intros Hnd Hx HP Hu. apply (list_elem_of_split l x) in Hx as (l1 & l2 & ->).
  rewrite NoDup_app, NoDup_cons in Hnd. destruct Hnd as (_ & Hd & Hn2 & _).
  assert (Hnil : forall k, (forall y, y ∈ k -> y ∈ l1 ++ x :: l2) -> x ∉ k -> filter P k = []).
  { intros k Hk Hn. induction k as [|y k IH]; [done|]. rewrite filter_cons.
    case_decide as Hy; [|set_solver]. exfalso. apply Hn. rewrite (Hu y) by set_solver. set_solver. }
  rewrite filter_app, filter_cons, decide_True by done.
  rewrite (Hnil l1), (Hnil l2); set_solver.
Qed.

Lemma omap_cons_eq {A B} (f : A -> option B) x (l : list A) :
  omap f (x :: l) = match f x with Some y => y :: omap f l | None => omap f l end.
Proof. done. Qed.

Lemma omap_ext_in {A B} (f g : A -> option B) (l : list A) :
  (forall x, x ∈ l -> f x = g x) -> omap f l = omap g l.
Proof.
  induction l as [|x l IH]; intros H; [done|].
  rewrite !omap_cons_eq, (H x), IH; [done|intros; apply H|]; set_solver.
Qed.

(** ** Sums over lists *)

Definition sum_Z (l : list Z) : Z := foldr Z.add 0 l.

Lemma sum_Z_app l k : sum_Z (l ++ k) = sum_Z l + sum_Z k.
Proof. induction l as [|x l IH]; simpl; [done|]. rewrite IH. lia. Qed.

Lemma sum_Z_nonneg l : Forall (fun z => 0 <= z) l -> 0 <= sum_Z l.
Proof. induction 1; simpl; lia. Qed.

Lemma sum_Z_bounds l m : Forall (fun z => 0 <= z) l -> sum_Z l < m -> Forall (fun z => 0 <= z < m) l.
Proof.
  induction 1 as [|z l Hz Hl IH]; simpl; intros Hm; constructor.
  - pose proof (sum_Z_nonneg l Hl). lia.
  - apply IH. lia.
Qed.

#[export] Hint Rewrite sum_Z_app : builder.

(** ** Bytes *)

(** [l[i..j]], which panics out of range; [slice] is its value. *)
Definition slice {A} (l : list A) (i j : nat) : list A := take (j - i) (drop i l).
Definition slice_range {E A} (l : list A) (i j : nat) : outcome E (list A) :=
  if (i <=? j)%nat && (j <=? length l)%nat then Ok (slice l i j) else Panic.

(** [<[u8; N]>::try_from] *)
Definition try_into_array {A} (n : nat) (l : list A) : option (list A) :=
  if (length l =? n)%nat then Some l else None.

(** The bytes of a number, most significant first, and back. *)
Fixpoint to_be_bytes (n : nat) (z : Z) : list Z :=
  match n with
  | O => []
  | Datatypes.S n' => to_be_bytes n' (z / 256) ++ [z mod 256]
  end.
Definition from_be_bytes (l : list Z) : Z := fold_left (fun n b => n * 256 + b) l 0.
Definition is_byte (b : Z) : Prop := 0 <= b < 256.

(** Text is a list of code points. *)
Abbreviation Text := (list Z) (only parsing).
Definition text (s : string) : Text :=
  (fun c => Z.of_N (Ascii.N_of_ascii c)) <$> String.list_ascii_of_string s.

Lemma length_slice {A} (l : list A) i j : (i <= j <= length l)%nat -> length (slice l i j) = (j - i)%nat.
Proof. intros H. unfold slice. rewrite length_take, length_drop. lia. Qed.

Lemma slice_range_Ok {E A} (l : list A) i j :
  (i <= j <= length l)%nat -> slice_range (E := E) l i j = Ok (slice l i j).
Proof.
  intros [H1 H2]. unfold slice_range. by rewrite (proj2 (Nat.leb_le _ _) H1), (proj2 (Nat.leb_le _ _) H2).
Qed.

(** A slice of a concatenation: past the front, or the front itself. *)
Lemma slice_app_skip {A} (l k : list A) i j :
  (length l <= i)%nat -> slice (l ++ k) i j = slice k (i - length l) (j - length l).
Proof.
  intros H. unfold slice. rewrite drop_app_ge by done. f_equal. lia.
Qed.

Lemma slice_app_front {A} (l k : list A) n : length l = n -> slice (l ++ k) 0 n = l.
Proof. intros <-. unfold slice. rewrite drop_0, Nat.sub_0_r. apply take_app_length. Qed.

(** A slice inside a slice. *)
Lemma slice_sub {A} (l : list A) i j i' j' :
  (i <= i')%nat -> (j' <= j)%nat -> slice l i' j' = slice (slice l i j) (i' - i) (j' - i).
Proof.
  intros H1 H2. unfold slice. rewrite skipn_firstn_comm, take_take, drop_drop.
  f_equal; [lia|f_equal; lia].
Qed.

Lemma length_to_be_bytes n z : length (to_be_bytes n z) = n.
Proof.
  revert z. induction n as [|n IH]; intros z; cbn [to_be_bytes]; [done|].
  rewrite length_app, IH. simpl. lia.
Qed.

Lemma from_be_bytes_snoc l b : from_be_bytes (l ++ [b]) = from_be_bytes l * 256 + b.
Proof. unfold from_be_bytes. by rewrite fold_left_app. Qed.

Lemma from_to_be_bytes n z : 0 <= z < 256 ^ Z.of_nat n -> from_be_bytes (to_be_bytes n z) = z.
Proof.
  revert z. induction n as [|n IH]; intros z Hz; [cbn in *; lia|].
  cbn [to_be_bytes]. rewrite from_be_bytes_snoc.
  rewrite Nat2Z.inj_succ, Z.pow_succ_r in Hz by lia.
  rewrite IH; [rewrite Z.mul_comm; symmetry; by apply Z.div_mod|].
  split; [apply Z.div_pos; lia|]. apply Z.div_lt_upper_bound; lia.
Qed.

Lemma to_from_be_bytes l : Forall is_byte l -> to_be_bytes (length l) (from_be_bytes l) = l.
Proof.
  induction l as [|b l IH] using rev_ind; [done|]. intros [Hl Hb]%Forall_app.
  apply Forall_cons_1 in Hb as [Hb _]. rewrite length_app, Nat.add_comm.
  unfold is_byte in Hb. cbn [length Nat.add to_be_bytes].
  rewrite from_be_bytes_snoc, Z.div_add_l, (Z.div_small b), Z.add_0_r, IH by (done || lia).
  by rewrite Z.add_comm, Z_mod_plus_full, Z.mod_small by lia.
Qed.

Lemma from_be_bytes_range l : Forall is_byte l -> 0 <= from_be_bytes l < 256 ^ Z.of_nat (length l).
Proof.
  induction l as [|b l IH] using rev_ind; [done|]. intros [Hl Hb]%Forall_app.
  apply Forall_cons_1 in Hb as [Hb _]. unfold is_byte in Hb. specialize (IH Hl).
  rewrite from_be_bytes_snoc, length_app, Nat.add_comm, Nat2Z.inj_add, Z.pow_add_r by lia.
  change (256 ^ Z.of_nat (length [b])) with 256. lia.
Qed.

Lemma to_be_bytes_byte n z : Forall is_byte (to_be_bytes n z).
Proof.
  revert z. induction n as [|n IH]; intros z; cbn [to_be_bytes]; [constructor|]. apply Forall_app.
  split; [apply IH|]. constructor; [|constructor]. unfold is_byte. by apply Z.mod_pos_bound.
Qed.

#[global] Arguments to_be_bytes : simpl never.

(** ** Reflexive-transitive closure of a step relation *)

Inductive star {S : Type} (R : S -> S -> Prop) : S -> S -> Prop :=
| star_refl s : star R s s
| star_step s t u : R s t -> star R t u -> star R s u.

Lemma star_invariant {S} (R : S -> S -> Prop) (I : S -> Prop) :
  (forall s t, I s -> R s t -> I t) -> forall s t, star R s t -> I s -> I t.
Proof. intros H s t. induction 1; eauto. Qed.

Lemma star_trans {S} (R : S -> S -> Prop) s t u : star R s t -> star R t u -> star R s u.
Proof. induction 1; intros; [done|]. econstructor; eauto. Qed.

#[export] Hint Constructors star : builder.
