(* ===== verification/External.v ===== *)
(** * The code the builder calls

    The types and functions of reth, revm and alloy that the sources use.  A third-party value is
    the record of the observations the sources make of it; a third-party function is a field of the
    class [Externals], and what the theorems rely on is stated in the law classes at the end
    ([EvmGas], [ReceiptLaws], ...).  [TestChain] is a small executable instance, with the laws
    proved of it, on which the witnesses of the other files are evaluated. *)

From S2P Require Import Prelude.

(** ** Transactions (alloy, op-alloy) *)

Abbreviation Address := Z (only parsing).
Abbreviation B256 := Z (only parsing).
Abbreviation Bytes := (list Z) (only parsing).

Inductive TxType : Type := Legacy | Eip2930 | Eip1559 | Eip4844 | Eip7702 | DepositTx.

#[export] Instance TxType_eq_dec : EqDecision TxType.
Proof. solve_decision. Defined.

(** [OpTransactionSigned]: [tx_from] is the address [try_clone_into_recovered] recovers, or [None]
    when the signature is invalid. *)
Record OpTransactionSigned : Type := mkTx {
  tx_hash : B256;
  tx_ty : TxType;
  tx_from : option Address;
  tx_nonce : Z;
  tx_gas_limit : Z;
  tx_max_fee_per_gas : Z;
  tx_max_priority_fee_per_gas : Z;
  tx_to : Address;
  tx_input : Bytes;
  tx_encoded_2718 : Bytes;
}.

#[export] Instance OpTransactionSigned_eq_dec : EqDecision OpTransactionSigned.
Proof. solve_decision. Defined.

(** [Recovered<OpTransactionSigned>] *)
Record Recovered : Type := mkRecovered {
  inner : OpTransactionSigned;
  signer : Address;
}.

Definition is_eip4844 (t : OpTransactionSigned) : bool := bool_decide (tx_ty t = Eip4844).
Definition is_deposit (t : OpTransactionSigned) : bool := bool_decide (tx_ty t = DepositTx).

Definition try_clone_into_recovered (t : OpTransactionSigned) : option Recovered :=
  mkRecovered t <$> tx_from t.

(** [TransactionConditional] and [BlockConditionalAttributes]; the account part of a conditional is
    always empty in the sources. *)
Record TransactionConditional : Type := mkConditional {
  tc_block_number_min : option Z;
  tc_block_number_max : option Z;
  tc_timestamp_min : option Z;
  tc_timestamp_max : option Z;
}.

Record BlockConditionalAttributes : Type := mkBlockAttr { attr_number : Z; attr_timestamp : Z }.

(** ** Execution (revm) *)

Record Log : Type := mkLog { log_topics : list B256; log_data : Bytes }.

(** [ExecutionResult]; the number of a halt stands for its [OpHaltReason]. *)
Inductive ExecutionResult : Type :=
| Success (gas_used : Z) (output : Bytes) (logs : list Log)
| Revert (gas_used : Z) (output : Bytes)
| Halt (gas_used : Z) (reason : Z).

Definition gas_used (r : ExecutionResult) : Z :=
  match r with Success g _ _ | Revert g _ | Halt g _ => g end.
Definition is_success (r : ExecutionResult) : bool :=
  match r with Success _ _ _ => true | _ => false end.
Definition into_logs (r : ExecutionResult) : list Log :=
  match r with Success _ _ l => l | _ => [] end.

(** The errors of [Evm::transact]: an invalid transaction, with what [is_nonce_too_low] answers,
    or anything else (a database error). *)
Inductive EvmError : Type :=
| InvalidTx (nonce_too_low : bool) (detail : Z)
| OtherEvmError (detail : Z).

Definition is_invalid_tx_err (e : EvmError) : bool :=
  match e with InvalidTx _ _ => true | OtherEvmError _ => false end.

(** [EvmEnv]: the block environment and the configuration flags the builder sets. *)
Record EvmEnv : Type := mkEvmEnv {
  env_number : Z;
  env_basefee : Z;
  env_gas_limit : Z;
  env_beneficiary : Address;
  env_blob_gasprice : option Z;
  cfg_disable_balance_check : bool;
  cfg_disable_block_gas_limit : bool;
  cfg_disable_nonce_check : bool;
}.

Record AccountInfo : Type := mkAccount { acc_nonce : Z; acc_balance : Z }.
Definition default_account : AccountInfo := mkAccount 0 0.

(** ** Receipts *)

Record Receipt : Type := mkReceipt {
  rcpt_status : bool;
  rcpt_cumulative_gas_used : Z;
  rcpt_logs : list Log;
}.

Record OpDepositReceipt : Type := mkDepositReceipt {
  dr_inner : Receipt;
  dr_deposit_nonce : option Z;
  dr_deposit_receipt_version : option Z;
}.

Inductive OpReceipt : Type :=
| RLegacy (r : Receipt)
| REip2930 (r : Receipt)
| REip1559 (r : Receipt)
| REip7702 (r : Receipt)
| RDeposit (r : OpDepositReceipt).

Definition as_receipt (r : OpReceipt) : Receipt :=
  match r with
  | RLegacy r | REip2930 r | REip1559 r | REip7702 r => r
  | RDeposit d => dr_inner d
  end.

(** ** The interface *)

Class Externals : Type := {
  (** [State<DB>], the changes of one transaction, and a call of the EVM on them *)
  db : Type;
  changes : Type;
  transact : EvmEnv -> db -> Recovered -> EvmError + (ExecutionResult * changes);
  commit : db -> changes -> db;
  (** [State::load_cache_account] and [DatabaseRef::basic_ref]; [inl] is a database error *)
  load_cache_account : db -> Address -> unit + option AccountInfo;
  basic_ref : db -> Address -> unit + option AccountInfo;
  (** [L1BlockInfo::fetch_da_footprint_gas_scalar] *)
  fetch_da_footprint_gas_scalar : db -> option Z;
  (** [OpReceiptBuilder::build_receipt] ([None] hands the context back) and
      [build_deposit_receipt] *)
  rb_build_receipt : OpTransactionSigned -> ExecutionResult -> changes -> Z -> option OpReceipt;
  rb_build_deposit_receipt : OpDepositReceipt -> OpReceipt;
  (** [op_alloy_flz::tx_estimated_size_fjord_bytes] *)
  tx_estimated_size_fjord_bytes : Bytes -> Z;
  (** [Decodable2718::decode_2718]; the number stands for the error *)
  decode_2718 : Bytes -> Z + OpTransactionSigned;
  (** [Transaction::effective_tip_per_gas] *)
  effective_tip_per_gas : OpTransactionSigned -> Z -> option Z;
  (** [TransactionConditional::matches_block_attributes] and [is_valid_interop] *)
  matches_block_attributes : TransactionConditional -> BlockConditionalAttributes -> bool;
  is_valid_interop : Z -> Z -> bool;
}.

(** ** What the theorems rely on *)

(** Execution uses gas, and never more than the transaction's own gas limit. *)
Class EvmGas (X : Externals) : Prop :=
  transact_gas env d t r c :
    transact env d t = inr (r, c) -> 0 <= gas_used r <= tx_gas_limit (inner t).

(** The receipt builder handles every type but deposits, and a receipt carries the status of the
    execution and the cumulative gas it was given. *)
Class ReceiptLaws (X : Externals) : Prop := {
  rb_declines_deposits t r c g :
    rb_build_receipt t r c g = None <-> tx_ty t = DepositTx;
  rb_receipt t r c g x :
    rb_build_receipt t r c g = Some x ->
    rcpt_status (as_receipt x) = is_success r /\ rcpt_cumulative_gas_used (as_receipt x) = g;
  rb_deposit d : as_receipt (rb_build_deposit_receipt d) = dr_inner d;
}.

(** A conditional matches a block whose number and timestamp lie in its (inclusive) bounds. *)
Class ConditionalLaws (X : Externals) : Prop :=
  matches_spec c b :
    matches_block_attributes c b = true <->
    (forall m, tc_block_number_min c = Some m -> m <= attr_number b) /\
    (forall m, tc_block_number_max c = Some m -> attr_number b <= m) /\
    (forall m, tc_timestamp_min c = Some m -> m <= attr_timestamp b) /\
    (forall m, tc_timestamp_max c = Some m -> attr_timestamp b <= m).

(** The estimated size of a transaction is a [u64]. *)
Class FlzLaws (X : Externals) : Prop :=
  flz_range b : in_u64 (tx_estimated_size_fjord_bytes b).

(** A transaction that executes pays at least the base fee: "fee is always valid; execution
    succeeded". *)
Class FeeLaws (X : Externals) : Prop :=
  executed_fee env d t r c :
    transact env d t = inr (r, c) -> is_deposit (inner t) = false ->
    is_Some (effective_tip_per_gas (inner t) (env_basefee env)).

(** ** A small chain

    The state is the list of account nonces.  A transaction whose nonce is not the account's is
    invalid, and so is one that does not pay the base fee; one whose input starts with 1 reverts, one whose input starts with 2 breaks the
    database; any other succeeds.  Each uses at most 21000 gas. *)
Module TestChain.

Definition test_db : Type := list (Z * Z).

Fixpoint nonce_of (d : test_db) (a : Z) : Z :=
  match d with
  | [] => 0
  | (b, n) :: d' => if a =? b then n else nonce_of d' a
  end.

Definition test_gas (t : Recovered) : Z :=
  Z.max 0 (Z.min 21000 (tx_gas_limit (inner t))).

Definition test_transact (env : EvmEnv) (d : test_db) (t : Recovered)
    : EvmError + (ExecutionResult * (Z * Z)) :=
  let n := nonce_of d (signer t) in
  if tx_gas_limit (inner t) <? 0 then inl (InvalidTx false 0)
  else if tx_nonce (inner t) <? n then inl (InvalidTx true 0)
  else if n <? tx_nonce (inner t) then inl (InvalidTx false 0)
  else if negb (is_deposit (inner t)) && (tx_max_fee_per_gas (inner t) <? env_basefee env) then
    inl (InvalidTx false 1)
  else
    let c := (signer t, n + 1) in
    match tx_input (inner t) with
    | 1 :: _ => inr (Revert (test_gas t) [], c)
    | 2 :: _ => inl (OtherEvmError 0)
    | _ => inr (Success (test_gas t) [] [], c)
    end.

Definition test_receipt (t : OpTransactionSigned) (r : ExecutionResult) (g : Z)
    : option OpReceipt :=
  let x := mkReceipt (is_success r) g (into_logs r) in
  match tx_ty t with
  | DepositTx => None
  | Eip2930 => Some (REip2930 x)
  | Eip1559 => Some (REip1559 x)
  | Eip7702 => Some (REip7702 x)
  | _ => Some (RLegacy x)
  end.

Definition test_matches (c : TransactionConditional) (b : BlockConditionalAttributes) : bool :=
  negb (is_some_and (tc_block_number_min c) (fun m => attr_number b <? m)) &&
  negb (is_some_and (tc_block_number_max c) (fun m => m <? attr_number b)) &&
  negb (is_some_and (tc_timestamp_min c) (fun m => attr_timestamp b <? m)) &&
  negb (is_some_and (tc_timestamp_max c) (fun m => m <? attr_timestamp b)).

#[export] Instance chain : Externals := {|
  db := test_db;
  changes := Z * Z;
  transact := test_transact;
  commit d c := c :: d;
  load_cache_account d a := inr (Some (mkAccount (nonce_of d a) 0));
  basic_ref d a := inr (Some (mkAccount (nonce_of d a) 0));
  fetch_da_footprint_gas_scalar _ := Some 400;
  rb_build_receipt t r _ g := test_receipt t r g;
  rb_build_deposit_receipt := RDeposit;
  tx_estimated_size_fjord_bytes b := wrap64 (100 + Z.of_nat (length b));
  decode_2718 b :=
    match b with
    | [h; n] => inr (mkTx h Eip1559 (Some (h / 100)) n 21000 10 1 0 [] b)
    | [h; n; i] => inr (mkTx h Eip1559 (Some (h / 100)) n 21000 10 1 0 [i] b)
    | _ => inl 0
    end;
  effective_tip_per_gas t f :=
    if tx_max_fee_per_gas t <? f then None
    else Some (Z.min (tx_max_fee_per_gas t - f) (tx_max_priority_fee_per_gas t));
  matches_block_attributes := test_matches;
  is_valid_interop d t := t <? d;
|}.

#[export] Instance chain_gas : EvmGas chain.
Proof.
  intros env d t r c. simpl. unfold test_transact, test_gas.
  repeat case_match; intros; simplify_eq/=; reflect_bools; lia.
Qed.

#[export] Instance chain_receipts : ReceiptLaws chain.
Proof.
  split; [|intros t r c g x|done]; simpl; unfold test_receipt.
  - intros t r c g. case_match; naive_solver.
  - case_match; naive_solver.
Qed.

Lemma negb_is_some_and {A} (o : option A) (p : A -> bool) :
  negb (is_some_and o p) = true <-> forall m, o = Some m -> p m = false.
Proof. destruct o; simpl; [|naive_solver]. rewrite negb_true_iff. naive_solver. Qed.

#[export] Instance chain_conditional : ConditionalLaws chain.
Proof.
  intros c b. simpl. unfold test_matches. rewrite !andb_true_iff, !negb_is_some_and.
  setoid_rewrite Z.ltb_ge. tauto.
Qed.

#[export] Instance chain_fee : FeeLaws chain.
Proof.
  intros env d t r c. simpl. unfold test_transact. intros H Hd. rewrite Hd in H. simpl in H.
  repeat (case_match; simplify_eq/=; try by eexists).
Qed.

#[export] Instance chain_flz : FlzLaws chain.
Proof. intros b. apply wrap64_range. Qed.

End TestChain.
