(* ===== verification/ExecInfo.v ===== *)
(** * The execution info of a block under construction

    Models [primitives/reth/execution.rs]: [TxnExecutionResult], [ExecutionInfo], its constructor
    and the limit check [is_tx_over_limits].  The well-formedness invariant [wf_info] is the one
    every execution loop of the builder maintains. *)

From S2P Require Import Prelude External.

Inductive TxnExecutionResult : Type :=
| TransactionDALimitExceeded
| BlockDALimitExceeded (total_da_used tx_da_size block_da_limit : Z)
| TransactionGasLimitExceeded (total_gas_used tx_gas_limit block_gas_limit : Z)
| SequencerTransaction
| NonceTooLow
| InteropFailed
| InternalError (detail : Z)
| EvmErrorResult
| SuccessResult
| Reverted
| RevertedAndExcluded
| MaxGasUsageExceeded.

Record ExecutionInfo (Extra : Type) : Type := mkInfo {
  executed_transactions : list OpTransactionSigned;
  executed_senders : list Address;
  receipts : list OpReceipt;
  cumulative_gas_used : Z;
  cumulative_da_bytes_used : Z;
  total_fees : Z;
  extra : Extra;
  da_footprint_scalar : option Z;
  optional_blob_fields : option (option Z * option Z);
}.
Arguments mkInfo {Extra}.
Arguments executed_transactions {Extra} _.
Arguments executed_senders {Extra} _.
Arguments receipts {Extra} _.
Arguments cumulative_gas_used {Extra} _.
Arguments cumulative_da_bytes_used {Extra} _.
Arguments total_fees {Extra} _.
Arguments extra {Extra} _.
Arguments da_footprint_scalar {Extra} _.
Arguments optional_blob_fields {Extra} _.

(** [ExecutionInfo::with_capacity]; the argument is the value [Default::default()] of the extra
    information, the capacity only sizes the allocations. *)
Definition with_capacity {Extra : Type} (default_extra : Extra) : ExecutionInfo Extra :=
  mkInfo [] [] [] 0 0 0 default_extra None None.

Definition set_da_footprint_scalar {Extra} (info : ExecutionInfo Extra) (s : option Z)
    : ExecutionInfo Extra :=
  mkInfo (executed_transactions info) (executed_senders info) (receipts info)
    (cumulative_gas_used info) (cumulative_da_bytes_used info) (total_fees info) (extra info)
    s (optional_blob_fields info).

Definition set_optional_blob_fields {Extra} (info : ExecutionInfo Extra)
    (f : option (option Z * option Z)) : ExecutionInfo Extra :=
  mkInfo (executed_transactions info) (executed_senders info) (receipts info)
    (cumulative_gas_used info) (cumulative_da_bytes_used info) (total_fees info) (extra info)
    (da_footprint_scalar info) f.

Definition set_extra {Extra} (info : ExecutionInfo Extra) (e : Extra) : ExecutionInfo Extra :=
  mkInfo (executed_transactions info) (executed_senders info) (receipts info)
    (cumulative_gas_used info) (cumulative_da_bytes_used info) (total_fees info) e
    (da_footprint_scalar info) (optional_blob_fields info).

(** The updates every execution loop makes for a transaction it includes: [gas] and [da] are the
    new totals. *)
Definition push_executed {Extra} (info : ExecutionInfo Extra) (gas da fees : Z)
    (receipt : OpReceipt) (t : Recovered) : ExecutionInfo Extra :=
  mkInfo (executed_transactions info ++ [inner t]) (executed_senders info ++ [signer t])
    (receipts info ++ [receipt]) gas da fees (extra info)
    (da_footprint_scalar info) (optional_blob_fields info).

(** [ExecutionInfo::is_tx_over_limits].  The data availability total saturates; the gas total is a
    plain [u64] addition. *)
Definition is_tx_over_limits {Extra} (info : ExecutionInfo Extra) (tx_da_size block_gas_limit : Z)
    (tx_data_limit block_data_limit : option Z) (tx_gas_limit : Z)
    (da_footprint_gas_scalar block_da_footprint_limit : option Z)
    : outcome TxnExecutionResult unit :=
  if is_some_and tx_data_limit (fun da_limit => da_limit <? tx_da_size) then
    Err TransactionDALimitExceeded
  else
    let total_da_bytes_used := saturating_add (cumulative_da_bytes_used info) tx_da_size in
    if is_some_and block_data_limit (fun da_limit => da_limit <? total_da_bytes_used) then
      Err (BlockDALimitExceeded (cumulative_da_bytes_used info) tx_da_size
             (unwrap_or block_data_limit 0))
    else
      let footprint :=
        match da_footprint_gas_scalar with
        | Some scalar =>
            let tx_da_footprint := saturating_mul total_da_bytes_used scalar in
            if unwrap_or block_da_footprint_limit block_gas_limit <? tx_da_footprint then
              Err (BlockDALimitExceeded total_da_bytes_used tx_da_size tx_da_footprint)
            else Ok tt
        | None => Ok tt
        end in
      let? _ := footprint in
      if block_gas_limit <? add64 (cumulative_gas_used info) tx_gas_limit then
        Err (TransactionGasLimitExceeded (cumulative_gas_used info) tx_gas_limit block_gas_limit)
      else Ok tt.

(** ** Well-formedness *)

(** The cumulative gas recorded by the receipts. *)
Definition receipt_gas (r : OpReceipt) : Z := rcpt_cumulative_gas_used (as_receipt r).

(** [l] is non-decreasing, starts at or above [lo] and ends at or below [hi]. *)
Fixpoint ascending (lo : Z) (l : list Z) (hi : Z) : Prop :=
  match l with
  | [] => lo <= hi
  | x :: l' => lo <= x /\ ascending x l' hi
  end.

(** The three lists grow together, every total is a [u64], and the receipts' cumulative gas is
    non-decreasing, ending at the gas used so far. *)
Record wf_info {Extra} (info : ExecutionInfo Extra) : Prop := {
  wf_senders : length (executed_senders info) = length (executed_transactions info);
  wf_receipts : length (receipts info) = length (executed_transactions info);
  wf_from : Forall2 (fun t a => tx_from t = Some a)
              (executed_transactions info) (executed_senders info);
  wf_gas : in_u64 (cumulative_gas_used info);
  wf_da : in_u64 (cumulative_da_bytes_used info);
  wf_ascending : ascending 0 (receipt_gas <$> receipts info) (cumulative_gas_used info);
  wf_last : last (receipt_gas <$> receipts info) = Some (cumulative_gas_used info) \/
            receipts info = [] /\ cumulative_gas_used info = 0;
}.

(** *** The limits of one call of an execution loop *)

Record Limits : Type := mkLimits {
  lim_gas : Z;
  lim_da : option Z;
  lim_da_footprint : option Z;
}.

(** The info is within the limits of the call. *)
Definition within_limits {E} (lim : Limits) (info : ExecutionInfo E) : Prop :=
  cumulative_gas_used info <= lim_gas lim /\
  (forall l, lim_da lim = Some l -> cumulative_da_bytes_used info <= l) /\
  (forall sc, da_footprint_scalar info = Some sc ->
     cumulative_da_bytes_used info * sc <= unwrap_or (lim_da_footprint lim) (lim_gas lim)).

(** The limits and the scalar are such that the saturating arithmetic is exact. *)
Definition exact_limits {E} (lim : Limits) (info : ExecutionInfo E) : Prop :=
  (forall l, lim_da lim = Some l -> l < U64_MAX) /\
  (forall sc, da_footprint_scalar info = Some sc ->
     0 < sc /\ unwrap_or (lim_da_footprint lim) (lim_gas lim) < U64_MAX).

(** The info of a block with one transaction of 21000 gas. *)
Definition sample_info : ExecutionInfo unit :=
  push_executed (with_capacity tt) 21000 0 0 (RLegacy (mkReceipt true 21000 []))
    (mkRecovered (mkTx 1 Legacy (Some 7) 0 21000 0 0 0 [] []) 7).

(** ** Lemmas *)

Lemma ascending_app lo l hi x :
  ascending lo l hi -> hi <= x -> ascending lo (l ++ [x]) x.
Proof.
  revert lo. induction l as [|y l IH]; intros lo; simpl; [lia|]. naive_solver.
Qed.

Lemma ascending_le lo l hi : ascending lo l hi -> lo <= hi.
Proof. revert lo. induction l as [|x l IH]; intros lo; simpl; [done|]. intros [? ?%IH]. lia. Qed.

Lemma ascending_weaken lo l hi hi' : ascending lo l hi -> hi <= hi' -> ascending lo l hi'.
Proof. revert lo. induction l; intros lo; simpl; [lia|]. naive_solver. Qed.

Lemma wf_with_capacity {Extra} (e : Extra) : wf_info (with_capacity e).
Proof. split; simpl; try done. by right. Qed.

Lemma wf_push_executed {Extra} (info : ExecutionInfo Extra) gas da fees r t :
  wf_info info -> cumulative_gas_used info <= gas -> in_u64 gas -> in_u64 da ->
  receipt_gas r = gas -> tx_from (inner t) = Some (signer t) ->
  wf_info (push_executed info gas da fees r t).
Proof.
  intros [] Hle Hg Hd Hr Hf. split; simpl; rewrite ?length_app; simpl; try done; try lia.
  - apply Forall2_app; [done|]. by constructor.
  - rewrite fmap_app. simpl. rewrite <- Hr. eapply ascending_app; [done|]. lia.
  - left. rewrite fmap_app. simpl. rewrite last_snoc. by subst.
Qed.

Lemma wf_set_da_footprint_scalar {Extra} (info : ExecutionInfo Extra) s :
  wf_info info -> wf_info (set_da_footprint_scalar info s).
Proof. intros []. by split. Qed.

Lemma wf_set_extra {Extra} (info : ExecutionInfo Extra) e :
  wf_info info -> wf_info (set_extra info e).
Proof. intros []. by split. Qed.

#[export] Hint Resolve wf_with_capacity wf_push_executed wf_set_da_footprint_scalar wf_set_extra
  : builder_wf.

Section Limits.
Context {Extra : Type} (info : ExecutionInfo Extra).
Context (tx_da_size block_gas_limit : Z) (tx_data_limit block_data_limit : option Z).
Context (tx_gas_limit : Z) (scalar block_da_footprint_limit : option Z).

Lemma is_tx_over_limits_not_Panic :
  is_tx_over_limits info tx_da_size block_gas_limit tx_data_limit block_data_limit tx_gas_limit
    scalar block_da_footprint_limit <> Panic.
Proof. unfold is_tx_over_limits, bind. repeat case_match; congruence. Qed.

(** Acceptance is exactly the conjunction of the four limits, as the arithmetic computes them. *)
Lemma is_tx_over_limits_Ok :
  is_tx_over_limits info tx_da_size block_gas_limit tx_data_limit block_data_limit tx_gas_limit
    scalar block_da_footprint_limit = Ok tt <->
  (forall l, tx_data_limit = Some l -> tx_da_size <= l) /\
  (forall l, block_data_limit = Some l ->
     saturating_add (cumulative_da_bytes_used info) tx_da_size <= l) /\
  (forall s, scalar = Some s ->
     saturating_mul (saturating_add (cumulative_da_bytes_used info) tx_da_size) s
       <= unwrap_or block_da_footprint_limit block_gas_limit) /\
  add64 (cumulative_gas_used info) tx_gas_limit <= block_gas_limit.
Proof.
  unfold is_tx_over_limits, is_some_and, bind. split.
  - intros H. repeat case_match; simplify_eq; reflect_bools; split_and!; intros; simplify_eq; lia.
  - intros (H1 & H2 & H3 & H4).
    assert (Hle : forall a b, a <= b -> (b <? a) = false) by (intros; by apply Z.ltb_ge).
    destruct tx_data_limit as [l1|]; [rewrite (Hle _ _ (H1 _ eq_refl))|];
    (destruct block_data_limit as [l2|]; [rewrite (Hle _ _ (H2 _ eq_refl))|]);
    (destruct scalar as [s|]; [rewrite (Hle _ _ (H3 _ eq_refl))|]);
    by rewrite (Hle _ _ H4).
Qed.

End Limits.

(** Pushing an accepted transaction, in exact arithmetic: [bound] is what the gas totals stay below,
    and adding the gas limit of the transaction to it does not overflow. *)
Lemma push_exact {Extra} lim (info : ExecutionInfo Extra) da tx_da tx_gas used fees r t bound :
  is_tx_over_limits info da (lim_gas lim) tx_da (lim_da lim) tx_gas (da_footprint_scalar info)
    (lim_da_footprint lim) = Ok tt ->
  wf_info info -> in_u64 da -> lim_gas lim <= bound -> cumulative_gas_used info <= bound ->
  bound + tx_gas < U64_MOD -> 0 <= used <= tx_gas ->
  receipt_gas r = add64 (cumulative_gas_used info) used -> tx_from (inner t) = Some (signer t) ->
  let info' := push_executed info (add64 (cumulative_gas_used info) used)
                 (add64 (cumulative_da_bytes_used info) da) fees r t in
  wf_info info' ∧ cumulative_gas_used info' = cumulative_gas_used info + used ∧
  cumulative_gas_used info' <= lim_gas lim ∧
  (exact_limits lim info -> within_limits lim info').
Proof.
  intros Hl Hw Hda Hb Hc Hnw Hg Hr Hf. simpl. pose proof (wf_gas _ Hw) as Hwg.
  pose proof (wf_da _ Hw) as Hwd. unfold in_u64 in *.
  apply is_tx_over_limits_Ok in Hl as (_ & Hbda & Hfp & Hgas).
  rewrite add64_exact in Hgas by lia.
  assert (Hadd : add64 (cumulative_gas_used info) used = cumulative_gas_used info + used)
    by (apply add64_exact; lia).
  split_and!; [|done|rewrite Hadd; lia|].
  - apply wf_push_executed; [done|lia|unfold in_u64; lia|apply add64_range|done..].
  - intros [Hel Hes]. unfold within_limits. simpl. rewrite Hadd.
    assert (Hda64 : saturating_add (cumulative_da_bytes_used info) da < U64_MAX ->
      add64 (cumulative_da_bytes_used info) da
        = saturating_add (cumulative_da_bytes_used info) da).
    { unfold saturating_add, U64_MAX, U64_MOD in *. intros Hs.
      rewrite add64_exact by (unfold U64_MOD; lia). lia. }
    split_and!; [lia| |].
    + intros x Hx. specialize (Hbda x Hx). specialize (Hel x Hx). rewrite Hda64 by lia. done.
    + intros sc Hsc. specialize (Hfp sc Hsc). destruct (Hes sc Hsc) as [Hp Hlt].
      apply saturating_mul_le in Hfp; [|done].
      rewrite Hda64; [done|]. unfold saturating_add, U64_MAX in *. nia.
Qed.

(** ** Properties *)

(** The limit check is sound: when it accepts a transaction that then uses at most its gas
    limit, the block's new totals respect the block gas limit, the block data availability limit
    and the data availability footprint limit.  The gas total must not wrap: the block gas limit
    and the transaction's gas limit together fit a [u64]. *)
Theorem is_tx_over_limits_sound {Extra} (info : ExecutionInfo Extra) da gas_limit tx_da block_da
    tx_gas scalar footprint used :
  is_tx_over_limits info da gas_limit tx_da block_da tx_gas scalar footprint = Ok tt ->
  wf_info info -> 0 <= da ->
  cumulative_gas_used info + tx_gas < U64_MOD -> 0 <= used <= tx_gas ->
  cumulative_gas_used info + used <= gas_limit /\
  (forall l, block_da = Some l -> l < U64_MAX -> cumulative_da_bytes_used info + da <= l) /\
  (forall s, scalar = Some s -> 0 < s ->
     unwrap_or footprint gas_limit < U64_MAX ->
     (cumulative_da_bytes_used info + da) * s <= unwrap_or footprint gas_limit).
Proof.
  intros Hok [] Hda Hnw Hu. unfold in_u64 in *.
  apply is_tx_over_limits_Ok in Hok as (_ & Hbda & Hfp & Hgas).
  rewrite add64_exact in Hgas by lia. split_and!; [lia| |].
  - intros l Hl Hlt. apply saturating_add_le; [done|]. by apply Hbda.
  - intros s Hs Hpos Hlt. specialize (Hfp s Hs). apply saturating_mul_le in Hfp; [|done].
    unfold saturating_add, U64_MAX, U64_MOD in *.
    destruct (Z.min_spec (cumulative_da_bytes_used info + da) (2 ^ 64 - 1)) as [[? Hm]|[? Hm]];
      rewrite Hm in Hfp; nia.
Qed.

Lemma is_tx_over_limits_sound_witness :
  cumulative_gas_used (with_capacity tt) + 21000 <= 30000000 /\
  (forall l, Some 1000 = Some l -> l < U64_MAX ->
     cumulative_da_bytes_used (with_capacity tt) + 120 <= l) /\
  (forall s, Some 400 = Some s -> 0 < s -> unwrap_or (Some 60000) 30000000 < U64_MAX ->
     (cumulative_da_bytes_used (with_capacity tt) + 120) * s <= unwrap_or (Some 60000) 30000000).
Proof.
  apply (is_tx_over_limits_sound (with_capacity tt) 120 30000000 (Some 200) (Some 1000) 21000
           (Some 400) (Some 60000) 21000).
  - reflexivity.
  - apply wf_with_capacity.
  - lia.
  - reflexivity.
  - lia.
Defined.

(** The gas part of the check is an unchecked [u64] addition: a transaction whose gas limit
    makes the sum wrap passes it although its gas limit alone exceeds the block's. *)
Theorem is_tx_over_limits_wraps {Extra} (info : ExecutionInfo Extra) gas_limit tx_gas :
  wf_info info -> in_u64 tx_gas -> U64_MOD <= cumulative_gas_used info + tx_gas ->
  cumulative_gas_used info <= gas_limit ->
  is_tx_over_limits info 0 gas_limit None None tx_gas None None = Ok tt.
Proof.
  intros [] Ht Hw Hle. unfold in_u64 in *. apply is_tx_over_limits_Ok.
  split_and!; [done..|]. unfold add64, wrap64.
  rewrite <- (Z.mod_unique (cumulative_gas_used info + tx_gas) U64_MOD 1
                (cumulative_gas_used info + tx_gas - U64_MOD)); lia.
Qed.

(** 21000 gas used, a block limit of 30 million and a transaction asking for [2 ^ 64 - 1]. *)
Lemma is_tx_over_limits_wraps_witness :
  is_tx_over_limits sample_info 0 30000000 None None U64_MAX None None = Ok tt /\
  is_tx_over_limits (with_capacity tt) 0 30000000 None None U64_MAX None None
    = Err (TransactionGasLimitExceeded 0 U64_MAX 30000000).
Proof.
  split; [|reflexivity].
  apply (is_tx_over_limits_wraps sample_info).
  - apply wf_push_executed; simpl; try done. apply wf_with_capacity.
  - split; [vm_compute; discriminate|reflexivity].
  - vm_compute. discriminate.
  - simpl. lia.
Defined.
