(* ===== verification/GasLimiter.v ===== *)
(** * The per-address gas limiter

    Models [gas_limiter/mod.rs], [args.rs] and [error.rs]: a token bucket per sender, consumed when
    a transaction was simulated and refilled once per block.  The shared [DashMap] is a [gmap]
    threaded through the operations; [Operations] runs a sequence of them, which is how the builder
    uses the limiter, and the theorems bound what an address can obtain over such a sequence. *)

From S2P Require Import Prelude.

Record GasLimiterArgs : Type := mkGasLimiterArgs {
  gas_limiter_enabled : bool;
  max_gas_per_address : Z;
  refill_rate_per_block : Z;
  cleanup_interval : Z;
}.

Inductive GasLimitError : Type :=
| AddressLimitExceeded (address requested available : Z).

Record TokenBucket : Type := mkBucket { capacity : Z; available : Z }.

(** [AddressGasLimiterInner], without the metrics. *)
Record AddressGasLimiterInner : Type := mkLimiterInner {
  limiter_config : GasLimiterArgs;
  address_buckets : gmap Z TokenBucket;
}.

Record AddressGasLimiter : Type := mkLimiter { limiter_inner : option AddressGasLimiterInner }.

(** [TokenBucket::new] *)
Definition new_bucket (cap : Z) : TokenBucket := mkBucket cap cap.

(** [AddressGasLimiterInner::try_new] *)
Definition try_new (config : GasLimiterArgs) : option AddressGasLimiterInner :=
  if negb (gas_limiter_enabled config) then None
  else Some (mkLimiterInner config ∅).

(** [AddressGasLimiter::new] *)
Definition new_limiter (config : GasLimiterArgs) : AddressGasLimiter := mkLimiter (try_new config).

(** [AddressGasLimiterInner::consume_gas_inner]: the answer says whether a bucket was created; the
    bucket is created even when the request is refused. *)
Definition consume_gas_inner (l : AddressGasLimiterInner) (address gas_requested : Z)
    : outcome GasLimitError bool * AddressGasLimiterInner :=
  let found := address_buckets l !! address in
  let created_new_bucket := match found with Some _ => false | None => true end in
  let bucket :=
    match found with
    | Some b => b
    | None => new_bucket (max_gas_per_address (limiter_config l))
    end in
  if available bucket <? gas_requested then
    (Err (AddressLimitExceeded address gas_requested (available bucket)),
     mkLimiterInner (limiter_config l) (<[address := bucket]> (address_buckets l)))
  else
    (Ok created_new_bucket,
     mkLimiterInner (limiter_config l)
       (<[address := mkBucket (capacity bucket) (sub64 (available bucket) gas_requested)]>
          (address_buckets l))).

(** [AddressGasLimiter::consume_gas] *)
Definition consume_gas (l : AddressGasLimiter) (address gas_requested : Z)
    : outcome GasLimitError unit * AddressGasLimiter :=
  match limiter_inner l with
  | Some i =>
      let '(r, i') := consume_gas_inner i address gas_requested in
      (let? _ := r in Ok tt, mkLimiter (Some i'))
  | None => (Ok tt, l)
  end.

(** [u64::is_multiple_of] *)
Definition is_multiple_of (n k : Z) : bool :=
  if k =? 0 then n =? 0 else n mod k =? 0.

Definition refill (config : GasLimiterArgs) (b : TokenBucket) : TokenBucket :=
  mkBucket (capacity b)
    (Z.min (capacity b) (add64 (available b) (refill_rate_per_block config))).

(** The closure given to [retain] when stale buckets are cleaned up. *)
Definition retained (b : TokenBucket) : bool := available b <=? capacity b.

(** [AddressGasLimiterInner::refresh_inner]: the number of removed addresses and the new state. *)
Definition refresh_inner (l : AddressGasLimiterInner) (block_number : Z)
    : Z * AddressGasLimiterInner :=
  let active_addresses := Z.of_nat (size (address_buckets l)) in
  let refilled := refill (limiter_config l) <$> address_buckets l in
  let kept :=
    if is_multiple_of block_number (cleanup_interval (limiter_config l))
    then filter (fun '(_, b) => retained b = true) refilled
    else refilled in
  (active_addresses - Z.of_nat (size kept), mkLimiterInner (limiter_config l) kept).

(** [AddressGasLimiter::refresh] *)
Definition refresh (l : AddressGasLimiter) (block_number : Z) : AddressGasLimiter :=
  match limiter_inner l with
  | Some i => mkLimiter (Some (snd (refresh_inner i block_number)))
  | None => l
  end.

(** ** Sequences of operations *)
Module Operations.

Inductive op : Type :=
| Consume (address gas : Z)
| Refresh (block_number : Z).

(** The state after one operation and the gas it granted to [who]. *)
Definition step (who : Z) (o : op) (l : AddressGasLimiter) : Z * AddressGasLimiter :=
  match o with
  | Consume a g =>
      match consume_gas l a g with
      | (Ok _, l') => (if a =? who then g else 0, l')
      | (_, l') => (0, l')
      end
  | Refresh n => (0, refresh l n)
  end.

Fixpoint run (who : Z) (ops : list op) (l : AddressGasLimiter) : Z * AddressGasLimiter :=
  match ops with
  | [] => (0, l)
  | o :: ops' =>
      let '(g, l') := step who o l in
      let '(g', l'') := run who ops' l' in
      (g + g', l'')
  end.

Definition is_refresh (o : op) : bool :=
  match o with Refresh _ => true | Consume _ _ => false end.

Definition refreshes (ops : list op) : Z := Z.of_nat (length (List.filter is_refresh ops)).

End Operations.

(** ** Invariant *)

Definition wf_args (c : GasLimiterArgs) : Prop :=
  in_u64 (max_gas_per_address c) /\ in_u64 (refill_rate_per_block c).

Definition wf_bucket (c : GasLimiterArgs) (b : TokenBucket) : Prop :=
  capacity b = max_gas_per_address c /\ 0 <= available b <= capacity b.

Definition wf_inner (i : AddressGasLimiterInner) : Prop :=
  wf_args (limiter_config i) /\
  map_Forall (fun _ b => wf_bucket (limiter_config i) b) (address_buckets i).

Definition wf_limiter (l : AddressGasLimiter) : Prop :=
  match limiter_inner l with Some i => wf_inner i | None => True end.

(** What an address can spend now. *)
Definition balance (i : AddressGasLimiterInner) (a : Z) : Z :=
  match address_buckets i !! a with
  | Some b => available b
  | None => max_gas_per_address (limiter_config i)
  end.

(** A configuration and a sequence of operations the witnesses run. *)
Definition sample_args : GasLimiterArgs := mkGasLimiterArgs true 1000 200 10.
Definition sample_ops : list Operations.op :=
  [Operations.Consume 1 1000; Operations.Consume 1 1; Operations.Refresh 1; Operations.Consume 1 200; Operations.Consume 2 1500; Operations.Consume 1 1].

(** ** Lemmas *)

Lemma wf_new_bucket c : wf_args c -> wf_bucket c (new_bucket (max_gas_per_address c)).
Proof. unfold wf_args, wf_bucket, in_u64. simpl. lia. Qed.

Lemma wf_refill c b : wf_bucket c b -> wf_bucket c (refill c b).
Proof.
  unfold wf_bucket, refill. simpl. intros [Hc Hb].
  destruct (add64_range (available b) (refill_rate_per_block c)). lia.
Qed.

Lemma wf_retained c b : wf_bucket c b -> retained b = true.
Proof. unfold wf_bucket, retained. intros. apply Z.leb_le. lia. Qed.

Lemma wf_lookup i a b : wf_inner i -> address_buckets i !! a = Some b -> wf_bucket (limiter_config i) b.
Proof. intros [_ H] Hl. exact (H a b Hl). Qed.

Lemma balance_nonneg i a : wf_inner i -> 0 <= balance i a.
Proof.
  intros [[[? ?] _] Hall]. unfold balance. destruct (_ !! a) as [b|] eqn:E; [|done].
  destruct (Hall a b E). lia.
Qed.

Lemma balance_le i a : wf_inner i -> balance i a <= max_gas_per_address (limiter_config i).
Proof.
  intros [_ Hall]. unfold balance. destruct (_ !! a) as [b|] eqn:E; [|done].
  destruct (Hall a b E). lia.
Qed.

(** The bucket [consume_gas_inner] works on is well formed and holds the address's balance. *)
Lemma wf_found i a :
  wf_inner i ->
  wf_bucket (limiter_config i)
    (match address_buckets i !! a with
     | Some b => b | None => new_bucket (max_gas_per_address (limiter_config i)) end).
Proof.
  intros H. destruct (_ !! _) eqn:E; [by eapply wf_lookup|]. apply wf_new_bucket, H.
Qed.

Lemma consume_gas_inner_spec i a g :
  wf_inner i -> 0 <= g ->
  exists i', wf_inner i' /\ limiter_config i' = limiter_config i /\
    (forall b, b <> a -> balance i' b = balance i b) /\
    (g <= balance i a -> exists n, consume_gas_inner i a g = (Ok n, i') /\
                                   balance i' a = balance i a - g) /\
    (balance i a < g ->
       consume_gas_inner i a g = (Err (AddressLimitExceeded a g (balance i a)), i') /\
       balance i' a = balance i a).
Proof.
  intros Hwf Hg. pose proof (wf_found i a Hwf) as [Hcap Hav]. destruct Hwf as [Hargs Hall].
  unfold consume_gas_inner, balance.
  set (bk := match address_buckets i !! a with Some b => b | None => _ end) in *.
  assert (Hbal : available bk =
    match address_buckets i !! a with
    | Some b => available b | None => max_gas_per_address (limiter_config i) end)
    by (unfold bk; by destruct (address_buckets i !! a)).
  rewrite <- Hbal.
  exists (snd (consume_gas_inner i a g)). unfold consume_gas_inner. fold bk.
  destruct (Z.ltb_spec (available bk) g) as [Hlt|Hge]; simpl.
  - split_and!; [split; simpl; [done|]| done | | |].
    + apply map_Forall_insert_2; [by split|done].
    + intros b Hne. by rewrite lookup_insert_ne.
    + intros. lia.
    + intros _. by rewrite lookup_insert_eq.
  - assert (Hsub : sub64 (available bk) g = available bk - g).
    { apply wrap64_small. unfold wf_args, in_u64 in *. lia. }
    rewrite Hsub. split_and!; [split; simpl; [done|]| done | | |].
    + apply map_Forall_insert_2; [|done]. split; simpl; [done|lia].
    + intros b Hne. by rewrite lookup_insert_ne.
    + intros _. eexists. split; [done|]. by rewrite lookup_insert_eq.
    + intros. lia.
Qed.

(** On a well-formed limiter the clean-up keeps every bucket. *)
Lemma refresh_inner_keeps i n :
  wf_inner i ->
  refresh_inner i n =
  (0, mkLimiterInner (limiter_config i) (refill (limiter_config i) <$> address_buckets i)).
Proof.
  intros [Hargs Hall]. unfold refresh_inner.
  assert (Hf : filter (fun '(_, b) => retained b = true)
                 (refill (limiter_config i) <$> address_buckets i) =
               refill (limiter_config i) <$> address_buckets i).
  { apply map_filter_id. intros k b Hb. apply lookup_fmap_Some in Hb as (b' & <- & Hb').
    eapply wf_retained, wf_refill, Hall, Hb'. }
  destruct (is_multiple_of _ _); rewrite ?Hf, map_size_fmap, Z.sub_diag; done.
Qed.

Lemma refresh_inner_spec i n :
  wf_inner i ->
  exists i', snd (refresh_inner i n) = i' /\ wf_inner i' /\ limiter_config i' = limiter_config i /\
    forall a, balance i' a <= balance i a + refill_rate_per_block (limiter_config i).
Proof.
  intros Hwf. rewrite refresh_inner_keeps by done. destruct Hwf as [Hargs Hall].
  eexists. split; [done|]. split_and!; [split; [done|]|done|]; simpl.
  - apply map_Forall_fmap. intros a b Hb. simpl. apply wf_refill, (Hall a b Hb).
  - intros a. unfold balance. simpl. rewrite lookup_fmap.
    destruct (_ !! a) as [b|] eqn:E; simpl.
    + pose proof (Hall a b E) as [? ?].
      assert (add64 (available b) (refill_rate_per_block (limiter_config i)) <=
              available b + refill_rate_per_block (limiter_config i)); [|lia].
      apply Z.mod_le; [|done]. unfold wf_args, in_u64 in *. lia.
    + unfold wf_args, in_u64 in *. lia.
Qed.

(** A refresh gives back the refill rate, up to the capacity. *)
Lemma refresh_inner_gain i n a :
  wf_inner i -> max_gas_per_address (limiter_config i) + refill_rate_per_block (limiter_config i)
                < U64_MOD ->
  balance (snd (refresh_inner i n)) a =
  Z.min (max_gas_per_address (limiter_config i))
        (balance i a + refill_rate_per_block (limiter_config i)).
Proof.
  intros Hwf Hno. rewrite refresh_inner_keeps by done. destruct Hwf as [[? ?] Hall].
  unfold balance. simpl. rewrite lookup_fmap. unfold in_u64 in *.
  destruct (_ !! a) as [b|] eqn:E; simpl.
  - pose proof (Hall a b E) as [? ?]. rewrite add64_exact; lia.
  - lia.
Qed.

Import Operations.

#[local] Opaque refresh_inner consume_gas_inner.

Lemma step_wf who o l :
  (match o with Consume _ g => 0 <= g | Refresh _ => True end) ->
  wf_limiter l -> wf_limiter (snd (step who o l)).
Proof.
  unfold wf_limiter, step, consume_gas, refresh. destruct l as [[i|]]; simpl.
  2: { destruct o; simpl; intros; by repeat case_match. }
  destruct o as [a g|n]; intros Hg Hwf; simpl.
  - destruct (consume_gas_inner_spec i a g Hwf Hg) as (i' & Hi' & _ & _ & Hok & Herr).
    destruct (Z.le_gt_cases g (balance i a)) as [Hle|Hgt].
    + destruct (Hok Hle) as (b & -> & _). done.
    + destruct (Herr Hgt) as (-> & _). done.
  - destruct (refresh_inner_spec i n Hwf) as (i' & <- & Hi' & _). exact Hi'.
Qed.

(** The potential argument: what was granted plus what is left never exceeds what was left plus
    the refills. *)
Lemma run_potential who ops i :
  wf_inner i -> Forall (fun o => match o with Consume _ g => 0 <= g | Refresh _ => True end) ops ->
  exists i', snd (run who ops (mkLimiter (Some i))) = mkLimiter (Some i') /\ wf_inner i' /\
    limiter_config i' = limiter_config i /\
    fst (run who ops (mkLimiter (Some i))) + balance i' who
      <= balance i who + refreshes ops * refill_rate_per_block (limiter_config i).
Proof.
  revert i. induction ops as [|o ops IH]; intros i Hwf Hops.
  { exists i. split_and!; [done..|]. unfold refreshes. simpl. lia. }
  apply Forall_cons in Hops as [Ho Hops]. simpl.
  destruct o as [a g|n]; simpl.
  - unfold consume_gas. simpl.
    destruct (consume_gas_inner_spec i a g Hwf Ho) as (i1 & Hi1 & Hc1 & Hother & Hok & Herr).
    destruct (IH i1 Hi1 Hops) as (i' & Hrun & Hi' & Hc' & Hpot).
    destruct (Z.le_gt_cases g (balance i a)) as [Hle|Hgt].
    + destruct (Hok Hle) as (b & -> & Hbal). simpl.
      destruct (run who ops _) as [g' l''] eqn:E. simpl in *. exists i'.
      split_and!; [done|done|congruence|]. rewrite Hc1 in Hpot.
      destruct (Z.eqb_spec a who) as [->|Hne]; [|rewrite Hother in Hpot by done];
        change (refreshes (Consume _ g :: ops)) with (refreshes ops); lia.
    + destruct (Herr Hgt) as (-> & Hbal). simpl.
      destruct (run who ops _) as [g' l''] eqn:E. simpl in *. exists i'.
      split_and!; [done|done|congruence|]. rewrite Hc1 in Hpot.
      destruct (Z.eqb_spec a who) as [->|Hne]; [|rewrite Hother in Hpot by done];
        change (refreshes (Consume _ g :: ops)) with (refreshes ops); lia.
  - unfold refresh. simpl.
    destruct (refresh_inner_spec i n Hwf) as (i1 & Heq & Hi1 & Hc1 & Hgain). rewrite Heq.
    destruct (IH i1 Hi1 Hops) as (i' & Hrun & Hi' & Hc' & Hpot).
    destruct (run who ops _) as [g' l''] eqn:E. simpl in *. exists i'.
    split_and!; [done|done|congruence|]. rewrite Hc1 in Hpot. specialize (Hgain who).
    unfold refreshes in *. simpl. rewrite Nat2Z.inj_succ. nia.
Qed.

(** ** Properties *)

(** Every operation preserves the limiter's invariant: each bucket's capacity is the configured
    maximum and its available gas lies between zero and that capacity, whatever the configured
    refill rate (the addition of the refill may wrap; the minimum with the capacity bounds it). *)
Theorem limiter_invariant who ops config :
  wf_args config ->
  Forall (fun o => match o with Consume _ g => 0 <= g | Refresh _ => True end) ops ->
  wf_limiter (snd (run who ops (new_limiter config))).
Proof.
  intros Hargs Hops.
  assert (Hinit : wf_limiter (new_limiter config)).
  { unfold wf_limiter, new_limiter, try_new. simpl. destruct (gas_limiter_enabled config); simpl; [|done].
    split; [exact Hargs|]. apply map_Forall_empty. }
  revert Hinit. generalize (new_limiter config).
  induction Hops as [|o ops Ho Hops IH]; intros l Hl; simpl; [done|].
  pose proof (step_wf who o l Ho Hl) as Hl'. destruct (step who o l) as [g l'].
  specialize (IH l' Hl'). by destruct (run who ops l').
Qed.

#[local] Transparent refresh_inner consume_gas_inner.

Lemma limiter_invariant_witness : wf_limiter (snd (run 1 sample_ops (new_limiter sample_args))).
Proof. apply limiter_invariant; repeat constructor; simpl; lia. Defined.

(** C36: rate limiting works: over any sequence of requests and block refreshes, the total gas
    granted to one address is at most the bucket capacity plus the refill rate for each refresh. *)
Theorem granted_gas_bounded who ops config :
  wf_args config -> gas_limiter_enabled config = true ->
  Forall (fun o => match o with Consume _ g => 0 <= g | Refresh _ => True end) ops ->
  fst (run who ops (new_limiter config))
    <= max_gas_per_address config + refreshes ops * refill_rate_per_block config.
Proof.
  intros Hargs Hen Hops. unfold new_limiter, try_new. rewrite Hen. simpl.
  set (i := mkLimiterInner config ∅).
  assert (Hwf : wf_inner i) by (split; [done|apply map_Forall_empty]).
  destruct (run_potential who ops i Hwf Hops) as (i' & _ & Hwf' & _ & Hpot).
  assert (Hb : balance i who = max_gas_per_address config)
    by (unfold balance, i; simpl; by rewrite lookup_empty).
  pose proof (balance_nonneg i' who Hwf'). rewrite Hb in Hpot. simpl in Hpot. lia.
Qed.

Lemma granted_gas_bounded_witness :
  fst (run 1 sample_ops (new_limiter sample_args)) = 1200 ∧
  fst (run 1 sample_ops (new_limiter sample_args)) <= 1000 + 1 * 200.
Proof.
  split; [reflexivity|].
  apply (granted_gas_bounded 1 sample_ops sample_args); repeat constructor; simpl; lia.
Defined.

(** A request is granted exactly when it does not exceed the address's balance; a granted
    request lowers that balance by the amount and a refused one reports the balance and leaves it
    unchanged; other addresses are never affected. *)
Theorem consume_gas_functional i a g :
  wf_inner i -> 0 <= g ->
  (is_ok (fst (consume_gas (mkLimiter (Some i)) a g)) = true <-> g <= balance i a) /\
  (fst (consume_gas (mkLimiter (Some i)) a g) =
     if g <=? balance i a then Ok tt else Err (AddressLimitExceeded a g (balance i a))) /\
  exists i', snd (consume_gas (mkLimiter (Some i)) a g) = mkLimiter (Some i') /\
    balance i' a = (if g <=? balance i a then balance i a - g else balance i a) /\
    forall b, b <> a -> balance i' b = balance i b.
Proof.
  intros Hwf Hg. unfold consume_gas. simpl.
  destruct (consume_gas_inner_spec i a g Hwf Hg) as (i' & _ & _ & Hother & Hok & Herr).
  destruct (Z.leb_spec g (balance i a)) as [Hle|Hgt].
  - destruct (Hok Hle) as (n & -> & Hb). simpl. split_and!; [naive_solver|done|]. by exists i'.
  - destruct (Herr Hgt) as (-> & Hb). simpl. split_and!; [naive_solver lia|done|]. by exists i'.
Qed.

Lemma consume_gas_functional_witness :
  fst (consume_gas (new_limiter sample_args) 7 1500) = Err (AddressLimitExceeded 7 1500 1000).
Proof.
  destruct (consume_gas_functional (mkLimiterInner sample_args ∅) 7 1500) as (_ & H & _).
  - split; [repeat constructor; simpl; lia|apply map_Forall_empty].
  - lia.
  - exact H.
Defined.

#[local] Opaque refresh_inner consume_gas_inner.

(** Refills accumulate: an address that asks for nothing gets back [k] times the refill rate
    over [k] refreshes, up to its capacity, so every request within the capacity is eventually
    granted; this needs that the capacity plus one refill fits a [u64]. *)
Theorem refill_restores who i (blocks : list Z) :
  wf_inner i ->
  max_gas_per_address (limiter_config i) + refill_rate_per_block (limiter_config i) < U64_MOD ->
  exists i', snd (run who (Refresh <$> blocks) (mkLimiter (Some i))) = mkLimiter (Some i') /\
    balance i' who =
    Z.min (max_gas_per_address (limiter_config i))
          (balance i who + Z.of_nat (length blocks) * refill_rate_per_block (limiter_config i)).
Proof.
  revert i. induction blocks as [|n blocks IH]; intros i Hwf Hno.
  - exists i. split; [done|]. simpl. pose proof (balance_le i who Hwf). lia.
  - destruct (refresh_inner_spec i n Hwf) as (i1 & Heq & Hi1 & Hc1 & _).
    pose proof (refresh_inner_gain i n who Hwf Hno) as Hg. rewrite Heq in Hg.
    destruct (IH i1 Hi1 ltac:(by rewrite Hc1)) as (i' & Hrun & Hbal).
    exists i'. rewrite fmap_cons. cbn [run step refresh limiter_inner]. rewrite Heq.
    destruct (run who (Refresh <$> blocks) _) as [g l] eqn:E. split; [exact Hrun|].
    rewrite Hbal, Hc1, Hg. cbn [length]. rewrite Nat2Z.inj_succ. destruct Hwf as [[[? ?] [? ?]] _]. nia.
Qed.

Lemma refill_restores_witness :
  exists i', snd (run 1 (Refresh <$> [1; 2; 3])
               (mkLimiter (Some (mkLimiterInner sample_args {[ 1 := mkBucket 1000 0 ]})))) =
             mkLimiter (Some i') /\ balance i' 1 = 600.
Proof.
  destruct (refill_restores 1 (mkLimiterInner sample_args {[ 1 := mkBucket 1000 0 ]}) [1; 2; 3])
    as (i' & H1 & H2).
  - split; [repeat constructor; simpl; lia|]. apply map_Forall_singleton. split; simpl; lia.
  - reflexivity.
  - exists i'. split; [exact H1|exact H2].
Defined.

#[local] Transparent refresh_inner consume_gas_inner.

(** The periodic clean-up removes nothing: a refresh, whatever the block number and the clean-up
    interval, reports zero removed addresses and keeps the bucket of every address, full buckets
    included, so the map only grows. *)
Theorem cleanup_removes_nothing i block_number :
  wf_inner i ->
  fst (refresh_inner i block_number) = 0 /\
  dom (address_buckets (snd (refresh_inner i block_number))) = dom (address_buckets i).
Proof.
  intros Hwf. rewrite refresh_inner_keeps by done. simpl. split; [done|]. apply dom_fmap_L.
Qed.

(** The bucket of address 1 is full, and block 100 is a clean-up block. *)
Lemma cleanup_removes_nothing_witness :
  address_buckets (snd (refresh_inner (mkLimiterInner sample_args {[ 1 := mkBucket 1000 1000 ]})
                          100)) !! 1 = Some (mkBucket 1000 1000) /\
  fst (refresh_inner (mkLimiterInner sample_args {[ 1 := mkBucket 1000 1000 ]}) 100) = 0.
Proof.
  split; [reflexivity|].
  apply (cleanup_removes_nothing (mkLimiterInner sample_args {[ 1 := mkBucket 1000 1000 ]}) 100).
  split; [repeat constructor; simpl; lia|]. apply map_Forall_singleton. split; simpl; lia.
Defined.
