(* ===== verification/Bundle.v ===== *)
(** * Bundles and their block conditions

    Models [primitives/bundle.rs]: the bundle a searcher submits, and [Bundle::conditional], which
    validates its block and flashblock ranges and fills in the default upper bound. *)

From S2P Require Import Prelude External.

Definition MAX_BLOCK_RANGE_BLOCKS : Z := 10.

Record Bundle : Type := mkBundle {
  bundle_transactions : list Bytes;
  reverting_hashes : option (list B256);
  block_number_min : option Z;
  block_number_max : option Z;
  bundle_flashblock_number_min : option Z;
  bundle_flashblock_number_max : option Z;
  min_timestamp : option Z;
  max_timestamp : option Z;
}.

Inductive BundleConditionalError : Type :=
| MinGreaterThanMax (min max : Z)
| MaxBlockInPast (max current : Z)
| MaxBlockTooHigh (max current max_allowed : Z)
| MinTooHighForDefaultRange (min max_allowed : Z)
| FlashblockMinGreaterThanMax (min max : Z).

Record BundleConditional : Type := mkBundleConditional {
  transaction_conditional : TransactionConditional;
  bc_flashblock_number_min : option Z;
  bc_flashblock_number_max : option Z;
}.

Record BundleResult : Type := mkBundleResult { bundle_hash : B256 }.

(** The block range part of [Bundle::conditional]: the upper bound to use. *)
Definition block_range (b : Bundle) (last_block_number : Z)
    : outcome BundleConditionalError (option Z) :=
  match block_number_max b with
  | Some max =>
      if is_some_and (block_number_min b) (fun min => max <? min) then
        Err (MinGreaterThanMax (unwrap_or (block_number_min b) 0) max)
      else if max <=? last_block_number then Err (MaxBlockInPast max last_block_number)
      else
        let max_allowed := add64 last_block_number MAX_BLOCK_RANGE_BLOCKS in
        if max_allowed <? max then Err (MaxBlockTooHigh max last_block_number max_allowed)
        else Ok (Some max)
  | None =>
      let default_max := add64 last_block_number MAX_BLOCK_RANGE_BLOCKS in
      if is_some_and (block_number_min b) (fun min => default_max <? min) then
        Err (MinTooHighForDefaultRange (unwrap_or (block_number_min b) 0) default_max)
      else Ok (Some default_max)
  end.

(** The flashblock range part. *)
Definition flashblock_range (b : Bundle) : outcome BundleConditionalError unit :=
  match bundle_flashblock_number_min b, bundle_flashblock_number_max b with
  | Some min, Some max =>
      if max <? min then Err (FlashblockMinGreaterThanMax min max) else Ok tt
  | _, _ => Ok tt
  end.

(** [Bundle::conditional] *)
Definition conditional (b : Bundle) (last_block_number : Z)
    : outcome BundleConditionalError BundleConditional :=
  let? block_number_max := block_range b last_block_number in
  let? _ := flashblock_range b in
  Ok (mkBundleConditional
        (mkConditional (block_number_min b) block_number_max (min_timestamp b) (max_timestamp b))
        (bundle_flashblock_number_min b) (bundle_flashblock_number_max b)).

(** ** What a valid bundle is *)

(** The block numbers a bundle may ask for when [last] is the last block: its upper bound is one of
    the next [MAX_BLOCK_RANGE_BLOCKS] blocks, and its lower bound is not above it. *)
Definition valid_block_range (b : Bundle) (last : Z) : Prop :=
  match block_number_max b with
  | Some max => last < max <= last + MAX_BLOCK_RANGE_BLOCKS /\
                forall min, block_number_min b = Some min -> min <= max
  | None => forall min, block_number_min b = Some min -> min <= last + MAX_BLOCK_RANGE_BLOCKS
  end.

Definition valid_flashblock_range (b : Bundle) : Prop :=
  forall min max, bundle_flashblock_number_min b = Some min ->
    bundle_flashblock_number_max b = Some max -> min <= max.

(** The bundle of a single raw transaction. *)
Definition simple_bundle (raw : Bytes) (min max : option Z) : Bundle :=
  mkBundle [raw] None min max None None None None.

(** ** Lemmas *)

Lemma max_allowed_exact last :
  0 <= last -> last + MAX_BLOCK_RANGE_BLOCKS < U64_MOD ->
  add64 last MAX_BLOCK_RANGE_BLOCKS = last + MAX_BLOCK_RANGE_BLOCKS.
Proof. intros. apply add64_exact; unfold MAX_BLOCK_RANGE_BLOCKS in *; lia. Qed.

Lemma block_range_Ok b last :
  0 <= last -> last + MAX_BLOCK_RANGE_BLOCKS < U64_MOD ->
  block_range b last =
    Ok (Some (unwrap_or (block_number_max b) (last + MAX_BLOCK_RANGE_BLOCKS))) <->
  valid_block_range b last.
Proof.
  intros H0 H1. unfold block_range, valid_block_range. rewrite max_allowed_exact by done.
  unfold is_some_and, unwrap_or, MAX_BLOCK_RANGE_BLOCKS in *.
  split.
  - intros H. repeat case_match; simplify_eq; reflect_bools; repeat split; intros; simplify_eq; lia.
  - destruct (block_number_max b) as [mx|], (block_number_min b) as [mn|]; intros H;
      try specialize (H _ eq_refl); try (destruct H as [? H]; try specialize (H _ eq_refl));
      repeat case_match; reflect_bools; try lia; done.
Qed.

Lemma block_range_Ok_value b last m :
  block_range b last = Ok m ->
  m = Some (unwrap_or (block_number_max b) (add64 last MAX_BLOCK_RANGE_BLOCKS)).
Proof. unfold block_range. intros. repeat case_match; by simplify_eq/=. Qed.

Lemma flashblock_range_Ok b : flashblock_range b = Ok tt <-> valid_flashblock_range b.
Proof.
  unfold flashblock_range, valid_flashblock_range.
  split.
  - intros H. repeat case_match; simplify_eq; reflect_bools; intros; simplify_eq; lia.
  - intros H. repeat case_match; try done. reflect_bools. specialize (H _ _ eq_refl eq_refl). lia.
Qed.

Lemma conditional_spec b last :
  0 <= last -> last + MAX_BLOCK_RANGE_BLOCKS < U64_MOD ->
  (is_ok (conditional b last) = true <->
   valid_block_range b last /\ valid_flashblock_range b) /\
  (forall c, conditional b last = Ok c ->
     transaction_conditional c =
       mkConditional (block_number_min b)
         (Some (unwrap_or (block_number_max b) (last + MAX_BLOCK_RANGE_BLOCKS)))
         (min_timestamp b) (max_timestamp b) /\
     bc_flashblock_number_min c = bundle_flashblock_number_min b /\
     bc_flashblock_number_max c = bundle_flashblock_number_max b).
Proof.
  intros H0 H1. unfold conditional.
  rewrite <- block_range_Ok, <- flashblock_range_Ok by done.
  destruct (block_range b last) as [m| |] eqn:E; simpl; [|naive_solver..].
  apply block_range_Ok_value in E as ->. rewrite max_allowed_exact by done.
  destruct (flashblock_range b) as [[]| |] eqn:F; simpl; naive_solver.
Qed.

(** ** Properties *)

(** A bundle is accepted exactly when its block range lies in the window of the next
    [MAX_BLOCK_RANGE_BLOCKS] blocks and its flashblock range is not empty; the conditional carries
    the bundle's bounds, with the end of the window as the default upper bound. *)
Theorem conditional_accepts_iff b last :
  0 <= last -> last + MAX_BLOCK_RANGE_BLOCKS < U64_MOD ->
  (is_ok (conditional b last) = true <->
   valid_block_range b last /\ valid_flashblock_range b) /\
  (forall c, conditional b last = Ok c ->
     transaction_conditional c =
       mkConditional (block_number_min b)
         (Some (unwrap_or (block_number_max b) (last + MAX_BLOCK_RANGE_BLOCKS)))
         (min_timestamp b) (max_timestamp b) /\
     bc_flashblock_number_min c = bundle_flashblock_number_min b /\
     bc_flashblock_number_max c = bundle_flashblock_number_max b).
Proof.
  exact (conditional_spec b last).
Qed.

Lemma conditional_accepts_iff_witness :
  is_ok (conditional (simple_bundle [1] (Some 1002) (Some 1005)) 1000) = true /\
  is_ok (conditional (simple_bundle [1] None (Some 1011)) 1000) = false.
Proof.
  split; [|reflexivity].
  apply (conditional_accepts_iff (simple_bundle [1] (Some 1002) (Some 1005)) 1000).
  - lia.
  - reflexivity.
  - split; [split; [unfold MAX_BLOCK_RANGE_BLOCKS; lia|intros ? [= <-]; lia]|].
    intros ? ? [=].
Defined.

(** An accepted bundle can be included: some block of the window after [last] satisfies its
    block bounds, and no block beyond the window does. *)
Theorem conditional_window_nonempty b last c :
  0 <= last -> last + MAX_BLOCK_RANGE_BLOCKS < U64_MOD ->
  conditional b last = Ok c ->
  exists max, tc_block_number_max (transaction_conditional c) = Some max /\
    last < max <= last + MAX_BLOCK_RANGE_BLOCKS /\
    forall min, tc_block_number_min (transaction_conditional c) = Some min -> min <= max.
Proof.
  intros H0 H1 Hc.
  destruct (conditional_spec b last H0 H1) as [[Hv _] Hval].
  destruct (Hval c Hc) as (-> & _). rewrite Hc in Hv. destruct (Hv eq_refl) as [Hr _].
  eexists. split; [done|]. unfold valid_block_range, MAX_BLOCK_RANGE_BLOCKS in *. simpl.
  destruct (block_number_max b) as [mx|]; simpl.
  - destruct Hr as [? Hr]. split; [lia|]. intros mn Hmn. by apply Hr.
  - split; [lia|]. intros mn Hmn. by apply Hr.
Qed.

Lemma conditional_window_nonempty_witness :
  exists max, tc_block_number_max (mkConditional (Some 1005) (Some 1010) None None) = Some max /\
    1000 < max <= 1010 /\
    forall min, tc_block_number_min (mkConditional (Some 1005) (Some 1010) None None) = Some min ->
      min <= max.
Proof.
  apply (conditional_window_nonempty (simple_bundle [1] (Some 1005) None) 1000
           (mkBundleConditional (mkConditional (Some 1005) (Some 1010) None None) None None)).
  - lia.
  - reflexivity.
  - reflexivity.
Defined.
