(* ===== verification/PoolTx.v ===== *)
(** * Pool transactions

    Models [tx.rs]: [FBPooledTransaction], a reth pool transaction extended with the bundle data
    (the hashes allowed to revert and the flashblock range), and its trait implementations. *)

From S2P Require Import Prelude External.

(** [OpPooledTransaction] of reth, as the sources observe it. *)
Record OpPooledTransaction : Type := mkPooled {
  op_tx : Recovered;
  op_conditional : option TransactionConditional;
  op_interop_deadline : option Z;
  op_estimated_da_size : Z;
}.

(** [OpPooledTransaction::from_pooled] and the setters of its conditional and interop deadline. *)
Definition op_from_pooled `{Externals} (t : Recovered) : OpPooledTransaction :=
  mkPooled t None None (tx_estimated_size_fjord_bytes (tx_encoded_2718 (inner t))).
Definition op_with_conditional (t : OpPooledTransaction) (c : TransactionConditional)
    : OpPooledTransaction :=
  mkPooled (op_tx t) (Some c) (op_interop_deadline t) (op_estimated_da_size t).
Definition op_with_interop_deadline (t : OpPooledTransaction) (d : Z) : OpPooledTransaction :=
  mkPooled (op_tx t) (op_conditional t) (Some d) (op_estimated_da_size t).

Record FBPooledTransaction : Type := mkFB {
  fb_inner : OpPooledTransaction;
  fb_reverted_hashes : option (list B256);
  fb_flashblock_number_min : option Z;
  fb_flashblock_number_max : option Z;
}.

(** [impl From<OpPooledTransaction> for FBPooledTransaction] *)
Definition from_op (t : OpPooledTransaction) : FBPooledTransaction := mkFB t None None None.

(** [PoolTransaction::from_pooled] *)
Definition from_pooled `{Externals} (t : Recovered) : FBPooledTransaction :=
  mkFB (op_from_pooled t) None None None.

(** [MaybeRevertingTransaction] *)
Definition with_reverted_hashes (t : FBPooledTransaction) (h : list B256) : FBPooledTransaction :=
  mkFB (fb_inner t) (Some h) (fb_flashblock_number_min t) (fb_flashblock_number_max t).
Definition reverted_hashes (t : FBPooledTransaction) : option (list B256) := fb_reverted_hashes t.

(** [MaybeFlashblockFilter] *)
Definition with_flashblock_number_min (t : FBPooledTransaction) (m : option Z)
    : FBPooledTransaction :=
  mkFB (fb_inner t) (fb_reverted_hashes t) m (fb_flashblock_number_max t).
Definition with_flashblock_number_max (t : FBPooledTransaction) (m : option Z)
    : FBPooledTransaction :=
  mkFB (fb_inner t) (fb_reverted_hashes t) (fb_flashblock_number_min t) m.
Definition flashblock_number_min (t : FBPooledTransaction) : option Z := fb_flashblock_number_min t.
Definition flashblock_number_max (t : FBPooledTransaction) : option Z := fb_flashblock_number_max t.

(** [PoolTransaction] and [Transaction] *)
Definition into_consensus (t : FBPooledTransaction) : Recovered := op_tx (fb_inner t).
Definition fb_hash (t : FBPooledTransaction) : B256 := tx_hash (inner (op_tx (fb_inner t))).
Definition fb_sender (t : FBPooledTransaction) : Address := signer (op_tx (fb_inner t)).
Definition fb_nonce (t : FBPooledTransaction) : Z := tx_nonce (inner (op_tx (fb_inner t))).
Definition clone_into_consensus (t : FBPooledTransaction) : Recovered := op_tx (fb_inner t).
Definition fb_sender_ref (t : FBPooledTransaction) : Address := signer (op_tx (fb_inner t)).
Definition fb_ty (t : FBPooledTransaction) : TxType := tx_ty (inner (op_tx (fb_inner t))).
Definition fb_gas_limit (t : FBPooledTransaction) : Z := tx_gas_limit (inner (op_tx (fb_inner t))).
Definition fb_max_fee_per_gas (t : FBPooledTransaction) : Z :=
  tx_max_fee_per_gas (inner (op_tx (fb_inner t))).
Definition fb_input (t : FBPooledTransaction) : Bytes := tx_input (inner (op_tx (fb_inner t))).

(** [OpPooledTx::encoded_2718] *)
Definition encoded_2718 (t : FBPooledTransaction) : Bytes := tx_encoded_2718 (inner (op_tx (fb_inner t))).

(** [EthPoolTransaction]: a pool transaction never has a blob.  The sidecars and the settings are not
    looked at. *)
Inductive EthBlobTransactionSidecar : Type := NoSidecar | MissingSidecar | PresentSidecar (blob : Z).
Inductive BlobTransactionValidationError : Type := NotBlobTransaction (ty : TxType).
Definition take_blob (t : FBPooledTransaction) : EthBlobTransactionSidecar * FBPooledTransaction :=
  (NoSidecar, t).
Definition try_from_eip4844 (_ : Recovered) (_sidecar : Z) : option FBPooledTransaction := None.
Definition validate_blob (t : FBPooledTransaction) (_sidecar _settings : Z)
    : outcome BlobTransactionValidationError unit := Err (NotBlobTransaction (fb_ty t)).

(** [DataAvailabilitySized] *)
Definition estimated_da_size (t : FBPooledTransaction) : Z := op_estimated_da_size (fb_inner t).

(** [MaybeInteropTransaction]: [with_interop_deadline] converts the inner transaction back with
    [into]. *)
Definition interop_deadline (t : FBPooledTransaction) : option Z := op_interop_deadline (fb_inner t).
Definition with_interop_deadline (t : FBPooledTransaction) (interop : Z) : FBPooledTransaction :=
  from_op (op_with_interop_deadline (fb_inner t) interop).

Definition set_interop_deadline (t : FBPooledTransaction) (deadline : Z) : FBPooledTransaction :=
  mkFB (op_with_interop_deadline (fb_inner t) deadline) (fb_reverted_hashes t)
    (fb_flashblock_number_min t) (fb_flashblock_number_max t).

(** [MaybeConditionalTransaction] *)
Definition set_conditional (t : FBPooledTransaction) (c : TransactionConditional) : FBPooledTransaction :=
  mkFB (op_with_conditional (fb_inner t) c) (fb_reverted_hashes t) (fb_flashblock_number_min t)
    (fb_flashblock_number_max t).
Definition tx_conditional (t : FBPooledTransaction) : option TransactionConditional :=
  op_conditional (fb_inner t).
Definition with_conditional (t : FBPooledTransaction) (c : TransactionConditional)
    : FBPooledTransaction :=
  mkFB (op_with_conditional (fb_inner t) c) (fb_reverted_hashes t) (fb_flashblock_number_min t)
    (fb_flashblock_number_max t).

(** Whether a reverting execution of the transaction must be left out of the block: it comes from a
    bundle and the bundle does not list its hash. *)
Definition revert_protected (t : FBPooledTransaction) : bool :=
  match fb_reverted_hashes t with
  | Some hs => negb (bool_decide (tx_hash (inner (into_consensus t)) ∈ hs))
  | None => false
  end.

(** A transaction of account [a] in the pool. *)
Definition sample_tx (h a n : Z) (input : Bytes) : Recovered :=
  mkRecovered (mkTx h Eip1559 (Some a) n 21000 10 1 0 input []) a.
Definition sample_pooled (h a n : Z) (input : Bytes) : FBPooledTransaction :=
  from_op (mkPooled (sample_tx h a n input) None None 100).

(** ** Properties *)

(** Setting an interop deadline on a bundle transaction drops its bundle data: the transaction
    it returns has no flashblock range and is no longer revert protected, whatever it was. *)
Theorem with_interop_deadline_drops_bundle t d :
  interop_deadline (with_interop_deadline t d) = Some d /\
  into_consensus (with_interop_deadline t d) = into_consensus t /\
  tx_conditional (with_interop_deadline t d) = tx_conditional t /\
  reverted_hashes (with_interop_deadline t d) = None /\
  flashblock_number_min (with_interop_deadline t d) = None /\
  flashblock_number_max (with_interop_deadline t d) = None /\
  revert_protected (with_interop_deadline t d) = false.
Proof. done. Qed.

(** The order of the setters of [send_bundle] is irrelevant to what they set. *)
Lemma with_conditional_keeps t c :
  reverted_hashes (with_conditional t c) = reverted_hashes t /\
  flashblock_number_min (with_conditional t c) = flashblock_number_min t /\
  flashblock_number_max (with_conditional t c) = flashblock_number_max t /\
  into_consensus (with_conditional t c) = into_consensus t /\
  revert_protected (with_conditional t c) = revert_protected t.
Proof. done. Qed.

(** What the pool and the builder see of a transaction, apart from its bundle data. *)
Definition pool_view (t : FBPooledTransaction) :=
  (fb_hash t, fb_sender t, fb_nonce t, fb_ty t, fb_gas_limit t, fb_max_fee_per_gas t, fb_input t,
   encoded_2718 t, estimated_da_size t, into_consensus t).

(** No setter changes what the pool sees; only [with_interop_deadline] loses bundle data, while
    [set_interop_deadline] keeps it. *)
Lemma setters_keep_view t h m c d :
  Forall (fun t' => pool_view t' = pool_view t)
    [with_reverted_hashes t h; with_flashblock_number_min t m; with_flashblock_number_max t m;
     with_conditional t c; set_conditional t c; with_interop_deadline t d; set_interop_deadline t d] /\
  interop_deadline (set_interop_deadline t d) = interop_deadline (with_interop_deadline t d) /\
  reverted_hashes (set_interop_deadline t d) = reverted_hashes t /\
  (reverted_hashes t <> None -> set_interop_deadline t d <> with_interop_deadline t d).
Proof.
  split_and!; [by repeat constructor|done..|]. intros Hn Heq. apply Hn.
  by apply (f_equal reverted_hashes) in Heq.
Qed.
