(* ===== verification/RevertProtection.v ===== *)
(** * The bundle RPC

    Models [revert_protection.rs] ([eth_sendBundle] and the override of
    [eth_getTransactionReceipt]) and [monitor_tx_pool.rs], which records discarded transactions in
    the cache the receipt method reads.  The pool, the provider and the node's own receipt lookup
    are parameters. *)

From S2P Require Import Prelude External Bundle PoolTx.

(** [EthApiError]; the strings of the two length errors are constructors. *)
Inductive EthApiError : Type :=
| InternalEthError
| BundleEmpty
| BundleTooLong
| InvalidBundle (e : BundleConditionalError)
| InvalidRawTransaction
| PoolError (detail : Z)
| TransactionDropped.

(** The events of the pool listener. *)
Inductive FullTransactionEvent : Type :=
| EvPending (hash : B256)
| EvQueued (hash : B256)
| EvMined (hash block_hash : B256)
| EvReplaced (hash replaced_by : B256)
| EvDiscarded (hash : B256)
| EvInvalid (hash : B256)
| EvPropagated.

Section Rpc.
Context `{X : Externals}.
Context {Pool ReceiptT : Type}.
(** [StateProviderFactory::best_block_number], [recover_raw_transaction],
    [TransactionPool::add_transaction] and the node's [transaction_receipt]; [None] and [inl] are
    their errors. *)
Context (best_block_number : option Z) (recover_raw_transaction : Bytes -> option Recovered).
Context (add_transaction : Pool -> FBPooledTransaction -> (Z + B256) * Pool).
Context (eth_transaction_receipt : B256 -> option (option ReceiptT)).

(** The pool transaction [send_bundle_inner] builds. *)
Definition bundle_pool_transaction (b : Bundle) (c : BundleConditional) (recovered : Recovered)
    : FBPooledTransaction :=
  with_conditional
    (with_flashblock_number_max
       (with_flashblock_number_min
          (with_reverted_hashes (from_op (op_from_pooled recovered))
             (unwrap_or (reverting_hashes b) []))
          (bc_flashblock_number_min c))
       (bc_flashblock_number_max c))
    (transaction_conditional c).

(** [RevertProtectionExt::send_bundle_inner] *)
Definition send_bundle_inner (pool : Pool) (b : Bundle) : outcome EthApiError BundleResult * Pool :=
  match best_block_number with
  | None => (Err InternalEthError, pool)
  | Some last_block_number =>
      match bundle_transactions b with
      | [] => (Err BundleEmpty, pool)
      | [bundle_transaction] =>
          match conditional b last_block_number with
          | Err e => (Err (InvalidBundle e), pool)
          | Panic => (Panic, pool)
          | Ok c =>
              match recover_raw_transaction bundle_transaction with
              | None => (Err InvalidRawTransaction, pool)
              | Some recovered =>
                  match add_transaction pool (bundle_pool_transaction b c recovered) with
                  | (inl e, pool') => (Err (PoolError e), pool')
                  | (inr hash, pool') => (Ok (mkBundleResult hash), pool')
                  end
              end
          end
      | _ => (Err BundleTooLong, pool)
      end
  end.

(** [RevertProtectionExt::transaction_receipt]: the inner lookup is unwrapped. *)
Definition transaction_receipt (reverted_cache : gset B256) (hash : B256)
    : outcome EthApiError (option ReceiptT) :=
  match eth_transaction_receipt hash with
  | None => Panic
  | Some (Some receipt) => Ok (Some receipt)
  | Some None =>
      if bool_decide (hash ∈ reverted_cache) then Err TransactionDropped else Ok None
  end.

End Rpc.

(** [transaction_event_log]: what an event does to the cache. *)
Definition transaction_event_log (event : FullTransactionEvent) (reverted_cache : gset B256)
    : gset B256 :=
  match event with
  | EvDiscarded hash => {[hash]} ∪ reverted_cache
  | _ => reverted_cache
  end.

(** [monitor_tx_pool]: the events are handled in order.  The cache is bounded, so the cache library
    may evict entries between events; [evict] lists what it keeps after each one. *)
Fixpoint monitor_tx_pool (events : list FullTransactionEvent)
    (evict : nat -> gset B256 -> gset B256) (reverted_cache : gset B256) : gset B256 :=
  match events with
  | [] => reverted_cache
  | e :: events' =>
      monitor_tx_pool events' evict
        (evict (length events') (transaction_event_log e reverted_cache))
  end.

(** An eviction policy only removes. *)
Definition evicting (evict : nat -> gset B256 -> gset B256) : Prop := forall n s, evict n s ⊆ s.

(** ** Lemmas *)

Lemma monitor_tx_pool_sound events evict cache h :
  evicting evict -> h ∈ monitor_tx_pool events evict cache ->
  h ∈ cache \/ EvDiscarded h ∈ events.
Proof.
  intros Hev. revert cache. induction events as [|e events IH]; intros cache; simpl; [by left|].
  intros [Hin|Hin]%IH; [|right; set_solver].
  apply Hev in Hin. destruct e; simpl in Hin; try (by left). set_solver.
Qed.

Lemma send_bundle_inner_Ok `{X : Externals} {Pool} best recover
    (add : Pool -> FBPooledTransaction -> (Z + B256) * Pool) pool b r pool' :
  send_bundle_inner best recover add pool b = (Ok r, pool') ->
  exists last raw c t, best = Some last /\ bundle_transactions b = [raw] /\
    conditional b last = Ok c /\ recover raw = Some t /\
    add pool (bundle_pool_transaction b c t) = (inr (bundle_hash r), pool').
Proof.
  unfold send_bundle_inner. intros H. repeat case_match; simplify_eq. naive_solver.
Qed.

(** ** Properties *)

(** [eth_sendBundle] admits only what it should: when it succeeds the bundle had exactly one
    transaction and a valid block range, and the transaction handed to the pool is the recovered one,
    carrying the bundle's flashblock range, the conditional for the checked block range, and a list of
    hashes allowed to revert; it is revert protected unless the bundle lists its hash. *)
Theorem send_bundle_spec `{X : Externals} {Pool} best recover
    (add : Pool -> FBPooledTransaction -> (Z + B256) * Pool) pool b r pool' :
  send_bundle_inner best recover add pool b = (Ok r, pool') ->
  exists last raw t p c, best = Some last /\ bundle_transactions b = [raw] /\
    recover raw = Some t /\ conditional b last = Ok c /\
    add pool p = (inr (bundle_hash r), pool') /\
    into_consensus p = t /\ interop_deadline p = None /\
    tx_conditional p = Some (transaction_conditional c) /\
    flashblock_number_min p = bundle_flashblock_number_min b /\
    flashblock_number_max p = bundle_flashblock_number_max b /\
    (revert_protected p = false <->
     exists hs, reverting_hashes b = Some hs /\ tx_hash (inner t) ∈ hs).
Proof.
  intros (last & raw & c & t & Hb & Hraw & Hc & Ht & Hadd)%send_bundle_inner_Ok.
  exists last, raw, t, (bundle_pool_transaction b c t), c.
  split_and!; try done.
  1,2: unfold conditional, bind in Hc; repeat case_match; by simplify_eq/=.
  unfold revert_protected, bundle_pool_transaction. simpl.
  rewrite negb_false_iff, bool_decide_eq_true.
  destruct (reverting_hashes b); simpl; [naive_solver|]. split; [set_solver|naive_solver].
Qed.

Lemma send_bundle_spec_witness :
  exists last raw t p c, Some 1000 = Some last ∧
    bundle_transactions (simple_bundle [5; 0] None None) = [raw] ∧
    Some (sample_tx 5 7 0 []) = Some t ∧
    conditional (simple_bundle [5; 0] None None) last = Ok c ∧
    into_consensus p = t ∧ tx_conditional p = Some (transaction_conditional c) ∧
    (revert_protected p = false <->
     exists hs : list Z, @None (list Z) = Some hs ∧ tx_hash (inner t) ∈ hs).
Proof.
  destruct (send_bundle_spec (X := TestChain.chain) (Some 1000)
              (fun _ => Some (sample_tx 5 7 0 []))
              (fun pool p => (inr (fb_hash p), p :: pool)) []
              (simple_bundle [5; 0] None None) (mkBundleResult 5)
              (snd (send_bundle_inner (X := TestChain.chain) (Some 1000)
                 (fun _ => Some (sample_tx 5 7 0 []))
                 (fun pool p => (inr (fb_hash p), p :: pool)) []
                 (simple_bundle [5; 0] None None))) eq_refl)
    as (last & raw & t & p & c & H1 & H2 & H3 & H4 & H5 & H6 & H7 & H8 & H9 & H10 & H11).
  exists last, raw, t, p, c. split_and!; try done; apply H11.
Defined.

(** The receipt method reports a transaction as dropped only if the pool reported it discarded
    while the monitor ran, and never hides a receipt the node has. *)
Theorem transaction_receipt_dropped {ReceiptT} (lookup : B256 -> option (option ReceiptT)) events
    evict hash :
  evicting evict ->
  (transaction_receipt lookup (monitor_tx_pool events evict ∅) hash = Err TransactionDropped ->
   EvDiscarded hash ∈ events /\ lookup hash = Some None) /\
  (forall r, lookup hash = Some (Some r) ->
   transaction_receipt lookup (monitor_tx_pool events evict ∅) hash = Ok (Some r)).
Proof.
  intros Hev. unfold transaction_receipt. split; [|by intros r ->].
  intros H. repeat case_match; simplify_eq. split; [|done]. reflect_bools.
  destruct (monitor_tx_pool_sound events evict ∅ hash); [done|done|set_solver|done].
Qed.

Lemma transaction_receipt_dropped_witness :
  EvDiscarded 9 ∈ [EvPending 9; EvDiscarded 9] /\ Some (@None Z) = Some None.
Proof.
  apply (transaction_receipt_dropped (fun _ => Some (@None Z)) [EvPending 9; EvDiscarded 9]
           (fun _ s => s) 9).
  - intros n s. reflexivity.
  - vm_compute. reflexivity.
Defined.
