(* ===== verification/BestTxs.v ===== *)
(** * The transaction iterators

    [PayloadTransactions] is the interface of reth through which the builder takes transactions from
    the pool; [BestFlashblocksTxs] models [builders/flashblocks/best_txs.rs], which wraps such an
    iterator for the lifetime of a block, implements the interface and discharges its laws. *)

From S2P Require Import Prelude External PoolTx.

(** ** The interface

    [remaining] bounds the number of transactions the iterator can still yield; it is only used as
    the fuel of the loops over it.  The standard builder's iterators are snapshots of the pool
    ([without_updates]).  The flashblocks builder's are live: they also yield transactions that reach the
    pool while they are used.  The state of a live iterator includes what will reach it, and [remaining]
    counts that too. *)
Class PayloadTransactions (It : Type) : Type := {
  pt_next : It -> option FBPooledTransaction * It;
  pt_mark_invalid : It -> Address -> Z -> It;
  remaining : It -> nat;
}.

(** An iterator yields finitely many transactions until it is dropped: every transaction it yields uses it
    up, and marking an account invalid adds nothing.  For a snapshot this is so by construction; of a live
    iterator it says that only finitely many transactions reach the pool while it is used
    ([TestPool.live_laws]).  The library does not promise this: a theorem that says that a loop over a live
    iterator returns is one about such a pool. *)
Class PayloadTransactionsLaws (It : Type) `{PayloadTransactions It} : Prop := {
  pt_next_decreases (it it' : It) t :
    pt_next it = (Some t, it') -> (remaining it' < remaining it)%nat;
  pt_mark_invalid_decreases (it : It) a n :
    (remaining (pt_mark_invalid it a n) <= remaining it)%nat;
}.

(** What a client can do to an iterator, and what it can then see: [yields_only P it] says that
    every transaction [it] will ever yield satisfies [P]. *)
Inductive it_step {It : Type} `{PayloadTransactions It} : It -> It -> Prop :=
| it_next (it : It) r it' : pt_next it = (r, it') -> it_step it it'
| it_mark (it : It) a n : it_step it (pt_mark_invalid it a n).

Definition yields_only {It : Type} `{PayloadTransactions It} (P : FBPooledTransaction -> Prop)
    (it : It) : Prop :=
  forall it1 t it2, star it_step it it1 -> pt_next it1 = (Some t, it2) -> P t.

(** ** The flashblocks iterator *)

Record BestFlashblocksTxs (It : Type) : Type := mkBest {
  best_inner : It;
  current_flashblock_number : Z;
  commited_transactions : gset B256;
}.
Arguments mkBest {It}.
Arguments best_inner {It} _.
Arguments current_flashblock_number {It} _.
Arguments commited_transactions {It} _.

(** [BestFlashblocksTxs::new], [refresh_iterator] and [mark_commited] *)
Definition new_best {It} (inner : It) : BestFlashblocksTxs It := mkBest inner 0 ∅.
Definition refresh_iterator {It} (self : BestFlashblocksTxs It) (inner : It) (n : Z)
    : BestFlashblocksTxs It :=
  mkBest inner n (commited_transactions self).
Definition mark_commited {It} (self : BestFlashblocksTxs It) (txs : list B256)
    : BestFlashblocksTxs It :=
  mkBest (best_inner self) (current_flashblock_number self)
    (commited_transactions self ∪ list_to_set txs).

Definition set_inner {It} (self : BestFlashblocksTxs It) (inner : It) : BestFlashblocksTxs It :=
  mkBest inner (current_flashblock_number self) (commited_transactions self).

Section Best.
Context {It : Type} `{PT : PayloadTransactions It}.

(** The body of the loop of [next]. *)
Definition next_body (self : BestFlashblocksTxs It)
    : ctl (BestFlashblocksTxs It) (option FBPooledTransaction * BestFlashblocksTxs It) :=
  match pt_next (best_inner self) with
  | (None, inner') => Stop (None, set_inner self inner')
  | (Some tx, inner') =>
      let self := set_inner self inner' in
      if bool_decide (fb_hash tx ∈ commited_transactions self) then Next self
      else if is_some_and (flashblock_number_min tx)
                (fun min => current_flashblock_number self <? min) then Next self
      else if is_some_and (flashblock_number_max tx)
                (fun max => max <? current_flashblock_number self) then
        Next (set_inner self (pt_mark_invalid (best_inner self) (fb_sender tx) (fb_nonce tx)))
      else Stop (Some tx, self)
  end.

(** [BestFlashblocksTxs::next]: the fuel is one more than what the inner iterator can yield. *)
Definition best_next (self : BestFlashblocksTxs It)
    : option FBPooledTransaction * BestFlashblocksTxs It :=
  match while_loop (S (remaining (best_inner self))) next_body self with
  | Some r => r
  | None => (None, self)
  end.

(** [BestFlashblocksTxs::mark_invalid] *)
Definition best_mark_invalid (self : BestFlashblocksTxs It) (sender : Address) (nonce : Z)
    : BestFlashblocksTxs It :=
  set_inner self (pt_mark_invalid (best_inner self) sender nonce).

#[export] Instance best_payload_transactions : PayloadTransactions (BestFlashblocksTxs It) := {|
  pt_next := best_next;
  pt_mark_invalid := best_mark_invalid;
  remaining self := remaining (best_inner self);
|}.

(** ** Specification *)

(** A transaction the iterator may yield now. *)
Definition admissible (self : BestFlashblocksTxs It) (t : FBPooledTransaction) : Prop :=
  ¬ (fb_hash t ∈ commited_transactions self) /\
  (forall m, flashblock_number_min t = Some m -> m <= current_flashblock_number self) /\
  (forall m, flashblock_number_max t = Some m -> current_flashblock_number self <= m).

(** One transaction the iterator passes over: it is not admissible, and its account is marked
    invalid only when its flashblock range is over. *)
Inductive passes_over : BestFlashblocksTxs It -> BestFlashblocksTxs It -> Prop :=
| pass_commited self t it :
    pt_next (best_inner self) = (Some t, it) -> fb_hash t ∈ commited_transactions self ->
    passes_over self (set_inner self it)
| pass_too_early self t it m :
    pt_next (best_inner self) = (Some t, it) -> fb_hash t ∉ commited_transactions self ->
    flashblock_number_min t = Some m -> current_flashblock_number self < m ->
    passes_over self (set_inner self it)
| pass_too_late self t it m :
    pt_next (best_inner self) = (Some t, it) -> fb_hash t ∉ commited_transactions self ->
    flashblock_number_max t = Some m -> m < current_flashblock_number self ->
    passes_over self (set_inner self (pt_mark_invalid it (fb_sender t) (fb_nonce t))).

(** ** Lemmas *)

Lemma yields_only_step P (it it' : It) : it_step it it' -> yields_only P it -> yields_only P it'.
Proof. intros Hs Hy it1 t it2 Hst. apply Hy. by econstructor. Qed.

Lemma yields_only_next P (it it' : It) r :
  yields_only P it -> pt_next it = (r, it') -> yields_only P it'.
Proof. intros Hy Hn. eapply yields_only_step; [by econstructor|done]. Qed.

Lemma yields_only_yields P (it it' : It) t :
  yields_only P it -> pt_next it = (Some t, it') -> P t.
Proof. intros Hy Hn. eapply Hy; [constructor|done]. Qed.

Lemma yields_only_mark P (it : It) a n : yields_only P it -> yields_only P (pt_mark_invalid it a n).
Proof. apply yields_only_step. constructor. Qed.

Lemma next_body_Next self self' : next_body self = Next self' -> passes_over self self'.
Proof.
  unfold next_body. destruct (pt_next (best_inner self)) as [[t|] it] eqn:E; [|done].
  simpl. intros H. repeat case_match; simplify_eq; reflect_bools; unfold is_some_and in *.
  - by eapply pass_commited.
  - repeat case_match; simplify_eq; reflect_bools. by eapply pass_too_early.
  - destruct (flashblock_number_max t) as [m|] eqn:Hm; simplify_eq; reflect_bools.
    by apply (pass_too_late self t it m).
Qed.

Lemma next_body_Stop self r :
  next_body self = Stop r ->
  exists it, snd r = set_inner self it /\ pt_next (best_inner self) = (fst r, it) /\
    forall t, fst r = Some t -> admissible self t.
Proof.
  unfold next_body. destruct (pt_next (best_inner self)) as [[t|] it] eqn:E; simpl.
  - intros H. repeat case_match; simplify_eq. exists it. split_and!; [done..|]. intros u [= <-].
    reflect_bools. unfold is_some_and in *.
    split_and!; [done| |]; intros m Hm; rewrite Hm in *; reflect_bools; lia.
  - intros [= <-]. by exists it.
Qed.

Context `{L : !PayloadTransactionsLaws It}.

Lemma passes_over_decreases self self' :
  passes_over self self' -> (remaining (best_inner self') < remaining (best_inner self))%nat.
Proof.
  destruct 1 as [? ? ? H|? ? ? ? H|? t it ? H]; apply pt_next_decreases in H; simpl; try done.
  pose proof (pt_mark_invalid_decreases it (fb_sender t) (fb_nonce t)). lia.
Qed.

(** The loop of [next] always returns. *)
Lemma best_next_loop self :
  exists r, while_loop (S (remaining (best_inner self))) next_body self = Some r /\
            best_next self = r.
Proof.
  destruct (while_loop_terminates (fun s => remaining (best_inner s)) next_body) with
    (fuel := S (remaining (best_inner self))) (s := self) as [r Hr].
  - intros s s' H. by apply passes_over_decreases, next_body_Next.
  - lia.
  - exists r. split; [done|]. unfold best_next. by rewrite Hr.
Qed.

Lemma while_next_body fuel self r :
  while_loop fuel next_body self = Some r ->
  exists self1 it, star passes_over self self1 /\ snd r = set_inner self1 it /\
    pt_next (best_inner self1) = (fst r, it) /\ forall t, fst r = Some t -> admissible self1 t.
Proof.
  revert self. induction fuel as [|fuel IH]; intros self; simpl; [done|].
  destruct (next_body self) as [self'|r'] eqn:E.
  - intros (self1 & it & Hs & H)%IH. exists self1, it. split; [|done].
    econstructor; [by apply next_body_Next|done].
  - intros [= <-]. apply next_body_Stop in E as (it & H). exists self, it. split; [constructor|done].
Qed.

Lemma best_next_trace self r :
  best_next self = r ->
  exists self1 it, star passes_over self self1 /\ snd r = set_inner self1 it /\
    pt_next (best_inner self1) = (fst r, it) /\ forall t, fst r = Some t -> admissible self1 t.
Proof.
  intros <-. destruct (best_next_loop self) as (r & Hr & ->). by eapply while_next_body.
Qed.

Lemma passes_over_keeps self self' :
  star passes_over self self' ->
  current_flashblock_number self' = current_flashblock_number self /\
  commited_transactions self' = commited_transactions self.
Proof. induction 1 as [|s t u []]; naive_solver. Qed.

Lemma passes_over_star_remaining self self' :
  star passes_over self self' ->
  (remaining (best_inner self') <= remaining (best_inner self))%nat.
Proof. induction 1 as [|s t u H%passes_over_decreases]; lia. Qed.

Lemma passes_over_yields P self self' :
  star passes_over self self' -> yields_only P (best_inner self) -> yields_only P (best_inner self').
Proof.
  intros Hs Hy. revert Hs Hy.
  apply (star_invariant passes_over (fun s => yields_only P (best_inner s))).
  intros s t Hy H. destruct H; simpl in *; try apply yields_only_mark;
    (eapply yields_only_next; [|done]); done.
Qed.

(** The wrapper yields nothing the wrapped iterator would not. *)
Lemma best_yields_only P self : yields_only P (best_inner self) -> yields_only P self.
Proof.
  intros Hy self1 t self2 Hst (s1 & it & Hp & _ & Hn & _)%best_next_trace. simpl in *.
  assert (Hy1 : yields_only P (best_inner self1)).
  { revert Hst Hy. apply (star_invariant it_step (fun s => yields_only P (best_inner s))).
    intros s s' Hys Hst. destruct Hst as [i r i' H|]; simpl in *.
    - apply best_next_trace in H as (s2 & it2 & Hp2 & Heq2 & Hn2 & _). simpl in *. subst. simpl.
      eapply yields_only_next; [|done]. by eapply passes_over_yields.
    - by apply yields_only_mark. }
  eapply yields_only_yields; [|done]. by eapply passes_over_yields.
Qed.

(** The flashblocks iterator satisfies the laws of the interface it implements. *)
#[export] Instance best_laws : PayloadTransactionsLaws (BestFlashblocksTxs It).
Proof.
  split; simpl.
  - intros self self' t (self1 & it & Hs & Heq & Hn & _)%best_next_trace. simpl in *.
    apply pt_next_decreases in Hn. apply passes_over_star_remaining in Hs. subst. simpl. lia.
  - intros self a n. apply pt_mark_invalid_decreases.
Qed.

End Best.

(** ** A list as an iterator

    The transactions of a list in order, those of the accounts marked invalid left out. *)
Module TestPool.

Record pool_iter : Type := mkIter { todo : list FBPooledTransaction; invalid : list Address }.

Fixpoint take_next (l : list FBPooledTransaction) (bad : list Address)
    : option FBPooledTransaction * list FBPooledTransaction :=
  match l with
  | [] => (None, [])
  | t :: l' => if bool_decide (fb_sender t ∈ bad) then take_next l' bad else (Some t, l')
  end.

#[export] Instance pool_transactions : PayloadTransactions pool_iter := {|
  pt_next it := let '(r, l) := take_next (todo it) (invalid it) in (r, mkIter l (invalid it));
  pt_mark_invalid it a _ := mkIter (todo it) (a :: invalid it);
  remaining it := length (todo it);
|}.

Lemma take_next_length l bad t l' : take_next l bad = (Some t, l') -> (length l' < length l)%nat.
Proof.
  revert l'. induction l as [|u l IH]; intros l'; simpl; [done|].
  case_match; [intros Hl%IH; lia|]. intros [= <- <-]. lia.
Qed.

#[export] Instance pool_laws : PayloadTransactionsLaws pool_iter.
Proof.
  split; simpl; [|done]. intros [l bad] it' t. simpl.
  destruct (take_next l bad) as [r l'] eqn:E. intros [= -> <-]. by eapply take_next_length.
Qed.

Lemma take_next_spec l bad r l' :
  take_next l bad = (r, l') -> l' ⊆ l ∧ forall t, r = Some t -> t ∈ l.
Proof.
  revert l'. induction l as [|u l IH]; intros l'; simpl; [intros [= <- <-]; done|].
  case_match; [intros [? ?]%IH|intros [= <- <-]]; set_solver.
Qed.

Lemma pool_yields P (l : list FBPooledTransaction) bad : Forall P l -> yields_only P (mkIter l bad).
Proof.
  intros HP it1 t it2 Hs. assert (HP1 : Forall P (todo it1)).
  { revert Hs HP. change l with (todo (mkIter l bad)) at 2.
    apply (star_invariant it_step (fun it => Forall P (todo it))).
    intros s s' Hf Hst. destruct Hst as [i r i' H|]; simpl in *; [|done].
    destruct (take_next _ _) as [r' l1] eqn:E. injection H as <- <-.
    apply take_next_spec in E as [E _]. simpl. rewrite Forall_forall in *. set_solver. }
  simpl. destruct (take_next _ _) as [r' l1] eqn:E. intros [= -> <-].
  apply take_next_spec in E as [_ E]. rewrite Forall_forall in HP1. by apply HP1, E.
Qed.

(** *** A live iterator

    Before each transaction it yields, those that have reached the pool in the meantime are appended. *)
Record live_iter : Type := mkLive { snapshot : pool_iter; arriving : list (list FBPooledTransaction) }.

Definition receive (it : live_iter) : live_iter :=
  match arriving it with
  | [] => it
  | l :: ls => mkLive (mkIter (todo (snapshot it) ++ l) (invalid (snapshot it))) ls
  end.

#[export] Instance live_transactions : PayloadTransactions live_iter := {|
  pt_next it := let it := receive it in
    let '(r, it') := pt_next (snapshot it) in (r, mkLive it' (arriving it));
  pt_mark_invalid it a n := mkLive (pt_mark_invalid (snapshot it) a n) (arriving it);
  remaining it := (remaining (snapshot it) + length (concat (arriving it)))%nat;
|}.

#[export] Instance live_laws : PayloadTransactionsLaws live_iter.
Proof.
  split; [|done]. intros it it' t. simpl.
  assert (Hr : (remaining (receive it) = remaining it)%nat).
  { unfold receive. destruct it as [sn [|l ls]]; [done|]. simpl. rewrite !length_app. lia. }
  simpl in Hr. destruct (take_next _ _) as [r l] eqn:E. intros [= -> <-].
  apply take_next_length in E. simpl in *. lia.
Qed.

End TestPool.

Import TestPool.

(** ** Properties *)

(** C37: [next] always returns, and the transaction it yields was not yet committed to the block and
    admits the current flashblock; everything it took from the pool iterator before was inadmissible,
    and only accounts with a transaction whose flashblock range is over were marked invalid. *)
Theorem best_next_spec {It} `{PT : PayloadTransactions It} `{!PayloadTransactionsLaws It}
    (self : BestFlashblocksTxs It) :
  is_Some (while_loop (S (remaining (best_inner self))) next_body self) /\
  exists self1 it, star passes_over self self1 /\
    pt_next (best_inner self1) = (fst (best_next self), it) /\
    snd (best_next self) = set_inner self1 it /\
    forall t, fst (best_next self) = Some t -> admissible self t.
Proof.
  split. { destruct (best_next_loop self) as (r & -> & _). by eexists. }
  destruct (best_next_trace self _ eq_refl) as (self1 & it & Hs & Heq & Hn & Had).
  exists self1, it. split_and!; [done..|]. intros t Ht. destruct (passes_over_keeps _ _ Hs) as [Hc Hm].
  specialize (Had t Ht). unfold admissible in *. by rewrite Hc, Hm in Had.
Qed.

Lemma best_next_spec_witness :
  admissible (mkBest (TestPool.mkIter [sample_pooled 1 7 0 []; sample_pooled 2 8 0 []] []) 1 {[1]})
    (sample_pooled 2 8 0 []).
Proof.
  destruct (best_next_spec
    (mkBest (TestPool.mkIter [sample_pooled 1 7 0 []; sample_pooled 2 8 0 []] []) 1 {[1]}))
    as (_ & self1 & it & _ & _ & _ & H).
  apply H. vm_compute. reflexivity.
Defined.

(** Across flashblocks, a transaction marked as committed is never yielded again: neither
    refreshing the inner iterator, nor marking further transactions or accounts, nor [next] forgets a
    committed hash. *)
Theorem commited_never_yielded {It} `{PT : PayloadTransactions It} `{!PayloadTransactionsLaws It}
    (self : BestFlashblocksTxs It) h (it : It) n txs a k t :
  h ∈ commited_transactions self ->
  h ∈ commited_transactions (refresh_iterator self it n) /\
  h ∈ commited_transactions (mark_commited self txs) /\
  h ∈ commited_transactions (best_mark_invalid self a k) /\
  h ∈ commited_transactions (snd (best_next self)) /\
  (fst (best_next self) = Some t -> fb_hash t <> h).
Proof.
  intros Hh. destruct (best_next_trace self _ eq_refl) as (self1 & i & Hs & Heq & Hn & Had).
  destruct (passes_over_keeps _ _ Hs) as [_ Hm]. split_and!; simpl; [done|set_solver|done| |].
  - rewrite Heq. simpl. by rewrite Hm.
  - intros Ht <-. destruct (Had t Ht) as [Hni _]. rewrite Hm in Hni. done.
Qed.

Lemma commited_never_yielded_witness :
  fst (best_next (mkBest (TestPool.mkIter [sample_pooled 2 8 0 []] []) 0 {[1]}))
    = Some (sample_pooled 2 8 0 []) /\ fb_hash (sample_pooled 2 8 0 []) <> 1.
Proof.
  split; [vm_compute; reflexivity|].
  apply (commited_never_yielded (mkBest (TestPool.mkIter [sample_pooled 2 8 0 []] []) 0 {[1]}) 1
           (TestPool.mkIter [] []) 0 [] 0 0); [set_solver|vm_compute; reflexivity].
Defined.
