(* ===== verification/Sidecar.v ===== *)
(** * The compose sidecar client

    Models [sidecar/types.rs], [config.rs], [client.rs] (the poll loop with its hold/retry protocol)
    and [overrides.rs] (the description of the in-progress state sent along with a poll).  The HTTP
    exchange is a parameter: the answer to each request, in order. *)

From S2P Require Import Prelude External ExecInfo.

(** [SidecarError]; error strings are replaced by what they are rendered from. *)
Inductive SidecarError : Type :=
| Http
| HoldTimeout (max_retries : Z)
| NotConfigured
| DecodeError (detail : Z)
| SignatureRecoveryFailed
| InvalidTransactionType
| LimitsExceeded (result : TxnExecutionResult)
| ExecutionFailed (error : EvmError)
| TransactionReverted (hash : B256).

Record ExternalTransaction : Type := mkExternal {
  raw : Bytes;
  required : bool;
  instance_id : option string;
}.

Record PollResponse : Type := mkPollResponse {
  hold : bool;
  poll_after_ms : option Z;
  transactions : list ExternalTransaction;
}.

Record SidecarConfig : Type := mkSidecarConfig {
  endpoint : string;
  poll_timeout_ms : Z;
  max_retries : Z;
}.

(** [impl Default for SidecarConfig] and [SidecarConfig::is_enabled] *)
Definition default_sidecar_config : SidecarConfig := mkSidecarConfig "" 200 5.
Definition is_enabled (c : SidecarConfig) : bool := negb (String.eqb (endpoint c) "").

(** The state overrides: what [build_state_overrides] puts into the JSON object of an account.  An
    absent key is [None]; [ov_state] is the key [state] with an empty object. *)
Record AccountOverride : Type := mkOverride {
  ov_balance : option Z;
  ov_nonce : option Z;
  ov_code : option Bytes;
  ov_state : bool;
  ov_state_diff : option (list (Z * Z));
}.

(** A [TransitionAccount] of revm, as observed: whether its status says not modified and destroyed,
    its account info, its new contract code, and its storage slots with original and present value. *)
Record TransitionAccount : Type := mkTransition {
  ta_not_modified : bool;
  ta_was_destroyed : bool;
  ta_info : option AccountInfo;
  ta_new_contract : option Bytes;
  ta_storage : list (Z * (Z * Z));
}.

Record PollRequest : Type := mkPollRequest {
  req_chain_id : Z;
  req_block_number : Z;
  req_flashblock_index : Z;
  req_state_root : B256;
  req_timestamp : Z;
  req_gas_limit : Z;
  req_state_overrides : option (list (Address * AccountOverride));
}.

(** ** Polling *)

Definition U32_MOD : Z := 2 ^ 32.
Definition add32 (a b : Z) : Z := (a + b) mod U32_MOD.

(** The state of the retry loop: the [u32] counter, the number of requests made so far and the
    milliseconds slept. *)
Record PollState : Type := mkPollState { retries : Z; requests : nat; slept_ms : Z }.

Definition poll_body (config : SidecarConfig) (respond : nat -> option PollResponse)
    (s : PollState)
    : ctl PollState (outcome SidecarError (option (list ExternalTransaction)) * PollState) :=
  let s1 := mkPollState (retries s) (S (requests s)) (slept_ms s) in
  match respond (requests s) with
  | None => Stop (Err Http, s1)
  | Some response =>
      if negb (hold response) then Stop (Ok (Some (transactions response)), s1)
      else
        let retries := add32 (retries s) 1 in
        if max_retries config <? retries then
          Stop (Err (HoldTimeout (max_retries config)), s1)
        else
          Next (mkPollState retries (S (requests s))
                  (slept_ms s + unwrap_or (poll_after_ms response) 50))
  end.

(** [SidecarClient::poll_transactions]: the answer, and the state of the loop when it returned
    ([None] only when the fuel, one more than the retries allowed, does not suffice). *)
Definition poll_transactions (config : SidecarConfig) (respond : nat -> option PollResponse)
    : option (outcome SidecarError (option (list ExternalTransaction)) * PollState) :=
  if negb (is_enabled config) then Some (Ok None, mkPollState 0 0 0)
  else while_loop (S (Z.to_nat (max_retries config))) (poll_body config respond)
         (mkPollState 0 0 0).

(** ** State overrides *)

Definition state_diff (a : TransitionAccount) : list (Z * Z) :=
  (fun '(slot, (_, present)) => (slot, present)) <$>
    List.filter (fun '(_, (original, present)) => negb (original =? present)) (ta_storage a).

(** The JSON object of one account, or [None] when the loop skips it. *)
Definition account_override (a : TransitionAccount) : option AccountOverride :=
  let diff := state_diff a in
  let has_account_change :=
    negb (ta_not_modified a) || match ta_new_contract a with Some _ => true | None => false end in
  let has_storage_change := match diff with [] => false | _ => true end in
  if negb has_account_change && negb has_storage_change then None
  else
    let m :=
      if ta_was_destroyed a || match ta_info a with None => true | Some _ => false end then
        mkOverride (Some 0) (Some 0) (Some []) true None
      else
        match ta_info a with
        | Some info =>
            mkOverride (Some (acc_balance info)) (Some (acc_nonce info)) (ta_new_contract a) false
              None
        | None => mkOverride None None None false None
        end in
    Some (if has_storage_change && negb (ov_state m)
          then mkOverride (ov_balance m) (ov_nonce m) (ov_code m) (ov_state m) (Some diff)
          else m).

(** [build_state_overrides]; the argument is the transition state, [None] when the state has none. *)
Definition build_state_overrides (ts : option (list (Address * TransitionAccount)))
    : list (Address * AccountOverride) :=
  match ts with
  | None => []
  | Some l => omap (fun '(addr, a) => pair addr <$> account_override a) l
  end.

(** A sidecar that holds [n] times and then answers with one required transaction. *)
Definition holding_sidecar (n : nat) (k : nat) : option PollResponse :=
  Some (if (k <? n)%nat then mkPollResponse true (Some 20) []
        else mkPollResponse false None [mkExternal [501; 0] true None]).

(** ** Lemmas *)

Section Poll.
Context (config : SidecarConfig) (respond : nat -> option PollResponse).
Context (Hmax : 0 <= max_retries config < U32_MOD - 1).

(** The retry counter counts the requests, and a loop that goes on has retries left. *)
Definition poll_inv (s : PollState) : Prop :=
  retries s = Z.of_nat (requests s) /\ Z.of_nat (requests s) <= max_retries config /\
  forall k, (k < requests s)%nat -> exists r, respond k = Some r /\ hold r = true.

Lemma poll_body_Next s s' :
  poll_inv s -> poll_body config respond s = Next s' ->
  poll_inv s' /\ requests s' = S (requests s).
Proof using Hmax.
  intros (Hr & Hle & Hheld). unfold poll_body, poll_inv.
  destruct (respond (requests s)) as [r|] eqn:E; [|done].
  destruct (hold r) eqn:Hh; simpl; [|done].
  assert (Ha : add32 (retries s) 1 = retries s + 1)
    by (apply Z.mod_small; unfold U32_MOD in *; lia).
  rewrite Ha. destruct (Z.ltb_spec (max_retries config) (retries s + 1)); [done|].
  intros [= <-]. simpl. split_and!; [lia..| |done]. intros k Hk.
  destruct (decide (k = requests s)) as [->|]; [by exists r|]. apply Hheld. lia.
Qed.

(** Every request before the [n]th was answered by a hold. *)
Definition held (n : nat) : Prop :=
  forall k, (k < n)%nat -> exists r, respond k = Some r ∧ hold r = true.

(** Why the loop ended, in terms of its last request. *)
Definition poll_post (p : outcome SidecarError (option (list ExternalTransaction)) * PollState)
    : Prop :=
  let n := requests p.2 in
  Z.of_nat n <= max_retries config + 1 ∧ held (pred n) ∧
  match p.1 with
  | Ok (Some txs) => exists r, respond (pred n) = Some r ∧ hold r = false ∧ transactions r = txs
  | Err Http => respond (pred n) = None
  | Err (HoldTimeout m) => m = max_retries config ∧ Z.of_nat n = max_retries config + 1 ∧ held n
  | _ => False
  end.

Lemma poll_body_Stop s p :
  poll_inv s -> poll_body config respond s = Stop p -> poll_post p.
Proof using Hmax.
  intros (Hr & Hle & Hheld). unfold poll_body, poll_post.
  destruct (respond (requests s)) as [r|] eqn:E.
  2: { intros [= <-]. simpl. split_and!; [lia|done|done]. }
  destruct (hold r) eqn:Hh; simpl.
  2: { intros [= <-]. simpl. split_and!; [lia|done|]. by exists r. }
  assert (Ha : add32 (retries s) 1 = retries s + 1)
    by (apply Z.mod_small; unfold U32_MOD in *; lia).
  rewrite Ha. destruct (Z.ltb_spec (max_retries config) (retries s + 1)); [|done].
  intros [= <-]. simpl. split_and!; [lia|done|done|lia|]. intros k Hk.
  destruct (decide (k = requests s)) as [->|]; [by exists r|]. apply Hheld. lia.
Qed.

Lemma poll_inv_init : poll_inv (mkPollState 0 0 0).
Proof using Hmax. unfold poll_inv. simpl. split_and!; [done|lia|]. intros k. lia. Qed.

Lemma poll_loop_terminates :
  exists r, while_loop (S (Z.to_nat (max_retries config))) (poll_body config respond)
              (mkPollState 0 0 0) = Some r.
Proof using Hmax.
  apply (while_loop_terminates_inv poll_inv
           (fun s => (Z.to_nat (max_retries config) - requests s)%nat)).
  - intros s s' Hi Hn. destruct (poll_body_Next s s' Hi Hn) as [Hi' Heq]. split; [done|].
    destruct Hi as (_ & ? & _), Hi' as (_ & ? & _). rewrite Heq in *. lia.
  - apply poll_inv_init.
  - simpl. lia.
Qed.

Lemma poll_transactions_returns : is_Some (poll_transactions config respond).
Proof using Hmax.
  unfold poll_transactions. destruct (negb (is_enabled config)); [by eexists|].
  destruct poll_loop_terminates as [r ->]. by eexists.
Qed.

Lemma poll_loop_result p :
  while_loop (S (Z.to_nat (max_retries config))) (poll_body config respond) (mkPollState 0 0 0)
    = Some p -> poll_post p.
Proof using Hmax.
  apply (while_loop_invariant poll_inv poll_post (poll_body config respond)).
  - intros s1 s1' Hi Hn. by apply (poll_body_Next s1).
  - intros s1 p' Hi Hn. by apply (poll_body_Stop s1).
  - apply poll_inv_init.
Qed.

End Poll.

Lemma state_diff_spec a slot v :
  (slot, v) ∈ state_diff a <-> exists o, (slot, (o, v)) ∈ ta_storage a /\ o <> v.
Proof.
  unfold state_diff. rewrite list_elem_of_fmap. setoid_rewrite list_elem_of_In.
  setoid_rewrite filter_In. split.
  - intros ([s [o p]] & [= -> ->] & Hin & Hne). exists o. reflect_bools. done.
  - intros (o & Hin & Hne). exists (slot, (o, v)). split_and!; [done|done|].
    by apply negb_true_iff, Z.eqb_neq.
Qed.

(** ** Properties *)

(** C38: polling always returns, after at most [max_retries + 1] requests, and says why: the
    transactions of the first answer that does not hold, an HTTP error of a request, or a hold timeout
    exactly when all [max_retries + 1] answers held.  A disabled client makes no request.  (With
    [max_retries] equal to the largest [u32] the counter would wrap and never exceed it.) *)
Theorem poll_transactions_spec config respond :
  0 <= max_retries config < U32_MOD - 1 ->
  exists res s, poll_transactions config respond = Some (res, s) ∧
    Z.of_nat (requests s) <= max_retries config + 1 ∧ held respond (pred (requests s)) ∧
    match res with
    | Ok None => is_enabled config = false ∧ requests s = O
    | Ok (Some txs) => exists r, respond (pred (requests s)) = Some r ∧ hold r = false ∧
                                 transactions r = txs
    | Err Http => respond (pred (requests s)) = None
    | Err (HoldTimeout m) => m = max_retries config ∧
        Z.of_nat (requests s) = max_retries config + 1 ∧ held respond (requests s)
    | _ => False
    end.
Proof.
  intros Hmax. unfold poll_transactions. destruct (is_enabled config) eqn:Hen; simpl.
  2: { eexists _, _. split; [done|]. simpl. split_and!; [lia| |done..]. intros k Hk. simpl in Hk. lia. }
  destruct (poll_loop_terminates config respond Hmax) as [[res s] Hr].
  exists res, s. split; [done|].
  destruct (poll_loop_result config respond Hmax _ Hr) as (Hle & Hheld & Hres).
  split_and!; [done..|]. by destruct res as [[|]|[]|].
Qed.

Lemma poll_transactions_spec_witness :
  exists res s, poll_transactions (mkSidecarConfig "http://localhost:8082" 200 5) (holding_sidecar 2)
                  = Some (res, s) /\ Z.of_nat (requests s) <= 6 /\ slept_ms s = 40 /\
                res = Ok (Some [mkExternal [501; 0] true None]).
Proof.
  destruct (poll_transactions_spec (mkSidecarConfig "http://localhost:8082" 200 5)
              (holding_sidecar 2)) as (res & s & H & Hle & _ & _).
  - simpl. unfold U32_MOD. lia.
  - exists res, s. vm_compute in H. injection H as <- <-. split_and!; [reflexivity|vm_compute; discriminate|reflexivity..].
Defined.

(** The overrides describe exactly the accounts the transitions change: an account is listed
    when its status says modified, it deploys code, or a slot has a new value; a destroyed or absent
    account is overridden by an empty one with its storage cleared; any other carries its balance,
    nonce, new code, and precisely the slots whose value changed. *)
Theorem build_state_overrides_spec l addr o :
  (addr, o) ∈ build_state_overrides (Some l) <->
  exists a, (addr, a) ∈ l /\
    (ta_not_modified a = false \/ is_Some (ta_new_contract a) \/ state_diff a <> []) /\
    ((ta_was_destroyed a = true \/ ta_info a = None) /\
       o = mkOverride (Some 0) (Some 0) (Some []) true None \/
     exists info, ta_was_destroyed a = false /\ ta_info a = Some info /\
       o = mkOverride (Some (acc_balance info)) (Some (acc_nonce info)) (ta_new_contract a) false
             (match state_diff a with [] => None | d => Some d end)).
Proof.
  unfold build_state_overrides. rewrite list_elem_of_omap. split.
  - intros ([addr' a] & Hin & Ho). exists a.
    destruct (account_override a) as [o'|] eqn:E; simplify_eq/=. split; [done|].
    unfold account_override in E.
    destruct (ta_not_modified a), (ta_new_contract a), (state_diff a), (ta_was_destroyed a),
      (ta_info a); simplify_eq/=; naive_solver.
  - intros (a & Hin & Hch & Ho). exists (addr, a). split; [done|].
    unfold account_override.
    destruct (ta_not_modified a), (ta_new_contract a), (state_diff a), (ta_was_destroyed a),
      (ta_info a); simplify_eq/=; naive_solver.
Qed.
