(* ===== verification/Context.v ===== *)
(** * The payload builder context

    Models the data and the accessors of [builders/context.rs]: everything one payload job knows.
    Cancellation is concurrent with the job: a token is the function that says, for every moment at
    which the job looks at a token, whether it is cancelled by then.  A moment is the number of
    looks made so far, which the execution loops thread through their state. *)

From S2P Require Import Prelude External ExecInfo Sidecar.

(** ** Errors *)

Inductive OpPayloadBuilderError : Type :=
| BlobTransactionRejected
| TransactionEcRecoverFailed
| AccountLoadFailed (a : Address).

(** [PayloadBuilderError]; [Message] is an [eyre] report with its text. *)
Inductive PayloadBuilderError : Type :=
| OtherOp (e : OpPayloadBuilderError)
| OtherSidecar (e : SidecarError)
| OtherExtraData (detail : Z)
| OtherExternal (what : string) (detail : Z)
| EvmExecutionError (e : EvmError)
| MissingPayload
| MissingParentBlock (parent : B256)
| Message (text : string).

(** ** Cancellation tokens *)

Definition CancellationToken : Type := nat -> bool.

Definition is_cancelled (t : CancellationToken) (now : nat) : bool := t now.

(** Once cancelled, a token stays cancelled. *)
Definition monotone (t : CancellationToken) : Prop :=
  forall n m, (n <= m)%nat -> t n = true -> t m = true.

(** [CancellationToken::child_token]: cancelled with its parent, or on its own ([own]). *)
Definition child_token (parent own : CancellationToken) : CancellationToken :=
  fun n => parent n || own n.

(** ** Data *)

(** [OpChainSpec]: which forks are active at a timestamp, the fee parameters and the chain id. *)
Record OpChainSpec : Type := mkChainSpec {
  regolith_at : Z -> bool;
  shanghai_at : Z -> bool;
  canyon_at : Z -> bool;
  ecotone_at : Z -> bool;
  holocene_at : Z -> bool;
  isthmus_at : Z -> bool;
  jovian_at : Z -> bool;
  base_fee_params_at_timestamp : Z -> Z;
  spec_chain_id : Z;
}.

(** [OpPayloadBuilderAttributes]; the two functions are its methods that encode the EIP-1559
    parameters, with a number for their error. *)
Record OpPayloadBuilderAttributes : Type := mkAttributes {
  attr_parent : B256;
  attr_payload_id : Z;
  attributes_timestamp : Z;
  prev_randao : B256;
  suggested_fee_recipient : Address;
  attr_withdrawals : list Z;
  parent_beacon_block_root : option B256;
  no_tx_pool : bool;
  attr_transactions : list OpTransactionSigned;
  attr_gas_limit : option Z;
  get_jovian_extra_data : Z -> Z + Bytes;
  get_holocene_extra_data : Z -> Z + Bytes;
}.

Record SealedHeader : Type := mkSealedHeader {
  sh_hash : B256;
  sh_number : Z;
  sh_gas_limit : Z;
  sh_state_root : B256;
  sh_timestamp : Z;
}.

Record OpNextBlockEnvAttributes : Type := mkNextBlockEnv {
  nb_timestamp : Z;
  nb_suggested_fee_recipient : Address;
  nb_prev_randao : B256;
  nb_gas_limit : Z;
  nb_parent_beacon_block_root : option B256;
  nb_extra_data : Bytes;
}.

Record Signer : Type := mkSigner { signer_address : Address; signer_secret : Z }.

(** [OpPayloadBuilderCtx]; the DA and gas limit configurations are their values when the job reads
    them, and the build feature [interop] is a flag.  The gas limiter is shared between jobs and
    threaded separately. *)
Record OpPayloadBuilderCtx (ExtraCtx : Type) : Type := mkCtx {
  max_da_tx_size : option Z;
  max_da_block_size : option Z;
  gas_limit_config : option Z;
  chain_spec : OpChainSpec;
  parent : SealedHeader;
  attributes : OpPayloadBuilderAttributes;
  evm_env : EvmEnv;
  block_env_attributes : OpNextBlockEnvAttributes;
  cancel : CancellationToken;
  builder_signer : option Signer;
  extra_ctx : ExtraCtx;
  max_gas_per_txn : option Z;
  feature_interop : bool;
}.
Arguments mkCtx {ExtraCtx}.
Arguments max_da_tx_size {ExtraCtx} _.
Arguments max_da_block_size {ExtraCtx} _.
Arguments gas_limit_config {ExtraCtx} _.
Arguments chain_spec {ExtraCtx} _.
Arguments parent {ExtraCtx} _.
Arguments attributes {ExtraCtx} _.
Arguments evm_env {ExtraCtx} _.
Arguments block_env_attributes {ExtraCtx} _.
Arguments cancel {ExtraCtx} _.
Arguments builder_signer {ExtraCtx} _.
Arguments extra_ctx {ExtraCtx} _.
Arguments max_gas_per_txn {ExtraCtx} _.
Arguments feature_interop {ExtraCtx} _.

Section Ctx.
Context {ExtraCtx : Type}.
Implicit Type ctx : OpPayloadBuilderCtx ExtraCtx.

Definition with_cancel ctx (c : CancellationToken) : OpPayloadBuilderCtx ExtraCtx :=
  mkCtx (max_da_tx_size ctx) (max_da_block_size ctx) (gas_limit_config ctx) (chain_spec ctx)
    (parent ctx) (attributes ctx) (evm_env ctx) (block_env_attributes ctx) c (builder_signer ctx)
    (extra_ctx ctx) (max_gas_per_txn ctx) (feature_interop ctx).

Definition with_extra_ctx ctx (e : ExtraCtx) : OpPayloadBuilderCtx ExtraCtx :=
  mkCtx (max_da_tx_size ctx) (max_da_block_size ctx) (gas_limit_config ctx) (chain_spec ctx)
    (parent ctx) (attributes ctx) (evm_env ctx) (block_env_attributes ctx) (cancel ctx)
    (builder_signer ctx) e (max_gas_per_txn ctx) (feature_interop ctx).

Definition parent_hash ctx : B256 := sh_hash (parent ctx).
Definition timestamp ctx : Z := attributes_timestamp (attributes ctx).
Definition payload_id ctx : Z := attr_payload_id (attributes ctx).

Definition is_regolith_active ctx : bool := regolith_at (chain_spec ctx) (timestamp ctx).
Definition is_canyon_active ctx : bool := canyon_at (chain_spec ctx) (timestamp ctx).
Definition is_ecotone_active ctx : bool := ecotone_at (chain_spec ctx) (timestamp ctx).
Definition is_holocene_active ctx : bool := holocene_at (chain_spec ctx) (timestamp ctx).
Definition is_isthmus_active ctx : bool := isthmus_at (chain_spec ctx) (timestamp ctx).
Definition is_jovian_active ctx : bool := jovian_at (chain_spec ctx) (timestamp ctx).
Definition chain_id ctx : Z := spec_chain_id (chain_spec ctx).

Definition withdrawals ctx : option (list Z) :=
  if shanghai_at (chain_spec ctx) (timestamp ctx) then Some (attr_withdrawals (attributes ctx))
  else None.

Definition block_gas_limit ctx : Z :=
  match gas_limit_config ctx with
  | Some gas_limit => gas_limit
  | None => unwrap_or (attr_gas_limit (attributes ctx)) (env_gas_limit (evm_env ctx))
  end.

(** [as_u64_saturated!] of the 256-bit block number *)
Definition block_number ctx : Z := Z.min (env_number (evm_env ctx)) U64_MAX.

Definition base_fee ctx : Z := env_basefee (evm_env ctx).

(** a [u128] cast to [u64] *)
Definition get_blob_gasprice ctx : option Z := wrap64 <$> env_blob_gasprice (evm_env ctx).

Definition blob_fields {Extra E} ctx (info : ExecutionInfo Extra)
    : outcome E (option Z * option Z) :=
  match optional_blob_fields info with
  | Some blob_fields => Ok blob_fields
  | None =>
      if is_jovian_active ctx then
        let? scalar := expect (da_footprint_scalar info) in
        Ok (Some 0, Some (mul64 (cumulative_da_bytes_used info) scalar))
      else if is_ecotone_active ctx then Ok (Some 0, Some 0)
      else Ok (None, None)
  end.

Definition extra_data ctx : outcome PayloadBuilderError Bytes :=
  let params := base_fee_params_at_timestamp (chain_spec ctx) (timestamp ctx) in
  if is_jovian_active ctx then
    of_sum OtherExtraData (get_jovian_extra_data (attributes ctx) params)
  else if is_holocene_active ctx then
    of_sum OtherExtraData (get_holocene_extra_data (attributes ctx) params)
  else Ok [].

(** [BestTransactionsAttributes] *)
Definition best_transaction_attributes ctx : Z * option Z := (base_fee ctx, get_blob_gasprice ctx).

Definition build_receipt `{Externals} ctx (t : OpTransactionSigned) (result : ExecutionResult)
    (state : changes) (cumulative : Z) (deposit_nonce : option Z) : OpReceipt :=
  match rb_build_receipt t result state cumulative with
  | Some receipt => receipt
  | None =>
      let receipt := mkReceipt (is_success result) cumulative (into_logs result) in
      rb_build_deposit_receipt
        (mkDepositReceipt receipt deposit_nonce (if is_canyon_active ctx then Some 1 else None))
  end.

End Ctx.

(** A chain with every fork up to Isthmus, or up to Jovian, and a context on it. *)
Definition sample_spec (jovian : bool) : OpChainSpec :=
  mkChainSpec (fun _ => true) (fun _ => true) (fun _ => true) (fun _ => true) (fun _ => true)
    (fun _ => true) (fun _ => jovian) (fun _ => 0) 10.
Definition sample_attributes (txs : list OpTransactionSigned) : OpPayloadBuilderAttributes :=
  mkAttributes 900 77 1002 5 6 [] (Some 8) false txs (Some 30000000) (fun _ => inr []) (fun _ => inr []).
Definition sample_parent : SealedHeader := mkSealedHeader 900 41 30000000 901 1000.
Definition sample_env : EvmEnv := mkEvmEnv 42 1 30000000 6 (Some 1) false false false.
Definition sample_ctx {ExtraCtx} (jovian : bool) (txs : list OpTransactionSigned)
    (c : CancellationToken) (e : ExtraCtx) : OpPayloadBuilderCtx ExtraCtx :=
  mkCtx None (Some 100000) None (sample_spec jovian) sample_parent (sample_attributes txs)
    sample_env (mkNextBlockEnv 1002 6 5 30000000 (Some 8) []) c (Some (mkSigner 50 1)) e None false.
Definition never_cancelled : CancellationToken := fun _ => false.

(** ** Lemmas *)

Lemma monotone_child parent own : monotone parent -> monotone own -> monotone (child_token parent own).
Proof.
  intros Hp Ho n m Hle. unfold child_token. rewrite !orb_true_iff. intros [H|H]; eauto.
Qed.

Section Receipts.
Context `{X : Externals} `{R : !ReceiptLaws X} {ExtraCtx : Type}.
Implicit Type ctx : OpPayloadBuilderCtx ExtraCtx.

(** Every receipt, of a deposit or not, carries the status of the execution and the cumulative gas it
    was built with. *)
Lemma build_receipt_spec ctx t r c g n :
  rcpt_status (as_receipt (build_receipt ctx t r c g n)) = is_success r /\
  receipt_gas (build_receipt ctx t r c g n) = g.
Proof using R.
  unfold build_receipt, receipt_gas.
  destruct (rb_build_receipt t r c g) as [x|] eqn:E; [by apply rb_receipt in E|].
  by rewrite rb_deposit.
Qed.

Lemma build_receipt_gas ctx t r c g n : receipt_gas (build_receipt ctx t r c g n) = g.
Proof using R. apply build_receipt_spec. Qed.

(** The deposit nonce only matters for deposits. *)
Lemma build_receipt_no_deposit ctx t r c g n :
  is_deposit t = false -> build_receipt ctx t r c g n = build_receipt ctx t r c g None.
Proof using R.
  intros Hd. unfold build_receipt. destruct (rb_build_receipt t r c g) eqn:E; [done|].
  apply rb_declines_deposits in E. unfold is_deposit in Hd. rewrite E in Hd. done.
Qed.

End Receipts.

#[export] Hint Rewrite @build_receipt_gas : builder.

(** ** Properties *)

(** The blob fields of a header follow the fork: after Jovian the blob gas used is the data
    availability footprint (total bytes times the scalar) and the computation panics exactly when
    no scalar was recorded; after Ecotone both fields are zero; before they are absent.  Fields
    recorded in the info win. *)
Theorem blob_fields_spec {ExtraCtx Extra} (ctx : OpPayloadBuilderCtx ExtraCtx)
    (info : ExecutionInfo Extra) (r : outcome PayloadBuilderError (option Z * option Z)) :
  blob_fields ctx info = r ->
  match optional_blob_fields info, is_jovian_active ctx, is_ecotone_active ctx with
  | Some f, _, _ => r = Ok f
  | None, true, _ =>
      match da_footprint_scalar info with
      | Some s => (0 <= cumulative_da_bytes_used info * s < U64_MOD ->
                   r = Ok (Some 0, Some (cumulative_da_bytes_used info * s)))
      | None => r = Panic
      end
  | None, false, true => r = Ok (Some 0, Some 0)
  | None, false, false => r = Ok (None, None)
  end.
Proof.
  intros <-. unfold blob_fields. repeat case_match; simplify_eq/=; try done.
  intros Hr. by rewrite mul64_exact.
Qed.

Lemma blob_fields_spec_witness :
  blob_fields (sample_ctx true [] never_cancelled tt)
    (set_da_footprint_scalar (push_executed sample_info 21000 120 0
       (RLegacy (mkReceipt true 21000 [])) (mkRecovered (mkTx 1 Legacy (Some 7) 0 21000 0 0 0 [] []) 7))
       (Some 400)) = (Ok (Some 0, Some 48000) : outcome PayloadBuilderError _) /\
  blob_fields (sample_ctx true [] never_cancelled tt) sample_info
    = (Panic : outcome PayloadBuilderError _).
Proof.
  split.
  - apply (blob_fields_spec (sample_ctx true [] never_cancelled tt)
             (set_da_footprint_scalar (push_executed sample_info 21000 120 0
                (RLegacy (mkReceipt true 21000 []))
                (mkRecovered (mkTx 1 Legacy (Some 7) 0 21000 0 0 0 [] []) 7)) (Some 400)) _ eq_refl).
    vm_compute. done.
  - apply (blob_fields_spec (sample_ctx true [] never_cancelled tt) sample_info _ eq_refl).
Defined.
