(* ===== verification/Replay.v ===== *)
(** * What a block means

    The abstract specification every execution path of the builder refines: replaying a list of
    transactions one after the other from a state, the way a validator of the finished block does,
    and the promise [executes] that an execution info and a database describe such a replay. *)

From S2P Require Import Prelude External ExecInfo Sidecar Context.

Section Replay.
Context `{X : Externals} {ExtraCtx : Type}.
Implicit Type ctx : OpPayloadBuilderCtx ExtraCtx.

(** The nonce recorded in the receipt of a deposit, read before the deposit is executed; [inl] is a
    database error. *)
Definition depositor_nonce ctx (d : db) (t : Recovered) : unit + option Z :=
  if is_regolith_active ctx && is_deposit (inner t) then
    match load_cache_account d (signer t) with
    | inl e => inl e
    | inr acc => inr (Some (acc_nonce (unwrap_or acc default_account)))
    end
  else inr None.

(** One transaction: its receipt, the state after it and the cumulative gas; [None] when it cannot
    be executed. *)
Definition replay_tx ctx (t : Recovered) (d : db) (gas : Z) : option (OpReceipt * db * Z) :=
  match depositor_nonce ctx d t, transact (evm_env ctx) d t with
  | inr nonce, inr (result, state) =>
      let gas' := add64 gas (gas_used result) in
      Some (build_receipt ctx (inner t) result state gas' nonce, commit d state, gas')
  | _, _ => None
  end.

Fixpoint replay ctx (ts : list Recovered) (d : db) (gas : Z) : option (list OpReceipt * db * Z) :=
  match ts with
  | [] => Some ([], d, gas)
  | t :: ts' =>
      match replay_tx ctx t d gas with
      | Some (r, d', gas') =>
          match replay ctx ts' d' gas' with
          | Some (rs, d'', gas'') => Some (r :: rs, d'', gas'')
          | None => None
          end
      | None => None
      end
  end.

(** [info] and [d] are what replaying the transactions of [info] from [d0] gives: the receipts, the
    state and the gas. *)
Definition executes {Extra} ctx (d0 : db) (info : ExecutionInfo Extra) (d : db) : Prop :=
  replay ctx (zip_with mkRecovered (executed_transactions info) (executed_senders info)) d0 0
    = Some (receipts info, d, cumulative_gas_used info) /\
  length (executed_senders info) = length (executed_transactions info).

(** ** Lemmas *)

Lemma replay_app ctx ts us d gas :
  replay ctx (ts ++ us) d gas =
  match replay ctx ts d gas with
  | Some (rs, d', gas') =>
      match replay ctx us d' gas' with
      | Some (rs', d'', gas'') => Some (rs ++ rs', d'', gas'')
      | None => None
      end
  | None => None
  end.
Proof.
  revert d gas. induction ts as [|t ts IH]; intros d gas; simpl.
  { by destruct (replay ctx us d gas) as [[[]]|]. }
  destruct (replay_tx ctx t d gas) as [[[r d'] g']|]; [|done]. rewrite IH.
  destruct (replay ctx ts d' g') as [[[]]|]; [|done].
  by destruct (replay ctx us _ _) as [[[]]|].
Qed.

Lemma executes_initial {Extra} ctx d (e : Extra) : executes ctx d (with_capacity e) d.
Proof. done. Qed.

Lemma executes_set_scalar {Extra} ctx d0 (info : ExecutionInfo Extra) d s :
  executes ctx d0 info d -> executes ctx d0 (set_da_footprint_scalar info s) d.
Proof. done. Qed.

Lemma executes_set_extra {Extra} ctx d0 (info : ExecutionInfo Extra) d e :
  executes ctx d0 info d -> executes ctx d0 (set_extra info e) d.
Proof. done. Qed.

(** Pushing a transaction that replays keeps the promise. *)
Lemma executes_push {Extra} ctx d0 (info : ExecutionInfo Extra) d t r d' gas da fees :
  executes ctx d0 info d ->
  replay_tx ctx t d (cumulative_gas_used info) = Some (r, d', gas) ->
  executes ctx d0 (push_executed info gas da fees r t) d'.
Proof.
  intros [Hr Hl] Ht. split; simpl; [|rewrite !length_app; simpl; lia].
  rewrite zip_with_app, replay_app, Hr by done. destruct t as [t a]. simpl in *.
  by rewrite Ht.
Qed.

(** The context matters only through the fork activations and the EVM environment. *)
Lemma replay_tx_ext ctx ctx' t d gas :
  is_regolith_active ctx = is_regolith_active ctx' ->
  is_canyon_active ctx = is_canyon_active ctx' -> evm_env ctx = evm_env ctx' ->
  replay_tx ctx t d gas = replay_tx ctx' t d gas.
Proof.
  intros Hr Hc He. unfold replay_tx, depositor_nonce, build_receipt. by rewrite Hr, Hc, He.
Qed.

Lemma replay_ext ctx ctx' ts d gas :
  is_regolith_active ctx = is_regolith_active ctx' ->
  is_canyon_active ctx = is_canyon_active ctx' -> evm_env ctx = evm_env ctx' ->
  replay ctx ts d gas = replay ctx' ts d gas.
Proof.
  intros Hr Hc He. revert d gas. induction ts as [|t ts IH]; intros d gas; simpl; [done|].
  rewrite (replay_tx_ext ctx ctx') by done.
  destruct (replay_tx ctx' t d gas) as [[[r d'] g']|]; [|done]. by rewrite IH.
Qed.

(** A transaction that is not a deposit replays to what the loops that build no deposit nonce
    compute. *)
Lemma replay_tx_no_deposit ctx t d gas result state :
  is_deposit (inner t) = false -> transact (evm_env ctx) d t = inr (result, state) ->
  replay_tx ctx t d gas =
    Some (build_receipt ctx (inner t) result state (add64 gas (gas_used result)) None,
          commit d state, add64 gas (gas_used result)).
Proof.
  intros Hd Ht. unfold replay_tx, depositor_nonce. by rewrite Hd, andb_false_r, Ht.
Qed.

End Replay.

#[export] Hint Resolve executes_initial executes_set_scalar executes_set_extra executes_push
  : builder.
