(* ===== verification/Sequencer.v ===== *)
(** * The sequencer transactions

    Models [OpPayloadBuilderCtx::execute_sequencer_transactions] of [builders/context.rs]: the
    transactions of the payload attributes, executed first and in order. *)

From S2P Require Import Prelude External ExecInfo PoolTx Sidecar Context Replay.

Section Sequencer.
Context `{X : Externals} {ExtraCtx E : Type}.
Implicit Type ctx : OpPayloadBuilderCtx ExtraCtx.

Abbreviation SeqState := (ExecutionInfo E * db)%type (only parsing).
Abbreviation SeqResult := (outcome PayloadBuilderError (ExecutionInfo E) * db)%type (only parsing).

(** One iteration of the loop. *)
Definition sequencer_body ctx (sequencer_tx : OpTransactionSigned) (s : SeqState)
    : ctl SeqState SeqResult :=
  let '(info, d) := s in
  if is_eip4844 sequencer_tx then Stop (Err (OtherOp BlobTransactionRejected), d)
  else
    match try_clone_into_recovered sequencer_tx with
    | None => Stop (Err (OtherOp TransactionEcRecoverFailed), d)
    | Some tx =>
        match depositor_nonce ctx d tx with
        | inl _ => Stop (Err (OtherOp (AccountLoadFailed (signer tx))), d)
        | inr depositor_nonce =>
            match transact (evm_env ctx) d tx with
            | inl err =>
                if is_invalid_tx_err err then Next (info, d)
                else Stop (Err (EvmExecutionError err), d)
            | inr (result, state) =>
                let gas := add64 (cumulative_gas_used info) (gas_used result) in
                let da :=
                  if negb (is_deposit (inner tx)) then
                    add64 (cumulative_da_bytes_used info)
                      (tx_estimated_size_fjord_bytes (tx_encoded_2718 (inner tx)))
                  else cumulative_da_bytes_used info in
                let receipt := build_receipt ctx (inner tx) result state gas depositor_nonce in
                Next (push_executed info gas da (total_fees info) receipt tx, commit d state)
            end
        end
    end.

(** What follows the loop: the footprint scalar, which must be there after Jovian. *)
Definition record_scalar ctx (info : ExecutionInfo E) (d : db)
    : outcome PayloadBuilderError (ExecutionInfo E) :=
  let? scalar :=
    (if is_jovian_active ctx then
       let? s := expect (fetch_da_footprint_gas_scalar d) in Ok (Some s)
     else Ok None) in
  Ok (set_da_footprint_scalar info scalar).

Definition execute_sequencer_transactions ctx (default_extra : E) (d : db) : SeqResult :=
  match for_each (sequencer_body ctx) (attr_transactions (attributes ctx))
          (with_capacity default_extra, d) with
  | Next (info, d') => (record_scalar ctx info d', d')
  | Stop r => r
  end.

(** ** Specification *)

(** Why a transaction of the attributes makes the whole job fail when its turn comes in the state [d]. *)
Definition fatal ctx (d : db) (e : PayloadBuilderError) (t : OpTransactionSigned) : Prop :=
  match e with
  | OtherOp BlobTransactionRejected => is_eip4844 t = true
  | OtherOp TransactionEcRecoverFailed => tx_from t = None
  | OtherOp (AccountLoadFailed a) =>
      tx_from t = Some a /\ exists e, depositor_nonce ctx d (mkRecovered t a) = inl e
  | EvmExecutionError err =>
      exists a, tx_from t = Some a /\ transact (evm_env ctx) d (mkRecovered t a) = inl err /\
        is_invalid_tx_err err = false
  | _ => False
  end.

(** Which transactions of a list are executed from [d0] on, and the state and the gas after them: the EVM
    rejects one as invalid when its turn comes, or it is executed. *)
Inductive accepted ctx (d0 : db) : list OpTransactionSigned -> list Recovered -> db -> Z -> Prop :=
| accepted_nil : accepted ctx d0 [] [] d0 0
| accepted_invalid pre l d gas t a err :
    accepted ctx d0 pre l d gas -> tx_from t = Some a ->
    transact (evm_env ctx) d (mkRecovered t a) = inl err -> is_invalid_tx_err err = true ->
    accepted ctx d0 (pre ++ [t]) l d gas
| accepted_valid pre l d gas t a r d' gas' :
    accepted ctx d0 pre l d gas -> tx_from t = Some a ->
    replay_tx ctx (mkRecovered t a) d gas = Some (r, d', gas') ->
    accepted ctx d0 (pre ++ [t]) (l ++ [mkRecovered t a]) d' gas'.

(** The data availability size of the transactions that are not deposits. *)
Definition da_of (txs : list OpTransactionSigned) : Z :=
  fold_left (fun da t => if is_deposit t then da
                         else add64 da (tx_estimated_size_fjord_bytes (tx_encoded_2718 t))) txs 0.

(** The transactions of an info with their senders. *)
Definition recovered_of (info : ExecutionInfo E) : list Recovered :=
  zip_with mkRecovered (executed_transactions info) (executed_senders info).

(** What the loop maintains after the transactions [pre]: a replay of those that were valid when
    their turn came, in order. *)
Definition seq_inv ctx (d0 : db) (pre : list OpTransactionSigned) (s : SeqState) : Prop :=
  executes ctx d0 (fst s) (snd s) /\
  accepted ctx d0 pre (recovered_of (fst s)) (snd s) (cumulative_gas_used (fst s)) /\
  (total_fees (fst s) = 0 /\ cumulative_da_bytes_used (fst s) = da_of (executed_transactions (fst s))) /\
  Forall (fun t => is_eip4844 t = false /\ is_Some (tx_from t)) pre /\
  (0 <= sum_Z (tx_gas_limit <$> pre) < U64_MOD -> Forall (fun t => 0 <= tx_gas_limit t) pre ->
   wf_info (fst s) /\ cumulative_gas_used (fst s) <= sum_Z (tx_gas_limit <$> pre)).

(** Attributes with a deposit, a transaction with a wrong nonce and one that reverts. *)
Definition sample_deposit : OpTransactionSigned := mkTx 1 DepositTx (Some 6) 0 50000 0 0 0 [] [].
Definition sample_sequencer_txs : list OpTransactionSigned :=
  [sample_deposit; inner (sample_tx 2 7 3 []); inner (sample_tx 3 7 0 [1])].

(** ** Lemmas *)

Lemma sequencer_body_Stop ctx t info d r :
  sequencer_body ctx t (info, d) = Stop r ->
  exists e, r = (Err e, d) /\ fatal ctx d e t.
Proof.
  unfold sequencer_body, try_clone_into_recovered.
  destruct (is_eip4844 t) eqn:Hb. { intros [= <-]. by eexists. }
  destruct (tx_from t) as [a|] eqn:Hf; simpl. 2: { intros [= <-]. by eexists. }
  intros H. repeat case_match; simplify_eq/=; reflect_bools; eexists; (split; [done|]); simpl; eauto.
Qed.

(** The extra information is left at its default. *)
Lemma execute_sequencer_extra ctx (e : E) d info d' :
  execute_sequencer_transactions ctx e d = (Ok info, d') ->
  extra info = e ∧ optional_blob_fields info = None.
Proof.
  unfold execute_sequencer_transactions.
  pose proof (for_each_invariant (fun s : SeqState => extra (fst s) = e ∧ optional_blob_fields (fst s) = None)
    (fun r : SeqResult => is_ok (fst r) = false) (sequencer_body ctx)
    (attr_transactions (attributes ctx))) as H.
  specialize (H ltac:(intros x [i d1] s' _ Hs Hn; unfold sequencer_body in Hn;
                      repeat case_match; by simplify_eq/=)
                ltac:(intros x [i d1] r _ _ (err & -> & _)%sequencer_body_Stop; done)
                (with_capacity e, d) ltac:(done)).
  destruct (for_each _ _ _) as [[i d1]|r]; [|intros ->; by simpl in H].
  unfold record_scalar. intros [= Hr _]. apply bind_Ok in Hr as (sc & _ & [= <-]). done.
Qed.

Context `{G : !EvmGas X} `{RL : !ReceiptLaws X} `{F : !FlzLaws X}.

Lemma sequencer_body_Next ctx t info d s' d0 pre :
  seq_inv ctx d0 pre (info, d) -> sequencer_body ctx t (info, d) = Next s' ->
  seq_inv ctx d0 (pre ++ [t]) s'.
Proof using G RL F.
  intros (He & Hacc & [Hfee Hda] & Hf & Hw). pose proof He as [_ Hlen]. unfold sequencer_body, try_clone_into_recovered.
  destruct (is_eip4844 t) eqn:Hb; [done|].
  destruct (tx_from t) as [a|] eqn:Ha; simpl; [|done].
  destruct (depositor_nonce ctx d (mkRecovered t a)) as [|nonce] eqn:Hn; [done|].
  assert (Hf' : Forall (fun t => is_eip4844 t = false /\ is_Some (tx_from t)) (pre ++ [t])).
  { apply Forall_app. split; [done|]. constructor; [|done]. rewrite Ha. eauto. }
  destruct (transact (evm_env ctx) d (mkRecovered t a)) as [err|[result state]] eqn:Ht.
  - destruct (is_invalid_tx_err err) eqn:Hinv; [|done]. intros [= <-].
    split_and!; [done|by eapply accepted_invalid|done..|]. simpl in *.
    rewrite fmap_app, sum_Z_app, Forall_app. simpl. intros Hr [Hp [Hp0 _]%Forall_cons].
    assert (0 <= sum_Z (tx_gas_limit <$> pre)) by (by apply sum_Z_nonneg, Forall_fmap).
    destruct Hw as [? ?]; [lia|done|]. split; [done|lia].
  - intros [= <-]. simpl in *.
    assert (Hrep : replay_tx ctx (mkRecovered t a) d (cumulative_gas_used info)
      = Some (build_receipt ctx t result state (add64 (cumulative_gas_used info) (gas_used result)) nonce,
              commit d state, add64 (cumulative_gas_used info) (gas_used result))).
    { unfold replay_tx. by rewrite Hn, Ht. }
    split_and!; [by eapply executes_push| |done| |done|].
    + unfold recovered_of. simpl. rewrite zip_with_app by done. by eapply accepted_valid.
    + simpl. unfold da_of in *. rewrite fold_left_app, <- Hda. simpl. by destruct (is_deposit t).
    + rewrite fmap_app, sum_Z_app, Forall_app. simpl. intros Hr [Hp [Hp0 _]%Forall_cons].
      assert (0 <= sum_Z (tx_gas_limit <$> pre)) by (by apply sum_Z_nonneg, Forall_fmap).
      destruct Hw as [Hwf Hle]; [lia|done|]. apply transact_gas in Ht. simpl in Ht.
      pose proof (wf_gas _ Hwf) as [? _]. rewrite add64_exact by lia. split; [|lia].
      apply wf_push_executed; simpl; auto with builder_wf; [lia|split; lia| |].
      * case_match; [apply add64_range|]. apply (wf_da _ Hwf).
      * apply build_receipt_gas.
Qed.

Lemma seq_inv_initial ctx d (e : E) : seq_inv ctx d [] (with_capacity e, d).
Proof.
  split_and!; simpl; auto with builder; [constructor|]. intros. split; [apply wf_with_capacity|lia].
Qed.

(** The state after the loop, or where and why it stopped. *)
Lemma sequencer_loop_spec ctx d (e : E) txs :
  match for_each (sequencer_body ctx) txs (with_capacity e, d) with
  | Next s => seq_inv ctx d txs s
  | Stop r => exists pre t post l gas err d', txs = pre ++ t :: post /\ r = (Err err, d') /\
                accepted ctx d pre l d' gas /\ fatal ctx d' err t
  end.
Proof using G RL F.
  assert (Hpre : forall pre s, for_each (sequencer_body ctx) pre (with_capacity e, d) = Next s ->
    seq_inv ctx d pre s).
  { intros pre s Hs. pose proof (for_each_prefix_invariant (seq_inv ctx d) (fun _ => True) (sequencer_body ctx)
      ltac:(intros pre' x [info d1] s' HI; by apply sequencer_body_Next) ltac:(done)
      pre [] _ (seq_inv_initial ctx d e)) as H. by rewrite Hs in H. }
  destruct (for_each _ _ _) as [s|r] eqn:Hf; [by apply Hpre|].
  apply for_each_Stop in Hf as (pre & t & post & [info d1] & -> & Hp & Hb).
  apply sequencer_body_Stop in Hb as (err & -> & Hfat).
  apply Hpre in Hp as (_ & Hacc & _). by eexists pre, t, post, _, _, err, d1.
Qed.

Lemma accepted_sublist ctx d0 pre l d gas : accepted ctx d0 pre l d gas -> inner <$> l `sublist_of` pre.
Proof.
  induction 1 as [|? ? ? ? ? ? ? _ IH|? ? ? ? ? ? ? ? ? _ IH]; [done|by apply sublist_inserts_r|].
  rewrite fmap_app. by apply sublist_app.
Qed.

(** What a successful call returns. *)
Lemma execute_sequencer_accepts ctx (e : E) d info d' :
  execute_sequencer_transactions ctx e d = (Ok info, d') ->
  executes ctx d info d' ∧
  accepted ctx d (attr_transactions (attributes ctx)) (recovered_of info) d' (cumulative_gas_used info).
Proof using G RL F.
  unfold execute_sequencer_transactions.
  pose proof (sequencer_loop_spec ctx d e (attr_transactions (attributes ctx))) as Hl.
  destruct (for_each _ _ _) as [[i d1]|r]; [|destruct Hl as (? & ? & ? & ? & ? & ? & ? & _ & -> & _); discriminate].
  intros [= Hr ->]. unfold record_scalar in Hr. apply bind_Ok in Hr as (sc & _ & [= <-]).
  destruct Hl as (? & ? & _). auto with builder.
Qed.

Lemma execute_sequencer_executes ctx (e : E) d info d' :
  execute_sequencer_transactions ctx e d = (Ok info, d') ->
  executes ctx d info d' ∧ executed_transactions info `sublist_of` attr_transactions (attributes ctx).
Proof using G RL F.
  intros [He Ha%accepted_sublist]%execute_sequencer_accepts. split; [done|].
  destruct He as [_ Hlen]. unfold recovered_of in Ha. by rewrite fmap_zip_with_l in Ha by (done || lia).
Qed.

End Sequencer.

(** ** Properties *)

(** C19: executing the sequencer transactions goes through the transactions of the attributes in their
    order; one is left out just when the EVM rejects it as invalid in the state its turn came in, and all
    others are executed.  The info that is returned describes exactly these: the block replays from the
    initial state to its receipts, state and gas, it counts the data availability of those that are not
    deposits and no fees, and it records the footprint scalar exactly after Jovian.  The call fails at the
    first transaction that is a blob transaction, has no recoverable signer, is a deposit whose account
    cannot be loaded or breaks the EVM in the state reached, and panics only when the scalar is missing
    after Jovian.  Gas limits whose sum fits a [u64] keep the info well formed. *)
Theorem execute_sequencer_transactions_spec `{X : Externals} `{!EvmGas X} `{!ReceiptLaws X}
    `{!FlzLaws X} {ExtraCtx E : Type} (ctx : OpPayloadBuilderCtx ExtraCtx) (e : E) d res d' :
  execute_sequencer_transactions ctx e d = (res, d') ->
  let txs := attr_transactions (attributes ctx) in
  match res with
  | Ok info =>
      executes ctx d info d' /\
      accepted ctx d txs (recovered_of info) d' (cumulative_gas_used info) /\
      total_fees info = 0 /\ cumulative_da_bytes_used info = da_of (executed_transactions info) /\
      Forall (fun t => is_eip4844 t = false /\ is_Some (tx_from t)) txs /\
      da_footprint_scalar info
        = (if is_jovian_active ctx then fetch_da_footprint_gas_scalar d' else None) /\
      (sum_Z (tx_gas_limit <$> txs) < U64_MOD -> Forall (fun t => 0 <= tx_gas_limit t) txs ->
       wf_info info /\ cumulative_gas_used info <= sum_Z (tx_gas_limit <$> txs))
  | Err err => exists pre t post l gas, txs = pre ++ t :: post /\ accepted ctx d pre l d' gas /\
      fatal ctx d' err t
  | Panic => is_jovian_active ctx = true /\ fetch_da_footprint_gas_scalar d' = None
  end.
Proof.
  intros H txs. unfold execute_sequencer_transactions in H.
  pose proof (sequencer_loop_spec ctx d e txs) as Hl. fold txs in H.
  destruct (for_each (sequencer_body ctx) txs (with_capacity e, d)) as [[info d1]|r].
  2: { destruct Hl as (pre & t & post & l & gas & err & d1 & Heq & -> & Ha & Hf). injection H as <- <-.
       by exists pre, t, post, l, gas. }
  injection H as <- <-. destruct Hl as (He & Hs & [Hfee Hda] & Hf & Hw). unfold record_scalar. simpl in *.
  assert (Hw' : sum_Z (tx_gas_limit <$> txs) < U64_MOD ->
    Forall (fun t => 0 <= tx_gas_limit t) txs ->
    wf_info info ∧ cumulative_gas_used info <= sum_Z (tx_gas_limit <$> txs)).
  { intros Hr Hp. apply Hw; [|done]. split; [|done]. by apply sum_Z_nonneg, Forall_fmap. }
  destruct (is_jovian_active ctx); simpl;
    [destruct (fetch_da_footprint_gas_scalar d1) eqn:Hsc; simpl; [|done]|];
    (split_and!; [done..|]; intros Hr Hp; destruct (Hw' Hr Hp); split; [|done]);
    by apply wf_set_da_footprint_scalar.
Qed.

Import TestChain.

(** A deposit, a transaction whose nonce is not the account's, and a transaction that reverts: the
    second is skipped, the third is included with a failed receipt. *)
Lemma execute_sequencer_transactions_spec_witness :
  executes (X := TestChain.chain) (sample_ctx true sample_sequencer_txs never_cancelled tt) []
    (mkInfo [sample_deposit; inner (sample_tx 3 7 0 [1])] [6; 7]
       [RDeposit (mkDepositReceipt (mkReceipt true 21000 []) (Some 0) (Some 1));
        REip1559 (mkReceipt false 42000 [])] 42000 100 0 tt (Some 400) None)
    [(7, 1); (6, 1)].
Proof.
  destruct (execute_sequencer_transactions_spec (X := TestChain.chain)
              (sample_ctx true sample_sequencer_txs never_cancelled tt) tt []
              (Ok (mkInfo [sample_deposit; inner (sample_tx 3 7 0 [1])] [6; 7]
                 [RDeposit (mkDepositReceipt (mkReceipt true 21000 []) (Some 0) (Some 1));
                  REip1559 (mkReceipt false 42000 [])] 42000 100 0 tt (Some 400) None))
              [(7, 1); (6, 1)]) as [H _]; [vm_compute; reflexivity|exact H].
Defined.
