(* ===== verification/BestExec.v ===== *)
(** * Executing the transactions of the pool

    Models [OpPayloadBuilderCtx::execute_best_transactions] of [builders/context.rs].  The loop is
    the composition of the checks before the simulation ([precheck]), the simulation, the checks
    after it ([settle]) and the update of the execution info ([include]).  Its specification is the
    relation [inclusions]: a sequence of transactions, each admitted in the state the ones before it
    left.  Metrics are not modelled; what the code logs about a transaction is. *)

From S2P Require Import Prelude External ExecInfo GasLimiter PoolTx BestTxs Sidecar Context Replay.

(** Everything the loop changes: the info, the database, the iterator, the shared gas limiter, the
    number of looks at the cancellation token, and the log. *)
Record ExecState `{Externals} (E It : Type) : Type := mkExec {
  st_info : ExecutionInfo E;
  st_db : db;
  st_best : It;
  st_limiter : AddressGasLimiter;
  st_now : nat;
  st_log : list (B256 * TxnExecutionResult);
}.
Arguments mkExec {_ E It}.
Arguments st_info {_ E It} _.
Arguments st_db {_ E It} _.
Arguments st_best {_ E It} _.
Arguments st_limiter {_ E It} _.
Arguments st_now {_ E It} _.
Arguments st_log {_ E It} _.

(** A transaction about to be included, with its execution result, its receipt and its tip. *)
Record Included : Type := mkIncluded {
  inc_tx : FBPooledTransaction;
  inc_result : ExecutionResult;
  inc_receipt : OpReceipt;
  inc_tip : Z;
}.

Definition inc_gas (i : Included) : Z := gas_used (inc_result i).
Definition inc_da (i : Included) : Z := estimated_da_size (inc_tx i).

(** The updates of the info. *)
Definition include {E} (info : ExecutionInfo E) (i : Included) : ExecutionInfo E :=
  push_executed info (add64 (cumulative_gas_used info) (inc_gas i))
    (add64 (cumulative_da_bytes_used info) (inc_da i))
    (add256 (total_fees info) (mul256 (inc_tip i) (inc_gas i)))
    (inc_receipt i) (into_consensus (inc_tx i)).

(** A pool transaction the node accepts: its signer was recovered, its data availability size is a
    [u64], and its gas limit is one the pool validated, so that it does not overflow when added to
    gas totals up to [bound]. *)
Definition pool_tx_ok (bound : Z) (ptx : FBPooledTransaction) : Prop :=
  tx_from (inner (into_consensus ptx)) = Some (signer (into_consensus ptx)) ∧
  in_u64 (estimated_da_size ptx) ∧
  bound + tx_gas_limit (inner (into_consensus ptx)) < U64_MOD.

Section BestExec.
Context `{X : Externals} {ExtraCtx E It : Type} `{PT : PayloadTransactions It}.
Context (ctx : OpPayloadBuilderCtx ExtraCtx) (lim : Limits).
Implicit Type s : ExecState E It.

(** [best_txs.mark_invalid] and [log_txn] *)
Definition mark_tx s (tx : Recovered) : ExecState E It :=
  mkExec (st_info s) (st_db s) (pt_mark_invalid (st_best s) (signer tx) (tx_nonce (inner tx)))
    (st_limiter s) (st_now s) (st_log s).
Definition log_txn s (tx : Recovered) (r : TxnExecutionResult) : ExecState E It :=
  mkExec (st_info s) (st_db s) (st_best s) (st_limiter s) (st_now s)
    (st_log s ++ [(tx_hash (inner tx), r)]).
Definition set_best s (b : It) : ExecState E It :=
  mkExec (st_info s) (st_db s) b (st_limiter s) (st_now s) (st_log s).
Definition set_limiter s (l : AddressGasLimiter) : ExecState E It :=
  mkExec (st_info s) (st_db s) (st_best s) l (st_now s) (st_log s).
Definition tick s : ExecState E It :=
  mkExec (st_info s) (st_db s) (st_best s) (st_limiter s) (S (st_now s)) (st_log s).

Definition block_attr : BlockConditionalAttributes := mkBlockAttr (block_number ctx) (timestamp ctx).

Definition limit_check (info : ExecutionInfo E) (ptx : FBPooledTransaction)
    : outcome TxnExecutionResult unit :=
  is_tx_over_limits info (estimated_da_size ptx) (lim_gas lim) (max_da_tx_size ctx) (lim_da lim)
    (tx_gas_limit (inner (into_consensus ptx))) (da_footprint_scalar info) (lim_da_footprint lim).

(** The checks before the simulation; [Some] skips the transaction and its descendants, with what is
    logged, if anything. *)
Definition precheck (info : ExecutionInfo E) (ptx : FBPooledTransaction)
    : option (option TxnExecutionResult) :=
  let tx := into_consensus ptx in
  if is_some_and (tx_conditional ptx) (fun c => negb (matches_block_attributes c block_attr)) then
    Some None
  else if feature_interop ctx &&
          is_some_and (interop_deadline ptx) (fun i => negb (is_valid_interop i (timestamp ctx))) then
    Some (Some InteropFailed)
  else
    match limit_check info ptx with
    | Err result => Some (Some result)
    | _ =>
        if is_eip4844 (inner tx) || is_deposit (inner tx) then Some (Some SequencerTransaction)
        else None
    end.

Abbreviation BestResult :=
  (outcome PayloadBuilderError (option unit) * ExecState E It)%type (only parsing).

(** Including the transaction.  The [expect] on the fee comes after the commit; the state of a
    panic is not observable. *)
Definition include_tx (ptx : FBPooledTransaction) (result : ExecutionResult) (state : changes) s
    : ctl (ExecState E It) BestResult :=
  let tx := into_consensus ptx in
  let receipt :=
    build_receipt ctx (inner tx) result state
      (add64 (cumulative_gas_used (st_info s)) (gas_used result)) None in
  match effective_tip_per_gas (inner tx) (base_fee ctx) with
  | None => Stop (Panic, s)
  | Some miner_fee =>
      Next (mkExec (include (st_info s) (mkIncluded ptx result receipt miner_fee))
              (commit (st_db s) state) (st_best s) (st_limiter s) (st_now s) (st_log s))
  end.

(** The checks after the simulation: the gas limiter, reverts, the gas cap per transaction. *)
Definition settle (ptx : FBPooledTransaction) (result : ExecutionResult) (state : changes) s
    : ctl (ExecState E It) BestResult :=
  let tx := into_consensus ptx in
  let '(granted, limiter) := consume_gas (st_limiter s) (signer tx) (gas_used result) in
  let s := set_limiter s limiter in
  if negb (is_ok granted) then Next (mark_tx (log_txn s tx MaxGasUsageExceeded) tx)
  else if negb (is_success result) && revert_protected ptx then
    Next (mark_tx (log_txn s tx RevertedAndExcluded) tx)
  else
    let s := log_txn s tx (if is_success result then SuccessResult else Reverted) in
    if is_some_and (max_gas_per_txn ctx) (fun m => m <? gas_used result) then
      Next (mark_tx (log_txn s tx MaxGasUsageExceeded) tx)
    else include_tx ptx result state s.

(** One iteration of [while let Some(tx) = best_txs.next(())]. *)
Definition consider s : ctl (ExecState E It) BestResult :=
  match pt_next (st_best s) with
  | (None, b) => Stop (Ok None, set_best s b)
  | (Some ptx, b) =>
      let s := set_best s b in
      let tx := into_consensus ptx in
      match precheck (st_info s) ptx with
      | Some (Some r) => Next (mark_tx (log_txn s tx r) tx)
      | Some None => Next (mark_tx s tx)
      | None =>
          if is_cancelled (cancel ctx) (st_now s) then Stop (Ok (Some tt), tick s)
          else
            let s := tick s in
            match transact (evm_env ctx) (st_db s) tx with
            | inl (InvalidTx true _) => Next (log_txn s tx NonceTooLow)
            | inl (InvalidTx false e) => Next (mark_tx (log_txn s tx (InternalError e)) tx)
            | inl err => Stop (Err (EvmExecutionError err), log_txn s tx EvmErrorResult)
            | inr (result, state) => settle ptx result state s
            end
      end
  end.

(** The whole loop; the fuel is one more than what the iterator can yield. *)
Definition execute_best_transactions s : option BestResult :=
  while_loop (S (remaining (st_best s))) consider s.

(** ** Specification *)

(** A transaction the code may include when the info is [info] and the database [d]; [d'] is the
    database after it. *)
Record admits (P : FBPooledTransaction -> Prop) (info : ExecutionInfo E) (d : db) (i : Included)
    (d' : db) : Prop := {
  adm_pool : P (inc_tx i);
  adm_conditional : forall c, tx_conditional (inc_tx i) = Some c ->
    matches_block_attributes c block_attr = true;
  adm_interop : forall t, feature_interop ctx = true -> interop_deadline (inc_tx i) = Some t ->
    is_valid_interop t (timestamp ctx) = true;
  adm_limits : limit_check info (inc_tx i) = Ok tt;
  adm_blob : is_eip4844 (inner (into_consensus (inc_tx i))) = false;
  adm_deposit : is_deposit (inner (into_consensus (inc_tx i))) = false;
  adm_replay : replay_tx ctx (into_consensus (inc_tx i)) d (cumulative_gas_used info)
    = Some (inc_receipt i, d', add64 (cumulative_gas_used info) (inc_gas i));
  adm_gas : 0 <= inc_gas i <= tx_gas_limit (inner (into_consensus (inc_tx i)));
  adm_status : rcpt_status (as_receipt (inc_receipt i)) = is_success (inc_result i);
  adm_receipt : receipt_gas (inc_receipt i) = add64 (cumulative_gas_used info) (inc_gas i);
  adm_revert : revert_protected (inc_tx i) = true -> is_success (inc_result i) = true;
  adm_max_gas : forall m, max_gas_per_txn ctx = Some m -> inc_gas i <= m;
  adm_tip : effective_tip_per_gas (inner (into_consensus (inc_tx i))) (base_fee ctx)
    = Some (inc_tip i);
  adm_result : exists state, transact (evm_env ctx) d (into_consensus (inc_tx i))
    = inr (inc_result i, state) /\ d' = commit d state;
}.

(** A sequence of inclusions. *)
Inductive inclusions (P : FBPooledTransaction -> Prop) (info0 : ExecutionInfo E) (d0 : db)
    : list Included -> ExecutionInfo E -> db -> Prop :=
| inclusions_nil : inclusions P info0 d0 [] info0 d0
| inclusions_snoc l info d i d' :
    inclusions P info0 d0 l info d -> admits P info d i d' ->
    inclusions P info0 d0 (l ++ [i]) (include info i) d'.

(** What the loop includes on its way from a state to its result: the transactions that the iterator
    yielded in the iterations that pushed something, each with the result of its execution.  An iteration
    either leaves the block alone or pushes one transaction, so that the run determines the list. *)
Inductive picks : ExecState E It -> list Included -> BestResult -> Prop :=
| picks_end s r : consider s = Stop r -> picks s [] r
| picks_pass s s' l r :
    consider s = Next s' -> st_info s' = st_info s -> picks s' l r -> picks s l r
| picks_take s s' i state l r :
    consider s = Next s' -> fst (pt_next (st_best s)) = Some (inc_tx i) ->
    transact (evm_env ctx) (st_db s) (into_consensus (inc_tx i)) = inr (inc_result i, state) ->
    effective_tip_per_gas (inner (into_consensus (inc_tx i))) (base_fee ctx) = Some (inc_tip i) ->
    st_info s' = include (st_info s) i -> picks s' l r -> picks s (i :: l) r.

(** Why the loop ends when it started at the moment [now0]. *)
Definition ends_with (now0 : nat) (r : BestResult) : Prop :=
  (now0 <= st_now r.2)%nat ∧
  match r.1 with
  | Ok None => True
  | Ok (Some _) => exists n, st_now r.2 = S n ∧ (now0 <= n)%nat ∧ is_cancelled (cancel ctx) n = true
  | Err e => exists err, e = EvmExecutionError err ∧ is_invalid_tx_err err = false
  | Panic => False
  end.

(** *** The gas limiter *)

(** The gas of the transactions of [a] among the included. *)
Definition gas_of (a : Address) (l : list Included) : Z :=
  sum_Z (inc_gas <$> List.filter (fun i => signer (into_consensus (inc_tx i)) =? a) l).

(** The limiter granted the gas of every included transaction: what an address has left, and what its
    included transactions used, is at most what it had. *)
Definition charged (l0 : AddressGasLimiter) (l : list Included) (l1 : AddressGasLimiter) : Prop :=
  match limiter_inner l0 with
  | None => limiter_inner l1 = None
  | Some i0 => wf_inner i0 -> exists i1, limiter_inner l1 = Some i1 ∧ wf_inner i1 ∧
      limiter_config i1 = limiter_config i0 ∧
      forall a, gas_of a l + balance i1 a <= balance i0 a
  end.

(** *** Invariants of the loop *)

(** What the rejected branches leave alone. *)
Definition untouched s s' : Prop := st_info s' = st_info s /\ st_db s' = st_db s.

(** What the loop maintains. *)
Definition best_inv P s0 s : Prop :=
  yields_only P (st_best s) ∧ (st_now s0 <= st_now s)%nat ∧
  exists l, inclusions P (st_info s0) (st_db s0) l (st_info s) (st_db s) ∧
    charged (st_limiter s0) l (st_limiter s).

End BestExec.

(** ** A pool of four transactions

    Account 8 sends one that succeeds and one that reverts, account 9 a bundle transaction that
    reverts and is revert protected, and one that depends on it. *)
Definition sample_pool : list FBPooledTransaction :=
  [sample_pooled 2 8 0 []; with_reverted_hashes (sample_pooled 3 9 0 [1]) [];
   sample_pooled 4 9 1 []; sample_pooled 5 8 1 [1]].

Definition sample_limits : Limits := mkLimits 1000000 (Some 1000) None.

Definition sample_exec : ExecState (H := TestChain.chain) unit TestPool.pool_iter :=
  mkExec (H := TestChain.chain) (with_capacity tt) [] (TestPool.mkIter sample_pool [])
    (new_limiter (mkGasLimiterArgs true 50000 1000 10)) 0 [].

(** What the run on the sample pool gives. *)
Definition sample_final : ExecutionInfo unit :=
  mkInfo [inner (sample_tx 2 8 0 []); inner (sample_tx 5 8 1 [1])] [8; 8]
    [REip1559 (mkReceipt true 21000 []); REip1559 (mkReceipt false 42000 [])]
    42000 200 42000 tt None None.

(** ** Lemmas *)

Lemma gas_of_app a l l' : gas_of a (l ++ l') = gas_of a l + gas_of a l'.
Proof. unfold gas_of. by rewrite List.filter_app, fmap_app, sum_Z_app. Qed.

Lemma charged_refl l : charged l [] l.
Proof.
  unfold charged. destruct (limiter_inner l) as [i|]; [|done]. intros Hwf. exists i.
  split_and!; [done..|]. intros a. unfold gas_of. simpl. lia.
Qed.

Lemma charged_app l0 l l1 l' l2 : charged l0 l l1 -> charged l1 l' l2 -> charged l0 (l ++ l') l2.
Proof.
  unfold charged. intros H0 H1. destruct (limiter_inner l0) as [i0|].
  - intros Hwf. destruct (H0 Hwf) as (i1 & E1 & Hwf1 & Hc1 & Hb1). rewrite E1 in H1.
    destruct (H1 Hwf1) as (i2 & E2 & Hwf2 & Hc2 & Hb2). exists i2. split_and!; [done..|congruence|].
    intros a. rewrite gas_of_app. specialize (Hb1 a). specialize (Hb2 a). lia.
  - by rewrite H0 in H1.
Qed.

(** Asking the limiter charges the transaction when it is granted, and nothing otherwise. *)
Lemma consume_gas_charged l i granted l' :
  0 <= inc_gas i -> consume_gas l (signer (into_consensus (inc_tx i))) (inc_gas i) = (granted, l') ->
  charged l [] l' ∧ (is_ok granted = true -> charged l [i] l').
Proof.
  intros Hg. unfold consume_gas, charged, gas_of. destruct (limiter_inner l) as [i0|] eqn:E.
  2: { by intros [= <- <-]. }
  set (who := signer _). destruct (consume_gas_inner i0 who (inc_gas i)) as [r i1] eqn:Hc.
  intros [= <- <-]. simpl.
  assert (Hspec : wf_inner i0 -> wf_inner i1 ∧ limiter_config i1 = limiter_config i0 ∧
    forall a, balance i1 a + (if is_ok r && (who =? a) then inc_gas i else 0) <= balance i0 a).
  { intros Hwf. destruct (consume_gas_inner_spec i0 who _ Hwf Hg) as (i' & Hwf' & Hc' & Ho & Hy & Hn).
    destruct (Z.le_gt_cases (inc_gas i) (balance i0 who)) as [Hle|Hgt].
    - destruct (Hy Hle) as (n & Hr & Hb). rewrite Hr in Hc. injection Hc as <- <-.
      split_and!; [done..|]. intros a. simpl. destruct (Z.eqb_spec who a) as [<-|]; [lia|].
      rewrite Ho by done. lia.
    - destruct (Hn Hgt) as [Hr Hb]. rewrite Hr in Hc. injection Hc as <- <-.
      split_and!; [done..|]. intros a. simpl. destruct (decide (a = who)) as [->|]; [lia|].
      rewrite Ho by done. lia. }
  split.
  - intros Hwf. destruct (Hspec Hwf) as (? & ? & Hb). exists i1. split_and!; [done..|].
    intros a. specialize (Hb a). simpl. case_match; lia.
  - intros Hr Hwf. destruct (Hspec Hwf) as (? & ? & Hb). exists i1. split_and!; [done..|].
    intros a. specialize (Hb a). fold who. destruct r; [|done..]. simpl in *.
    destruct (who =? a); simpl; lia.
Qed.

Section Lemmas.
Context `{X : Externals} `{G : !EvmGas X} `{RL : !ReceiptLaws X}.
Context {ExtraCtx E It : Type} `{PT : PayloadTransactions It} `{L : !PayloadTransactionsLaws It}.
Context (ctx : OpPayloadBuilderCtx ExtraCtx) (lim : Limits).
Implicit Type s : ExecState E It.
Implicit Type info : ExecutionInfo E.

Lemma precheck_None info ptx :
  precheck ctx lim info ptx = None ->
  (forall c, tx_conditional ptx = Some c -> matches_block_attributes c (block_attr ctx) = true) /\
  (forall t, feature_interop ctx = true -> interop_deadline ptx = Some t ->
     is_valid_interop t (timestamp ctx) = true) /\
  limit_check ctx lim info ptx = Ok tt /\
  is_eip4844 (inner (into_consensus ptx)) = false /\
  is_deposit (inner (into_consensus ptx)) = false.
Proof.
  unfold precheck. destruct (is_some_and (tx_conditional ptx) _) eqn:Hc; [done|].
  destruct (feature_interop ctx && _) eqn:Hi; [done|].
  destruct (limit_check ctx lim info ptx) as [[]| |] eqn:Hl; [|done|].
  2: { by apply is_tx_over_limits_not_Panic in Hl. }
  destruct (is_eip4844 _ || is_deposit _) eqn:Ht; [done|]. intros _. reflect_bools.
  split_and!; [| |done..].
  - intros c Hs. rewrite Hs in Hc. simpl in Hc. by apply negb_false_iff in Hc.
  - intros t Hf Hd. rewrite Hf, Hd in Hi. simpl in Hi. destruct Hi; [done|].
    by apply negb_false_iff.
Qed.

(** What one iteration on the transaction [ptx] does to the info, the database and the limiter. *)
Definition advances P ptx s s' : Prop :=
  (untouched s s' /\ charged (st_limiter s) [] (st_limiter s')) \/
  exists i, admits ctx lim P (st_info s) (st_db s) i (st_db s') /\
    st_info s' = include (st_info s) i /\ charged (st_limiter s) [i] (st_limiter s') /\
    inc_tx i = ptx.

Lemma include_grows (info : ExecutionInfo E) i : include info i <> info.
Proof.
  intros H. apply (f_equal (length ∘ executed_transactions)) in H. simpl in H.
  rewrite length_app in H. simpl in H. lia.
Qed.

(** The run determines what it includes. *)
Lemma picks_unique s l l' r r' : picks ctx lim s l r -> picks ctx lim s l' r' -> l = l' /\ r = r'.
Proof.
  intros H. revert l' r'. induction H as [s r Hs|s s' l r Hs Hi _ IH|s s' i st l r Hs Hn Ht Htip Hi _ IH];
    intros l' r' H'; inversion H' as [? ? Hs'|? s1 ? ? Hs' Hi' Hp|? s1 i' st' ? ? Hs' Hn' Ht' Htip' Hi' Hp];
    subst; rewrite Hs in Hs'; simplify_eq; try done; try (by eapply IH).
  - by rewrite Hi' in Hi; apply include_grows in Hi.
  - by rewrite Hi' in Hi; symmetry in Hi; apply include_grows in Hi.
  - destruct (IH _ _ Hp) as [-> ->]. split; [|done]. f_equal.
    assert (Hrc : inc_receipt i = inc_receipt i').
    { rewrite Hi in Hi'. apply (f_equal receipts) in Hi'. simpl in Hi'. by simplify_list_eq. }
    destruct i, i'. simpl in *.
    clear Hi Hi' H' IH Hp. subst. rewrite Ht in Ht'. rewrite Htip in Htip'. by simplify_eq.
Qed.

Lemma settle_Next P s s' ptx result state :
  P ptx -> precheck ctx lim (st_info s) ptx = None ->
  transact (evm_env ctx) (st_db s) (into_consensus ptx) = inr (result, state) ->
  settle ctx ptx result state s = Next s' ->
  (st_best s' = st_best s \/
   st_best s' = pt_mark_invalid (st_best s) (signer (into_consensus ptx))
                  (tx_nonce (inner (into_consensus ptx)))) /\
  st_now s' = st_now s /\ advances P ptx s s'.
Proof using G RL.
  intros HP Hpre Ht. unfold settle, include_tx.
  destruct (consume_gas _ _ _) as [granted limiter] eqn:Hcons.
  assert (Hcharge : charged (st_limiter s) [] limiter /\
    forall rc tip, is_ok granted = true ->
      charged (st_limiter s) [mkIncluded ptx result rc tip] limiter).
  { destruct (transact_gas _ _ _ _ _ Ht) as [Hg _].
    split; [by eapply (consume_gas_charged _ (mkIncluded ptx result (REip1559 (mkReceipt true 0 [])) 0))|].
    intros rc tip. by eapply (consume_gas_charged _ (mkIncluded ptx result rc tip)). }
  destruct Hcharge as [Hno Hyes]. unfold advances.
  destruct (negb (is_ok granted)) eqn:Hgr. { intros [= <-]. split_and!; [by right|done|by left]. }
  destruct (negb (is_success result) && revert_protected ptx) eqn:Hrev.
  { intros [= <-]. split_and!; [by right|done|by left]. }
  destruct (is_some_and (max_gas_per_txn ctx) _) eqn:Hmax.
  { intros [= <-]. split_and!; [by right|done|by left]. }
  destruct (effective_tip_per_gas _ _) as [tip|] eqn:Htip; [|done].
  intros [= <-]. split_and!; [by left|done|right].
  destruct (precheck_None _ _ Hpre) as (Hc & Hi & Hl & Hb & Hd).
  eexists (mkIncluded ptx result _ tip). split_and!; [|done|by apply Hyes, negb_false_iff|done].
  pose proof (build_receipt_spec ctx (inner (into_consensus ptx)) result state
    (add64 (cumulative_gas_used (st_info s)) (gas_used result)) None) as [Hst Hrg].
  split; simpl; try done.
  - by apply replay_tx_no_deposit.
  - by apply transact_gas in Ht.
  - intros Hp. rewrite Hp, andb_true_r in Hrev. by apply negb_false_iff.
  - intros m Hm. rewrite Hm in Hmax. simpl in Hmax. by apply Z.ltb_ge.
  - by exists state.
Qed.

Lemma consider_Next P s s' :
  yields_only P (st_best s) -> consider ctx lim s = Next s' ->
  yields_only P (st_best s') /\ (remaining (st_best s') < remaining (st_best s))%nat /\
  (st_now s <= st_now s')%nat /\
  exists ptx, fst (pt_next (st_best s)) = Some ptx /\ advances P ptx s s'.
Proof using G RL L.
  intros Hy. unfold consider. destruct (pt_next (st_best s)) as [[ptx|] b] eqn:Hn; [|done].
  pose proof (pt_next_decreases _ _ _ Hn) as Hlt.
  pose proof (yields_only_next _ _ _ _ Hy Hn) as Hyb.
  pose proof (yields_only_yields _ _ _ _ Hy Hn) as HP.
  assert (Hmark : forall a n, yields_only P (pt_mark_invalid b a n) /\
                    (remaining (pt_mark_invalid b a n) < remaining (st_best s))%nat).
  { intros a n. split; [by apply yields_only_mark|].
    pose proof (pt_mark_invalid_decreases b a n). lia. }
  simpl. destruct (precheck ctx lim (st_info s) ptx) as [[r|]|] eqn:Hpre.
  1,2: intros [= <-]; simpl; split_and!; [apply Hmark..|done|exists ptx; split; [done|]; left; split; [done|apply charged_refl]].
  destruct (is_cancelled (cancel ctx) (st_now s)); [done|].
  destruct (transact _ _ _) as [[[|] e|]|[result state]] eqn:Ht; [..|].
  - intros [= <-]. simpl. split_and!; [done..|lia|exists ptx; split; [done|]; left; split; [done|apply charged_refl]].
  - intros [= <-]. simpl. split_and!; [apply Hmark..|lia|exists ptx; split; [done|]; left; split; [done|apply charged_refl]].
  - done.
  - intros (Hb & Hnow & Hor)%(settle_Next P); [|done..]. simpl in *.
    destruct Hb as [-> | ->]; split_and!; try apply Hmark; try done; try lia; by exists ptx.
Qed.

Lemma consider_Stop `{!FeeLaws X} s r :
  consider ctx lim s = Stop r ->
  untouched s r.2 ∧ st_limiter r.2 = st_limiter s ∧ ends_with ctx (st_now s) r.
Proof using G RL.
  unfold consider. destruct (pt_next (st_best s)) as [[ptx|] b] eqn:Hn; simpl.
  2: { by intros [= <-]. }
  destruct (precheck ctx lim (st_info s) ptx) as [[e1|]|] eqn:Hpre; [done..|].
  destruct (is_cancelled (cancel ctx) (st_now s)) eqn:Hc.
  { intros [= <-]. split_and!; [done..|]. split; simpl; [lia|]. by exists (st_now s). }
  destruct (transact _ _ _) as [[[|] e|]|[result state]] eqn:Ht; [done..| |].
  { intros [= <-]. split_and!; [done..|]. split; simpl; [lia|]. by eexists. }
  unfold settle, include_tx. destruct (consume_gas _ _ _) as [granted limiter].
  intros H. destruct (precheck_None _ _ Hpre) as (_ & _ & _ & _ & Hd).
  destruct (executed_fee _ _ _ _ _ Ht Hd) as [tip Htip]. unfold base_fee in H.
  rewrite Htip in H. repeat case_match; simplify_eq.
Qed.

Lemma ends_with_earlier now0 now1 (r : outcome PayloadBuilderError (option unit) * ExecState E It) :
  (now0 <= now1)%nat -> ends_with ctx now1 r -> ends_with ctx now0 r.
Proof.
  intros Hle [Hn Hr]. split; [lia|]. destruct r as [[[|]| |] s]; try done. simpl in *.
  destruct Hr as (n & ? & ? & ?). exists n. split_and!; [done|lia|done].
Qed.

Lemma best_inv_Next P s0 s s' :
  best_inv ctx lim P s0 s -> consider ctx lim s = Next s' ->
  best_inv ctx lim P s0 s' ∧ (remaining (st_best s') < remaining (st_best s))%nat.
Proof using G RL L.
  intros (Hy1 & Hle & l & Hl & Hch) (Hy2 & Hlt & Hnow & ptx & _ & Hcase)%(consider_Next P); [|done].
  split; [|done]. split_and!; [done|lia|]. destruct Hcase as [[[-> ->] Hch']|(i & Hi & -> & Hch' & _)].
  - exists l. split; [done|]. rewrite <- (app_nil_r l). by eapply charged_app.
  - exists (l ++ [i]). split; [by eapply inclusions_snoc|by eapply charged_app].
Qed.

Lemma best_inv_Stop `{!FeeLaws X} P s0 s r :
  best_inv ctx lim P s0 s -> consider ctx lim s = Stop r -> ends_with ctx (st_now s0) r.
Proof using G RL.
  intros (_ & Hle & _) (_ & _ & He)%consider_Stop. by eapply ends_with_earlier.
Qed.

(** What the rest of a run picks continues the inclusions so far. *)
Lemma while_picks `{!FeeLaws X} P fuel info0 d0 lim0 l0 s r :
  yields_only P (st_best s) -> inclusions ctx lim P info0 d0 l0 (st_info s) (st_db s) ->
  charged lim0 l0 (st_limiter s) -> while_loop fuel (consider ctx lim) s = Some r ->
  exists l, picks ctx lim s l r ∧
    inclusions ctx lim P info0 d0 (l0 ++ l) (st_info r.2) (st_db r.2) ∧
    charged lim0 (l0 ++ l) (st_limiter r.2).
Proof using G RL L.
  revert l0 s. induction fuel as [|fuel IH]; intros l0 s Hy Hin Hch; simpl; [done|].
  destruct (consider ctx lim s) as [s'|r'] eqn:Hs.
  2: { intros [= ->]. pose proof Hs as ([-> ->] & -> & _)%consider_Stop. exists [].
       rewrite app_nil_r. split_and!; [by constructor|done..]. }
  destruct (consider_Next P s s' Hy Hs) as (Hy' & _ & _ & ptx & Hn & Hcase).
  intros Hw. destruct Hcase as [[[Hi Hd] Hc]|(i & Ha & Hi & Hc & <-)].
  - destruct (IH l0 s') as (l & Hp & Hin' & Hch'); try done.
    + by rewrite Hi, Hd.
    + rewrite <- (app_nil_r l0). by eapply charged_app.
    + exists l. split_and!; [by eapply picks_pass|done..].
  - destruct (adm_result _ _ _ _ _ _ _ Ha) as (state & Ht & Hd).
    destruct (IH (l0 ++ [i]) s') as (l & Hp & Hin' & Hch'); try done.
    + rewrite Hi. by eapply inclusions_snoc.
    + by eapply charged_app.
    + exists (i :: l). rewrite <- app_assoc in Hin', Hch'.
      split_and!; [eapply picks_take; try done; apply Ha|done..].
Qed.

(** The loop returns; what it picked is a sequence of inclusions, all of them charged, and it ends for a
    reason. *)
Lemma execute_best_transactions_charges `{!FeeLaws X} P s :
  yields_only P (st_best s) ->
  exists r, execute_best_transactions ctx lim s = Some r ∧
    (exists l, picks ctx lim s l r ∧
       inclusions ctx lim P (st_info s) (st_db s) l (st_info r.2) (st_db r.2) ∧
       charged (st_limiter s) l (st_limiter r.2)) ∧
    ends_with ctx (st_now s) r.
Proof using G RL L.
  intros Hy. assert (HI : best_inv ctx lim P s s).
  { split_and!; [done..|]. exists []. split; [constructor|apply charged_refl]. }
  destruct (while_loop_terminates_inv (best_inv ctx lim P s) (fun s => remaining (st_best s))
              (consider ctx lim) (best_inv_Next P s) (S (remaining (st_best s))) s HI)
    as [r Hr]; [lia|].
  exists r. split_and!; [done| |].
  - by apply (while_picks P _ (st_info s) (st_db s) (st_limiter s) []) in Hr;
      [|done|constructor|apply charged_refl].
  - apply (while_loop_invariant (best_inv ctx lim P s) (ends_with ctx (st_now s))
      (consider ctx lim)) in Hr; [done|..|exact HI].
    + intros s1 s2 H1 H2. by eapply best_inv_Next.
    + intros s1 r1 H1 H2. by eapply best_inv_Stop.
Qed.

Lemma execute_best_transactions_trace `{!FeeLaws X} P s :
  yields_only P (st_best s) ->
  exists r, execute_best_transactions ctx lim s = Some r ∧
    (exists l, picks ctx lim s l r ∧
       inclusions ctx lim P (st_info s) (st_db s) l (st_info r.2) (st_db r.2)) ∧
    ends_with ctx (st_now s) r.
Proof using G RL L.
  intros (r & Hr & (l & Hp & Hl & _) & He)%execute_best_transactions_charges. exists r. eauto.
Qed.

(** *** Consequences of a sequence of inclusions *)

Lemma inclusions_app_lists P info0 d0 l info d :
  inclusions ctx lim P info0 d0 l info d ->
  executed_transactions info
    = executed_transactions info0 ++ ((fun i => inner (into_consensus (inc_tx i))) <$> l) ∧
  executed_senders info
    = executed_senders info0 ++ ((fun i => signer (into_consensus (inc_tx i))) <$> l) ∧
  receipts info = receipts info0 ++ (inc_receipt <$> l) ∧
  extra info = extra info0 ∧ da_footprint_scalar info = da_footprint_scalar info0 ∧
  optional_blob_fields info = optional_blob_fields info0.
Proof.
  induction 1 as [|l info d i d' _ (Ht & Hs & Hr & ? & ? & ?)].
  - by rewrite !app_nil_r.
  - simpl. rewrite Ht, Hs, Hr, !fmap_app, !app_assoc. done.
Qed.

Lemma inclusions_Forall P info0 d0 l info d :
  inclusions ctx lim P info0 d0 l info d ->
  Forall (fun i => exists info1 d1 d2, admits ctx lim P info1 d1 i d2) l.
Proof.
  induction 1 as [|l info d i d' _ IH Ha]; [done|]. apply Forall_app. split; [done|].
  constructor; [|done]. by eexists _, _, _.
Qed.

Lemma inclusions_executes P d info0 d0 l info d' :
  inclusions ctx lim P info0 d0 l info d' -> executes ctx d info0 d0 -> executes ctx d info d'.
Proof.
  induction 1 as [|l info1 d1 i d2 _ IH Ha]; intros He; [done|].
  eapply executes_push; [by apply IH|]. apply Ha.
Qed.

(** One inclusion in exact arithmetic. *)
Lemma include_exact bound info d i d' :
  admits ctx lim (pool_tx_ok bound) info d i d' -> wf_info info ->
  lim_gas lim <= bound -> cumulative_gas_used info <= bound ->
  wf_info (include info i) ∧
  cumulative_gas_used (include info i) = cumulative_gas_used info + inc_gas i ∧
  cumulative_gas_used (include info i) <= lim_gas lim ∧
  (exact_limits lim info -> within_limits lim (include info i)).
Proof.
  intros Ha Hw Hb Hc. destruct (adm_pool _ _ _ _ _ _ _ Ha) as (Hf & Hda & Hnw).
  apply (push_exact lim info _ (max_da_tx_size ctx)
           (tx_gas_limit (inner (into_consensus (inc_tx i)))) _ _ _ _ bound); try done; apply Ha.
Qed.

(** A sequence of inclusions in exact arithmetic. *)
Lemma inclusions_exact bound info0 d0 l info d :
  inclusions ctx lim (pool_tx_ok bound) info0 d0 l info d -> wf_info info0 ->
  lim_gas lim <= bound -> cumulative_gas_used info0 <= bound ->
  wf_info info ∧ cumulative_gas_used info <= bound ∧
  cumulative_gas_used info = cumulative_gas_used info0 + sum_Z (inc_gas <$> l) ∧
  (l = [] ∨ cumulative_gas_used info <= lim_gas lim ∧
            (exact_limits lim info0 -> within_limits lim info)).
Proof.
  intros Hin Hw Hb Hc. induction Hin as [|l info d i d' Hin (Hw1 & Hc1 & Hs1 & _) Ha].
  { simpl. split_and!; [done..|lia|by left]. }
  destruct (include_exact _ _ _ _ _ Ha Hw1 Hb Hc1) as (Hw2 & Hg2 & Hl2 & Hex).
  split_and!; [done|lia| |right; split; [done|]].
  - rewrite Hg2, Hs1, fmap_app, sum_Z_app. simpl. lia.
  - intros He. apply Hex. unfold exact_limits in *.
    destruct (inclusions_app_lists _ _ _ _ _ _ Hin) as (_ & _ & _ & _ & -> & _). done.
Qed.

End Lemmas.

Import TestChain TestPool.

Lemma sample_pool_ok : yields_only (pool_tx_ok 30000000) (st_best sample_exec).
Proof.
  apply pool_yields. unfold sample_pool.
  repeat (apply Forall_cons; split; [vm_compute; repeat split; discriminate || reflexivity|]).
  apply Forall_nil_2.
Qed.

Lemma sample_exec_result r :
  execute_best_transactions (sample_ctx false [] never_cancelled tt) sample_limits sample_exec
    = Some r ->
  fst r = Ok None ∧ st_info (snd r) = sample_final ∧ st_db (snd r) = [(8, 2); (8, 1)].
Proof.
  assert (H : (fun r => (fst r, st_info (snd r), st_db (snd r))) <$>
    execute_best_transactions (sample_ctx false [] never_cancelled tt) sample_limits sample_exec
      = Some (Ok None, sample_final, [(8, 2); (8, 1)])) by (vm_compute; reflexivity).
  intros Hr. rewrite Hr in H. by injection H.
Qed.

Lemma sample_exec_total :
  execute_best_transactions (sample_ctx false [] never_cancelled tt) sample_limits sample_exec
    <> None.
Proof.
  destruct (execute_best_transactions_trace (sample_ctx false [] never_cancelled tt) sample_limits
              _ sample_exec sample_pool_ok) as (r & -> & _). done.
Qed.

(** ** Properties *)

(** C14: executing the pool's transactions always returns, whatever the pool yields, and never
    panics.  What it picked from the iterator is a sequence of inclusions, each admitted by all checks in
    the state the inclusions before it left, and nothing else changed the info or the database.  It returns that the
    job was cancelled only when the token was seen cancelled, and an error only for an EVM error that
    is not an invalid transaction. *)
Theorem execute_best_transactions_refines `{X : Externals} `{!EvmGas X} `{!ReceiptLaws X}
    `{!FeeLaws X} {ExtraCtx E It} `{PT : PayloadTransactions It} `{!PayloadTransactionsLaws It}
    (ctx : OpPayloadBuilderCtx ExtraCtx) lim (s : ExecState E It) P :
  yields_only P (st_best s) ->
  exists r, execute_best_transactions ctx lim s = Some r /\
    (exists l, picks ctx lim s l r /\
       inclusions ctx lim P (st_info s) (st_db s) l (st_info r.2) (st_db r.2)) /\
    ends_with ctx (st_now s) r.
Proof. intros. by apply execute_best_transactions_trace. Qed.

Lemma execute_best_transactions_refines_witness :
  exists r, execute_best_transactions (sample_ctx false [] never_cancelled tt) sample_limits sample_exec
              = Some r ∧ fst r = Ok None ∧ st_info (snd r) = sample_final.
Proof.
  destruct (execute_best_transactions_refines (sample_ctx false [] never_cancelled tt) sample_limits
              sample_exec (pool_tx_ok 30000000) sample_pool_ok) as (r & Hr & _).
  exists r. split; [exact Hr|]. apply sample_exec_result in Hr. destruct Hr as (H1 & H2 & _). split; assumption.
Defined.

(** Block validity is preserved: when the info and the database describe a replay of the block's
    transactions from the state [d0], so do they after the pool's transactions were executed; a
    validator that executes the same transactions computes the same receipts, gas and state. *)
Theorem execute_best_transactions_executes `{X : Externals} `{!EvmGas X} `{!ReceiptLaws X}
    `{!FeeLaws X} {ExtraCtx E It} `{PT : PayloadTransactions It} `{!PayloadTransactionsLaws It}
    (ctx : OpPayloadBuilderCtx ExtraCtx) lim (s s' : ExecState E It) res d0 :
  execute_best_transactions ctx lim s = Some (res, s') ->
  executes ctx d0 (st_info s) (st_db s) -> executes ctx d0 (st_info s') (st_db s').
Proof.
  intros Hr. destruct (execute_best_transactions_trace ctx lim (fun _ => True) s)
    as (r & Hr' & (l & Hpk & Hl) & _); [done|]. rewrite Hr in Hr'. injection Hr' as <-.
  by eapply inclusions_executes.
Qed.

Lemma execute_best_transactions_executes_witness :
  executes (X := chain) (sample_ctx false [] never_cancelled tt) [] sample_final [(8, 2); (8, 1)].
Proof.
  destruct (execute_best_transactions (sample_ctx false [] never_cancelled tt) sample_limits
              sample_exec) as [[res s']|] eqn:E; [|by apply sample_exec_total in E].
  pose proof (execute_best_transactions_executes (sample_ctx false [] never_cancelled tt)
                sample_limits sample_exec s' res [] E) as H.
  apply sample_exec_result in E as (_ & Hi & Hd). simpl in *. rewrite <- Hi, <- Hd.
  apply H, executes_initial.
Defined.

(** C18: the limits hold.  For a pool whose transactions have recovered signers and a gas limit that does
    not overflow a [u64] when it is added to [bound], a bound of the gas limit of the call and of the gas
    used so far: after the loop, the gas used is the gas used before plus the gas that the execution of
    each transaction the loop picked used, the info stays well formed, and, if something was picked, the
    gas is within the gas limit of the call.  If moreover the data availability and footprint limits are
    below the largest [u64] and the scalar is positive ([exact_limits]), the block is also within these
    limits. *)
Theorem execute_best_transactions_limits `{X : Externals} `{!EvmGas X} `{!ReceiptLaws X}
    `{!FeeLaws X} {ExtraCtx E It} `{PT : PayloadTransactions It} `{!PayloadTransactionsLaws It}
    (ctx : OpPayloadBuilderCtx ExtraCtx) lim (s s' : ExecState E It) res bound :
  execute_best_transactions ctx lim s = Some (res, s') ->
  yields_only (pool_tx_ok bound) (st_best s) -> wf_info (st_info s) ->
  lim_gas lim <= bound -> cumulative_gas_used (st_info s) <= bound ->
  wf_info (st_info s') ∧
  exists new, picks ctx lim s new (res, s') ∧
    executed_transactions (st_info s') = executed_transactions (st_info s) ++
      ((fun i => inner (into_consensus (inc_tx i))) <$> new) ∧
    cumulative_gas_used (st_info s') = cumulative_gas_used (st_info s) + sum_Z (inc_gas <$> new) ∧
    (new = [] ∨ cumulative_gas_used (st_info s') <= lim_gas lim ∧
                (exact_limits lim (st_info s) -> within_limits lim (st_info s'))).
Proof.
  intros Hr Hy Hw Hb Hc. destruct (execute_best_transactions_trace ctx lim _ s Hy)
    as (r & Hr' & (l & Hpk & Hl) & _). rewrite Hr in Hr'. injection Hr' as <-.
  destruct (inclusions_exact _ _ _ _ _ _ _ _ Hl Hw Hb Hc) as (? & _ & Hg & Hlim).
  destruct (inclusions_app_lists _ _ _ _ _ _ _ _ Hl) as (Ht & _). split; [done|]. by exists l.
Qed.

Lemma execute_best_transactions_limits_witness :
  exists new : list Included, wf_info sample_final ∧
    cumulative_gas_used sample_final = sum_Z (inc_gas <$> new) ∧
    (fun i => tx_hash (inner (into_consensus (inc_tx i)))) <$> new = [2; 5] ∧
    within_limits sample_limits sample_final.
Proof.
  destruct (execute_best_transactions (sample_ctx false [] never_cancelled tt) sample_limits
              sample_exec) as [[res s']|] eqn:E; [|by apply sample_exec_total in E].
  destruct (execute_best_transactions_limits (sample_ctx false [] never_cancelled tt)
              sample_limits sample_exec s' res 30000000 E) as (H & new & _ & Ht & Hg & Hlim).
  - apply sample_pool_ok.
  - apply wf_with_capacity.
  - simpl. lia.
  - simpl. lia.
  - apply sample_exec_result in E as (_ & Hi & _). simpl in Hi. rewrite Hi in *. exists new.
    split; [exact H|]. split; [exact Hg|]. apply (f_equal (fmap tx_hash)) in Ht.
    rewrite fmap_app, <- list_fmap_compose in Ht. split; [symmetry; exact Ht|].
    destruct Hlim as [-> |[_ Hlim]]; [discriminate Ht|].
    apply Hlim. split; [intros l [= <-]; reflexivity|done].
Defined.

(** The inclusion policy: every transaction added to the block came from the pool, is neither a
    blob nor a deposit transaction, has its block conditions satisfied by this block, used at most
    the gas cap per transaction, and, when it is revert protected, its receipt says it succeeded. *)
Theorem execute_best_transactions_policy `{X : Externals} `{!EvmGas X} `{!ReceiptLaws X}
    `{!FeeLaws X} {ExtraCtx E It} `{PT : PayloadTransactions It} `{!PayloadTransactionsLaws It}
    (ctx : OpPayloadBuilderCtx ExtraCtx) lim (s s' : ExecState E It) res P :
  execute_best_transactions ctx lim s = Some (res, s') -> yields_only P (st_best s) ->
  exists new,
    executed_transactions (st_info s') = executed_transactions (st_info s) ++
      ((fun i => inner (into_consensus (inc_tx i))) <$> new) ∧
    receipts (st_info s') = receipts (st_info s) ++ (inc_receipt <$> new) ∧
    Forall (fun i =>
      P (inc_tx i) ∧
      is_eip4844 (inner (into_consensus (inc_tx i))) = false ∧
      is_deposit (inner (into_consensus (inc_tx i))) = false ∧
      (forall c, tx_conditional (inc_tx i) = Some c ->
         matches_block_attributes c (mkBlockAttr (block_number ctx) (timestamp ctx)) = true) ∧
      (forall m, max_gas_per_txn ctx = Some m -> inc_gas i <= m) ∧
      (revert_protected (inc_tx i) = true -> rcpt_status (as_receipt (inc_receipt i)) = true)) new.
Proof.
  intros Hr Hy. destruct (execute_best_transactions_trace ctx lim _ s Hy)
    as (r & Hr' & (l & Hpk & Hl) & _). rewrite Hr in Hr'. injection Hr' as <-.
  destruct (inclusions_app_lists _ _ _ _ _ _ _ _ Hl) as (Ht & _ & Hrc & _).
  exists l. split_and!; [done..|]. eapply Forall_impl; [by eapply inclusions_Forall|].
  intros i (info1 & d1 & d2 & []). split_and!; [done..|]. intros Hp. simpl in *.
  rewrite adm_status0. auto.
Qed.

Lemma execute_best_transactions_policy_witness :
  exists new, receipts sample_final = inc_receipt <$> new ∧
    Forall (fun i => revert_protected (inc_tx i) = true ->
                     rcpt_status (as_receipt (inc_receipt i)) = true) new.
Proof.
  destruct (execute_best_transactions (sample_ctx false [] never_cancelled tt) sample_limits
              sample_exec) as [[res s']|] eqn:E; [|by apply sample_exec_total in E].
  destruct (execute_best_transactions_policy (sample_ctx false [] never_cancelled tt)
              sample_limits sample_exec s' res (pool_tx_ok 30000000) E sample_pool_ok)
    as (new & _ & Hr & Hf).
  apply sample_exec_result in E as (_ & Hi & _). simpl in Hi, Hr. rewrite Hi in Hr.
  exists new. split; [exact Hr|]. eapply Forall_impl; [exact Hf|]. by intros i (_ & _ & _ & _ & _ & H).
Defined.
