(* ===== verification/SidecarExec.v ===== *)
(** * Executing the transactions of the sidecar

    Models [OpPayloadBuilderCtx::execute_sidecar_transactions] of [builders/context.rs]: required
    transactions are included or fail the call, optional ones are included or skipped. *)

From S2P Require Import Prelude External ExecInfo Sidecar Context Replay.

(** A sidecar transaction that is included: as the sidecar sent it, decoded and recovered, with its
    result and receipt. *)
Record SidecarIncluded : Type := mkSidecarIncluded {
  si_ext : ExternalTransaction;
  si_tx : Recovered;
  si_result : ExecutionResult;
  si_receipt : OpReceipt;
}.

Section SidecarExec.
Context `{X : Externals} {ExtraCtx E : Type}.
Context (ctx : OpPayloadBuilderCtx ExtraCtx) (lim : Limits).
Implicit Type info : ExecutionInfo E.

Abbreviation SidecarState := (ExecutionInfo E * db)%type (only parsing).
Abbreviation SidecarResult := (outcome PayloadBuilderError unit * SidecarState)%type (only parsing).

(** What every check of the loop does when it does not pass: a required transaction fails the call,
    an optional one is skipped. *)
Definition skip_or_fail (ext : ExternalTransaction) (e : SidecarError) (s : SidecarState)
    : ctl SidecarState SidecarResult :=
  if required ext then Stop (Err (OtherSidecar e), s) else Next s.

Definition sidecar_da_size (tx : Recovered) : Z :=
  tx_estimated_size_fjord_bytes (tx_encoded_2718 (inner tx)).

Definition sidecar_limit_check info (tx : Recovered) : outcome TxnExecutionResult unit :=
  is_tx_over_limits info (sidecar_da_size tx) (lim_gas lim) (max_da_tx_size ctx) (lim_da lim)
    (tx_gas_limit (inner tx)) (da_footprint_scalar info) (lim_da_footprint lim).

(** Decoding, signature recovery and the type check. *)
Definition decode_external (ext : ExternalTransaction) : outcome SidecarError Recovered :=
  match decode_2718 (raw ext) with
  | inl err => Err (DecodeError err)
  | inr tx =>
      match try_clone_into_recovered tx with
      | None => Err SignatureRecoveryFailed
      | Some tx =>
          if is_eip4844 (inner tx) || is_deposit (inner tx) then Err InvalidTransactionType
          else Ok tx
      end
  end.

(** The limits, the execution and the revert check. *)
Definition simulate_external info (d : db) (tx : Recovered)
    : outcome SidecarError (ExecutionResult * changes) :=
  match sidecar_limit_check info tx with
  | Err result => Err (LimitsExceeded result)
  | Panic => Panic
  | Ok _ =>
      match transact (evm_env ctx) d tx with
      | inl err => Err (ExecutionFailed err)
      | inr (result, state) =>
          if negb (is_success result) then Err (TransactionReverted (tx_hash (inner tx)))
          else Ok (result, state)
      end
  end.

(** The updates of the info; the fees of sidecar transactions are not counted. *)
Definition include_external info (i : SidecarIncluded) : ExecutionInfo E :=
  push_executed info (add64 (cumulative_gas_used info) (gas_used (si_result i)))
    (add64 (cumulative_da_bytes_used info) (sidecar_da_size (si_tx i)))
    (total_fees info) (si_receipt i) (si_tx i).

(** Everything that can go wrong with one external transaction. *)
Definition attempt_external info (d : db) (ext : ExternalTransaction)
    : outcome SidecarError (Recovered * ExecutionResult * changes) :=
  let? tx := decode_external ext in
  let? (result, state) := simulate_external info d tx in
  Ok (tx, result, state).

(** One iteration. *)
Definition sidecar_body (ext : ExternalTransaction) (s : SidecarState)
    : ctl SidecarState SidecarResult :=
  let '(info, d) := s in
  match attempt_external info d ext with
  | Err e => skip_or_fail ext e s
  | Panic => Stop (Panic, s)
  | Ok (tx, result, state) =>
      let receipt :=
        build_receipt ctx (inner tx) result state
          (add64 (cumulative_gas_used info) (gas_used result)) None in
      Next (include_external info (mkSidecarIncluded ext tx result receipt), commit d state)
  end.

Definition execute_sidecar_transactions (external_txs : list ExternalTransaction) info (d : db)
    : SidecarResult :=
  match for_each sidecar_body external_txs (info, d) with
  | Next s => (Ok tt, s)
  | Stop r => r
  end.

(** ** Specification *)

Record admits_external info (d : db) (i : SidecarIncluded) (d' : db) : Prop := {
  ext_decodes : decode_2718 (raw (si_ext i)) = inr (inner (si_tx i));
  ext_from : tx_from (inner (si_tx i)) = Some (signer (si_tx i));
  ext_blob : is_eip4844 (inner (si_tx i)) = false;
  ext_deposit : is_deposit (inner (si_tx i)) = false;
  ext_limits : sidecar_limit_check info (si_tx i) = Ok tt;
  ext_replay : replay_tx ctx (si_tx i) d (cumulative_gas_used info)
    = Some (si_receipt i, d', add64 (cumulative_gas_used info) (gas_used (si_result i)));
  ext_gas : 0 <= gas_used (si_result i) <= tx_gas_limit (inner (si_tx i));
  ext_receipt : receipt_gas (si_receipt i)
    = add64 (cumulative_gas_used info) (gas_used (si_result i));
  ext_success : rcpt_status (as_receipt (si_receipt i)) = true;
  ext_result : exists state, transact (evm_env ctx) d (si_tx i) = inr (si_result i, state) /\
    d' = commit d state;
}.

Inductive external_inclusions (info0 : ExecutionInfo E) (d0 : db)
    : list SidecarIncluded -> ExecutionInfo E -> db -> Prop :=
| external_nil : external_inclusions info0 d0 [] info0 d0
| external_snoc l info d i d' :
    external_inclusions info0 d0 l info d -> admits_external info d i d' ->
    external_inclusions info0 d0 (l ++ [i]) (include_external info i) d'.

(** After the external transactions [pre]: all the required ones and nothing else but optional ones
    are included, in order. *)
Definition sidecar_inv info0 d0 (pre : list ExternalTransaction) (s : SidecarState) : Prop :=
  exists l, external_inclusions info0 d0 l (fst s) (snd s) /\
    si_ext <$> l `sublist_of` pre /\ List.filter required pre `sublist_of` si_ext <$> l.

(** No external transaction overflows gas totals up to [bound]. *)
Definition external_ok (bound : Z) (ext : ExternalTransaction) : Prop :=
  forall t, decode_2718 (raw ext) = inr t -> bound + tx_gas_limit t < U64_MOD.

(** Two external transactions of account 5, the first required; and one that does not decode. *)
Definition sample_externals (last_required : bool) : list ExternalTransaction :=
  [mkExternal [501; 0] true None; mkExternal [502; 1] false None; mkExternal [] last_required None].

(** ** Lemmas *)

Lemma decode_external_Ok ext tx :
  decode_external ext = Ok tx ->
  decode_2718 (raw ext) = inr (inner tx) /\ tx_from (inner tx) = Some (signer tx) /\
  is_eip4844 (inner tx) = false /\ is_deposit (inner tx) = false.
Proof.
  unfold decode_external, try_clone_into_recovered. destruct (decode_2718 (raw ext)) as [|t]; [done|].
  destruct (tx_from t) as [a|] eqn:Hf; simpl; [|done].
  destruct (is_eip4844 t || is_deposit t) eqn:Ht; [done|]. intros [= <-]. by reflect_bools.
Qed.

Lemma decode_external_not_Panic ext : decode_external ext <> Panic.
Proof. unfold decode_external. repeat case_match; done. Qed.

Lemma simulate_external_not_Panic info d tx : simulate_external info d tx <> Panic.
Proof.
  unfold simulate_external. pose proof (is_tx_over_limits_not_Panic info) as H.
  unfold sidecar_limit_check. repeat case_match; try done. by apply H in H0.
Qed.

Lemma attempt_external_not_Panic info d ext : attempt_external info d ext <> Panic.
Proof.
  apply bind_not_Panic; [apply decode_external_not_Panic|]. intros tx _.
  apply bind_not_Panic; [apply simulate_external_not_Panic|]. by intros [].
Qed.

(** A transaction that fails the call is required. *)
Lemma sidecar_body_Stop ext s r :
  sidecar_body ext s = Stop r ->
  exists e, r = (Err (OtherSidecar e), s) ∧ required ext = true ∧
            attempt_external (fst s) (snd s) ext = Err e.
Proof.
  destruct s as [info d]. unfold sidecar_body, skip_or_fail. simpl.
  destruct (attempt_external info d ext) as [[[]]|e|] eqn:Hd; [done| |].
  - destruct (required ext); [|done]. intros [= <-]. by exists e.
  - by apply attempt_external_not_Panic in Hd.
Qed.

Context `{G : !EvmGas X} `{RL : !ReceiptLaws X}.

Lemma sidecar_body_Next ext info d s' :
  sidecar_body ext (info, d) = Next s' ->
  (s' = (info, d) /\ required ext = false) \/
  exists i, si_ext i = ext /\ admits_external info d i (snd s') /\
            fst s' = include_external info i.
Proof using G RL.
  unfold sidecar_body, skip_or_fail, attempt_external.
  destruct (decode_external ext) as [tx|e|] eqn:Hd; simpl; [| |done].
  2: { destruct (required ext); [done|]. intros [= <-]. by left. }
  destruct (simulate_external info d tx) as [[result state]|e|] eqn:Hs; simpl; [| |done].
  2: { destruct (required ext); [done|]. intros [= <-]. by left. }
  intros [= <-]. right. eexists (mkSidecarIncluded ext tx result _). split_and!; [done| |done].
  apply decode_external_Ok in Hd as (Hd & Hf & Hb & Hdep). revert Hs. unfold simulate_external.
  destruct (sidecar_limit_check info tx) as [[]| |] eqn:Hl; [|done..].
  destruct (transact (evm_env ctx) d tx) as [|[result' state']] eqn:Ht; [done|].
  destruct (is_success result') eqn:Hok; simpl; [|done]. intros [= -> ->].
  pose proof (build_receipt_spec ctx (inner tx) result state
    (add64 (cumulative_gas_used info) (gas_used result)) None) as [Hst Hrg].
  split; simpl; try done.
  - by apply replay_tx_no_deposit.
  - by apply transact_gas in Ht.
  - by rewrite Hst.
  - by exists state.
Qed.

Lemma sidecar_inv_step info0 d0 pre ext s s' :
  sidecar_inv info0 d0 pre s -> sidecar_body ext s = Next s' ->
  sidecar_inv info0 d0 (pre ++ [ext]) s'.
Proof using G RL.
  intros (l & Hl & Hsub & Hreq). destruct s as [info d].
  unfold sidecar_inv. setoid_rewrite List.filter_app.
  intros [[-> Hr]|(i & <- & Ha & Hs)]%sidecar_body_Next; simpl in *.
  - exists l. rewrite Hr, app_nil_r. split_and!; [done|by apply sublist_inserts_r|done].
  - exists (l ++ [i]). rewrite Hs, !fmap_app. simpl. split_and!.
    + by eapply external_snoc.
    + by apply sublist_app.
    + apply sublist_app; [done|]. case_match; [done|apply sublist_nil_l].
Qed.

Lemma sidecar_prefix info d pre s :
  for_each sidecar_body pre (info, d) = Next s -> sidecar_inv info d pre s.
Proof using G RL.
  pose proof (for_each_prefix_invariant (sidecar_inv info d) (fun _ => True) sidecar_body
    (sidecar_inv_step info d) ltac:(done) pre [] (info, d)) as H1.
  intros Hn. rewrite Hn in H1. apply H1. exists []. split_and!; [constructor|done..].
Qed.

(** The loop, on both outcomes. *)
Lemma execute_sidecar_transactions_trace exts info d res s :
  execute_sidecar_transactions exts info d = (res, s) ->
  match res with
  | Ok _ => sidecar_inv info d exts s
  | Err e => exists pre ext post err, exts = pre ++ ext :: post ∧ sidecar_inv info d pre s ∧
      required ext = true ∧ e = OtherSidecar err ∧ attempt_external (fst s) (snd s) ext = Err err
  | Panic => False
  end.
Proof using G RL.
  unfold execute_sidecar_transactions.
  destruct (for_each sidecar_body exts (info, d)) as [s1|r] eqn:Hf.
  - intros [= <- <-]. by apply sidecar_prefix.
  - intros ->. apply for_each_Stop in Hf as (pre & ext & post & s1 & -> & Hp & Hb).
    apply sidecar_body_Stop in Hb as (e & [= -> ->] & Hr & Ha).
    exists pre, ext, post, e. split_and!; try done. by apply sidecar_prefix.
Qed.

Lemma external_executes d info0 d0 l info d' :
  external_inclusions info0 d0 l info d' -> executes ctx d info0 d0 -> executes ctx d info d'.
Proof.
  induction 1 as [|l info1 d1 i d2 _ IH Ha]; intros He; [done|].
  eapply executes_push; [by apply IH|]. apply Ha.
Qed.

Lemma external_lists info0 d0 l info d :
  external_inclusions info0 d0 l info d ->
  executed_transactions info = executed_transactions info0 ++ (inner ∘ si_tx <$> l) /\
  executed_senders info = executed_senders info0 ++ (signer ∘ si_tx <$> l) /\
  receipts info = receipts info0 ++ (si_receipt <$> l) /\
  total_fees info = total_fees info0 /\ extra info = extra info0 /\
  da_footprint_scalar info = da_footprint_scalar info0 /\
  optional_blob_fields info = optional_blob_fields info0 /\
  Forall (fun i => rcpt_status (as_receipt (si_receipt i)) = true) l.
Proof.
  induction 1 as [|l info1 d1 i d2 _ (Ht & Hs & Hr & ? & ? & ? & ? & ?) Ha].
  - by rewrite !app_nil_r.
  - simpl. rewrite Ht, Hs, Hr, !fmap_app, !app_assoc. split_and!; try done.
    apply Forall_app. split; [done|]. constructor; [apply Ha|done].
Qed.

Context `{F : !FlzLaws X}.

Lemma external_exact bound info0 d0 l info d :
  external_inclusions info0 d0 l info d -> Forall (external_ok bound) (si_ext <$> l) ->
  wf_info info0 -> lim_gas lim <= bound -> cumulative_gas_used info0 <= bound ->
  wf_info info /\ cumulative_gas_used info <= bound /\
  cumulative_gas_used info
    = cumulative_gas_used info0 + sum_Z (gas_used ∘ si_result <$> l) /\
  (l = [] \/ cumulative_gas_used info <= lim_gas lim /\
             (exact_limits lim info0 -> within_limits lim info)).
Proof using F.
  intros Hin Hok Hw Hb Hc. revert Hok. induction Hin as [|l info1 d1 i d2 Hin IH Ha].
  { intros _. simpl. split_and!; [done..|lia|by left]. }
  rewrite fmap_app, Forall_app. intros [Hok [Hi _]%Forall_cons]. simpl in *.
  destruct (IH Hok) as (Hw1 & Hc1 & Hs1 & _).
  destruct (push_exact lim info1 (sidecar_da_size (si_tx i)) (max_da_tx_size ctx)
              (tx_gas_limit (inner (si_tx i))) (gas_used (si_result i)) (total_fees info1)
              (si_receipt i) (si_tx i) bound)
    as (Hw2 & Hg2 & Hl2 & Hex); try apply Ha; try done.
  { apply flz_range. }
  { apply Hi, Ha. }
  split_and!; [done|simpl in *; lia| |right; split; [done|]].
  - simpl in *. rewrite Hg2, Hs1, fmap_app, sum_Z_app. simpl. lia.
  - intros He. apply Hex. unfold exact_limits in *.
    destruct (external_lists _ _ _ _ _ Hin) as (_ & _ & _ & _ & _ & -> & _). done.
Qed.

End SidecarExec.

Import TestChain.

(** ** Properties *)

(** C20: executing the sidecar's transactions is all or nothing for the required ones: when the call
    succeeds, every required transaction was included, in order, interleaved only with optional ones;
    when it fails, it is because of a required transaction, for the reason the error names, in the
    state in which its turn came.  It never panics.  Everything included succeeded, adds no fees, and
    keeps the block a replay of its transactions. *)
Theorem execute_sidecar_transactions_spec `{X : Externals} `{!EvmGas X} `{!ReceiptLaws X}
    {ExtraCtx E} (ctx : OpPayloadBuilderCtx ExtraCtx) lim exts (info : ExecutionInfo E) d res info' d' :
  execute_sidecar_transactions ctx lim exts info d = (res, (info', d')) ->
  exists pre l, external_inclusions ctx lim info d l info' d' ∧
    si_ext <$> l `sublist_of` pre ∧ List.filter required pre `sublist_of` si_ext <$> l ∧
    executed_transactions info' = executed_transactions info ++ (inner ∘ si_tx <$> l) ∧
    Forall (fun i => rcpt_status (as_receipt (si_receipt i)) = true) l ∧
    total_fees info' = total_fees info ∧
    (forall d0, executes ctx d0 info d -> executes ctx d0 info' d') ∧
    match res with
    | Ok _ => pre = exts
    | Err e => exists ext post err, exts = pre ++ ext :: post ∧ required ext = true ∧
        e = OtherSidecar err ∧ attempt_external ctx lim info' d' ext = Err err
    | Panic => False
    end.
Proof.
  intros H. apply (execute_sidecar_transactions_trace ctx lim) in H.
  assert (Hmain : forall pre, sidecar_inv ctx lim info d pre (info', d') ->
    exists l, external_inclusions ctx lim info d l info' d' ∧
      si_ext <$> l `sublist_of` pre ∧ List.filter required pre `sublist_of` si_ext <$> l ∧
      executed_transactions info' = executed_transactions info ++ (inner ∘ si_tx <$> l) ∧
      Forall (fun i => rcpt_status (as_receipt (si_receipt i)) = true) l ∧
      total_fees info' = total_fees info ∧
      (forall d0, executes ctx d0 info d -> executes ctx d0 info' d')).
  { intros pre (l & Hl & Hs & Hr). exists l. simpl in *.
    pose proof (external_lists _ _ _ _ _ _ _ Hl) as (? & _ & _ & ? & _ & _ & _ & ?).
    split_and!; try done. intros d0. by eapply external_executes. }
  destruct res as [u|e|]; [| |done].
  - destruct (Hmain _ H) as (l & Hl). exists exts, l. destruct_and! Hl. by split_and!.
  - destruct H as (pre & ext & post & err & Heq & Hi & Hr & He & Ha).
    destruct (Hmain _ Hi) as (l & Hl). exists pre, l. destruct_and! Hl. split_and!; try done.
    by exists ext, post, err.
Qed.

(** With an optional malformed transaction the call succeeds with both others included; when it is
    required the call fails, the two before it executed. *)
Lemma execute_sidecar_transactions_spec_witness :
  exists l, si_ext <$> l `sublist_of` sample_externals false ∧ length l = 2%nat ∧
    forall e info' d',
      execute_sidecar_transactions (X := chain) (sample_ctx false [] never_cancelled tt)
        (mkLimits 100000 None None) (sample_externals true) (with_capacity tt) []
        = (Err e, (info', d')) -> e = OtherSidecar (DecodeError 0).
Proof.
  destruct (execute_sidecar_transactions (X := chain) (sample_ctx false [] never_cancelled tt)
    (mkLimits 100000 None None) (sample_externals false) (with_capacity tt) [])
    as [res [info' d']] eqn:E.
  pose proof (execute_sidecar_transactions_spec _ _ _ _ _ _ _ _ E)
    as (pre & l & _ & Hs & _ & Ht & _ & _ & _ & Hres).
  vm_compute in E. injection E as <- <- <-. simpl in *. subst pre.
  exists l. split_and!; [done| |].
  - apply (f_equal length) in Ht. rewrite length_fmap in Ht. done.
  - intros e info' d' H. vm_compute in H. by injection H as <-.
Defined.

(** C21: the sidecar's transactions respect the limits of the flashblock.  For transactions whose gas
    limits do not overflow a [u64] when they are added to [bound], a bound of the gas limit of the call and
    of the gas used so far: the gas used grows by the gas that the execution of each included transaction
    used, the info stays well formed, and, unless none was included, the gas is within the gas limit and,
    when the data availability and footprint limits are below the largest [u64] and the scalar is positive
    ([exact_limits]), the block is within these limits too. *)
Theorem execute_sidecar_transactions_limits `{X : Externals} `{!EvmGas X} `{!ReceiptLaws X}
    `{!FlzLaws X} {ExtraCtx E} (ctx : OpPayloadBuilderCtx ExtraCtx) lim exts
    (info : ExecutionInfo E) d res info' d' bound :
  execute_sidecar_transactions ctx lim exts info d = (res, (info', d')) ->
  Forall (external_ok bound) exts -> wf_info info -> lim_gas lim <= bound ->
  cumulative_gas_used info <= bound ->
  exists l, external_inclusions ctx lim info d l info' d' ∧
    executed_transactions info' = executed_transactions info ++ (inner ∘ si_tx <$> l) ∧
    cumulative_gas_used info'
      = cumulative_gas_used info + sum_Z (gas_used ∘ si_result <$> l) ∧
    wf_info info' ∧ cumulative_gas_used info' <= bound ∧
    (l = [] ∨ cumulative_gas_used info' <= lim_gas lim ∧
              (exact_limits lim info -> within_limits lim info')).
Proof.
  intros H Hok Hw Hb Hc.
  assert (exists pre, pre ⊆ exts ∧ sidecar_inv ctx lim info d pre (info', d')) as (pre & Hsub & l & Hl & Hs & _).
  { apply (execute_sidecar_transactions_trace ctx lim) in H. destruct res as [u|e|]; [by exists exts| |done].
    destruct H as (pre & ext & post & err & -> & Hi & _). exists pre. split; [set_solver|done]. }
  simpl in *. destruct (external_lists _ _ _ _ _ _ _ Hl) as (Ht & _).
  destruct (external_exact ctx lim bound _ _ _ _ _ Hl) as (? & ? & ? & Hlim); try done.
  - rewrite Forall_forall in *. intros x Hx. apply Hok, Hsub. by eapply elem_of_sublist.
  - by exists l.
Qed.

Lemma execute_sidecar_transactions_limits_witness :
  let r := execute_sidecar_transactions (X := chain) (sample_ctx false [] never_cancelled tt)
      (mkLimits 100000 (Some 500) None) (sample_externals false) (with_capacity tt) [] in
  wf_info r.2.1 /\ cumulative_gas_used r.2.1 = 42000 /\
  exists l : list SidecarIncluded, length l = 2%nat /\ sum_Z (gas_used ∘ si_result <$> l) = 42000.
Proof.
  intros r. assert (Hn : length (executed_transactions r.2.1) = 2%nat) by (vm_compute; reflexivity).
  assert (Hg : cumulative_gas_used r.2.1 = 42000) by (vm_compute; reflexivity).
  destruct r as [res [info' d']] eqn:H. subst r.
  pose proof (execute_sidecar_transactions_limits (X := chain)
    (sample_ctx false [] never_cancelled tt) (mkLimits 100000 (Some 500) None)
    (sample_externals false) (with_capacity tt) [] _ _ _ 1000000 H) as Ht.
  destruct Ht as (l & _ & Ht & Hgas & Hw & _).
  - repeat (apply Forall_cons; split; [intros t Ht; simpl in Ht; by simplify_eq|]). apply Forall_nil_2.
  - apply wf_with_capacity.
  - simpl. lia.
  - simpl. lia.
  - split; [exact Hw|]. split; [exact Hg|]. exists l. simpl in *. rewrite Ht, length_fmap in Hn.
    split; [exact Hn|]. rewrite <- Hg, Hgas. reflexivity.
Defined.
