(* ===== verification/BuilderTx.v ===== *)
(** * Builder transactions

    Models [builders/builder_tx.rs] and the signing of [tx_signer.rs]: the trait
    [BuilderTransactions] as a class with its provided methods ([add_builder_txs], [sign_tx],
    [commit_txs], [simulate_call]), and the base builder transaction.  The implementations of the
    trait are in [BuilderTxImpls]. *)

From stdpp Require Import pretty.
From S2P Require Import Prelude External ExecInfo PoolTx Sidecar Context Replay.

(** ** Errors *)

Inductive InvalidContractDataError : Type :=
| InvalidLogs (expected : list B256) (got : gset B256)
| OutputAbiDecodeError.

(** The error type [BuilderTransactionError]; its constructors live in a module of their own. *)
Module BuilderTransactionError.
Inductive t : Type :=
| AccountLoadFailed (a : Address)
| SigningError (e : Z)
| InvalidContract (a : Address) (e : InvalidContractDataError)
| TransactionHalted (a : Address) (reason : Z)
| TransactionReverted (a : Address) (revert : Z)
| InvalidTransactionError (e : EvmError)
| EvmExecutionError (e : EvmError)
| Other (msg : string).
End BuilderTransactionError.
Abbreviation BTE := BuilderTransactionError.t.

(** ** Data *)

Record BuilderTransactionCtx : Type := mkBuilderTx {
  btx_gas_used : Z;
  btx_da_size : Z;
  btx_signed_tx : Recovered;
  btx_is_top_of_block : bool;
}.

Definition set_top_of_block (t : BuilderTransactionCtx) : BuilderTransactionCtx :=
  mkBuilderTx (btx_gas_used t) (btx_da_size t) (btx_signed_tx t) true.
Definition set_bottom_of_block (t : BuilderTransactionCtx) : BuilderTransactionCtx :=
  mkBuilderTx (btx_gas_used t) (btx_da_size t) (btx_signed_tx t) false.

(** [TxEip1559], the only transaction type the builder creates. *)
Record TxEip1559 : Type := mkEip1559 {
  e_chain_id : Z;
  e_nonce : Z;
  e_gas_limit : Z;
  e_max_fee_per_gas : Z;
  e_max_priority_fee_per_gas : Z;
  e_to : Address;
  e_input : Bytes;
}.

(** [Signature]: [r], [s] and the parity of [y] *)
Record Signature : Type := mkSignature { sig_r : Z; sig_s : Z; sig_odd_y : bool }.

(** [OpTransactionRequest], as the sources fill it in. *)
Record OpTransactionRequest : Type := mkRequest {
  req_gas : Z;
  req_max_fee_per_gas : Z;
  req_to : Address;
  req_from : Address;
  req_nonce : Z;
  req_input : Bytes;
}.

Record SimulationSuccessResult (C R : Type) : Type := mkSimulation {
  sim_gas_used : Z;
  sim_output : R;
  sim_state_changes : C;
}.
Arguments mkSimulation {C R}.
Arguments sim_gas_used {C R} _.
Arguments sim_output {C R} _.
Arguments sim_state_changes {C R} _.

(** ** What signing and simulating call *)

Class BuilderExternals (X : Externals) : Type := {
  (** [SecretKey::from_slice] (the error of an invalid key), and the address of the key's public key
      ([public_key_to_address]) *)
  secret_key_error : B256 -> option Z;
  public_address : Z -> Address;
  (** [SECP256K1.sign_ecdsa_recoverable] and [serialize_compact]: recovery id, [r] and [s]; the
      number is the error of an invalid message *)
  sign_ecdsa_recoverable : Z -> B256 -> Z + (Z * Z * Z);
  (** [SignableTransaction::signature_hash] and [OpTransactionSigned::new_unhashed] *)
  signature_hash : TxEip1559 -> B256;
  new_unhashed : TxEip1559 -> Signature -> OpTransactionSigned;
  (** [State::builder()..with_cached_prestate(db.cache.clone())..build()] over the parent state *)
  with_cached_prestate : db -> db -> db;
  (** [Evm::transact] of a transaction request, and [try_into_tx_env] when it fails *)
  try_into_tx_env : OpTransactionRequest -> EvmEnv -> option EvmError;
  transact_request : EvmEnv -> db -> OpTransactionRequest -> EvmError + (ExecutionResult * changes);
  (** the rendering of the output of a reverted call of the named interface *)
  decode_revert : string -> Bytes -> Z;
}.

(** A signed transaction is the one that was to be signed, and its signer is recovered when the
    recovery id is 0 or 1.  secp256k1 also has the ids 2 and 3, for a signature whose point has an abscissa
    not below the group order, which is the case for one nonce in about 2^127; [sign_message] takes the
    parity of such a signature to be odd whatever it is.  [recovery_id] excludes them: what is
    proved of signed transactions is for signatures with the ids 0 and 1. *)
Class SigningLaws (X : Externals) `{!BuilderExternals X} : Prop := {
  signed_fields t s :
    let u := new_unhashed t s in
    tx_ty u = Eip1559 /\ tx_nonce u = e_nonce t /\ tx_gas_limit u = e_gas_limit t /\
    tx_max_fee_per_gas u = e_max_fee_per_gas t /\
    tx_max_priority_fee_per_gas u = e_max_priority_fee_per_gas t /\
    tx_to u = e_to t /\ tx_input u = e_input t;
  recovery_id sk m id r s :
    sign_ecdsa_recoverable sk m = inr (id, r, s) -> id = 0 \/ id = 1;
  recovers sk t id r s :
    sign_ecdsa_recoverable sk (signature_hash t) = inr (id, r, s) -> id = 0 ∨ id = 1 ->
    tx_from (new_unhashed t (mkSignature r s (negb (id =? 0)))) = Some (public_address sk);
}.

(** ** Signing ([tx_signer.rs]) *)

Section Sign.
Context `{X : Externals} `{B : !BuilderExternals X}.

(** [Signer::try_from_secret], and what it establishes *)
Definition try_from_secret (secret : B256) : outcome BTE Signer :=
  match secret_key_error secret with
  | Some e => Err (BuilderTransactionError.SigningError e)
  | None => Ok (mkSigner (public_address secret) secret)
  end.
Definition valid_signer (sg : Signer) : Prop :=
  signer_address sg = public_address (signer_secret sg).

(** [Signer::random], with the number the generator gives, and [Signer::from_str], with the parser of
    hashes, whose errors are numbers.  Not every number is a secret key. *)
Inductive SignerError : Type := InvalidHash (e : Z) | InvalidSecretKey.
Definition signer_random {E} (random : B256) : outcome E Signer :=
  match try_from_secret random with Ok signer => Ok signer | _ => Panic end.
Definition signer_from_str (parse_b256 : Text -> Z + B256) (s : Text) : outcome SignerError Signer :=
  let? secret := of_sum InvalidHash (parse_b256 s) in
  map_err (fun _ => InvalidSecretKey) (try_from_secret secret).

Definition sign_message (sg : Signer) (message : B256) : outcome BTE Signature :=
  match sign_ecdsa_recoverable (signer_secret sg) message with
  | inl e => Err (BuilderTransactionError.SigningError e)
  | inr (rec_id, r, s) => Ok (mkSignature r s (negb (rec_id =? 0)))
  end.

(** [Signer::sign_tx] *)
Definition sign_typed (sg : Signer) (tx : TxEip1559) : outcome BTE Recovered :=
  let? signature := sign_message sg (signature_hash tx) in
  Ok (mkRecovered (new_unhashed tx signature) (signer_address sg)).

Definition get_nonce (d : db) (address : Address) : outcome BTE Z :=
  match basic_ref d address with
  | inl _ => Err (BuilderTransactionError.AccountLoadFailed address)
  | inr acc => Ok (acc_nonce (unwrap_or acc default_account))
  end.

Definition get_balance (d : db) (address : Address) : outcome BTE Z :=
  match basic_ref d address with
  | inl _ => Err (BuilderTransactionError.AccountLoadFailed address)
  | inr acc => Ok (acc_balance (unwrap_or acc default_account))
  end.

(** The provided method [sign_tx]: the simulated gas plus the EIP-150 buffer. *)
Definition buffered_gas (gas_used : Z) : Z := mul64 gas_used 64 / 63.

Definition sign_tx {ExtraCtx} (to : Address) (from : Signer) (gas_used : Z) (calldata : Bytes)
    (ctx : OpPayloadBuilderCtx ExtraCtx) (d : db) : outcome BTE Recovered :=
  let? nonce := get_nonce d (signer_address from) in
  sign_typed from
    (mkEip1559 (chain_id ctx) nonce (buffered_gas gas_used) (base_fee ctx) 0 to calldata).

(** ** The base builder transaction *)

(** [BuilderTxBase]: its signer *)
Definition BuilderTxBase : Type := option Signer.

(** The counts of zero and non-zero bytes. *)
Definition count_bytes (input : Bytes) : Z * Z :=
  fold_left (fun '(zeros, nonzeros) byte =>
    if byte =? 0 then (add64 zeros 1, nonzeros) else (zeros, add64 nonzeros 1)) input (0, 0).

Definition TOTAL_COST_FLOOR_PER_TOKEN : Z := 10.

Definition estimate_builder_tx_gas (input : Bytes) : Z :=
  let '(zero_bytes, nonzero_bytes) := count_bytes input in
  let zero_cost := mul64 zero_bytes 4 in
  let nonzero_cost := mul64 nonzero_bytes 16 in
  let tokens_in_calldata := add64 zero_bytes (mul64 nonzero_bytes 4) in
  let floor_gas := add64 21000 (mul64 tokens_in_calldata TOTAL_COST_FLOOR_PER_TOKEN) in
  Z.max (add64 (add64 zero_cost nonzero_cost) 21000) floor_gas.

Definition string_bytes (s : string) : Bytes :=
  (fun c => Z.of_N (Ascii.N_of_ascii c)) <$> String.list_ascii_of_string s.

Definition builder_message (block_number : Z) : Bytes :=
  string_bytes ("Block Number: " +:+ pretty block_number).

Definition signed_builder_tx {ExtraCtx} (ctx : OpPayloadBuilderCtx ExtraCtx) (d : db) (sg : Signer)
    (gas_used : Z) (message : Bytes) : outcome BTE Recovered :=
  let? nonce := get_nonce d (signer_address sg) in
  sign_typed sg (mkEip1559 (chain_id ctx) nonce gas_used (base_fee ctx) 0 0 message).

Definition simulate_builder_tx {ExtraCtx} (self : BuilderTxBase)
    (ctx : OpPayloadBuilderCtx ExtraCtx) (d : db) : outcome BTE (option BuilderTransactionCtx) :=
  match self with
  | Some sg =>
      let message := builder_message (block_number ctx) in
      let gas_used := estimate_builder_tx_gas message in
      let? signed_tx := signed_builder_tx ctx d sg gas_used message in
      let da_size := tx_estimated_size_fjord_bytes (tx_encoded_2718 (inner signed_tx)) in
      Ok (Some (mkBuilderTx gas_used da_size signed_tx false))
  | None => Ok None
  end.

(** ** Simulations *)

(** [commit_txs]: executes and commits transactions, whatever their result. *)
Definition commit_body {ExtraCtx} (ctx : OpPayloadBuilderCtx ExtraCtx) (t : Recovered) (d : db)
    : ctl db (outcome BTE db * db) :=
  match transact (evm_env ctx) d t with
  | inl err => Stop (Err (BuilderTransactionError.EvmExecutionError err), d)
  | inr (_, state) => Next (commit d state)
  end.
Definition commit_txs {ExtraCtx} (signed_txs : list Recovered) (ctx : OpPayloadBuilderCtx ExtraCtx)
    (d : db) : outcome BTE db * db :=
  match for_each (commit_body ctx) signed_txs d with
  | Next d' => (Ok d', d')
  | Stop r => r
  end.

(** [simulate_call]; [abi_decode_returns] is the decoder of the contract call's type and [errors] the
    interface whose errors it decodes. *)
Definition simulate_call {R} (errors : string) (abi_decode_returns : Bytes -> option R)
    (tx : OpTransactionRequest) (expected_logs : list B256) (env : EvmEnv) (d : db)
    : outcome BTE (SimulationSuccessResult changes R) :=
  match try_into_tx_env tx env with
  | Some err => Err (BuilderTransactionError.EvmExecutionError err)
  | None =>
      match transact_request env d tx with
      | inl err =>
          if is_invalid_tx_err err then Err (BuilderTransactionError.InvalidTransactionError err)
          else Err (BuilderTransactionError.EvmExecutionError err)
      | inr (Success gas_used output logs, state) =>
          let topics : gset B256 := list_to_set (mbind log_topics logs) in
          if negb (forallb (fun t => bool_decide (t ∈ topics)) expected_logs) then
            Err (BuilderTransactionError.InvalidContract (req_to tx)
                   (InvalidLogs expected_logs topics))
          else
            match abi_decode_returns output with
            | None => Err (BuilderTransactionError.InvalidContract (req_to tx) OutputAbiDecodeError)
            | Some return_output => Ok (mkSimulation gas_used return_output state)
            end
      | inr (Revert _ output, _) =>
          Err (BuilderTransactionError.TransactionReverted (req_to tx) (decode_revert errors output))
      | inr (Halt _ reason, _) =>
          Err (BuilderTransactionError.TransactionHalted (req_to tx) reason)
      end
  end.

End Sign.

(** ** The trait

    [simulate_builder_txs] simulates on a copy of the state and returns the signed transactions.  It
    may change the implementation's own state (a registration flag) and the copy. *)
Class BuilderTransactions `{X : Externals} (Self ExtraCtx Extra : Type) : Type :=
  simulate_builder_txs :
    Self -> db -> ExecutionInfo Extra -> OpPayloadBuilderCtx ExtraCtx -> db -> bool ->
    outcome BTE (list BuilderTransactionCtx) * Self * db.

(** A builder transaction: signed by its signer, of EIP-1559 type, with a [u64] size. *)
Definition builder_tx_ok (t : BuilderTransactionCtx) : Prop :=
  tx_from (inner (btx_signed_tx t)) = Some (signer (btx_signed_tx t)) ∧
  tx_ty (inner (btx_signed_tx t)) = Eip1559 ∧ in_u64 (btx_da_size t).

(** What the trait promises to its callers, for an implementation whose signers are valid. *)
Class BuilderTransactionsLaws `{X : Externals} (Self ExtraCtx Extra : Type)
    `{!BuilderTransactions Self ExtraCtx Extra} : Type := {
  self_ok : Self -> Prop;
  simulated_ok (self self' : Self) p (info : ExecutionInfo Extra)
      (ctx : OpPayloadBuilderCtx ExtraCtx) d d' top r :
    self_ok self -> simulate_builder_txs self p info ctx d top = (r, self', d') ->
    self_ok self' ∧ forall txs, r = Ok txs -> Forall builder_tx_ok txs;
}.

Section AddBuilderTxs.
Context `{X : Externals} `{B : !BuilderExternals X} {Self ExtraCtx Extra : Type}.
Context `{BT : !BuilderTransactions Self ExtraCtx Extra}.
Implicit Type ctx : OpPayloadBuilderCtx ExtraCtx.
Implicit Type info : ExecutionInfo Extra.

(** [simulate_builder_txs_with_state_copy] *)
Definition simulate_builder_txs_with_state_copy (self : Self) (state_provider : db) info ctx
    (d : db) (top_of_block : bool) : outcome BTE (list BuilderTransactionCtx) * Self :=
  let simulation_state := with_cached_prestate state_provider d in
  let '(r, self', _) :=
    simulate_builder_txs self state_provider info ctx simulation_state top_of_block in
  (r, self').

(** The state of the loop that commits: the info, the database and the invalid signers. *)
Record AddState : Type := mkAdd {
  add_info : ExecutionInfo Extra;
  add_db : db;
  add_invalid : gset Address;
}.

Definition include_builder info (t : BuilderTransactionCtx) (gas : Z) (receipt : OpReceipt)
    : ExecutionInfo Extra :=
  push_executed info (add64 (cumulative_gas_used info) gas)
    (add64 (cumulative_da_bytes_used info) (btx_da_size t)) (total_fees info) receipt
    (btx_signed_tx t).

Definition add_body ctx (top_of_block : bool) (t : BuilderTransactionCtx) (s : AddState)
    : ctl AddState (outcome BTE (list BuilderTransactionCtx) * AddState) :=
  let tx := btx_signed_tx t in
  let mark := mkAdd (add_info s) (add_db s) ({[signer tx]} ∪ add_invalid s) in
  if negb (Bool.eqb (btx_is_top_of_block t) top_of_block) then Next s
  else if bool_decide (signer tx ∈ add_invalid s) then Next s
  else
    match transact (evm_env ctx) (add_db s) tx with
    | inl (InvalidTx nonce_too_low _) => if nonce_too_low then Next s else Next mark
    | inl err => Stop (Err (BuilderTransactionError.EvmExecutionError err), s)
    | inr (result, state) =>
        if negb (is_success result) then Next mark
        else
          let receipt :=
            build_receipt ctx (inner tx) result state
              (add64 (cumulative_gas_used (add_info s)) (gas_used result)) None in
          Next (mkAdd (include_builder (add_info s) t (gas_used result) receipt)
                  (commit (add_db s) state) (add_invalid s))
    end.

(** The committing half of [add_builder_txs]. *)
Definition commit_builder_txs ctx (top_of_block : bool) (builder_txs : list BuilderTransactionCtx)
    info (d : db) : outcome BTE (list BuilderTransactionCtx) * ExecutionInfo Extra * db :=
  match for_each (add_body ctx top_of_block) builder_txs (mkAdd info d ∅) with
  | Next s => (Ok builder_txs, add_info s, add_db s)
  | Stop (r, s) => (r, add_info s, add_db s)
  end.

Definition add_builder_txs (self : Self) (state_provider : db) info ctx (d : db)
    (top_of_block : bool)
    : outcome BTE (list BuilderTransactionCtx) * Self * ExecutionInfo Extra * db :=
  match simulate_builder_txs_with_state_copy self state_provider info ctx d top_of_block with
  | (Err e, self') => (Err e, self', info, d)
  | (Panic, self') => (Panic, self', info, d)
  | (Ok builder_txs, self') =>
      let '(r, info', d') := commit_builder_txs ctx top_of_block builder_txs info d in
      (r, self', info', d')
  end.

(** ** Specification *)

(** One committed builder transaction. *)
Record admits_builder ctx (top : bool) info (d : db) (t : BuilderTransactionCtx)
    (gas : Z) (receipt : OpReceipt) (d' : db) : Prop := {
  bld_position : btx_is_top_of_block t = top;
  bld_replay : replay_tx ctx (btx_signed_tx t) d (cumulative_gas_used info)
    = Some (receipt, d', add64 (cumulative_gas_used info) gas);
  bld_gas : 0 <= gas <= tx_gas_limit (inner (btx_signed_tx t));
  bld_receipt : receipt_gas receipt = add64 (cumulative_gas_used info) gas;
  bld_success : rcpt_status (as_receipt receipt) = true;
  bld_result : exists result state,
    transact (evm_env ctx) d (btx_signed_tx t) = inr (result, state) /\
    gas = gas_used result /\ is_success result = true;
}.

Inductive builder_inclusions ctx (top : bool) (info0 : ExecutionInfo Extra) (d0 : db)
    : list BuilderTransactionCtx -> ExecutionInfo Extra -> db -> Prop :=
| builder_nil : builder_inclusions ctx top info0 d0 [] info0 d0
| builder_snoc l info d t gas receipt d' :
    builder_inclusions ctx top info0 d0 l info d ->
    admits_builder ctx top info d t gas receipt d' ->
    builder_inclusions ctx top info0 d0 (l ++ [t]) (include_builder info t gas receipt) d'.

(** Why a simulated transaction is left out, and the signers that are invalid after it: it has the other
    position, its signer is invalid, its nonce is too low, it is invalid otherwise, or it fails. *)
Inductive left_out ctx (top : bool) (s : AddState) (t : BuilderTransactionCtx) : gset Address -> Prop :=
| out_position : btx_is_top_of_block t <> top -> left_out ctx top s t (add_invalid s)
| out_signer :
    btx_is_top_of_block t = top -> signer (btx_signed_tx t) ∈ add_invalid s ->
    left_out ctx top s t (add_invalid s)
| out_nonce e :
    btx_is_top_of_block t = top -> signer (btx_signed_tx t) ∉ add_invalid s ->
    transact (evm_env ctx) (add_db s) (btx_signed_tx t) = inl (InvalidTx true e) ->
    left_out ctx top s t (add_invalid s)
| out_invalid e :
    btx_is_top_of_block t = top -> signer (btx_signed_tx t) ∉ add_invalid s ->
    transact (evm_env ctx) (add_db s) (btx_signed_tx t) = inl (InvalidTx false e) ->
    left_out ctx top s t ({[signer (btx_signed_tx t)]} ∪ add_invalid s)
| out_failed result state :
    btx_is_top_of_block t = top -> signer (btx_signed_tx t) ∉ add_invalid s ->
    transact (evm_env ctx) (add_db s) (btx_signed_tx t) = inr (result, state) ->
    is_success result = false ->
    left_out ctx top s t ({[signer (btx_signed_tx t)]} ∪ add_invalid s).

(** The transactions of the first list are gone through, those of the second are added: one that is not
    added was left out for a reason, one that is added was not. *)
Inductive commits ctx (top : bool)
    : AddState -> list BuilderTransactionCtx -> list BuilderTransactionCtx -> AddState -> Prop :=
| commits_nil s : commits ctx top s [] [] s
| commits_out s t ts l invalid s' :
    left_out ctx top s t invalid ->
    commits ctx top (mkAdd (add_info s) (add_db s) invalid) ts l s' ->
    commits ctx top s (t :: ts) l s'
| commits_in s t ts l gas receipt d s' :
    admits_builder ctx top (add_info s) (add_db s) t gas receipt d ->
    signer (btx_signed_tx t) ∉ add_invalid s ->
    commits ctx top (mkAdd (include_builder (add_info s) t gas receipt) d (add_invalid s)) ts l s' ->
    commits ctx top s (t :: ts) (t :: l) s'.

(** What a call of [add_builder_txs] adds to the block: nothing when the simulation fails; otherwise what
    committing the simulated transactions adds, up to the one that breaks the EVM. *)
Definition builder_adds (self : Self) p info ctx (d : db) (top : bool) (l : list BuilderTransactionCtx)
    info' (d' : db) : Prop :=
  match fst (simulate_builder_txs_with_state_copy self p info ctx d top) with
  | Ok txs => exists pre s, pre `prefix_of` txs /\ commits ctx top (mkAdd info d ∅) pre l s /\
      add_info s = info' /\ add_db s = d'
  | _ => l = [] /\ info' = info /\ d' = d
  end.

End AddBuilderTxs.
Arguments mkAdd {X Extra}.
Arguments add_info {X Extra} _.
Arguments add_db {X Extra} _.
Arguments add_invalid {X Extra} _.

(** ** A small signer and contract

    The address of a key is the key plus 49; a call of a contract uses 30000 gas, emits the topic 77
    and returns the word 5. *)
Module TestSigner.

Definition test_request (r : OpTransactionRequest)
    : EvmError + (ExecutionResult * @changes TestChain.chain) :=
  inr (Success 30000 [5] [mkLog [77] []], (req_from r, req_nonce r + 1)).

#[export] Instance test_builder : BuilderExternals TestChain.chain := {|
  secret_key_error sk := if sk =? 0 then Some 0 else None;
  public_address sk := sk + 49;
  sign_ecdsa_recoverable sk m := inr (0, sk, m);
  signature_hash t := e_nonce t;
  new_unhashed t s :=
    mkTx (1000 * sig_r s + e_nonce t) Eip1559 (Some (sig_r s + 49)) (e_nonce t) (e_gas_limit t)
      (e_max_fee_per_gas t) (e_max_priority_fee_per_gas t) (e_to t) (e_input t) [];
  with_cached_prestate _ d := d;
  try_into_tx_env _ _ := None;
  transact_request _ _ r := test_request r;
  decode_revert _ _ := 0;
|}.

#[export] Instance test_signing : SigningLaws TestChain.chain.
Proof.
  split; [done|intros; simplify_eq/=; by left|].
  intros sk t id r s [= <- <- <-] _. done.
Qed.

(** An implementation of the trait that returns what it holds. *)
Definition canned : Type := list BuilderTransactionCtx.

#[export] Instance canned_builder {ExtraCtx Extra} :
  BuilderTransactions (X := TestChain.chain) canned ExtraCtx Extra :=
  fun self _ _ _ d _ => (Ok self, self, d).

#[export] Instance canned_laws {ExtraCtx Extra} :
  BuilderTransactionsLaws (X := TestChain.chain) canned ExtraCtx Extra.
Proof.
  refine {| self_ok := Forall builder_tx_ok |}.
  intros self self' p info ctx d d' top r Hok [= <- <- <-]. split; [done|]. by intros txs [= <-].
Defined.

(** Two bottom-of-block transactions of account 50, the first of which reverts, one of account 51,
    and a top-of-block one. *)
Definition sample_builder_txs : canned :=
  [mkBuilderTx 21000 100 (sample_tx 61 50 0 [1]) false;
   mkBuilderTx 21000 100 (sample_tx 62 50 0 []) false;
   mkBuilderTx 21000 100 (sample_tx 63 51 0 []) false;
   mkBuilderTx 21000 100 (sample_tx 64 52 0 []) true].

End TestSigner.

(** ** Lemmas *)

Section SignLemmas.
Context `{X : Externals} `{B : !BuilderExternals X} `{SL : !SigningLaws X}.

Lemma sign_typed_Ok sg t u :
  sign_typed sg t = Ok u -> valid_signer sg ->
  signer u = signer_address sg ∧ tx_from (inner u) = Some (signer u) ∧ tx_ty (inner u) = Eip1559 ∧
  tx_nonce (inner u) = e_nonce t ∧ tx_gas_limit (inner u) = e_gas_limit t ∧
  tx_max_fee_per_gas (inner u) = e_max_fee_per_gas t ∧
  tx_max_priority_fee_per_gas (inner u) = e_max_priority_fee_per_gas t ∧
  tx_to (inner u) = e_to t ∧ tx_input (inner u) = e_input t.
Proof using SL.
  unfold sign_typed, sign_message.
  destruct (sign_ecdsa_recoverable _ _) as [|[[id r] s]] eqn:E; [done|]. simpl.
  intros [= <-] Hv. pose proof (recovery_id _ _ _ _ _ E) as Hid.
  pose proof (recovers _ _ _ _ _ E Hid) as Hr.
  pose proof (signed_fields t (mkSignature r s (negb (id =? 0)))) as (? & ? & ? & ? & ? & ? & ?).
  simpl. split_and!; try done. by rewrite Hr, Hv.
Qed.

Lemma count_bytes_spec_aux input z n :
  0 <= z -> 0 <= n -> z + n + Z.of_nat (length input) < U64_MOD ->
  let r := fold_left (fun '(zeros, nonzeros) byte =>
    if byte =? 0 then (add64 zeros 1, nonzeros) else (zeros, add64 nonzeros 1)) input (z, n) in
  z <= fst r ∧ n <= snd r ∧ fst r + snd r = z + n + Z.of_nat (length input) ∧
  fst r = z + Z.of_nat (length (List.filter (fun b => b =? 0) input)).
Proof.
  revert z n. induction input as [|b input IH]; intros z n Hz Hn Hs; simpl in *; [lia|].
  destruct (b =? 0); rewrite add64_exact by lia.
  - destruct (IH (z + 1) n) as (? & ? & ? & ?); [lia..|]. simpl. lia.
  - destruct (IH z (n + 1)) as (? & ? & ? & ?); [lia..|]. lia.
Qed.

End SignLemmas.

(** The buffer is exact: withholding one 64th of the buffered gas leaves the gas asked for. *)
Lemma buffered_gas_spec gas :
  0 <= gas -> gas * 64 < U64_MOD -> buffered_gas gas - buffered_gas gas / 64 = gas.
Proof.
  intros Hg Hlt. unfold buffered_gas. rewrite mul64_exact by lia.
  pose proof (Z.div_mod gas 63 ltac:(lia)) as Hd. pose proof (Z.mod_pos_bound gas 63 ltac:(lia)).
  set (q := gas / 63) in *. set (r := gas mod 63) in *.
  assert (H1 : gas * 64 / 63 = 64 * q + r).
  { symmetry. apply (Z.div_unique _ _ _ r); [lia|]. rewrite Hd. ring. }
  assert (H2 : (64 * q + r) / 64 = q) by (symmetry; apply (Z.div_unique _ _ _ r); lia).
  rewrite H1, H2. lia.
Qed.

Section AddLemmas.
Context `{X : Externals} `{B : !BuilderExternals X} {Self ExtraCtx Extra : Type}.
Context `{BT : !BuilderTransactions Self ExtraCtx Extra}.
Context `{G : !EvmGas X} `{RL : !ReceiptLaws X}.
Implicit Type ctx : OpPayloadBuilderCtx ExtraCtx.
Implicit Type info : ExecutionInfo Extra.

Lemma builder_tx_not_deposit t : builder_tx_ok t -> is_deposit (inner (btx_signed_tx t)) = false.
Proof. intros (_ & Ht & _). unfold is_deposit. by rewrite Ht. Qed.

Lemma add_body_Next ctx top t (s s' : AddState (Extra := Extra)) :
  builder_tx_ok t -> add_body ctx top t s = Next s' ->
  (exists invalid, left_out ctx top s t invalid ∧ s' = mkAdd (add_info s) (add_db s) invalid) ∨
  exists gas receipt d,
    admits_builder ctx top (add_info s) (add_db s) t gas receipt d ∧
    (signer (btx_signed_tx t) ∉ add_invalid s) ∧
    s' = mkAdd (include_builder (add_info s) t gas receipt) d (add_invalid s).
Proof using G RL.
  intros Hok. unfold add_body. assert (Hs : mkAdd (add_info s) (add_db s) (add_invalid s) = s) by (by destruct s).
  destruct (Bool.eqb (btx_is_top_of_block t) top) eqn:Hp; simpl.
  2: { intros [= <-]. left. exists (add_invalid s). split; [|done]. apply out_position. by apply Bool.eqb_false_iff. }
  apply Bool.eqb_prop in Hp. case_bool_decide as Hin.
  { intros [= <-]. left. exists (add_invalid s). split; [by apply out_signer|done]. }
  destruct (transact _ _ _) as [[[|] e|]|[result state]] eqn:Ht; [| |done|].
  - intros [= <-]. left. exists (add_invalid s). split; [by eapply out_nonce|done].
  - intros [= <-]. left. eexists. split; [by eapply out_invalid|done].
  - destruct (is_success result) eqn:Hsc; simpl; intros [= <-].
    2: { left. eexists. split; [by eapply out_failed|done]. }
    right. eexists (gas_used result), _, _. split_and!; [|done|done]. simpl.
    pose proof (build_receipt_spec ctx (inner (btx_signed_tx t)) result state
      (add64 (cumulative_gas_used (add_info s)) (gas_used result)) None) as [Hst Hrg].
    split; try done.
    + apply replay_tx_no_deposit; [by apply builder_tx_not_deposit|done].
    + by apply transact_gas in Ht.
    + by rewrite Hst.
    + by exists result, state.
Qed.

(** A transaction that breaks the EVM, in the state its turn came. *)
Definition breaks_evm ctx top (t : BuilderTransactionCtx) (s : AddState (Extra := Extra))
    (err : EvmError) : Prop :=
  btx_is_top_of_block t = top ∧ (signer (btx_signed_tx t) ∉ add_invalid s) ∧
  transact (evm_env ctx) (add_db s) (btx_signed_tx t) = inl err ∧ is_invalid_tx_err err = false.

Lemma add_body_Stop ctx top t (s : AddState (Extra := Extra)) r :
  add_body ctx top t s = Stop r ->
  exists err, r = (Err (BuilderTransactionError.EvmExecutionError err), s) ∧ breaks_evm ctx top t s err.
Proof.
  unfold add_body, breaks_evm. destruct (Bool.eqb (btx_is_top_of_block t) top) eqn:Hp; simpl; [|done].
  apply Bool.eqb_prop in Hp. case_bool_decide; [done|].
  destruct (transact _ _ _) as [[[|] e|]|[result state]] eqn:Ht; [done..| |].
  - intros [= <-]. by eexists.
  - by destruct (is_success result).
Qed.

Lemma commits_prefix ctx top pre (s s' : AddState (Extra := Extra)) :
  Forall builder_tx_ok pre -> for_each (add_body ctx top) pre s = Next s' ->
  exists l, commits ctx top s pre l s'.
Proof using G RL.
  intros Hok. revert s. induction Hok as [|t pre Ht _ IH]; intros s; simpl.
  { intros [= <-]. exists []. constructor. }
  destruct (add_body ctx top t s) as [s1|r] eqn:Hb; [|done]. intros (l & Hl)%IH.
  destruct (add_body_Next _ _ _ _ _ Ht Hb) as [(inv & Ho & ->)|(gas & rc & d & Ha & Hn & ->)].
  - exists l. by eapply commits_out.
  - exists (t :: l). by eapply commits_in.
Qed.

Lemma commits_inclusions ctx top (s : AddState (Extra := Extra)) pre l s' info0 d0 l0 :
  commits ctx top s pre l s' -> builder_inclusions ctx top info0 d0 l0 (add_info s) (add_db s) ->
  builder_inclusions ctx top info0 d0 (l0 ++ l) (add_info s') (add_db s') ∧ l `sublist_of` pre.
Proof.
  intros H. revert l0. induction H as [s|s t ts l inv s' Ho _ IH|s t ts l gas rc d s' Ha Hn _ IH]; intros l0 Hin.
  - by rewrite app_nil_r.
  - destruct (IH _ Hin). split; [done|by constructor].
  - destruct (IH (l0 ++ [t])) as [H1 H2]; [by eapply builder_snoc|]. rewrite <- app_assoc in H1.
    split; [done|by constructor].
Qed.

(** The committing loop, on both outcomes. *)
Lemma commit_builder_txs_spec ctx top txs info d r info' d' :
  Forall builder_tx_ok txs -> commit_builder_txs ctx top txs info d = (r, info', d') ->
  exists pre l s, commits ctx top (mkAdd info d ∅) pre l s ∧ add_info s = info' ∧ add_db s = d' ∧
    (r = Ok txs ∧ pre = txs ∨
     exists t post err, txs = pre ++ t :: post ∧ breaks_evm ctx top t s err ∧
       r = Err (BuilderTransactionError.EvmExecutionError err)).
Proof using G RL.
  intros Hok. unfold commit_builder_txs.
  destruct (for_each _ _ _) as [s|[r1 s]] eqn:Hf.
  - intros [= <- <- <-]. apply commits_prefix in Hf as (l & Hl); [|done].
    exists txs, l, s. split_and!; auto.
  - intros [= <- <- <-]. apply for_each_Stop in Hf as (pre & x & post & s1 & -> & Hp & Hb).
    apply add_body_Stop in Hb as (err & [= -> ->] & He).
    apply Forall_app in Hok as [Hok _]. apply commits_prefix in Hp as (l & Hl); [|done].
    exists pre, l, s1. split_and!; try done. right. by exists x, post, err.
Qed.

Lemma builder_executes ctx top d info0 d0 l info d' :
  builder_inclusions ctx top info0 d0 l info d' ->
  executes ctx d info0 d0 -> executes ctx d info d'.
Proof.
  induction 1 as [|l info1 d1 t gas rc d2 _ IH Ha]; intros He; [done|].
  eapply executes_push; [by apply IH|]. apply Ha.
Qed.

Lemma builder_lists ctx top info0 d0 l info d :
  builder_inclusions ctx top info0 d0 l info d ->
  executed_transactions info
    = executed_transactions info0 ++ (inner ∘ btx_signed_tx <$> l) ∧
  (exists rs, receipts info = receipts info0 ++ rs ∧ length rs = length l ∧
              Forall (fun r => rcpt_status (as_receipt r) = true) rs) ∧
  total_fees info = total_fees info0 ∧ extra info = extra info0 ∧
  da_footprint_scalar info = da_footprint_scalar info0 ∧
  optional_blob_fields info = optional_blob_fields info0 ∧
  Forall (fun t => btx_is_top_of_block t = top) l.
Proof.
  induction 1 as [|l info1 d1 t gas rc d2 _ (Ht & (rs & Hr & Hlen & Hs) & ? & ? & ? & ? & ?) Ha].
  - rewrite !app_nil_r. split_and!; try done. exists []. by rewrite app_nil_r.
  - simpl. rewrite Ht, Hr, fmap_app, <- !app_assoc. split_and!; try done.
    + exists (rs ++ [rc]). rewrite !length_app, Hlen. split_and!; [done..|].
      apply Forall_app. split; [done|]. constructor; [apply Ha|done].
    + apply Forall_app. split; [done|]. constructor; [apply Ha|done].
Qed.

(** Builder transactions keep the info well formed when the gas does not overflow. *)
Lemma builder_wf ctx top info0 d0 l info d :
  builder_inclusions ctx top info0 d0 l info d -> Forall builder_tx_ok l -> wf_info info0 ->
  cumulative_gas_used info0 + sum_Z (tx_gas_limit ∘ inner ∘ btx_signed_tx <$> l) < U64_MOD ->
  wf_info info ∧ cumulative_gas_used info
    <= cumulative_gas_used info0 + sum_Z (tx_gas_limit ∘ inner ∘ btx_signed_tx <$> l).
Proof.
  intros Hin. induction Hin as [|l info1 d1 t gas rc d2 _ IH Ha]; simpl; [by split; [|lia]|].
  rewrite Forall_app, fmap_app, sum_Z_app. simpl. intros [Hok [Ht _]%Forall_cons] Hw Hs.
  assert (Hg : 0 <= gas <= (tx_gas_limit ∘ inner ∘ btx_signed_tx) t)
    by apply (bld_gas _ _ _ _ _ _ _ _ Ha).
  unfold compose in *. destruct IH as [Hw1 Hle]; [done..|lia|]. pose proof (wf_gas _ Hw1) as [? _].
  assert (Hadd : add64 (cumulative_gas_used info1) gas = cumulative_gas_used info1 + gas)
    by (apply add64_exact; lia).
  rewrite Hadd. split; [|lia]. destruct Ht as (Hf & _ & _). unfold include_builder. rewrite Hadd.
  apply wf_push_executed; [done|lia|split; lia|apply add64_range| |done].
  by rewrite (bld_receipt _ _ _ _ _ _ _ _ Ha).
Qed.

Context `{L : !BuilderTransactionsLaws Self ExtraCtx Extra}.

(** Both halves together. *)
Lemma add_builder_txs_trace (self self' : Self) p info ctx d top r info' d' :
  self_ok self -> add_builder_txs self p info ctx d top = (r, self', info', d') ->
  self_ok self' ∧ exists l, builder_adds self p info ctx d top l info' d' ∧
    builder_inclusions ctx top info d l info' d' ∧ Forall builder_tx_ok l.
Proof using G RL L.
  intros Hok. unfold add_builder_txs, builder_adds, simulate_builder_txs_with_state_copy.
  destruct (simulate_builder_txs self p info ctx (with_cached_prestate p d) top)
    as [[r0 self0] d1] eqn:Hs.
  destruct (simulated_ok _ _ _ _ _ _ _ _ _ Hok Hs) as [Hok' Hf]. simpl.
  destruct r0 as [txs|e|].
  2,3: intros [= <- <- <- <-]; split; [done|]; exists []; split_and!; auto; constructor.
  destruct (commit_builder_txs ctx top txs info d) as [[r1 info1] d2] eqn:Hc.
  intros [= <- <- <- <-]. specialize (Hf txs eq_refl). split; [done|].
  destruct (commit_builder_txs_spec _ _ _ _ _ _ _ _ Hf Hc) as (pre & l & s & Hl & <- & <- & Hr).
  assert (Hpre : pre `prefix_of` txs).
  { destruct Hr as [[_ ->]|(t & post & err & -> & _)]; [done|by eexists]. }
  destruct (commits_inclusions _ _ _ _ _ _ info d [] Hl ltac:(constructor)) as [Hin Hsub].
  exists l. split_and!; [by exists pre, s|done|]. eapply Forall_sublist; [|exact Hf].
  destruct Hpre as [k ->]. by apply sublist_inserts_r.
Qed.

End AddLemmas.

Import TestChain TestSigner.

(** ** Properties *)

(** A transaction signed for a simulated contract call carries the account's nonce, pays exactly
    the base fee without a tip, is signed by the given signer, and its gas limit is buffered exactly:
    with one 64th of it withheld, as EIP-150 does for the inner call, the gas the simulation used is
    left. *)
Theorem sign_tx_spec `{X : Externals} `{B : !BuilderExternals X} `{!SigningLaws X} {ExtraCtx} to from
    gas calldata (ctx : OpPayloadBuilderCtx ExtraCtx) d t :
  sign_tx to from gas calldata ctx d = Ok t -> valid_signer from -> 0 <= gas -> gas * 64 < U64_MOD ->
  get_nonce d (signer_address from) = Ok (tx_nonce (inner t)) ∧
  signer t = signer_address from ∧ tx_from (inner t) = Some (signer t) ∧
  tx_max_fee_per_gas (inner t) = base_fee ctx ∧ tx_max_priority_fee_per_gas (inner t) = 0 ∧
  tx_to (inner t) = to ∧ tx_input (inner t) = calldata ∧
  tx_gas_limit (inner t) - tx_gas_limit (inner t) / 64 = gas.
Proof.
  intros H Hv Hg Hlt. unfold sign_tx in H. apply bind_Ok in H as (nonce & Hn & H).
  apply sign_typed_Ok in H as (? & ? & _ & ? & Hgl & ? & ? & ? & ?); [|done]. simpl in *.
  rewrite Hgl. split_and!; try congruence. by apply buffered_gas_spec.
Qed.

Lemma sign_tx_spec_witness :
  exists t, sign_tx (X := chain) 9 (mkSigner 50 1) 30000 [3] (sample_ctx false [] never_cancelled tt) [] = Ok t ∧
            tx_gas_limit (inner t) = 30476 ∧
            tx_gas_limit (inner t) - tx_gas_limit (inner t) / 64 = 30000.
Proof.
  destruct (sign_tx (X := chain) 9 (mkSigner 50 1) 30000 [3] (sample_ctx false [] never_cancelled tt) [])
    as [t| |] eqn:E; [|discriminate..].
  exists t. split; [reflexivity|]. split; [by injection E as <-|].
  apply (sign_tx_spec (X := chain) 9 (mkSigner 50 1) 30000 [3] (sample_ctx false [] never_cancelled tt) [] t E);
    [reflexivity|lia|reflexivity].
Defined.

(** The gas reserved for the base builder transaction is the EIP-7623 floor price of its message,
    21000 plus 10 per zero byte and 40 per other byte, which is never below the intrinsic cost. *)
Theorem estimate_builder_tx_gas_spec input :
  Z.of_nat (length input) < 2 ^ 56 ->
  let zeros := Z.of_nat (length (List.filter (fun b => b =? 0) input)) in
  let nonzeros := Z.of_nat (length input) - zeros in
  estimate_builder_tx_gas input = 21000 + 10 * zeros + 40 * nonzeros ∧
  21000 + 4 * zeros + 16 * nonzeros <= estimate_builder_tx_gas input.
Proof.
  intros Hlen zeros nonzeros. unfold estimate_builder_tx_gas.
  pose proof (count_bytes_spec_aux input 0 0) as H. unfold count_bytes.
  destruct (fold_left _ input (0, 0)) as [z n]. simpl in H.
  destruct H as (? & ? & ? & ?); [done..|unfold U64_MOD; lia|].
  assert (Hz : z = zeros) by lia. assert (Hn : n = nonzeros) by lia.
  unfold TOTAL_COST_FLOOR_PER_TOKEN.
  rewrite !mul64_exact, !add64_exact by (rewrite ?mul64_exact, ?add64_exact; unfold U64_MOD; lia).
  lia.
Qed.

Lemma estimate_builder_tx_gas_spec_witness :
  estimate_builder_tx_gas (builder_message 42) = 21000 + 40 * 16.
Proof. apply (estimate_builder_tx_gas_spec (builder_message 42)). reflexivity. Defined.

(** C22: adding builder transactions.  When the simulation on the copy of the state fails, the call fails
    with its error and the block is untouched.  Otherwise the simulated transactions are gone through in
    order: one that is not added has the other position, or a signer that was found invalid before, or a
    nonce that is too low, or is invalid or fails when its turn comes, which makes its signer invalid from
    then on; all others are added, with the receipt and the gas of their execution, and no fees.  The call
    returns all the simulated transactions, unless one breaks the EVM when its turn comes: then it fails
    with that error, what came before stays in the block.  The block remains a replay of its
    transactions. *)
Theorem add_builder_txs_spec `{X : Externals} `{B : !BuilderExternals X} `{!EvmGas X}
    `{!ReceiptLaws X} {Self ExtraCtx Extra} `{BT : !BuilderTransactions Self ExtraCtx Extra}
    `{L : !BuilderTransactionsLaws Self ExtraCtx Extra} (self self' : Self) p
    (info info' : ExecutionInfo Extra) (ctx : OpPayloadBuilderCtx ExtraCtx) d d' top r :
  add_builder_txs self p info ctx d top = (r, self', info', d') -> self_ok self ->
  (forall d0, executes ctx d0 info d -> executes ctx d0 info' d') ∧
  self' = snd (simulate_builder_txs_with_state_copy self p info ctx d top) ∧
  match fst (simulate_builder_txs_with_state_copy self p info ctx d top) with
  | Ok txs => exists pre added s,
      commits ctx top (mkAdd info d ∅) pre added s ∧ add_info s = info' ∧ add_db s = d' ∧
      executed_transactions info'
        = executed_transactions info ++ (inner ∘ btx_signed_tx <$> added) ∧
      total_fees info' = total_fees info ∧
      (r = Ok txs ∧ pre = txs ∨
       exists t post err, txs = pre ++ t :: post ∧ breaks_evm ctx top t s err ∧
         r = Err (BuilderTransactionError.EvmExecutionError err))
  | Err e => r = Err e ∧ info' = info ∧ d' = d
  | Panic => r = Panic ∧ info' = info ∧ d' = d
  end.
Proof.
  intros H Hok. destruct (add_builder_txs_trace _ _ _ _ _ _ _ _ _ _ Hok H) as (_ & l & _ & Hl & _).
  split; [intros d0; by eapply builder_executes|]. clear l Hl.
  unfold add_builder_txs, simulate_builder_txs_with_state_copy in *.
  destruct (simulate_builder_txs _ _ _ _ _ _) as [[r0 self0] d1] eqn:Hs. simpl.
  destruct r0 as [txs|e|]; [|by injection H as <- <- <- <-..].
  destruct (commit_builder_txs ctx top txs info d) as [[r1 info1] d2] eqn:Hc. simplify_eq.
  split; [done|].
  assert (Hf : Forall builder_tx_ok txs) by (by apply (simulated_ok _ _ _ _ _ _ _ _ _ Hok Hs)).
  destruct (commit_builder_txs_spec _ _ _ _ _ _ _ _ Hf Hc) as (pre & l & s & Hl & <- & <- & Hr).
  destruct (commits_inclusions _ _ _ _ _ _ info d [] Hl ltac:(constructor)) as [Hin _].
  destruct (builder_lists _ _ _ _ _ _ _ Hin) as (Ht & _ & Hfee & _).
  exists pre, l, s. by split_and!.
Qed.

(** The second transaction of account 50 is left out because its first reverted. *)
Lemma add_builder_txs_spec_witness :
  exists info' d', add_builder_txs (X := chain) (sample_builder_txs : canned) [] (with_capacity tt)
      (sample_ctx false [] never_cancelled tt) [] false
      = (Ok sample_builder_txs, sample_builder_txs, info', d') ∧
    (tx_hash <$> executed_transactions info') = [63] ∧
    executes (X := chain) (sample_ctx false [] never_cancelled tt) [] info' d'.
Proof.
  eexists _, _. split; [vm_compute; reflexivity|]. split; [reflexivity|].
  eapply (add_builder_txs_spec (X := chain) (sample_builder_txs : canned) _ [] (with_capacity tt) _
            (sample_ctx false [] never_cancelled tt) [] _ false).
  - vm_compute. reflexivity.
  - repeat (apply Forall_cons; split; [vm_compute; repeat split; discriminate || reflexivity|]).
    apply Forall_nil_2.
  - apply executes_initial.
Defined.
