(* ===== verification/FlashblocksCtx.v ===== *)
(** * The flashblocks context

    Models the data of [builders/flashblocks/payload.rs] that the rest of the flashblocks builder
    shares: the extra context of a flashblock and the extra execution info. *)

From S2P Require Import Prelude External ExecInfo Sidecar Context.

(** [FlashblocksExecutionInfo]: [last_flashblock_index] *)
Record FlashblocksExecutionInfo : Type := mkFbInfo { last_flashblock_index : nat }.
Definition default_fb_info : FlashblocksExecutionInfo := mkFbInfo 0.

Record FlashblocksExtraCtx : Type := mkFbCtx {
  fx_flashblock_index : Z;
  fx_target_flashblock_count : Z;
  fx_target_gas_for_batch : Z;
  fx_target_da_for_batch : option Z;
  fx_target_da_footprint_for_batch : option Z;
  fx_gas_per_batch : Z;
  fx_da_per_batch : option Z;
  fx_da_footprint_per_batch : option Z;
  fx_disable_state_root : bool;
}.
Definition default_fb_ctx : FlashblocksExtraCtx := mkFbCtx 0 0 0 None None 0 None None false.

(** [FlashblocksExtraCtx::next] *)
Definition fb_next (self : FlashblocksExtraCtx) (gas : Z) (da da_footprint : option Z)
    : FlashblocksExtraCtx :=
  mkFbCtx (add64 (fx_flashblock_index self) 1) (fx_target_flashblock_count self) gas da da_footprint
    (fx_gas_per_batch self) (fx_da_per_batch self) (fx_da_footprint_per_batch self)
    (fx_disable_state_root self).

Abbreviation FbCtx := (OpPayloadBuilderCtx FlashblocksExtraCtx).
Abbreviation FbInfo := (ExecutionInfo FlashblocksExecutionInfo).

Definition flashblock_index (ctx : FbCtx) : Z := fx_flashblock_index (extra_ctx ctx).
Definition target_flashblock_count (ctx : FbCtx) : Z := fx_target_flashblock_count (extra_ctx ctx).
Definition is_first_flashblock (ctx : FbCtx) : bool := flashblock_index ctx =? 0.
Definition is_last_flashblock (ctx : FbCtx) : bool :=
  flashblock_index ctx =? target_flashblock_count ctx.
