(* ===== verification/BuilderTxImpls.v ===== *)
(** * The implementations of the builder transactions

    Models [flashtestations/builder_tx.rs], [builders/flashblocks/builder_tx.rs] and
    [builders/standard/builder_tx.rs]: the four implementations of [BuilderTransactions], each of
    which discharges the laws of the trait. *)

From S2P Require Import Prelude External ExecInfo PoolTx Sidecar Context Replay BuilderTx FlashblocksCtx.

(** ** Contract calls

    The calls of the three contracts with their arguments; every return value the sources use is one
    word (a flag, a number or a hash). *)
Inductive ContractCall : Type :=
(* IFlashblockNumber *)
| flashblockNumberCall
| incrementFlashblockNumberCall
| permitIncrementFlashblockNumberCall (current : Z) (signature : Bytes)
| fbComputeStructHashCall (current : Z)
| fbHashTypedDataV4Call (struct_hash : B256)
(* IFlashtestationRegistry and IERC20Permit *)
| getRegistrationStatusCall (tee : Address)
| noncesCall (owner : Address)
| registryComputeStructHashCall (quote : Bytes) (data : Bytes) (nonce deadline : Z)
| registryHashTypedDataV4Call (struct_hash : B256)
| permitRegisterTEEServiceCall (quote : Bytes) (data : Bytes) (nonce deadline : Z) (sig : Bytes)
(* IBlockBuilderPolicy *)
| policyComputeStructHashCall (version : Z) (content_hash : B256) (nonce : Z)
| getHashedTypeDataV4Call (struct_hash : B256)
| permitVerifyBlockBuilderProofCall (content_hash : B256) (nonce version : Z) (sig : Bytes).

Record BlockData : Type := mkBlockData {
  bd_parent_hash : B256;
  bd_block_number : Z;
  bd_timestamp : Z;
  bd_transaction_hashes : list B256;
}.

(** The encoders of alloy, and the hash. *)
Class Abi : Type := {
  abi_encode : ContractCall -> Bytes;
  abi_decode_returns : ContractCall -> Bytes -> option Z;
  signature_bytes : Signature -> Bytes;
  encode_block_data : BlockData -> Bytes;
  keccak256 : Bytes -> B256;
  FlashblockIncremented : B256;
  TEEServiceRegistered : B256;
  BlockBuilderProofVerified : B256;
}.

(** [modify_cfg] *)
Definition modify_cfg (env : EvmEnv) (balance block_gas nonce : bool) : EvmEnv :=
  mkEvmEnv (env_number env) (env_basefee env) (env_gas_limit env) (env_beneficiary env)
    (env_blob_gasprice env) (balance || cfg_disable_balance_check env)
    (block_gas || cfg_disable_block_gas_limit env) (nonce || cfg_disable_nonce_check env).

(** ** Flashtestations *)

Record FlashtestationsBuilderTx : Type := mkFlashtestations {
  ft_attestation : Bytes;
  ft_extra_registration_data : Bytes;
  ft_tee_service_signer : Signer;
  ft_registry_address : Address;
  ft_builder_policy_address : Address;
  ft_builder_proof_version : Z;
  ft_registered : bool;
  ft_enable_block_proofs : bool;
  ft_builder_signer : Signer;
}.

Definition store_registered (self : FlashtestationsBuilderTx) : FlashtestationsBuilderTx :=
  mkFlashtestations (ft_attestation self) (ft_extra_registration_data self)
    (ft_tee_service_signer self) (ft_registry_address self) (ft_builder_policy_address self)
    (ft_builder_proof_version self) true (ft_enable_block_proofs self) (ft_builder_signer self).

Section Flashtestations.
Context `{X : Externals} `{B : !BuilderExternals X} `{A : Abi} {ExtraCtx Extra : Type}.
Implicit Type self : FlashtestationsBuilderTx.
Implicit Type ctx : OpPayloadBuilderCtx ExtraCtx.

Definition tee_signer self : Signer := ft_tee_service_signer self.

Definition compute_block_content_hash (txs : list OpTransactionSigned) (parent_hash : B256)
    (number timestamp : Z) : B256 :=
  let transaction_hashes := (fun tx => keccak256 (tx_encoded_2718 tx)) <$> txs in
  keccak256 (encode_block_data (mkBlockData parent_hash number timestamp transaction_hashes)).

(** [flashtestations_call] and [flashtestations_contract_read]; the EVM is its environment and its
    database. *)
Definition flashtestations_call self (contract_address : Address) (calldata : ContractCall)
    (expected_topics : list B256) ctx (env : EvmEnv) (d : db)
    : outcome BTE (SimulationSuccessResult changes Z) :=
  let? nonce := get_nonce d (signer_address (ft_builder_signer self)) in
  let tx_req :=
    mkRequest (block_gas_limit ctx) (base_fee ctx) contract_address
      (signer_address (ft_builder_signer self)) nonce (abi_encode calldata) in
  if contract_address =? ft_registry_address self then
    simulate_call "IFlashtestationRegistry" (abi_decode_returns calldata) tx_req expected_topics env d
  else if contract_address =? ft_builder_policy_address self then
    simulate_call "IBlockBuilderPolicy" (abi_decode_returns calldata) tx_req expected_topics env d
  else Err (BuilderTransactionError.Other "invalid contract address for flashtestations").

Definition flashtestations_contract_read self (contract_address : Address) (calldata : ContractCall)
    ctx (env : EvmEnv) (d : db) : outcome BTE Z :=
  let? r := flashtestations_call self contract_address calldata [] ctx env d in
  Ok (sim_output r).

(** [set_registered] reads the registration status in the parent state. *)
Definition set_registered self (state_provider : db) ctx
    : outcome BTE unit * FlashtestationsBuilderTx :=
  let env := modify_cfg (evm_env ctx) true false true in
  let calldata := getRegistrationStatusCall (signer_address (ft_tee_service_signer self)) in
  match flashtestations_contract_read self (ft_registry_address self) calldata ctx env
          state_provider with
  | Ok is_valid => (Ok tt, if negb (is_valid =? 0) then store_registered self else self)
  | Err e => (Err e, self)
  | Panic => (Panic, self)
  end.

Definition get_permit_nonce self (contract_address : Address) ctx (env : EvmEnv) (d : db)
    : outcome BTE Z :=
  flashtestations_contract_read self contract_address
    (noncesCall (signer_address (ft_tee_service_signer self))) ctx env d.

Definition registration_permit_signature self (permit_nonce : Z) ctx (env : EvmEnv) (d : db)
    : outcome BTE Signature :=
  let? struct_hash :=
    flashtestations_contract_read self (ft_registry_address self)
      (registryComputeStructHashCall (ft_attestation self) (ft_extra_registration_data self)
         permit_nonce (timestamp ctx)) ctx env d in
  let? typed_hash :=
    flashtestations_contract_read self (ft_registry_address self)
      (registryHashTypedDataV4Call struct_hash) ctx env d in
  sign_message (ft_tee_service_signer self) typed_hash.

(** The transaction for a simulated call: signed with the buffered gas, placed at the bottom. *)
Definition bottom_tx self (to : Address) (gas_used : Z) (calldata : ContractCall) ctx (d : db)
    : outcome BTE BuilderTransactionCtx :=
  let? signed_tx := sign_tx to (ft_builder_signer self) gas_used (abi_encode calldata) ctx d in
  let da_size := tx_estimated_size_fjord_bytes (tx_encoded_2718 (inner signed_tx)) in
  Ok (mkBuilderTx gas_used da_size signed_tx false).

(** [signed_registration_permit_tx] also commits the simulated registration, so that the block proof
    can succeed. *)
Definition signed_registration_permit_tx self ctx (env : EvmEnv) (d : db)
    : outcome BTE (BuilderTransactionCtx * db) :=
  let? permit_nonce := get_permit_nonce self (ft_registry_address self) ctx env d in
  let? signature := registration_permit_signature self permit_nonce ctx env d in
  let calldata :=
    permitRegisterTEEServiceCall (ft_attestation self) (ft_extra_registration_data self)
      permit_nonce (timestamp ctx) (signature_bytes signature) in
  let? r :=
    flashtestations_call self (ft_registry_address self) calldata [TEEServiceRegistered] ctx env d in
  let? tx := bottom_tx self (ft_registry_address self) (sim_gas_used r) calldata ctx d in
  Ok (tx, commit d (sim_state_changes r)).

Definition block_proof_permit_signature self (permit_nonce : Z) (block_content_hash : B256) ctx
    (env : EvmEnv) (d : db) : outcome BTE Signature :=
  let? struct_hash :=
    flashtestations_contract_read self (ft_builder_policy_address self)
      (policyComputeStructHashCall (ft_builder_proof_version self) block_content_hash permit_nonce)
      ctx env d in
  let? typed_hash :=
    flashtestations_contract_read self (ft_builder_policy_address self)
      (getHashedTypeDataV4Call struct_hash) ctx env d in
  sign_message (ft_tee_service_signer self) typed_hash.

Definition signed_block_proof_permit_tx self (transactions : list OpTransactionSigned) ctx
    (env : EvmEnv) (d : db) : outcome BTE BuilderTransactionCtx :=
  let? permit_nonce := get_permit_nonce self (ft_builder_policy_address self) ctx env d in
  let block_content_hash :=
    compute_block_content_hash transactions (parent_hash ctx) (block_number ctx) (timestamp ctx) in
  let? signature := block_proof_permit_signature self permit_nonce block_content_hash ctx env d in
  let calldata :=
    permitVerifyBlockBuilderProofCall block_content_hash permit_nonce
      (ft_builder_proof_version self) (signature_bytes signature) in
  let? r :=
    flashtestations_call self (ft_builder_policy_address self) calldata [BlockBuilderProofVerified]
      ctx env d in
  bottom_tx self (ft_builder_policy_address self) (sim_gas_used r) calldata ctx d.

(** The registration, unless the service is registered. *)
Definition registration_txs self ctx (env : EvmEnv) (d : db)
    : outcome BTE (list BuilderTransactionCtx * db) :=
  if negb (ft_registered self) then
    let? (tx, d') := signed_registration_permit_tx self ctx env d in Ok ([tx], d')
  else Ok ([], d).

(** The block proof, whose errors are only logged. *)
Definition block_proof_txs self (info : ExecutionInfo Extra) ctx (env : EvmEnv) (d : db)
    : list BuilderTransactionCtx :=
  if ft_enable_block_proofs self then
    match signed_block_proof_permit_tx self (executed_transactions info) ctx env d with
    | Ok tx => [tx]
    | _ => []
    end
  else [].

Definition flashtestations_simulate self (state_provider : db) (info : ExecutionInfo Extra) ctx
    (d : db) (top_of_block : bool)
    : outcome BTE (list BuilderTransactionCtx) * FlashtestationsBuilderTx * db :=
  let '(r, self) :=
    if negb (ft_registered self) then set_registered self state_provider ctx else (Ok tt, self) in
  match r with
  | Err e => (Err e, self, d)
  | Panic => (Panic, self, d)
  | Ok _ =>
      let env := modify_cfg (evm_env ctx) true true false in
      match registration_txs self ctx env d with
      | Err e => (Err e, self, d)
      | Panic => (Panic, self, d)
      | Ok (txs, d') => (Ok (txs ++ block_proof_txs self info ctx env d'), self, d')
      end
  end.

#[export] Instance flashtestations_builder_transactions :
  BuilderTransactions FlashtestationsBuilderTx ExtraCtx Extra := flashtestations_simulate.

End Flashtestations.

(** The panics of the inner implementation propagate; its errors are only logged. *)
Definition extend_or_warn {A} (txs : list A) (r : outcome BTE (list A)) : outcome BTE (list A) :=
  match r with Ok more => Ok (txs ++ more) | Err _ => Ok txs | Panic => Panic end.

(** ** The standard builder *)

Record StandardBuilderTx : Type := mkStandard {
  std_base_builder_tx : BuilderTxBase;
  std_flashtestations_builder_tx : option FlashtestationsBuilderTx;
}.

Section Implementations.
Context `{X : Externals} `{B : !BuilderExternals X} `{A : Abi}.

(** The flashtestations transactions, simulated after the transactions [before] are committed to the
    copy of the state. *)
Definition with_flashtestations {ExtraCtx Extra} (before : list Recovered)
    (txs : list BuilderTransactionCtx) (ft : FlashtestationsBuilderTx) (state_provider : db)
    (info : ExecutionInfo Extra) (ctx : OpPayloadBuilderCtx ExtraCtx) (d : db) (top : bool)
    : outcome BTE (list BuilderTransactionCtx) * FlashtestationsBuilderTx * db :=
  match commit_txs before ctx d with
  | (Err e, d') => (Err e, ft, d')
  | (Panic, d') => (Panic, ft, d')
  | (Ok _, d') =>
      let '(r, ft', d'') := flashtestations_simulate ft state_provider info ctx d' top in
      (extend_or_warn txs r, ft', d'')
  end.

Definition option_txs (t : option BuilderTransactionCtx) : list BuilderTransactionCtx :=
  match t with Some t => [t] | None => [] end.

Definition standard_simulate {ExtraCtx Extra} (self : StandardBuilderTx) (state_provider : db)
    (info : ExecutionInfo Extra) (ctx : OpPayloadBuilderCtx ExtraCtx) (d : db) (top_of_block : bool)
    : outcome BTE (list BuilderTransactionCtx) * StandardBuilderTx * db :=
  match simulate_builder_tx (std_base_builder_tx self) ctx d with
  | Err e => (Err e, self, d)
  | Panic => (Panic, self, d)
  | Ok base_tx =>
      let builder_txs := option_txs base_tx in
      match std_flashtestations_builder_tx self with
      | Some ft =>
          let '(r, ft', d') :=
            with_flashtestations (btx_signed_tx <$> builder_txs) builder_txs ft state_provider info
              ctx d top_of_block in
          (r, mkStandard (std_base_builder_tx self) (Some ft'), d')
      | None => (Ok builder_txs, self, d)
      end
  end.

(** ** The flashblocks builder *)

Definition flashblocks_simulate (self : StandardBuilderTx) (state_provider : db) (info : FbInfo)
    (ctx : FbCtx) (d : db) (top_of_block : bool)
    : outcome BTE (list BuilderTransactionCtx) * StandardBuilderTx * db :=
  let first :=
    if is_first_flashblock ctx then
      let? tx := simulate_builder_tx (std_base_builder_tx self) ctx d in Ok (option_txs tx)
    else Ok [] in
  match first with
  | Err e => (Err e, self, d)
  | Panic => (Panic, self, d)
  | Ok builder_txs =>
      if is_last_flashblock ctx then
        match simulate_builder_tx (std_base_builder_tx self) ctx d with
        | Err e => (Err e, self, d)
        | Panic => (Panic, self, d)
        | Ok base_tx =>
            let builder_txs := builder_txs ++ option_txs base_tx in
            match std_flashtestations_builder_tx self with
            | Some ft =>
                let '(r, ft', d') :=
                  with_flashtestations (btx_signed_tx <$> option_txs base_tx) builder_txs ft
                    state_provider info ctx d top_of_block in
                (r, mkStandard (std_base_builder_tx self) (Some ft'), d')
            | None => (Ok builder_txs, self, d)
            end
        end
      else (Ok builder_txs, self, d)
  end.

End Implementations.

(** The two implementations have the same fields; the flashblocks one is a type of its own so that
    each has its instance. *)
Record FlashblocksBuilderTx : Type := mkFlashblocksBuilder { fbb_fields : StandardBuilderTx }.

#[export] Instance standard_builder_transactions `{X : Externals} `{!BuilderExternals X} `{Abi} :
  BuilderTransactions StandardBuilderTx unit unit := standard_simulate.
#[export] Instance flashblocks_builder_transactions `{X : Externals} `{!BuilderExternals X} `{Abi} :
  BuilderTransactions FlashblocksBuilderTx FlashblocksExtraCtx FlashblocksExecutionInfo :=
  fun self p info ctx d top =>
    let '(r, self', d') := flashblocks_simulate (fbb_fields self) p info ctx d top in
    (r, mkFlashblocksBuilder self', d').

(** ** The flashblock number builder *)

Record FlashblocksNumberBuilderTx : Type := mkNumberBuilder {
  nb_signer : Signer;
  nb_flashblock_number_address : Address;
  nb_use_permit : bool;
  nb_base_builder_tx : BuilderTxBase;
  nb_flashtestations_builder_tx : option FlashtestationsBuilderTx;
}.

(** [FlashblocksNumberBuilderTx::new] *)
Definition new_number_builder (sg : Signer) (address : Address) (use_permit : bool)
    (ft : option FlashtestationsBuilderTx) : FlashblocksNumberBuilderTx :=
  mkNumberBuilder sg address use_permit (Some sg) ft.

Section Number.
Context `{X : Externals} `{B : !BuilderExternals X} `{A : Abi}.
Implicit Type self : FlashblocksNumberBuilderTx.

Definition simulate_flashblocks_call self (calldata : ContractCall) (expected_logs : list B256)
    (ctx : FbCtx) (env : EvmEnv) (d : db) : outcome BTE (SimulationSuccessResult changes Z) :=
  let? nonce := get_nonce d (signer_address (nb_signer self)) in
  simulate_call "IFlashblockNumber" (abi_decode_returns calldata)
    (mkRequest (block_gas_limit ctx) (base_fee ctx) (nb_flashblock_number_address self)
       (signer_address (nb_signer self)) nonce (abi_encode calldata)) expected_logs env d.

Definition simulate_flashblocks_readonly_call self (calldata : ContractCall) (ctx : FbCtx)
    (env : EvmEnv) (d : db) : outcome BTE Z :=
  let? r := simulate_flashblocks_call self calldata [] ctx env d in Ok (sim_output r).

Definition increment_flashblocks_tx self (calldata : ContractCall) (ctx : FbCtx) (env : EvmEnv)
    (d : db) : outcome BTE BuilderTransactionCtx :=
  let? r := simulate_flashblocks_call self calldata [FlashblockIncremented] ctx env d in
  let? signed_tx :=
    sign_tx (nb_flashblock_number_address self) (nb_signer self) (sim_gas_used r)
      (abi_encode calldata) ctx d in
  let da_size := tx_estimated_size_fjord_bytes (tx_encoded_2718 (inner signed_tx)) in
  Ok (mkBuilderTx (sim_gas_used r) da_size signed_tx true).

Definition signed_increment_flashblocks_tx self (ctx : FbCtx) (env : EvmEnv) (d : db)
    : outcome BTE BuilderTransactionCtx :=
  increment_flashblocks_tx self incrementFlashblockNumberCall ctx env d.

Definition increment_flashblocks_permit_signature self (flashtestations_signer : Signer)
    (current_flashblock_number : Z) (ctx : FbCtx) (env : EvmEnv) (d : db) : outcome BTE Signature :=
  let? struct_hash :=
    simulate_flashblocks_readonly_call self (fbComputeStructHashCall current_flashblock_number) ctx
      env d in
  let? typed_hash :=
    simulate_flashblocks_readonly_call self (fbHashTypedDataV4Call struct_hash) ctx env d in
  sign_message flashtestations_signer typed_hash.

Definition signed_increment_flashblocks_permit_tx self (flashtestations_signer : Signer)
    (ctx : FbCtx) (env : EvmEnv) (d : db) : outcome BTE BuilderTransactionCtx :=
  let? current := simulate_flashblocks_readonly_call self flashblockNumberCall ctx env d in
  let? signature :=
    increment_flashblocks_permit_signature self flashtestations_signer current ctx env d in
  increment_flashblocks_tx self
    (permitIncrementFlashblockNumberCall current (signature_bytes signature)) ctx env d.

(** The transaction of every flashblock: the increment, or the base transaction when its simulation
    fails. *)
Definition number_tx self (ctx : FbCtx) (d : db) : outcome BTE (list BuilderTransactionCtx) :=
  let env := modify_cfg (evm_env ctx) true true false in
  let flashblocks_num_tx :=
    match nb_flashtestations_builder_tx self, nb_use_permit self with
    | Some ft, true => signed_increment_flashblocks_permit_tx self (tee_signer ft) ctx env d
    | _, _ => signed_increment_flashblocks_tx self ctx env d
    end in
  match flashblocks_num_tx with
  | Ok tx => Ok [tx]
  | Err _ =>
      let? tx := simulate_builder_tx (nb_base_builder_tx self) ctx d in
      Ok (set_top_of_block <$> option_txs tx)
  | Panic => Panic
  end.

Definition number_simulate self (state_provider : db) (info : FbInfo) (ctx : FbCtx) (d : db)
    (top_of_block : bool)
    : outcome BTE (list BuilderTransactionCtx) * FlashblocksNumberBuilderTx * db :=
  let first :=
    if is_first_flashblock ctx then
      let? tx := simulate_builder_tx (nb_base_builder_tx self) ctx d in Ok (option_txs tx)
    else number_tx self ctx d in
  match first with
  | Err e => (Err e, self, d)
  | Panic => (Panic, self, d)
  | Ok builder_txs =>
      match is_last_flashblock ctx, nb_flashtestations_builder_tx self with
      | true, Some ft =>
          let included :=
            btx_signed_tx <$>
              List.filter (fun t => Bool.eqb (btx_is_top_of_block t) top_of_block) builder_txs in
          let '(r, ft', d') :=
            with_flashtestations included builder_txs ft state_provider info ctx d top_of_block in
          (r, mkNumberBuilder (nb_signer self) (nb_flashblock_number_address self)
                (nb_use_permit self) (nb_base_builder_tx self) (Some ft'), d')
      | _, _ => (Ok builder_txs, self, d)
      end
  end.

#[export] Instance number_builder_transactions :
  BuilderTransactions FlashblocksNumberBuilderTx FlashblocksExtraCtx FlashblocksExecutionInfo :=
  number_simulate.

End Number.

(** ** Validity of the implementations *)

Section Validity.
Context `{X : Externals} `{B : !BuilderExternals X}.

Definition base_ok (b : BuilderTxBase) : Prop := forall sg, b = Some sg -> valid_signer sg.
Definition flashtestations_ok (ft : FlashtestationsBuilderTx) : Prop :=
  valid_signer (ft_builder_signer ft).
Definition maybe_ok (ft : option FlashtestationsBuilderTx) : Prop :=
  forall t, ft = Some t -> flashtestations_ok t.
Definition standard_ok (self : StandardBuilderTx) : Prop :=
  base_ok (std_base_builder_tx self) /\ maybe_ok (std_flashtestations_builder_tx self).
Definition number_ok (self : FlashblocksNumberBuilderTx) : Prop :=
  valid_signer (nb_signer self) /\ base_ok (nb_base_builder_tx self) /\
  maybe_ok (nb_flashtestations_builder_tx self).

Context `{A : Abi}.

(** ** What a flashtestation transaction is *)

(** A call to a contract, signed by the builder, for the bottom of the block. *)
Definition bottom_call ft (to : Address) (call : ContractCall) (t : BuilderTransactionCtx) : Prop :=
  btx_is_top_of_block t = false /\ signer (btx_signed_tx t) = signer_address (ft_builder_signer ft) /\
  tx_from (inner (btx_signed_tx t)) = Some (signer_address (ft_builder_signer ft)) /\
  tx_to (inner (btx_signed_tx t)) = to /\ tx_input (inner (btx_signed_tx t)) = abi_encode call.

(** The registration of the attestation with a permit of the TEE key. *)
Definition registration_tx {ExtraCtx} ft (ctx : OpPayloadBuilderCtx ExtraCtx) (t : BuilderTransactionCtx) : Prop :=
  exists nonce hash sig, sign_message (ft_tee_service_signer ft) hash = Ok sig /\
    bottom_call ft (ft_registry_address ft)
      (permitRegisterTEEServiceCall (ft_attestation ft) (ft_extra_registration_data ft) nonce (timestamp ctx)
         (signature_bytes sig)) t.

(** The proof for a block of the transactions [txs] with a permit of the TEE key. *)
Definition block_proof_tx {ExtraCtx} ft (txs : list OpTransactionSigned) (ctx : OpPayloadBuilderCtx ExtraCtx)
    (t : BuilderTransactionCtx) : Prop :=
  exists nonce hash sig, sign_message (ft_tee_service_signer ft) hash = Ok sig /\
    bottom_call ft (ft_builder_policy_address ft)
      (permitVerifyBlockBuilderProofCall
         (compute_block_content_hash txs (parent_hash ctx) (block_number ctx) (timestamp ctx)) nonce
         (ft_builder_proof_version ft) (signature_bytes sig)) t.

(** The block proof is there when proofs are enabled and it can be made in the state [d]. *)
Definition proofs {ExtraCtx} ft (txs : list OpTransactionSigned) (ctx : OpPayloadBuilderCtx ExtraCtx)
    (env : EvmEnv) (d : db) (ps : list BuilderTransactionCtx) : Prop :=
  match ps with
  | [] => ft_enable_block_proofs ft = false \/ forall t, signed_block_proof_permit_tx ft txs ctx env d <> Ok t
  | [t] => ft_enable_block_proofs ft = true /\ signed_block_proof_permit_tx ft txs ctx env d = Ok t /\
      block_proof_tx ft txs ctx t
  | _ => False
  end.

End Validity.

Definition bottom (t : BuilderTransactionCtx) : Prop := btx_is_top_of_block t = false.
Definition top (t : BuilderTransactionCtx) : Prop := btx_is_top_of_block t = true.

(** ** Contracts that answer every call, and implementations that use them *)
Module TestAbi.

#[export] Instance test_abi : Abi := {|
  abi_encode _ := [7];
  abi_decode_returns _ b := head b;
  signature_bytes s := [sig_r s; sig_s s];
  encode_block_data d := bd_parent_hash d :: bd_transaction_hashes d;
  keccak256 b := sum_Z b;
  FlashblockIncremented := 77;
  TEEServiceRegistered := 77;
  BlockBuilderProofVerified := 77;
|}.

Definition test_flashtestations : FlashtestationsBuilderTx :=
  mkFlashtestations [1] [2] (mkSigner 52 3) 800 801 1 false true (mkSigner 50 1).
Definition test_flashblocks_builder : FlashblocksBuilderTx :=
  mkFlashblocksBuilder (mkStandard (Some (mkSigner 50 1)) (Some test_flashtestations)).
Definition test_number_builder : FlashblocksNumberBuilderTx :=
  new_number_builder (mkSigner 50 1) 700 false (Some test_flashtestations).

(** The context of flashblock [i] of [n]. *)
Definition test_fb_ctx (i n : Z) : FbCtx :=
  sample_ctx false [] never_cancelled (mkFbCtx i n 1000000 None None 1000000 None None false).

End TestAbi.

(** ** Lemmas *)

Section Lemmas.
Context `{X : Externals} `{B : !BuilderExternals X} `{SL : !SigningLaws X} `{F : !FlzLaws X}.
Context `{A : Abi}.

Lemma signed_ok t gas top_of_block :
  tx_from (inner t) = Some (signer t) -> tx_ty (inner t) = Eip1559 ->
  builder_tx_ok (mkBuilderTx gas (tx_estimated_size_fjord_bytes (tx_encoded_2718 (inner t))) t
                   top_of_block).
Proof using F. intros Hf Ht. split_and!; [done..|]. apply flz_range. Qed.

Lemma sign_tx_ok {ExtraCtx} to from gas calldata (ctx : OpPayloadBuilderCtx ExtraCtx) d t :
  sign_tx to from gas calldata ctx d = Ok t -> valid_signer from ->
  tx_from (inner t) = Some (signer t) /\ tx_ty (inner t) = Eip1559.
Proof using SL.
  unfold sign_tx. intros (nonce & _ & H)%bind_Ok Hv.
  by apply sign_typed_Ok in H as (_ & ? & ? & _).
Qed.

Lemma simulate_builder_tx_ok {ExtraCtx} b (ctx : OpPayloadBuilderCtx ExtraCtx) d t :
  base_ok b -> simulate_builder_tx b ctx d = Ok t ->
  Forall (fun u => builder_tx_ok u /\ bottom u) (option_txs t).
Proof using SL F.
  intros Hb. destruct b as [sg|]; simpl; [|by intros [= <-]].
  intros (u & Hu & [= <-])%bind_Ok. constructor; [|done]. split; [|done].
  unfold signed_builder_tx in Hu. apply bind_Ok in Hu as (nonce & _ & Hu).
  apply sign_typed_Ok in Hu as (_ & ? & ? & _); [|by apply Hb]. by apply signed_ok.
Qed.

Lemma bottom_tx_ok {ExtraCtx} ft to gas call (ctx : OpPayloadBuilderCtx ExtraCtx) d t :
  flashtestations_ok ft -> bottom_tx ft to gas call ctx d = Ok t -> builder_tx_ok t /\ bottom t.
Proof using SL F.
  intros Hok. unfold bottom_tx. intros (u & Hu & [= <-])%bind_Ok. split; [|done].
  apply sign_tx_ok in Hu as [? ?]; [|done]. by apply signed_ok.
Qed.

Lemma set_registered_ok {ExtraCtx} ft p (ctx : OpPayloadBuilderCtx ExtraCtx) r ft' :
  flashtestations_ok ft -> set_registered ft p ctx = (r, ft') -> flashtestations_ok ft'.
Proof.
  intros Hok. unfold set_registered.
  destruct (flashtestations_contract_read _ _ _ _ _ _) as [v| |]; intros [= <- <-]; try done.
  by case_match.
Qed.

Lemma registration_txs_ok {ExtraCtx} ft (ctx : OpPayloadBuilderCtx ExtraCtx) env d txs d' :
  flashtestations_ok ft -> registration_txs ft ctx env d = Ok (txs, d') ->
  Forall (fun u => builder_tx_ok u /\ bottom u) txs /\
  length txs = (if ft_registered ft then 0 else 1)%nat.
Proof using SL F.
  intros Hok. unfold registration_txs. destruct (ft_registered ft); simpl; [by intros [= <- <-]|].
  intros ([t d1] & H & [= <- <-])%bind_Ok. split; [|done]. constructor; [|done].
  unfold signed_registration_permit_tx in H.
  apply bind_Ok in H as (? & _ & H). apply bind_Ok in H as (? & _ & H).
  apply bind_Ok in H as (? & _ & H). apply bind_Ok in H as (? & Hb & [= <- <-]).
  by eapply bottom_tx_ok.
Qed.

Lemma block_proof_txs_ok {ExtraCtx Extra} ft (info : ExecutionInfo Extra)
    (ctx : OpPayloadBuilderCtx ExtraCtx) env d :
  flashtestations_ok ft ->
  Forall (fun u => builder_tx_ok u /\ bottom u) (block_proof_txs ft info ctx env d) /\
  (length (block_proof_txs ft info ctx env d) <= 1)%nat.
Proof using SL F.
  intros Hok. unfold block_proof_txs. destruct (ft_enable_block_proofs ft); [|simpl; by auto].
  destruct (signed_block_proof_permit_tx _ _ _ _ _) as [t| |] eqn:H; [|simpl; by auto..].
  split; [|done]. constructor; [|done]. unfold signed_block_proof_permit_tx in H.
  apply bind_Ok in H as (? & _ & H). apply bind_Ok in H as (? & _ & H).
  apply bind_Ok in H as (? & _ & H). by eapply bottom_tx_ok.
Qed.

(** The transaction of a bottom-of-block call. *)
Lemma bottom_tx_calls {ExtraCtx} ft to gas call (ctx : OpPayloadBuilderCtx ExtraCtx) d t :
  flashtestations_ok ft -> bottom_tx ft to gas call ctx d = Ok t -> bottom_call ft to call t.
Proof using SL.
  intros Hok. unfold bottom_tx, sign_tx. intros (u & Hu & [= <-])%bind_Ok.
  apply bind_Ok in Hu as (nonce & _ & Hu).
  apply sign_typed_Ok in Hu as (Hs & Hf & _ & _ & _ & _ & _ & Ht & Hi); [|done].
  unfold bottom_call. cbn [btx_is_top_of_block btx_signed_tx]. rewrite Hf, Hs. by split_and!.
Qed.

Lemma registration_tx_spec {ExtraCtx} ft (ctx : OpPayloadBuilderCtx ExtraCtx) env d t d' :
  flashtestations_ok ft -> signed_registration_permit_tx ft ctx env d = Ok (t, d') ->
  registration_tx ft ctx t.
Proof using SL.
  intros Hok H. unfold signed_registration_permit_tx in H.
  apply bind_Ok in H as (n & _ & H). apply bind_Ok in H as (sg & Hs & H).
  apply bind_Ok in H as (r & _ & H). apply bind_Ok in H as (u & Hb & [= <- <-]).
  unfold registration_permit_signature in Hs. apply bind_Ok in Hs as (? & _ & Hs).
  apply bind_Ok in Hs as (h & _ & Hs). exists n, h, sg. split; [done|]. by eapply bottom_tx_calls.
Qed.

Lemma block_proof_tx_spec {ExtraCtx} ft txs (ctx : OpPayloadBuilderCtx ExtraCtx) env d t :
  flashtestations_ok ft -> signed_block_proof_permit_tx ft txs ctx env d = Ok t -> block_proof_tx ft txs ctx t.
Proof using SL.
  intros Hok H. unfold signed_block_proof_permit_tx in H.
  apply bind_Ok in H as (n & _ & H). apply bind_Ok in H as (sg & Hs & H).
  apply bind_Ok in H as (r & _ & H).
  unfold block_proof_permit_signature in Hs. apply bind_Ok in Hs as (? & _ & Hs).
  apply bind_Ok in Hs as (h & _ & Hs). exists n, h, sg. split; [done|]. by eapply bottom_tx_calls.
Qed.

Lemma block_proof_txs_spec {ExtraCtx Extra} ft (info : ExecutionInfo Extra)
    (ctx : OpPayloadBuilderCtx ExtraCtx) env d :
  flashtestations_ok ft ->
  proofs ft (executed_transactions info) ctx env d (block_proof_txs ft info ctx env d).
Proof using SL.
  intros Hok. unfold block_proof_txs, proofs. destruct (ft_enable_block_proofs ft); [|by left].
  destruct (signed_block_proof_permit_tx _ _ _ _ _) as [t| |] eqn:H; [|by right..].
  split_and!; [done..|]. by eapply block_proof_tx_spec.
Qed.

Lemma flashtestations_simulate_ok {ExtraCtx Extra} ft p (info : ExecutionInfo Extra)
    (ctx : OpPayloadBuilderCtx ExtraCtx) d b r ft' d' :
  flashtestations_ok ft -> flashtestations_simulate ft p info ctx d b = (r, ft', d') ->
  flashtestations_ok ft' /\
  forall txs, r = Ok txs -> Forall (fun u => builder_tx_ok u /\ bottom u) txs /\
    (length txs <= if ft_registered ft' then 1 else 2)%nat.
Proof using SL F.
  intros Hok. unfold flashtestations_simulate.
  destruct (if negb (ft_registered ft) then _ else _) as [r0 ft0] eqn:H0.
  assert (Hok0 : flashtestations_ok ft0).
  { destruct (negb _); [by eapply set_registered_ok|by injection H0 as <- <-]. }
  destruct r0 as [u| |]; [|by intros [= <- <- <-]..].
  destruct (registration_txs _ _ _ _) as [[txs d1]| |] eqn:Hr; intros [= <- <- <-]; [|done..].
  apply registration_txs_ok in Hr as [Hf Hl]; [|done]. split; [done|]. intros txs' [= <-].
  destruct (block_proof_txs_ok ft0 info ctx (modify_cfg (evm_env ctx) true true false) d1 Hok0)
    as [Hf2 Hl2].
  split; [by apply Forall_app|]. rewrite length_app, Hl. destruct (ft_registered ft0); lia.
Qed.

Lemma with_flashtestations_ok {ExtraCtx Extra} before txs0 ft p (info : ExecutionInfo Extra)
    (ctx : OpPayloadBuilderCtx ExtraCtx) d b r ft' d' :
  flashtestations_ok ft ->
  with_flashtestations before txs0 ft p info ctx d b = (r, ft', d') ->
  flashtestations_ok ft' /\
  forall txs, r = Ok txs -> exists more, txs = txs0 ++ more /\
    Forall (fun u => builder_tx_ok u /\ bottom u) more.
Proof using SL F.
  intros Hok. unfold with_flashtestations.
  destruct (commit_txs before ctx d) as [[u| |] d1]; [|by intros [= <- <- <-]..].
  destruct (flashtestations_simulate _ _ _ _ _ _) as [[r1 ft1] d2] eqn:Hs. intros [= <- <- <-].
  apply flashtestations_simulate_ok in Hs as [Hok1 Hs]; [|done]. split; [done|].
  intros txs. destruct r1 as [more| |]; simpl; intros [= <-].
  - exists more. split; [done|]. by apply (Hs more).
  - exists []. by rewrite app_nil_r.
Qed.

Lemma Forall_ok_bottom txs :
  Forall (fun u => builder_tx_ok u /\ bottom u) txs -> Forall builder_tx_ok txs /\ Forall bottom txs.
Proof. apply Forall_and. Qed.

Lemma standard_simulate_ok {ExtraCtx Extra} self p (info : ExecutionInfo Extra)
    (ctx : OpPayloadBuilderCtx ExtraCtx) d b r self' d' :
  standard_ok self -> standard_simulate self p info ctx d b = (r, self', d') ->
  standard_ok self' /\ forall txs, r = Ok txs -> Forall (fun u => builder_tx_ok u /\ bottom u) txs.
Proof using SL F.
  intros [Hb Hft]. unfold standard_simulate.
  destruct (simulate_builder_tx _ ctx d) as [t| |] eqn:Ht; [|by intros [= <- <- <-]..].
  apply simulate_builder_tx_ok in Ht; [|done].
  destruct (std_flashtestations_builder_tx self) as [ft|] eqn:E.
  - destruct (with_flashtestations _ _ _ _ _ _ _ _) as [[r1 ft1] d1] eqn:Hw. intros [= <- <- <-].
    apply with_flashtestations_ok in Hw as [Hok1 Hw]; [|by apply Hft]. split.
    + split; [done|]. intros t' [= <-]. done.
    + intros txs (more & -> & Hm)%Hw. by apply Forall_app.
  - intros [= <- <- <-]. split; [by split; [|rewrite E]|]. by intros txs [= <-].
Qed.

Lemma flashblocks_simulate_ok self p info (ctx : FbCtx) d b r self' d' :
  standard_ok self -> flashblocks_simulate self p info ctx d b = (r, self', d') ->
  standard_ok self' /\ forall txs, r = Ok txs -> Forall (fun u => builder_tx_ok u /\ bottom u) txs.
Proof using SL F.
  intros [Hb Hft]. unfold flashblocks_simulate.
  destruct (if is_first_flashblock ctx then _ else _) as [first| |] eqn:H0; [|by intros [= <- <- <-]..].
  assert (Hfirst : Forall (fun u => builder_tx_ok u /\ bottom u) first).
  { destruct (is_first_flashblock ctx); [|by injection H0 as <-].
    apply bind_Ok in H0 as (t & Ht & [= <-]). by eapply simulate_builder_tx_ok. }
  destruct (is_last_flashblock ctx). 2: { intros [= <- <- <-]. split; [done|]. by intros ? [= <-]. }
  destruct (simulate_builder_tx _ ctx d) as [t| |] eqn:Ht; [|by intros [= <- <- <-]..].
  apply simulate_builder_tx_ok in Ht; [|done].
  destruct (std_flashtestations_builder_tx self) as [ft|] eqn:E.
  - destruct (with_flashtestations _ _ _ _ _ _ _ _) as [[r1 ft1] d1] eqn:Hw. intros [= <- <- <-].
    apply with_flashtestations_ok in Hw as [Hok1 Hw]; [|by apply Hft]. split.
    + split; [done|]. intros t' [= <-]. done.
    + intros txs (more & -> & Hm)%Hw. rewrite !Forall_app. done.
  - intros [= <- <- <-]. split; [by split; [|rewrite E]|]. intros txs [= <-]. by apply Forall_app.
Qed.

Lemma increment_tx_ok self call (ctx : FbCtx) env d t :
  valid_signer (nb_signer self) -> increment_flashblocks_tx self call ctx env d = Ok t ->
  builder_tx_ok t /\ top t.
Proof using SL F.
  intros Hv. unfold increment_flashblocks_tx. intros H.
  apply bind_Ok in H as (? & _ & H). apply bind_Ok in H as (u & Hu & [= <-]). split; [|done].
  apply sign_tx_ok in Hu as [? ?]; [|done]. by apply signed_ok.
Qed.

Lemma number_tx_ok self (ctx : FbCtx) d txs :
  number_ok self -> number_tx self ctx d = Ok txs ->
  Forall (fun u => builder_tx_ok u /\ top u) txs /\ (length txs <= 1)%nat.
Proof using SL F.
  intros (Hv & Hb & _). unfold number_tx.
  set (num := match nb_flashtestations_builder_tx self with Some _ => _ | None => _ end).
  destruct num as [t| |] eqn:Hn; [| |done].
  - intros [= <-]. split; [|done]. constructor; [|done]. subst num.
    destruct (nb_flashtestations_builder_tx self) as [ft|]; [destruct (nb_use_permit self)|].
    + unfold signed_increment_flashblocks_permit_tx in Hn.
      apply bind_Ok in Hn as (? & _ & Hn). apply bind_Ok in Hn as (? & _ & Hn).
      by eapply increment_tx_ok.
    + by eapply increment_tx_ok.
    + by eapply increment_tx_ok.
  - intros (t & Ht & [= <-])%bind_Ok. apply simulate_builder_tx_ok in Ht; [|done].
    destruct t as [t|]; simpl in *; [|by auto]. split; [|done]. constructor; [|done].
    apply Forall_cons in Ht as [[Ht _] _]. done.
Qed.

Lemma number_simulate_ok self p info (ctx : FbCtx) d b r self' d' :
  number_ok self -> number_simulate self p info ctx d b = (r, self', d') ->
  number_ok self' /\ forall txs, r = Ok txs ->
    exists l more, txs = l ++ more /\ Forall (fun u => builder_tx_ok u /\ bottom u) more /\
      Forall builder_tx_ok l /\ (length l <= 1)%nat /\
      (if is_first_flashblock ctx then Forall bottom l else Forall top l).
Proof using SL F.
  intros Hok. pose proof Hok as (Hv & Hb & Hft). unfold number_simulate.
  destruct (if is_first_flashblock ctx then _ else _) as [first| |] eqn:H0; [|by intros [= <- <- <-]..].
  assert (Hfirst : Forall builder_tx_ok first /\ (length first <= 1)%nat /\
    (if is_first_flashblock ctx then Forall bottom first else Forall top first)).
  { destruct (is_first_flashblock ctx).
    - apply bind_Ok in H0 as (t & Ht & [= <-]). apply simulate_builder_tx_ok in Ht; [|done].
      apply Forall_and in Ht as [? ?]. split_and!; [done| |done]. by destruct t; simpl; [|lia].
    - apply number_tx_ok in H0 as [Hf Hl]; [|done]. by apply Forall_and in Hf as [? ?]. }
  assert (Hplain : number_ok self /\ forall txs : list BuilderTransactionCtx, Ok first = Ok (E:=BTE) txs ->
    exists l more, txs = l ++ more /\ Forall (fun u => builder_tx_ok u /\ bottom u) more /\
      Forall builder_tx_ok l /\ (length l <= 1)%nat /\
      (if is_first_flashblock ctx then Forall bottom l else Forall top l)).
  { split; [done|]. intros txs [= <-]. exists first, []. by rewrite app_nil_r. }
  destruct (is_last_flashblock ctx); [|by intros [= <- <- <-]].
  destruct (nb_flashtestations_builder_tx self) as [ft|] eqn:E; [|by intros [= <- <- <-]].
  destruct (with_flashtestations _ _ _ _ _ _ _ _) as [[r1 ft1] d1] eqn:Hw. intros [= <- <- <-].
  apply with_flashtestations_ok in Hw as [Hok1 Hw]; [|by apply Hft]. split.
  - split_and!; [done..|]. intros t' [= <-]. done.
  - intros txs (more & -> & Hm)%Hw. by exists first, more.
Qed.

(** *** The laws of the trait *)

#[export] Instance flashtestations_laws {ExtraCtx Extra} :
  BuilderTransactionsLaws FlashtestationsBuilderTx ExtraCtx Extra.
Proof using SL F.
  refine {| self_ok := flashtestations_ok |}.
  intros self self' p info ctx d d' b r Hok Hs.
  destruct (flashtestations_simulate_ok _ _ _ _ _ _ _ _ _ Hok Hs) as [Hok' Hf].
  split; [done|]. intros txs Hr. by apply Forall_ok_bottom, (Hf txs).
Defined.

#[export] Instance standard_laws : BuilderTransactionsLaws StandardBuilderTx unit unit.
Proof using SL F.
  refine {| self_ok := standard_ok |}.
  intros self self' p info ctx d d' b r Hok Hs.
  destruct (standard_simulate_ok _ _ _ _ _ _ _ _ _ Hok Hs) as [Hok' Hf].
  split; [done|]. intros txs Hr. by apply Forall_ok_bottom, Hf.
Defined.

#[export] Instance flashblocks_laws :
  BuilderTransactionsLaws FlashblocksBuilderTx FlashblocksExtraCtx FlashblocksExecutionInfo.
Proof using SL F.
  refine {| self_ok := fun self => standard_ok (fbb_fields self) |}.
  intros self self' p info ctx d d' b r Hok Hs. unfold simulate_builder_txs in Hs.
  unfold flashblocks_builder_transactions in Hs.
  destruct (flashblocks_simulate _ _ _ _ _ _) as [[r1 s1] d1] eqn:E. injection Hs as <- <- <-.
  destruct (flashblocks_simulate_ok _ _ _ _ _ _ _ _ _ Hok E) as [Hok' Hf].
  split; [done|]. intros txs Hr. by apply Forall_ok_bottom, Hf.
Defined.

#[export] Instance number_laws :
  BuilderTransactionsLaws FlashblocksNumberBuilderTx FlashblocksExtraCtx FlashblocksExecutionInfo.
Proof using SL F.
  refine {| self_ok := number_ok |}.
  intros self self' p info ctx d d' b r Hok Hs.
  destruct (number_simulate_ok _ _ _ _ _ _ _ _ _ Hok Hs) as [Hok' Hf].
  split; [done|]. intros txs (l & more & -> & Hm & Hl & _)%Hf.
  apply Forall_app. split; [done|]. by apply Forall_ok_bottom.
Defined.

End Lemmas.

Import TestChain TestSigner TestAbi.

(** ** Properties *)

(** The schedule of the flashblocks builder: it only creates bottom-of-block transactions, and
    none at all, without touching its state or the copy of the block's state, in a flashblock that is
    neither the fallback block nor the last one. *)
Theorem flashblocks_builder_schedule `{X : Externals} `{B : !BuilderExternals X} `{!SigningLaws X}
    `{!FlzLaws X} `{A : Abi} self p (info : FbInfo) (ctx : FbCtx) d b r self' d' :
  standard_ok self -> flashblocks_simulate self p info ctx d b = (r, self', d') ->
  (forall txs, r = Ok txs -> Forall bottom txs) /\
  (is_first_flashblock ctx = false -> is_last_flashblock ctx = false ->
   r = Ok [] /\ self' = self /\ d' = d).
Proof.
  intros Hok Hs. split.
  - intros txs Hr. destruct (flashblocks_simulate_ok _ _ _ _ _ _ _ _ _ Hok Hs) as [_ Hf].
    by apply Forall_ok_bottom, Hf.
  - intros Hfirst Hlast. unfold flashblocks_simulate in Hs. rewrite Hfirst, Hlast in Hs.
    by injection Hs as <- <- <-.
Qed.

(** The last of four flashblocks: the base transaction and the block proof. *)
Lemma flashblocks_builder_schedule_witness :
  exists txs self' d',
    flashblocks_simulate (X := chain) (fbb_fields test_flashblocks_builder) []
      (with_capacity default_fb_info) (test_fb_ctx 4 4) [] true = (Ok txs, self', d') /\
    Forall bottom txs /\ (btx_gas_used <$> txs) = [21640; 30000].
Proof.
  destruct (flashblocks_simulate (X := chain) (fbb_fields test_flashblocks_builder) []
      (with_capacity default_fb_info) (test_fb_ctx 4 4) [] true) as [[r self'] d'] eqn:E.
  pose proof (flashblocks_builder_schedule (X := chain) (fbb_fields test_flashblocks_builder) []
      (with_capacity default_fb_info) (test_fb_ctx 4 4) [] true r self' d') as H.
  destruct H as [H _].
  - split; [by intros sg [= <-]|]. intros t [= <-]. reflexivity.
  - exact E.
  - vm_compute in E. injection E as <- <- <-. eexists _, _, _. split; [reflexivity|].
    split; [by apply H|]. vm_compute. reflexivity.
Defined.

(** The schedule of the flashblock number builder: in the fallback block all its transactions go
    to the bottom; in every other flashblock the first one, the increment of the flashblock number or
    its replacement, is the only one at the top, whatever the flashtestations part adds below. *)
Theorem number_builder_schedule `{X : Externals} `{B : !BuilderExternals X} `{!SigningLaws X}
    `{!FlzLaws X} `{A : Abi} self p (info : FbInfo) (ctx : FbCtx) d b txs self' d' :
  number_ok self -> number_simulate self p info ctx d b = (Ok txs, self', d') ->
  Forall builder_tx_ok txs /\
  if is_first_flashblock ctx then Forall bottom txs
  else Forall bottom txs \/ exists t more, txs = t :: more /\ top t /\ Forall bottom more.
Proof.
  intros Hok Hs. destruct (number_simulate_ok _ _ _ _ _ _ _ _ _ Hok Hs) as [_ Hf].
  destruct (Hf txs eq_refl) as (l & more & -> & [Hm Hmb]%Forall_ok_bottom & Hl & Hlen & Hpos).
  split; [by apply Forall_app|]. destruct (is_first_flashblock ctx); [by apply Forall_app|].
  destruct l as [|t [|u l]]; simpl in *; [by left| |lia].
  right. exists t, more. apply Forall_cons in Hpos as [? _]. done.
Qed.

Lemma number_builder_schedule_witness :
  exists txs self' d',
    number_simulate (X := chain) test_number_builder [] (with_capacity default_fb_info)
      (test_fb_ctx 2 4) [] true = (Ok txs, self', d') /\
    (btx_is_top_of_block <$> txs) = [true] /\ Forall builder_tx_ok txs.
Proof.
  destruct (number_simulate (X := chain) test_number_builder [] (with_capacity default_fb_info)
      (test_fb_ctx 2 4) [] true) as [[[txs| |] self'] d'] eqn:E; [|vm_compute in E; discriminate..].
  exists txs, self', d'. split; [reflexivity|].
  destruct (number_builder_schedule (X := chain) test_number_builder []
      (with_capacity default_fb_info) (test_fb_ctx 2 4) [] true txs self' d') as [H _].
  - split_and!; [reflexivity|by intros sg [= <-]|]. intros t [= <-]. reflexivity.
  - exact E.
  - vm_compute in E. injection E as <- <- <-. split; [reflexivity|exact H].
Defined.

(** C39: flashtestations register once.  When the simulation succeeds, a service that counts as registered
    stays so; one that does not is from then on registered exactly when the registry contract, asked in
    the parent state for the address of the TEE key, answers that the registration is valid.  If the
    service is then registered, the state is untouched and nothing but the block proof is returned, a
    call of the builder policy for the block's transactions with a permit of the TEE key, when proofs are
    enabled and it can be made.  If not, the first transaction is the registration, a call of the registry
    with the attestation and a permit of the TEE key, and the block proof follows, made in the state after
    the registration. *)
Theorem flashtestations_registers_once `{X : Externals} `{B : !BuilderExternals X} `{!SigningLaws X}
    `{A : Abi} {ExtraCtx Extra} self p (info : ExecutionInfo Extra)
    (ctx : OpPayloadBuilderCtx ExtraCtx) d b txs self' d' :
  flashtestations_ok self -> flashtestations_simulate self p info ctx d b = (Ok txs, self', d') ->
  let env := modify_cfg (evm_env ctx) true true false in
  (ft_registered self = true -> self' = self) /\
  (ft_registered self = false -> exists is_valid,
     flashtestations_contract_read self (ft_registry_address self)
       (getRegistrationStatusCall (signer_address (ft_tee_service_signer self))) ctx
       (modify_cfg (evm_env ctx) true false true) p = Ok is_valid /\
     (is_valid <> 0 -> self' = store_registered self) /\ (is_valid = 0 -> self' = self)) /\
  (ft_registered self' = true -> d' = d /\ proofs self' (executed_transactions info) ctx env d txs) /\
  (ft_registered self' = false -> exists t more, txs = t :: more /\ registration_tx self' ctx t /\
     signed_registration_permit_tx self' ctx env d = Ok (t, d') /\
     proofs self' (executed_transactions info) ctx env d' more).
Proof.
  intros Hok Hs env. unfold flashtestations_simulate in Hs. fold env in Hs.
  destruct (if negb (ft_registered self) then _ else _) as [r0 self0] eqn:H0.
  assert (Hok' : flashtestations_ok self0).
  { destruct (negb _); [by eapply set_registered_ok|by injection H0 as <- <-]. }
  destruct r0 as [u| |]; [|done..].
  destruct (registration_txs self0 ctx env d) as [[txs1 d1]| |] eqn:Hr; [|done..]. injection Hs as <- <- <-.
  unfold registration_txs in Hr. split_and!.
  - intros Hreg. rewrite Hreg in H0. by injection H0.
  - intros Hreg. rewrite Hreg in H0. unfold set_registered in H0. simpl in H0.
    destruct (flashtestations_contract_read _ _ _ _ _ _) as [v| |]; [|done..]. injection H0 as _ <-.
    exists v. split; [done|]. by destruct (Z.eqb_spec v 0).
  - intros Hreg. rewrite Hreg in Hr. injection Hr as <- <-. split; [done|]. by apply block_proof_txs_spec.
  - intros Hreg. rewrite Hreg in Hr. apply bind_Ok in Hr as ([t d2] & Ht & [= <- <-]). simpl.
    exists t, (block_proof_txs self0 info ctx env d2). split_and!; try done.
    + by eapply registration_tx_spec.
    + by apply block_proof_txs_spec.
Qed.

(** The parent state says the service is registered: only the block proof is created. *)
Lemma flashtestations_registers_once_witness :
  exists txs self' d', flashtestations_simulate (X := chain) test_flashtestations []
      (with_capacity tt) (sample_ctx false [] never_cancelled tt) [] false = (Ok txs, self', d') /\
    ft_registered test_flashtestations = false /\ ft_registered self' = true /\ d' = [] /\
    exists t, txs = [t] /\ block_proof_tx (X := chain) self' [] (sample_ctx false [] never_cancelled tt) t.
Proof.
  destruct (flashtestations_simulate (X := chain) test_flashtestations [] (with_capacity tt)
     (sample_ctx false [] never_cancelled tt) [] false) as [[[txs| |] self'] d'] eqn:E;
    [|vm_compute in E; discriminate..].
  exists txs, self', d'. split; [reflexivity|]. split; [reflexivity|].
  destruct (flashtestations_registers_once (X := chain) test_flashtestations [] (with_capacity tt)
     (sample_ctx false [] never_cancelled tt) [] false txs self' d') as (_ & _ & H & _);
    [reflexivity|exact E|].
  assert (Hl : length txs = 1%nat) by (vm_compute in E; by injection E as <- _ _).
  assert (Hr : ft_registered self' = true) by (vm_compute in E; by injection E as _ <- _).
  split; [exact Hr|]. destruct (H Hr) as [Hd Hp]. split; [exact Hd|].
  destruct txs as [|t [|u txs]]; [discriminate| |discriminate]. exists t. split; [reflexivity|exact (proj2 (proj2 Hp))].
Defined.
