(* ===== verification/Timing.v ===== *)
(** * The timing of flashblocks

    Models the configuration ([builders/mod.rs], [builders/flashblocks/config.rs]) and the two
    computations of how many flashblocks fit into what is left of a block
    ([calculate_flashblocks], [calculate_flashblocks_timing] of
    [builders/flashblocks/payload.rs]).  A [Duration] is a number of nanoseconds; the system clock is
    an argument. *)

From S2P Require Import Prelude External ExecInfo GasLimiter Sidecar Context.

(** ** Durations and clocks *)

Definition Duration : Type := Z.
Definition MILLI : Z := 1000000.
Definition SECOND : Z := 1000000000.
Definition DURATION_MAX : Z := U64_MAX * SECOND + 999999999.

Definition from_millis (ms : Z) : Duration := ms * MILLI.
Definition from_secs (s : Z) : Duration := s * SECOND.
Definition as_millis (d : Duration) : Z := d / MILLI.
Definition dur_saturating_add (a b : Duration) : Duration := Z.min (a + b) DURATION_MAX.
Definition dur_saturating_sub (a b : Duration) : Duration := Z.max 0 (a - b).

(** The [-] of durations panics below zero. *)
Definition dur_sub {E} (a b : Duration) : outcome E Duration :=
  if a <? b then Panic else Ok (a - b).

(** A [SystemTime] is the nanoseconds since the epoch; its seconds are an [i64], and arithmetic that
    leaves them panics. *)
Definition SystemTime : Type := Z.
Definition system_time {E} (t : Z) : outcome E SystemTime :=
  if (- (2 ^ 63) <=? t / SECOND) && (t / SECOND <? 2 ^ 63) then Ok t else Panic.

(** [later.duration_since(earlier).ok()] *)
Definition duration_since (later earlier : SystemTime) : option Duration :=
  if later <? earlier then None else Some (later - earlier).

(** ** Configuration *)

(** [FlashtestationsArgs]; the seed is its bytes. *)
Record FlashtestationsArgs : Type := mkFlashtestationsArgs {
  fa_enabled : bool;
  fa_debug : bool;
  fa_debug_tee_key_seed : Bytes;
  fa_key_path : Text;
  fa_quote_provider : option Text;
  fa_rpc_url : option Text;
  fa_enable_block_proofs : bool;
  fa_registry_address : option Address;
  fa_builder_policy_address : option Address;
  fa_builder_proof_version : Z;
}.
(** The defaults of the command line. *)
Definition default_flashtestations_args : FlashtestationsArgs :=
  mkFlashtestationsArgs false false (text "debug") (text "/run/flashtestation.key") None None false
    None None 1.

Record FlashblocksConfig : Type := mkFlashblocksConfig {
  ws_addr : string;
  ws_port : Z;
  interval : Duration;
  leeway_time : Duration;
  fixed : bool;
  disable_state_root : bool;
  number_contract_address : option Address;
  number_contract_use_permit : bool;
  build_at_interval_end : bool;
  send_offset_ms : Z;
  end_buffer_ms : Z;
  p2p_enabled : bool;
  p2p_port : Z;
  p2p_private_key_file : option Text;
  p2p_known_peers : option Text;
  p2p_max_peer_count : Z;
  ws_subscriber_limit : option Z;
  sidecar : SidecarConfig;
}.

Definition default_flashblocks_config : FlashblocksConfig :=
  mkFlashblocksConfig "0.0.0.0" 1111 (from_millis 250) (from_millis 0) false false None false false
    0 0 false 9009 None None 50 None default_sidecar_config.

(** [BuilderConfig]; the two data availability limits are those of [da_config], and the gas limit is
    the one of [gas_limit_config]. *)
Record BuilderConfig (Specific : Type) : Type := mkBuilderConfig {
  cfg_builder_signer : option Signer;
  cfg_revert_protection : bool;
  cfg_flashtestations_config : FlashtestationsArgs;
  cfg_block_time : Duration;
  cfg_max_da_tx_size : option Z;
  cfg_max_da_block_size : option Z;
  cfg_gas_limit : option Z;
  cfg_block_time_leeway : Duration;
  cfg_sampling_ratio : Z;
  cfg_specific : Specific;
  cfg_max_gas_per_txn : option Z;
  cfg_gas_limiter_config : GasLimiterArgs;
}.
Arguments mkBuilderConfig {Specific}.
Arguments cfg_builder_signer {Specific} _.
Arguments cfg_revert_protection {Specific} _.
Arguments cfg_flashtestations_config {Specific} _.
Arguments cfg_block_time {Specific} _.
Arguments cfg_max_da_tx_size {Specific} _.
Arguments cfg_max_da_block_size {Specific} _.
Arguments cfg_gas_limit {Specific} _.
Arguments cfg_block_time_leeway {Specific} _.
Arguments cfg_sampling_ratio {Specific} _.
Arguments cfg_specific {Specific} _.
Arguments cfg_max_gas_per_txn {Specific} _.
Arguments cfg_gas_limiter_config {Specific} _.

Abbreviation FbConfig := (BuilderConfig FlashblocksConfig).

(** [FlashBlocksConfigExt::flashblocks_per_block] *)
Definition flashblocks_per_block {E} (config : FbConfig) : outcome E Z :=
  if as_millis (cfg_block_time config) =? 0 then Ok 0
  else if as_millis (interval (cfg_specific config)) =? 0 then Panic
  else Ok (wrap64 (as_millis (cfg_block_time config) / as_millis (interval (cfg_specific config)))).

(** ** The two computations *)

Record FlashblocksTiming : Type := mkTiming {
  tm_flashblocks_per_block : Z;
  tm_first_flashblock_offset : Duration;
  tm_flashblocks_deadline : Duration;
}.

(** What is left until [target], unless it is less than a millisecond or in the past. *)
Definition time_left (target now : SystemTime) : option Duration :=
  match duration_since target now with
  | Some d => if 0 <? as_millis d then Some d else None
  | None => None
  end.

(** The number of flashblocks in [left] milliseconds, and when the first is due. *)
Definition divide_time {E} (left int : Z) : outcome E (Z * Duration) :=
  if int =? 0 then Panic
  else
    let first_flashblock_offset := left mod int in
    if first_flashblock_offset =? 0 then Ok (left / int, from_millis int)
    else Ok (add64 (left / int) 1, from_millis first_flashblock_offset).

Section Calculate.
Context {E : Type} (config : FbConfig) (now : SystemTime).

Definition calculate_flashblocks (timestamp : Z) : outcome E (Z * Duration) :=
  let specific := cfg_specific config in
  if fixed specific then
    let? n := flashblocks_per_block config in
    let? offset := dur_sub (interval specific) (leeway_time specific) in
    Ok (n, offset)
  else
    let? block_start := system_time (from_secs timestamp) in
    let? target_time := system_time (block_start - leeway_time specific) in
    match time_left target_time now with
    | None =>
        let? n := flashblocks_per_block config in
        Ok (n, interval specific)
    | Some time_drift =>
        let time_drift := Z.min time_drift (cfg_block_time config) in
        let int := wrap64 (as_millis (interval specific)) in
        let time_drift := wrap64 (as_millis time_drift) in
        divide_time time_drift int
    end.

Definition calculate_flashblocks_timing (timestamp : Z) : outcome E FlashblocksTiming :=
  let specific := cfg_specific config in
  let offset_delta := Z.abs (send_offset_ms specific) in
  let full_deadline :=
    dur_saturating_sub (cfg_block_time config) (from_millis (end_buffer_ms specific)) in
  if fixed specific then
    let offset :=
      if 0 <? send_offset_ms specific
      then dur_saturating_add (interval specific) (from_millis offset_delta)
      else dur_saturating_sub (interval specific) (from_millis offset_delta) in
    let? n := flashblocks_per_block config in
    Ok (mkTiming n offset full_deadline)
  else
    let? target_time := system_time (from_secs timestamp) in
    match time_left target_time now with
    | None =>
        let? n := flashblocks_per_block config in
        Ok (mkTiming n (interval specific) full_deadline)
    | Some remaining_time =>
        let remaining_time := wrap64 (as_millis (Z.min remaining_time (cfg_block_time config))) in
        let int := wrap64 (as_millis (interval specific)) in
        let? (n, offset) := divide_time remaining_time int in
        let deadline := from_millis (saturating_sub remaining_time (end_buffer_ms specific)) in
        let '(adjusted_offset, adjusted_deadline) :=
          if 0 <=? send_offset_ms specific then
            (dur_saturating_add offset (from_millis offset_delta),
             dur_saturating_add deadline (from_millis offset_delta))
          else
            (dur_saturating_sub offset (from_millis offset_delta),
             dur_saturating_sub deadline (from_millis offset_delta)) in
        Ok (mkTiming n adjusted_offset adjusted_deadline)
    end.

End Calculate.

(** A configuration in range: times are positive and below what a [u64] of milliseconds holds. *)
Definition wf_config (config : FbConfig) : Prop :=
  MILLI <= interval (cfg_specific config) /\ as_millis (interval (cfg_specific config)) < U64_MAX /\
  MILLI <= cfg_block_time config /\ as_millis (cfg_block_time config) < U64_MAX /\
  0 <= leeway_time (cfg_specific config) /\ 0 <= end_buffer_ms (cfg_specific config).

(** What is left of the block, in milliseconds, when the build starts. *)
Definition block_left (config : FbConfig) (target now : SystemTime) : Z :=
  as_millis (Z.min (target - now) (cfg_block_time config)).

(** Two-second blocks, flashblocks every 250 milliseconds, 50 milliseconds of buffer. *)
Definition sample_config (send_offset : Z) : FbConfig :=
  mkBuilderConfig (Some (mkSigner 50 1)) true default_flashtestations_args (from_secs 2) None (Some 100000) None
    (from_millis 500) 100
    (mkFlashblocksConfig "0.0.0.0" 1111 (from_millis 250) (from_millis 0) false false None false
       true send_offset 50 false 9009 None None 50 None default_sidecar_config)
    None (mkGasLimiterArgs false 0 0 0).

(** ** Lemmas *)

Lemma as_millis_from_millis ms : as_millis (from_millis ms) = ms.
Proof. unfold as_millis, from_millis. apply Z.div_mul. done. Qed.

Lemma as_millis_pos d : MILLI <= d -> 1 <= as_millis d.
Proof. intros H. unfold as_millis. apply Z.div_le_lower_bound; [done|lia]. Qed.

Lemma as_millis_mono a b : a <= b -> as_millis a <= as_millis b.
Proof. apply Z.div_le_mono. done. Qed.

Lemma time_left_Some target now d :
  time_left target now = Some d -> d = target - now /\ MILLI <= d.
Proof.
  unfold time_left, duration_since. destruct (target <? now); [done|].
  destruct (0 <? as_millis (target - now)) eqn:H; [|done]. intros [= <-]. split; [done|].
  reflect_bools. unfold as_millis in H. destruct (Z.lt_ge_cases (target - now) MILLI); [|done].
  destruct (Z.lt_ge_cases (target - now) 0).
  - assert ((target - now) / MILLI < 0) by (apply Z.div_lt_upper_bound; [done|lia]). lia.
  - rewrite Z.div_small in H by lia. done.
Qed.

(** The flashblocks divide the time left: the first is due within one interval, and the last exactly
    at the end. *)
Lemma divide_time_spec {E} left int :
  0 < left -> 0 < int -> left < U64_MAX ->
  exists n offset, divide_time left int = (Ok (n, from_millis offset) : outcome E _) /\
    1 <= n /\ 0 < offset <= int /\ offset + (n - 1) * int = left.
Proof.
  intros Hl Hi Hmax. unfold divide_time.
  destruct (Z.eqb_spec int 0); [lia|].
  pose proof (Z.div_mod left int ltac:(lia)) as Hd.
  pose proof (Z.mod_pos_bound left int Hi) as Hm.
  assert (0 <= left / int) by (apply Z.div_pos; lia).
  destruct (Z.eqb_spec (left mod int) 0) as [H0|H0].
  - exists (left / int), int. split; [done|]. split_and!; [nia|lia|lia|nia].
  - exists (left / int + 1), (left mod int).
    rewrite add64_exact by (unfold U64_MOD, U64_MAX in *; try lia; nia).
    split; [done|]. split_and!; [lia|lia|lia|nia].
Qed.

Lemma block_left_range config target now d :
  wf_config config -> time_left target now = Some d ->
  wrap64 (as_millis (Z.min d (cfg_block_time config))) = block_left config target now /\
  0 < block_left config target now < U64_MAX.
Proof.
  intros (_ & _ & Hb & Hbm & _) [-> Hd]%time_left_Some. unfold block_left.
  assert (1 <= as_millis (Z.min (target - now) (cfg_block_time config)))
    by (apply as_millis_pos; lia).
  assert (as_millis (Z.min (target - now) (cfg_block_time config)) <= as_millis (cfg_block_time config))
    by (apply as_millis_mono; lia).
  split; [apply wrap64_small; unfold in_u64, U64_MOD, U64_MAX in *; lia|lia].
Qed.

Lemma interval_range config :
  wf_config config ->
  wrap64 (as_millis (interval (cfg_specific config))) = as_millis (interval (cfg_specific config)) /\
  0 < as_millis (interval (cfg_specific config)).
Proof.
  intros (Hi & Him & _). pose proof (as_millis_pos _ Hi).
  split; [apply wrap64_small; unfold in_u64, U64_MOD, U64_MAX in *; lia|lia].
Qed.

Lemma flashblocks_per_block_range {E} config n :
  wf_config config -> flashblocks_per_block config = (Ok n : outcome E _) -> 0 <= n < U64_MAX.
Proof.
  intros Hwf. destruct (interval_range _ Hwf) as [_ Hi]. destruct Hwf as (_ & _ & Hb & Hbm & _).
  unfold flashblocks_per_block. destruct (as_millis (cfg_block_time config) =? 0); [by intros [= <-]|].
  destruct (as_millis (interval (cfg_specific config)) =? 0); [done|]. intros [= <-].
  pose proof (as_millis_pos _ Hb).
  assert (as_millis (cfg_block_time config) / as_millis (interval (cfg_specific config))
          <= as_millis (cfg_block_time config)) by (apply Z.div_le_upper_bound; nia).
  assert (0 <= as_millis (cfg_block_time config) / as_millis (interval (cfg_specific config)))
    by (apply Z.div_pos; lia).
  rewrite wrap64_small; [lia|]. unfold in_u64, U64_MOD, U64_MAX in *. lia.
Qed.

Lemma divide_time_range {E} left int n o :
  0 < left -> 0 < int -> left < U64_MAX -> divide_time left int = (Ok (n, o) : outcome E _) ->
  0 <= n < U64_MAX.
Proof.
  intros Hl Hi Hm H. destruct (divide_time_spec (E := E) left int Hl Hi Hm) as (n' & o' & H' & ? & ? & ?).
  rewrite H in H'. injection H' as -> ->. nia.
Qed.

Lemma calculate_flashblocks_range {E} config now ts n o :
  wf_config config -> calculate_flashblocks config now ts = (Ok (n, o) : outcome E _) ->
  0 <= n < U64_MAX.
Proof.
  intros Hwf. unfold calculate_flashblocks. destruct (fixed (cfg_specific config)).
  { intros (m & Hm & H)%bind_Ok. apply bind_Ok in H as (? & _ & [= <- <-]).
    by eapply flashblocks_per_block_range. }
  intros (b & _ & H)%bind_Ok. apply bind_Ok in H as (t & _ & H).
  destruct (time_left t now) as [d|] eqn:Hd.
  - destruct (block_left_range _ _ _ _ Hwf Hd) as [Hw [? ?]].
    destruct (interval_range _ Hwf) as [Hi ?]. rewrite Hw, Hi in H. by eapply divide_time_range in H.
  - apply bind_Ok in H as (m & Hm & [= <- <-]). by eapply flashblocks_per_block_range.
Qed.

Lemma calculate_flashblocks_timing_range {E} config now ts tm :
  wf_config config -> calculate_flashblocks_timing config now ts = (Ok tm : outcome E _) ->
  0 <= tm_flashblocks_per_block tm < U64_MAX.
Proof.
  intros Hwf. unfold calculate_flashblocks_timing. destruct (fixed (cfg_specific config)).
  { intros (m & Hm & [= <-])%bind_Ok. by eapply flashblocks_per_block_range. }
  intros (t & _ & H)%bind_Ok. destruct (time_left t now) as [d|] eqn:Hd.
  - destruct (block_left_range _ _ _ _ Hwf Hd) as [Hw [? ?]].
    destruct (interval_range _ Hwf) as [Hi ?]. rewrite Hw, Hi in H.
    apply bind_Ok in H as ([n o] & Hn & H). apply divide_time_range in Hn; [|done..].
    by case_match; injection H as <-.
  - apply bind_Ok in H as (m & Hm & [= <-]). by eapply flashblocks_per_block_range.
Qed.

(** Building at the end of the interval, a request that arrives in time divides what is left of the
    block; the send offset shifts the first flashblock and the deadline. *)
Lemma timing_divides {E} (config : FbConfig) now timestamp d :
  wf_config config -> fixed (cfg_specific config) = false ->
  (system_time (from_secs timestamp) : outcome E _) = Ok (from_secs timestamp) ->
  time_left (from_secs timestamp) now = Some d ->
  let left := block_left config (from_secs timestamp) now in
  let int := as_millis (interval (cfg_specific config)) in
  let shift := send_offset_ms (cfg_specific config) in
  let buffer := end_buffer_ms (cfg_specific config) in
  0 <= shift < 2 ^ 63 -> buffer <= left ->
  exists n offset,
    calculate_flashblocks_timing config now timestamp
      = (Ok (mkTiming n (from_millis (offset + shift)) (from_millis (left - buffer + shift)))
         : outcome E _) /\
    1 <= n /\ 0 < offset <= int /\ offset + (n - 1) * int = left.
Proof.
  intros Hwf Hf Hs Hleft left int shift buffer Hshift Hbuf. unfold calculate_flashblocks_timing.
  rewrite Hf, Hs. simpl. rewrite Hleft.
  destruct (block_left_range _ _ _ _ Hwf Hleft) as [-> [Hl1 Hl2]].
  destruct (interval_range _ Hwf) as [-> Hint]. destruct Hwf as (_ & Him & _ & _ & _ & Heb).
  fold int left shift buffer in Hl1, Hl2, Hint, Heb, Him |- *.
  destruct (divide_time_spec (E := E) left int Hl1 Hint Hl2) as (n & offset & -> & Hn & Ho & Heq).
  simpl. exists n, offset.
  destruct (Z.leb_spec 0 shift); [|lia]. rewrite Z.abs_eq by lia.
  assert (Hadd : forall x, 0 <= x < U64_MAX ->
    dur_saturating_add (from_millis x) (from_millis shift) = from_millis (x + shift)).
  { intros x Hx. unfold dur_saturating_add, from_millis, DURATION_MAX, U64_MAX, SECOND, MILLI in *.
    lia. }
  unfold saturating_sub. rewrite Z.max_r by lia. rewrite !Hadd by lia.
  split_and!; [done|lia..].
Qed.

(** ** Properties *)

(** When the request arrives in time, the number of flashblocks and the offset of the first divide
    what is left of the block (less the leeway, and at most one block time) exactly: there is at
    least one flashblock, the first is due after a positive time of at most one interval, and the
    last at the very end. *)
Theorem calculate_flashblocks_spec {E} (config : FbConfig) now timestamp target d :
  wf_config config -> fixed (cfg_specific config) = false ->
  (system_time (from_secs timestamp) : outcome E _) = Ok (from_secs timestamp) ->
  target = from_secs timestamp - leeway_time (cfg_specific config) ->
  (system_time target : outcome E _) = Ok target -> time_left target now = Some d ->
  exists n offset,
    calculate_flashblocks config now timestamp = (Ok (n, from_millis offset) : outcome E _) /\
    1 <= n /\ 0 < offset <= as_millis (interval (cfg_specific config)) /\
    offset + (n - 1) * as_millis (interval (cfg_specific config)) = block_left config target now.
Proof.
  intros Hwf Hf Hs -> Ht Hleft. unfold calculate_flashblocks.
  rewrite Hf, Hs. simpl. rewrite Ht. simpl. rewrite Hleft.
  destruct (block_left_range _ _ _ _ Hwf Hleft) as [-> [? ?]].
  destruct (interval_range _ Hwf) as [-> ?]. by apply divide_time_spec.
Qed.

(** 1.9 seconds before the block is due: eight flashblocks, the first after 150 milliseconds. *)
Lemma calculate_flashblocks_spec_witness :
  exists n offset,
    calculate_flashblocks (sample_config 0) (from_secs 999 + from_millis 100) 1001
      = (Ok (n, from_millis offset) : outcome unit _) /\
    1 <= n /\ 0 < offset <= 250 /\ offset + (n - 1) * 250 = 1900 /\ n = 8.
Proof.
  destruct (calculate_flashblocks_spec (E := unit) (sample_config 0) (from_secs 999 + from_millis 100)
    1001 (from_secs 1001) (from_millis 1900)) as (n & offset & H & Hn & Ho & Heq).
  - unfold wf_config. vm_compute. repeat split; discriminate || reflexivity.
  - reflexivity.
  - reflexivity.
  - reflexivity.
  - reflexivity.
  - reflexivity.
  - exists n, offset. change (as_millis (interval (cfg_specific (sample_config 0)))) with 250 in *.
    change (block_left (sample_config 0) (from_secs 1001) (from_secs 999 + from_millis 100))
      with 1900 in *.
    split_and!; [exact H|lia..].
Defined.

(** Building at the end of the interval: the timer ticks, shifted by the send offset, divide what
    is left of the block, and when the end buffer is positive and less than one interval, exactly the ticks of all flashblocks but the last fall before the
    deadline, whose own signal builds the last one. *)
Theorem calculate_flashblocks_timing_spec {E} (config : FbConfig) now timestamp d :
  wf_config config -> fixed (cfg_specific config) = false ->
  (system_time (from_secs timestamp) : outcome E _) = Ok (from_secs timestamp) ->
  time_left (from_secs timestamp) now = Some d ->
  let left := block_left config (from_secs timestamp) now in
  let int := as_millis (interval (cfg_specific config)) in
  let shift := send_offset_ms (cfg_specific config) in
  let buffer := end_buffer_ms (cfg_specific config) in
  0 <= shift < 2 ^ 63 -> buffer <= left ->
  exists n offset,
    calculate_flashblocks_timing config now timestamp
      = (Ok (mkTiming n (from_millis (offset + shift)) (from_millis (left - buffer + shift)))
         : outcome E _) /\
    1 <= n /\ 0 < offset <= int /\ offset + (n - 1) * int = left /\
    (0 < buffer < int -> forall k, 0 <= k ->
       (from_millis (offset + shift) + k * from_millis int < from_millis (left - buffer + shift)
        <-> k < n - 1)).
Proof.
  intros Hwf Hf Hs Hleft left int shift buffer Hshift Hbuf.
  destruct (timing_divides (E := E) config now timestamp d Hwf Hf Hs Hleft Hshift Hbuf)
    as (n & offset & H & Hn & Ho & Heq).
  fold left int shift buffer in H, Ho, Heq. exists n, offset. split_and!; [done|lia..|].
  intros Hbi k Hk.
  assert (Hk' : k * int + buffer < (n - 1) * int <-> k < n - 1) by (split; intros; nia).
  rewrite <- Hk'. unfold from_millis, MILLI. lia.
Qed.

(** 1.9 seconds left: eight flashblocks, seven ticks before the deadline 50 milliseconds before the
    end. *)
Lemma calculate_flashblocks_timing_spec_witness :
  exists n offset,
    calculate_flashblocks_timing (sample_config 10) (from_secs 999 + from_millis 100) 1001
      = (Ok (mkTiming n (from_millis (offset + 10)) (from_millis 1860)) : outcome unit _) /\
    n = 8 /\ offset = 150.
Proof.
  destruct (calculate_flashblocks_timing_spec (E := unit) (sample_config 10)
    (from_secs 999 + from_millis 100) 1001 (from_millis 1900)) as (n & offset & H & Hn & Ho & Heq & _).
  - unfold wf_config. vm_compute. repeat split; discriminate || reflexivity.
  - reflexivity.
  - reflexivity.
  - reflexivity.
  - vm_compute. split; discriminate || reflexivity.
  - vm_compute. discriminate.
  - exists n, offset. split; [exact H|].
    change (as_millis (interval (cfg_specific (sample_config 10)))) with 250 in *.
    change (block_left (sample_config 10) (from_secs 1001) (from_secs 999 + from_millis 100))
      with 1900 in *. lia.
Defined.
