(* ===== verification/BuildBlock.v ===== *)
(** * Sealing a block

    Models [execute_pre_steps] and [build_block] of [builders/flashblocks/payload.rs]: the block
    header and body, the flashblock message with its difference to the previous flashblock, and the
    preservation of the state the next flashblock continues from. *)

From S2P Require Import Prelude External ExecInfo Sidecar Context Replay Sequencer FlashblocksCtx.

(** ** Data *)

Record Header : Type := mkHeader {
  h_parent_hash : B256;
  h_ommers_hash : B256;
  h_beneficiary : Address;
  h_state_root : B256;
  h_transactions_root : B256;
  h_receipts_root : B256;
  h_withdrawals_root : option B256;
  h_logs_bloom : Z;
  h_timestamp : Z;
  h_mix_hash : B256;
  h_nonce : Z;
  h_base_fee_per_gas : option Z;
  h_number : Z;
  h_gas_limit : Z;
  h_difficulty : Z;
  h_gas_used : Z;
  h_extra_data : Bytes;
  h_parent_beacon_block_root : option B256;
  h_blob_gas_used : option Z;
  h_excess_blob_gas : option Z;
  h_requests_hash : option B256;
}.

Record Block : Type := mkBlock {
  b_header : Header;
  b_transactions : list OpTransactionSigned;
  b_withdrawals : option (list Z);
}.

(** [OpBuiltPayload]: the sealed block with its hash, the fees and the senders and receipts of the
    executed block it carries. *)
Record OpBuiltPayload : Type := mkPayload {
  p_id : Z;
  p_block : Block;
  p_hash : B256;
  p_fees : Z;
  p_senders : list Address;
  p_receipts : list OpReceipt;
}.

Record OpFlashblockPayloadBase : Type := mkBase {
  base_parent_beacon_block_root : B256;
  base_parent_hash : B256;
  base_fee_recipient : Address;
  base_prev_randao : B256;
  base_block_number : Z;
  base_gas_limit : Z;
  base_timestamp : Z;
  base_extra_data : Bytes;
  base_base_fee_per_gas : Z;
}.

Record OpFlashblockPayloadDelta : Type := mkDelta {
  diff_state_root : B256;
  diff_receipts_root : B256;
  diff_logs_bloom : Z;
  diff_gas_used : Z;
  diff_block_hash : B256;
  diff_transactions : list Bytes;
  diff_withdrawals : list Z;
  diff_withdrawals_root : B256;
  diff_blob_gas_used : option Z;
}.

Record OpFlashblockPayloadMetadata : Type := mkMetadata {
  md_receipts : gmap B256 OpReceipt;
  md_new_account_balances : gmap Address Z;
  md_block_number : Z;
}.

Record OpFlashblockPayload : Type := mkFlashblock {
  fb_payload_id : Z;
  fb_index : Z;
  fb_base : option OpFlashblockPayloadBase;
  fb_diff : OpFlashblockPayloadDelta;
  fb_metadata : OpFlashblockPayloadMetadata;
}.

(** ** The state database and the hashing of blocks *)

Class StateExternals (X : Externals) : Type := {
  (** [State]: its pending transitions and its bundle, with the accounts of each *)
  transitions : Type;
  bundle : Type;
  transition_state : db -> option transitions;
  set_transition_state : db -> option transitions -> db;
  transition_accounts : transitions -> list (Address * TransitionAccount);
  merge_transitions : db -> db;
  bundle_state : db -> bundle;
  bundle_accounts : bundle -> list (Address * option AccountInfo);
  take_bundle : db -> db;
  (** [BlockBuilder::apply_pre_execution_changes]; the number is an error *)
  apply_pre_execution_changes : db -> SealedHeader -> OpNextBlockEnvAttributes -> Z + db;
  (** [ExecutionOutcome::generic_receipts_root_slow] and [block_logs_bloom] of an outcome that starts
      at the first number, for the block of the second *)
  receipts_root_slow : Z -> list OpReceipt -> Z -> option B256;
  block_logs_bloom : Z -> list OpReceipt -> Z -> option Z;
  (** [hashed_post_state] and [state_root_with_updates] *)
  state_root_with_updates : db -> bundle -> Z + B256;
  (** [isthmus::withdrawals_root] *)
  isthmus_withdrawals_root : bundle -> db -> Z + B256;
  calculate_transaction_root : list OpTransactionSigned -> B256;
  hash_header : Header -> B256;
  EMPTY_OMMER_ROOT_HASH : B256;
  EMPTY_WITHDRAWALS : B256;
  EMPTY_REQUESTS_HASH : B256;
  BEACON_NONCE : Z;
}.

(** What the builder relies on to continue after a block was sealed: committing only extends the
    pending transitions, and taking the bundle out after a merge and putting the pending transitions
    back restores a state that had no bundle. *)
Class StateLaws (X : Externals) `{!StateExternals X} : Type := {
  no_bundle : db -> Prop;
  commit_no_bundle d c : no_bundle d -> no_bundle (commit d c);
  merge_restores d :
    no_bundle d ->
    set_transition_state (take_bundle (merge_transitions d)) (transition_state d) = d;
}.

(** ** Definitions *)

(** [convert_receipt] *)
Definition convert_receipt (r : OpReceipt) : OpReceipt :=
  match r with
  | RLegacy r => RLegacy r
  | REip2930 r => REip2930 r
  | REip1559 r => REip1559 r
  | REip7702 r => REip7702 r
  | RDeposit r =>
      RDeposit (mkDepositReceipt (dr_inner r) (dr_deposit_nonce r) (dr_deposit_receipt_version r))
  end.

(** [collect] into a map: a later entry replaces an earlier one. *)
Definition collect_map {A} (l : list (Z * A)) : gmap Z A :=
  fold_left (fun m '(k, v) => <[k := v]> m) l ∅.

Section BuildBlock.
Context `{X : Externals} `{S : !StateExternals X} {ExtraCtx : Type}.
Implicit Type ctx : OpPayloadBuilderCtx ExtraCtx.
Implicit Type info : FbInfo.

Definition execute_pre_steps ctx (d : db) : outcome PayloadBuilderError FbInfo * db :=
  match apply_pre_execution_changes d (parent ctx) (block_env_attributes ctx) with
  | inl e => (Err (OtherExternal "apply_pre_execution_changes" e), d)
  | inr d => execute_sequencer_transactions ctx default_fb_info d
  end.

(** The receipts root, the logs bloom and the state root (only when it is asked for), after the
    check of the block number. *)
Definition block_roots ctx info (d : db) (calculate_state_root : bool)
    : outcome PayloadBuilderError (B256 * Z * B256) :=
  let number := block_number ctx in
  if negb (number =? add64 (sh_number (parent ctx)) 1) then
    Err (Message "build context block number mismatch")
  else
    let? receipts_root :=
      ok_or (receipts_root_slow number (receipts info) number)
        (Message "receipts and block number not in range") in
    let? logs_bloom :=
      ok_or (block_logs_bloom number (receipts info) number)
        (Message "logs bloom and block number not in range") in
    let? state_root :=
      (if calculate_state_root then
         of_sum (OtherExternal "state_root_with_updates") (state_root_with_updates d (bundle_state d))
       else Ok 0) in
    Ok (receipts_root, logs_bloom, state_root).

(** The withdrawals root and the requests hash. *)
Definition withdrawals_fields ctx (d : db)
    : outcome PayloadBuilderError (option B256 * option B256) :=
  if is_isthmus_active ctx then
    let? root :=
      of_sum (OtherExternal "withdrawals_root") (isthmus_withdrawals_root (bundle_state d) d) in
    Ok (Some root, Some EMPTY_REQUESTS_HASH)
  else if is_canyon_active ctx then Ok (Some EMPTY_WITHDRAWALS, None)
  else Ok (None, None).

Definition make_header {Extra} ctx (info : ExecutionInfo Extra) (receipts_root logs_bloom state_root : Z)
    (withdrawals_root requests_hash blob_gas_used excess_blob_gas : option Z)
    (extra_data : Bytes) : Header :=
  {| h_parent_hash := parent_hash ctx;
     h_ommers_hash := EMPTY_OMMER_ROOT_HASH;
     h_beneficiary := env_beneficiary (evm_env ctx);
     h_state_root := state_root;
     h_transactions_root := calculate_transaction_root (executed_transactions info);
     h_receipts_root := receipts_root;
     h_withdrawals_root := withdrawals_root;
     h_logs_bloom := logs_bloom;
     h_timestamp := timestamp ctx;
     h_mix_hash := prev_randao (attributes ctx);
     h_nonce := BEACON_NONCE;
     h_base_fee_per_gas := Some (base_fee ctx);
     h_number := add64 (sh_number (parent ctx)) 1;
     h_gas_limit := block_gas_limit ctx;
     h_difficulty := 0;
     h_gas_used := cumulative_gas_used info;
     h_extra_data := extra_data;
     h_parent_beacon_block_root := parent_beacon_block_root (attributes ctx);
     h_blob_gas_used := blob_gas_used;
     h_excess_blob_gas := excess_blob_gas;
     h_requests_hash := requests_hash |}.

(** The block and its payload. *)
Definition make_payload {Extra} ctx (info : ExecutionInfo Extra) (header : Header)
    : OpBuiltPayload :=
  mkPayload (payload_id ctx)
    (mkBlock header (executed_transactions info) (withdrawals ctx))
    (hash_header header) (total_fees info) (executed_senders info) (receipts info).

(** [v[i..]]: a slice, which panics out of range. *)
Definition slice_from {E A} (l : list A) (i : nat) : outcome E (list A) :=
  if (i <=? length l)%nat then Ok (drop i l) else Panic.

(** What is new since the last flashblock: the transactions and their receipts. *)
Definition new_since {E} info : outcome E (list OpTransactionSigned * list OpReceipt) :=
  let? new_transactions :=
    slice_from (executed_transactions info) (last_flashblock_index (extra info)) in
  let? new_receipts := slice_from (receipts info) (last_flashblock_index (extra info)) in
  Ok (new_transactions, new_receipts).

Definition make_metadata ctx (d : db) (txs : list OpTransactionSigned) (rs : list OpReceipt)
    : OpFlashblockPayloadMetadata :=
  mkMetadata
    (collect_map (zip_with (fun tx r => (tx_hash tx, convert_receipt r)) txs rs))
    (collect_map
       (omap (fun '(address, account) => (fun a => (address, acc_balance a)) <$> account)
          (bundle_accounts (bundle_state d))))
    (add64 (sh_number (parent ctx)) 1).

Definition make_base ctx (beacon_root : B256) (extra_data : Bytes) : OpFlashblockPayloadBase :=
  mkBase beacon_root (parent_hash ctx) (suggested_fee_recipient (attributes ctx))
    (prev_randao (attributes ctx)) (add64 (sh_number (parent ctx)) 1) (block_gas_limit ctx)
    (timestamp ctx) extra_data (base_fee ctx).

(** The index of the last flashblock moves to the end of the block. *)
Definition advance_index info : FbInfo :=
  set_extra info (mkFbInfo (length (executed_transactions info))).

(** The flashblock message; [info] is the info whose index was advanced. *)
Definition make_flashblock ctx info (d : db) (p : OpBuiltPayload)
    (txs : list OpTransactionSigned) (rs : list OpReceipt)
    : outcome PayloadBuilderError OpFlashblockPayload :=
  let metadata := make_metadata ctx d txs rs in
  let? (_, blob_gas_used) := blob_fields ctx info in
  let? beacon_root :=
    ok_or (parent_beacon_block_root (attributes ctx))
      (Message "parent beacon block root not found") in
  let? extra := extra_data ctx in
  let header := b_header (p_block p) in
  Ok (mkFlashblock (payload_id ctx) 0 (Some (make_base ctx beacon_root extra))
        (mkDelta (h_state_root header) (h_receipts_root header) (h_logs_bloom header)
           (cumulative_gas_used info) (p_hash p) (tx_encoded_2718 <$> txs)
           (unwrap_or (withdrawals ctx) []) (unwrap_or (h_withdrawals_root header) 0)
           blob_gas_used) metadata).

(** The block, from the merged state [d]. *)
Definition seal_block ctx info (d : db) (calculate_state_root : bool)
    : outcome PayloadBuilderError OpBuiltPayload :=
  let? (receipts_root, logs_bloom, state_root) := block_roots ctx info d calculate_state_root in
  let? (withdrawals_root, requests_hash) := withdrawals_fields ctx d in
  let? (excess_blob_gas, blob_gas_used) := blob_fields ctx info in
  let? extra := extra_data ctx in
  Ok (make_payload ctx info
        (make_header ctx info receipts_root logs_bloom state_root withdrawals_root requests_hash
           blob_gas_used excess_blob_gas extra)).

(** [build_block]; an error leaves the merged state behind, and one after the block was sealed the
    advanced index. *)
Definition build_block ctx info (d : db) (calculate_state_root : bool)
    : outcome PayloadBuilderError (OpBuiltPayload * OpFlashblockPayload) * FbInfo * db :=
  let untouched_transition_state := transition_state d in
  let merged := merge_transitions d in
  match seal_block ctx info merged calculate_state_root with
  | Err e => (Err e, info, merged)
  | Panic => (Panic, info, merged)
  | Ok payload =>
      match new_since info with
      | Err e => (Err e, info, merged)
      | Panic => (Panic, info, merged)
      | Ok (txs, rs) =>
          let info := advance_index info in
          match make_flashblock ctx info merged payload txs rs with
          | Err e => (Err e, info, merged)
          | Panic => (Panic, info, merged)
          | Ok fb =>
              (Ok (payload, fb), info,
               set_transition_state (take_bundle merged) untouched_transition_state)
          end
      end
  end.

(** ** Specification *)

(** The block of [p] is what the info says, on top of the parent. *)
Record seals {Extra} ctx (info : ExecutionInfo Extra) (p : OpBuiltPayload) : Prop := {
  seal_id : p_id p = payload_id ctx;
  seal_hash : p_hash p = hash_header (b_header (p_block p));
  seal_fees : p_fees p = total_fees info;
  seal_txs : b_transactions (p_block p) = executed_transactions info;
  seal_senders : p_senders p = executed_senders info;
  seal_receipts : p_receipts p = receipts info;
  seal_parent : h_parent_hash (b_header (p_block p)) = parent_hash ctx;
  seal_child : h_number (b_header (p_block p)) = add64 (sh_number (parent ctx)) 1;
  seal_gas_used : h_gas_used (b_header (p_block p)) = cumulative_gas_used info;
  seal_gas_limit : h_gas_limit (b_header (p_block p)) = block_gas_limit ctx;
  seal_timestamp : h_timestamp (b_header (p_block p)) = timestamp ctx;
  seal_tx_root : h_transactions_root (b_header (p_block p))
    = calculate_transaction_root (executed_transactions info);
}.

(** The flashblock carries what the block adds to the first [n] transactions. *)
Record continues ctx info (n : nat) (p : OpBuiltPayload) (fb : OpFlashblockPayload) : Prop := {
  cont_id : fb_payload_id fb = payload_id ctx;
  cont_txs : diff_transactions (fb_diff fb)
    = tx_encoded_2718 <$> drop n (executed_transactions info);
  cont_hash : diff_block_hash (fb_diff fb) = p_hash p;
  cont_gas : diff_gas_used (fb_diff fb) = h_gas_used (b_header (p_block p));
  cont_state_root : diff_state_root (fb_diff fb) = h_state_root (b_header (p_block p));
  cont_receipts_root : diff_receipts_root (fb_diff fb) = h_receipts_root (b_header (p_block p));
  cont_number : md_block_number (fb_metadata fb) = h_number (b_header (p_block p));
}.

(** ** Lemmas *)

(** A block is sealed exactly when all its parts can be computed. *)
Lemma seal_block_parts ctx info d c p :
  seal_block ctx info d c = Ok p <->
  exists rr lb sr wr rq eb bg ex,
    block_roots ctx info d c = Ok (rr, lb, sr) ∧ withdrawals_fields ctx d = Ok (wr, rq) ∧
    blob_fields ctx info = (Ok (eb, bg) : outcome PayloadBuilderError _) ∧ extra_data ctx = Ok ex ∧
    p = make_payload ctx info (make_header ctx info rr lb sr wr rq bg eb ex).
Proof.
  unfold seal_block. split.
  - intros ([[rr lb] sr] & Hr & H)%bind_Ok. apply bind_Ok in H as ([wr rq] & Hw & H).
    apply bind_Ok in H as ([eb bg] & Hb & H). apply bind_Ok in H as (ex & He & [= <-]).
    by exists rr, lb, sr, wr, rq, eb, bg, ex.
  - intros (rr & lb & sr & wr & rq & eb & bg & ex & Hr & Hw & Hb & He & ->).
    rewrite Hr. simpl. rewrite Hw. simpl. rewrite Hb. simpl. by rewrite He.
Qed.

Lemma seal_block_Ok ctx info d c p :
  seal_block ctx info d c = Ok p ->
  seals ctx info p ∧ h_number (b_header (p_block p)) = block_number ctx.
Proof.
  unfold seal_block. intros ([[rr lb] sr] & Hr & H)%bind_Ok.
  apply bind_Ok in H as ([wr rq] & _ & H). apply bind_Ok in H as ([eb bg] & _ & H).
  apply bind_Ok in H as (ed & _ & [= <-]). split; [by split|]. simpl.
  unfold block_roots in Hr. destruct (Z.eqb_spec (block_number ctx) (add64 (sh_number (parent ctx)) 1));
    [done|discriminate].
Qed.

Lemma make_flashblock_Ok ctx info d p txs rs fb :
  make_flashblock ctx info d p txs rs = Ok fb ->
  exists beacon extra blob, parent_beacon_block_root (attributes ctx) = Some beacon ∧
    fb = mkFlashblock (payload_id ctx) 0 (Some (make_base ctx beacon extra))
      (mkDelta (h_state_root (b_header (p_block p))) (h_receipts_root (b_header (p_block p)))
         (h_logs_bloom (b_header (p_block p))) (cumulative_gas_used info) (p_hash p)
         (tx_encoded_2718 <$> txs) (unwrap_or (withdrawals ctx) [])
         (unwrap_or (h_withdrawals_root (b_header (p_block p))) 0) blob)
      (make_metadata ctx d txs rs).
Proof.
  unfold make_flashblock. intros ([eb bg] & _ & H)%bind_Ok.
  apply bind_Ok in H as (beacon & Hb & H). apply bind_Ok in H as (extra & _ & [= <-]).
  exists beacon, extra, bg. split; [|done].
  by destruct (parent_beacon_block_root (attributes ctx)); simplify_eq/=.
Qed.

Lemma new_since_Ok {E} info txs rs :
  new_since info = (Ok (txs, rs) : outcome E _) ->
  (last_flashblock_index (extra info) <= length (executed_transactions info))%nat ∧
  txs = drop (last_flashblock_index (extra info)) (executed_transactions info) ∧
  rs = drop (last_flashblock_index (extra info)) (receipts info).
Proof.
  unfold new_since, slice_from. intros (a & Ha & H)%bind_Ok. apply bind_Ok in H as (b & Hb & [= <- <-]).
  destruct (Nat.leb_spec (last_flashblock_index (extra info)) (length (executed_transactions info)));
    simplify_eq. by destruct (_ <=? length (receipts info))%nat; simplify_eq.
Qed.

Lemma build_block_Ok ctx info d c p fb info' d' :
  build_block ctx info d c = (Ok (p, fb), info', d') ->
  (seals ctx info p ∧ h_number (b_header (p_block p)) = block_number ctx) ∧
  continues ctx info (last_flashblock_index (extra info)) p fb ∧
  (last_flashblock_index (extra info) <= length (executed_transactions info))%nat ∧
  is_Some (fb_base fb) ∧ fb_index fb = 0 ∧ info' = advance_index info ∧
  d' = set_transition_state (take_bundle (merge_transitions d)) (transition_state d).
Proof.
  unfold build_block. destruct (seal_block ctx info _ c) as [p0| |] eqn:Hs; [|done..].
  destruct (new_since info) as [[txs rs]| |] eqn:Hn; [|done..].
  destruct (make_flashblock _ _ _ _ _ _) as [fb0| |] eqn:Hf; [|done..]. intros [= -> -> <- <-].
  apply new_since_Ok in Hn as (Hle & -> & ->). apply seal_block_Ok in Hs.
  apply make_flashblock_Ok in Hf as (beacon & extra' & blob & _ & ->).
  split; [done|]. destruct Hs as [[] _]. split_and!; [|done|by eexists|done..]. split; simpl; try done.
Qed.

(** Nothing in the sealing panics when the info has a scalar after Jovian and its index is in range. *)
Definition sealable ctx info : Prop :=
  (is_jovian_active ctx = true -> optional_blob_fields info = None ->
   is_Some (da_footprint_scalar info)) ∧
  (last_flashblock_index (extra info) <= length (executed_transactions info))%nat ∧
  length (receipts info) = length (executed_transactions info).

Lemma blob_fields_not_Panic {E} ctx info :
  (is_jovian_active ctx = true -> optional_blob_fields info = None ->
   is_Some (da_footprint_scalar info)) ->
  (blob_fields ctx info : outcome E _) <> Panic.
Proof.
  intros Hj. unfold blob_fields. destruct (optional_blob_fields info); [done|].
  destruct (is_jovian_active ctx); [|by destruct (is_ecotone_active ctx)].
  destruct Hj as [sc ->]; done.
Qed.

Lemma of_sum_not_Panic {E A} (f : Z -> E) (r : Z + A) : of_sum f r <> Panic.
Proof. by destruct r. Qed.
Lemma ok_or_not_Panic {E A} (o : option A) (e : E) : ok_or o e <> Panic.
Proof. by destruct o. Qed.
Lemma extra_data_not_Panic ctx : extra_data ctx <> Panic.
Proof. unfold extra_data. repeat case_match; try done; apply of_sum_not_Panic. Qed.

Lemma seal_block_not_Panic ctx info d c : sealable ctx info -> seal_block ctx info d c <> Panic.
Proof.
  intros (Hj & _ & _). unfold seal_block. apply bind_not_Panic.
  { unfold block_roots. case_match; [done|].
    repeat (apply bind_not_Panic; [apply ok_or_not_Panic|intros ? _]).
    apply bind_not_Panic; [case_match; [apply of_sum_not_Panic|done]|done]. }
  intros [[] ] _. apply bind_not_Panic.
  { unfold withdrawals_fields. repeat case_match; try done.
    apply bind_not_Panic; [apply of_sum_not_Panic|done]. }
  intros [] _. apply bind_not_Panic; [by apply blob_fields_not_Panic|]. intros [] _.
  apply bind_not_Panic; [apply extra_data_not_Panic|done].
Qed.

Lemma build_block_not_Panic ctx info d c : sealable ctx info -> (build_block ctx info d c).1.1 <> Panic.
Proof.
  intros Hs. pose proof Hs as (Hj & Hle & Hlen). unfold build_block.
  destruct (seal_block ctx info _ c) as [p0| |] eqn:E; [|done|by apply seal_block_not_Panic in E].
  unfold new_since, slice_from. rewrite Hlen.
  destruct (Nat.leb_spec (last_flashblock_index (extra info)) (length (executed_transactions info)));
    [|lia]. simpl.
  destruct (make_flashblock _ _ _ _ _ _) as [fb| |] eqn:Hf; [done..|exfalso]. revert Hf.
  unfold make_flashblock. apply bind_not_Panic; [by apply blob_fields_not_Panic|]. intros [] _.
  apply bind_not_Panic; [apply ok_or_not_Panic|]. intros ? _.
  apply bind_not_Panic; [apply extra_data_not_Panic|done].
Qed.

Context `{L : !StateLaws X}.

Lemma replay_no_bundle ctx ts d gas rs d' gas' :
  replay ctx ts d gas = Some (rs, d', gas') -> no_bundle d -> no_bundle d'.
Proof.
  revert d gas rs gas'. induction ts as [|t ts IH]; intros d gas rs gas'; simpl; [by intros [= _ <- _]|].
  unfold replay_tx. destruct (depositor_nonce ctx d t); [done|].
  destruct (transact (evm_env ctx) d t) as [|[r c]]; [done|].
  destruct (replay ctx ts _ _) as [[[rs1 d1] g1]|] eqn:E; [|done]. intros [= _ <- _] Hn.
  eapply IH; [done|]. by apply commit_no_bundle.
Qed.

Lemma executes_no_bundle {Extra} ctx d0 (info : ExecutionInfo Extra) d :
  executes ctx d0 info d -> no_bundle d0 -> no_bundle d.
Proof. intros [H _]. by eapply replay_no_bundle. Qed.

(** Sealing a block leaves the state the next flashblock continues from as it was. *)
Lemma build_block_continues ctx info d c p fb info' d' d0 :
  build_block ctx info d c = (Ok (p, fb), info', d') -> executes ctx d0 info d -> no_bundle d0 ->
  d' = d ∧ executes ctx d0 info' d'.
Proof.
  intros (_ & _ & _ & _ & _ & -> & ->)%build_block_Ok He Hn.
  rewrite merge_restores by (by eapply executes_no_bundle). split; [done|].
  by apply executes_set_extra.
Qed.

End BuildBlock.

(** ** A state with transitions

    On the small chain the pending transitions are the whole state and there is never a bundle. *)
Module TestState.

Abbreviation tdb := (@db TestChain.chain).
Definition test_transitions (t : tdb) : list (Address * TransitionAccount) :=
  (fun '(a, n) => (a, mkTransition false false (Some (mkAccount n 0)) None [])) <$>
    (t : TestChain.test_db).
Definition test_accounts (b : tdb) : list (Address * option AccountInfo) :=
  (fun '(a, n) => (a, Some (mkAccount n 0))) <$> (b : TestChain.test_db).

#[export] Instance test_state : StateExternals TestChain.chain := {|
  transitions := tdb;
  bundle := tdb;
  transition_state d := Some d;
  set_transition_state d t := unwrap_or t d;
  transition_accounts := test_transitions;
  merge_transitions d := d;
  bundle_state d := d;
  bundle_accounts := test_accounts;
  take_bundle d := d;
  apply_pre_execution_changes d _ _ := inr d;
  receipts_root_slow first rs n := if first =? n then Some (Z.of_nat (length rs)) else None;
  block_logs_bloom first rs n := if first =? n then Some 0 else None;
  state_root_with_updates _ b := inr (Z.of_nat (length (test_accounts b)));
  isthmus_withdrawals_root _ _ := inr 12;
  calculate_transaction_root txs := sum_Z (tx_hash <$> txs);
  hash_header h := h_transactions_root h + 1000 * h_gas_used h;
  EMPTY_OMMER_ROOT_HASH := 1;
  EMPTY_WITHDRAWALS := 2;
  EMPTY_REQUESTS_HASH := 3;
  BEACON_NONCE := 0;
|}.

#[export] Instance test_state_laws : StateLaws TestChain.chain.
Proof. refine {| no_bundle := fun _ => True |}; done. Defined.

End TestState.

Import TestChain TestState.

(** ** Properties *)

(** C13: a sealed block is what was executed: its body, senders, receipts, gas used, fees and
    transaction root are those of the execution info, on top of the parent and with the next number;
    the flashblock carries exactly the encodings of the transactions executed since the last
    flashblock, with the hash, gas and roots of the block.  Sealing moves the index of the last
    flashblock to the end and leaves the state as it was, so that building can go on; it does not
    panic when the info has a scalar after Jovian. *)
Theorem build_block_spec `{X : Externals} `{S : !StateExternals X} `{L : !StateLaws X} {ExtraCtx}
    (ctx : OpPayloadBuilderCtx ExtraCtx) (info info' : FbInfo) d d' d0 c r :
  build_block ctx info d c = (r, info', d') -> executes ctx d0 info d -> no_bundle d0 ->
  (sealable ctx info -> r <> Panic) ∧
  forall p fb, r = Ok (p, fb) ->
    seals ctx info p ∧ h_number (b_header (p_block p)) = block_number ctx ∧
    continues ctx info (last_flashblock_index (extra info)) p fb ∧
    info' = set_extra info (mkFbInfo (length (executed_transactions info))) ∧
    d' = d ∧ executes ctx d0 info' d'.
Proof.
  intros H He Hn. split.
  - intros Hs. pose proof (build_block_not_Panic ctx info d c Hs) as Hp. by rewrite H in Hp.
  - intros p fb ->. destruct (build_block_continues _ _ _ _ _ _ _ _ _ H He Hn) as [-> He'].
    apply build_block_Ok in H as ([? ?] & ? & _ & _ & _ & ? & _). done.
Qed.

Lemma build_block_spec_witness :
  exists p fb info' d',
    build_block (X := chain) (sample_ctx true [] never_cancelled tt)
      (set_da_footprint_scalar (with_capacity default_fb_info) (Some 400)) [] true
      = (Ok (p, fb), info', d') ∧
    seals (sample_ctx true [] never_cancelled tt)
      (set_da_footprint_scalar (with_capacity default_fb_info) (Some 400)) p ∧ d' = [].
Proof.
  destruct (build_block (X := chain) (sample_ctx true [] never_cancelled tt)
      (set_da_footprint_scalar (with_capacity default_fb_info) (Some 400)) [] true)
    as [[[[p fb]| |] info'] d'] eqn:E; [|vm_compute in E; discriminate..].
  destruct (build_block_spec (X := chain) (sample_ctx true [] never_cancelled tt)
    (set_da_footprint_scalar (with_capacity default_fb_info) (Some 400)) info' [] d' [] true
    (Ok (p, fb)) E) as [_ H].
  - apply executes_set_scalar, executes_initial.
  - exact I.
  - destruct (H p fb eq_refl) as (Hs & _ & _ & _ & Hd & _). by exists p, fb, info', d'.
Defined.
