(* ===== verification/Flashblocks.v ===== *)
(** * Building one flashblock

    Models [OpPayloadBuilder::build_next_flashblock] of [builders/flashblocks/payload.rs], phase by
    phase: reserving room for the builder transactions, the pool, the sidecar, the builder
    transactions, sealing and publishing.  The phases are steps of a small state and error monad over
    everything the function changes. *)

From S2P Require Import Prelude External ExecInfo GasLimiter PoolTx BestTxs Sidecar Context Replay Sequencer BestExec SidecarExec BuilderTx FlashblocksCtx BuildBlock.

(** Everything a job changes: the execution info and the state, the transaction iterator, the shared
    gas limiter, the builder transactions, the clock of the looks at the outside world, the best
    payload, and what was handed to the payload handler and to the websocket. *)
Record FbState `{Externals} (It Self : Type) : Type := mkFb {
  fs_info : FbInfo;
  fs_db : db;
  fs_best : BestFlashblocksTxs It;
  fs_limiter : AddressGasLimiter;
  fs_self : Self;
  fs_now : nat;
  fs_cell : option OpBuiltPayload;
  fs_sent : list OpBuiltPayload;
  fs_published : list OpFlashblockPayload;
}.
Arguments mkFb {_ It Self}.
Arguments fs_info {_ It Self} _.
Arguments fs_db {_ It Self} _.
Arguments fs_best {_ It Self} _.
Arguments fs_limiter {_ It Self} _.
Arguments fs_self {_ It Self} _.
Arguments fs_now {_ It Self} _.
Arguments fs_cell {_ It Self} _.
Arguments fs_sent {_ It Self} _.
Arguments fs_published {_ It Self} _.

(** The outside world, as the job sees it at each moment: the pool, whether the websocket publishes
    and the payload channel accepts, the answers of the sidecar, and the token of the block. *)
Record World (It : Type) : Type := mkWorld {
  w_pool : nat -> Z * option Z -> It;
  w_publish : nat -> OpFlashblockPayload -> bool;
  w_try_send : nat -> OpBuiltPayload -> bool;
  w_sidecar_config : SidecarConfig;
  w_sidecar : nat -> PollRequest -> nat -> option PollResponse;
  w_block_cancel : CancellationToken;
}.
Arguments mkWorld {It}.
Arguments w_pool {It} _.
Arguments w_publish {It} _.
Arguments w_try_send {It} _.
Arguments w_sidecar_config {It} _.
Arguments w_sidecar {It} _.
Arguments w_block_cancel {It} _.

(** The limits of one flashblock after the reservation. *)
Record Targets : Type := mkTargets {
  tg_gas : Z;
  tg_da : option Z;
  tg_da_footprint : option Z;
}.

(** The sums over the builder transactions that are not committed yet, and what they leave of the
    targets. *)
Definition reserved (f : BuilderTransactionCtx -> Z) (txs : list BuilderTransactionCtx) : Z :=
  fold_left (fun acc t => add64 acc (f t))
    (List.filter (fun t => negb (btx_is_top_of_block t)) txs) 0.

Definition reserve_targets (ctx : FbCtx) (info : FbInfo) (txs : list BuilderTransactionCtx)
    : Targets :=
  let builder_tx_gas := reserved btx_gas_used txs in
  let builder_tx_da_size := reserved btx_da_size txs in
  mkTargets
    (saturating_sub (fx_target_gas_for_batch (extra_ctx ctx)) builder_tx_gas)
    ((fun da_limit => saturating_sub da_limit builder_tx_da_size) <$>
       fx_target_da_for_batch (extra_ctx ctx))
    (match fx_target_da_footprint_for_batch (extra_ctx ctx), da_footprint_scalar info with
     | Some footprint, Some scalar =>
         Some (saturating_sub footprint (saturating_mul builder_tx_da_size scalar))
     | footprint, _ => footprint
     end).

(** The limits passed to the two execution loops. *)
Definition loop_limits (ctx : FbCtx) (t : Targets) : Limits :=
  mkLimits (Z.min (tg_gas t) (block_gas_limit ctx)) (tg_da t) (tg_da_footprint t).

(** The context of the next flashblock. *)
Definition next_extra_ctx (ctx : FbCtx) (t : Targets) : FlashblocksExtraCtx :=
  let x := extra_ctx ctx in
  let target_da :=
    match fx_da_per_batch x, tg_da t with
    | Some da_limit, Some da => Some (add64 da da_limit)
    | _, da => da
    end in
  let target_gas := add64 (fx_target_gas_for_batch x) (fx_gas_per_batch x) in
  let target_footprint :=
    match tg_da_footprint t, fx_da_footprint_per_batch x with
    | Some footprint, Some limit => Some (add64 footprint limit)
    | footprint, _ => footprint
    end in
  fb_next x target_gas target_da target_footprint.

Section BuildNext.
Context `{X : Externals} `{B : !BuilderExternals X} `{S : !StateExternals X}.
Context {It Self : Type} `{PT : PayloadTransactions It}.
Context `{BT : !BuilderTransactions Self FlashblocksExtraCtx FlashblocksExecutionInfo}.
Context (w : World It) (state_provider : db).
Implicit Type ctx : FbCtx.
Abbreviation St := (FbState It Self).

Abbreviation M := (action St PayloadBuilderError).

(** *** Updates of the state *)

Definition with_exec (s : St) (info : FbInfo) (d : db) : St :=
  mkFb info d (fs_best s) (fs_limiter s) (fs_self s) (fs_now s) (fs_cell s) (fs_sent s)
    (fs_published s).
Definition with_self (s : St) (self : Self) : St :=
  mkFb (fs_info s) (fs_db s) (fs_best s) (fs_limiter s) self (fs_now s) (fs_cell s) (fs_sent s)
    (fs_published s).
Definition with_best (s : St) (b : BestFlashblocksTxs It) : St :=
  mkFb (fs_info s) (fs_db s) b (fs_limiter s) (fs_self s) (fs_now s) (fs_cell s) (fs_sent s)
    (fs_published s).
Definition at_time (s : St) (now : nat) (l : AddressGasLimiter) : St :=
  mkFb (fs_info s) (fs_db s) (fs_best s) l (fs_self s) now (fs_cell s) (fs_sent s)
    (fs_published s).
Definition later (s : St) : St := at_time s (Datatypes.S (fs_now s)) (fs_limiter s).
Definition with_published (s : St) (fb : OpFlashblockPayload) : St :=
  mkFb (fs_info s) (fs_db s) (fs_best s) (fs_limiter s) (fs_self s) (fs_now s) (fs_cell s)
    (fs_sent s) (fs_published s ++ [fb]).
Definition with_sent (s : St) (p : OpBuiltPayload) : St :=
  mkFb (fs_info s) (fs_db s) (fs_best s) (fs_limiter s) (fs_self s) (fs_now s) (fs_cell s)
    (fs_sent s ++ [p]) (fs_published s).
Definition with_cell (s : St) (p : OpBuiltPayload) : St :=
  mkFb (fs_info s) (fs_db s) (fs_best s) (fs_limiter s) (fs_self s) (fs_now s) (Some p)
    (fs_sent s) (fs_published s).

(** *** The phases *)

(** [self.builder_tx.add_builder_txs]; an error is logged and gives no transactions. *)
Definition builder_phase ctx (top_of_block : bool) : M (list BuilderTransactionCtx) := fun s =>
  let '(r, self, info, d) :=
    add_builder_txs (fs_self s) state_provider (fs_info s) ctx (fs_db s) top_of_block in
  let s := with_exec (with_self s self) info d in
  match r with
  | Ok txs => Some (Ok txs, s)
  | Err _ => Some (Ok [], s)
  | Panic => Some (Panic, s)
  end.

(** The pool: a fresh iterator, the execution, and the marking of what is committed. *)
Definition pool_phase ctx (t : Targets) : M unit := fun s =>
  let pool := w_pool w (fs_now s) (best_transaction_attributes ctx) in
  let best := refresh_iterator (fs_best s) pool (flashblock_index ctx) in
  match execute_best_transactions ctx (loop_limits ctx t)
          (mkExec (fs_info s) (fs_db s) best (fs_limiter s) (Datatypes.S (fs_now s)) []) with
  | None => None
  | Some (r, e) =>
      let s := at_time (with_best (with_exec s (st_info e) (st_db e)) (st_best e)) (st_now e)
                 (st_limiter e) in
      match r with
      | Ok _ =>
          match slice_from (executed_transactions (fs_info s))
                  (last_flashblock_index (extra (fs_info s))) with
          | Ok new => Some (Ok tt, with_best s (mark_commited (fs_best s) (tx_hash <$> new)))
          | Err e => Some (Err e, s)
          | Panic => Some (Panic, s)
          end
      | Err e => Some (Err e, s)
      | Panic => Some (Panic, s)
      end
  end.

(** A look at the token of the block. *)
Definition block_cancelled : M bool := fun s =>
  Some (Ok (is_cancelled (w_block_cancel w) (fs_now s)), later s).

(** The request to the sidecar. *)
Definition poll_request ctx (t : Targets) (gas_before : Z) (s : St) : PollRequest :=
  let pool_gas_used := saturating_sub (cumulative_gas_used (fs_info s)) gas_before in
  let overrides :=
    if is_enabled (w_sidecar_config w) then
      match build_state_overrides (transition_accounts <$> transition_state (fs_db s)) with
      | [] => None
      | l => Some l
      end
    else None in
  mkPollRequest (chain_id ctx) (block_number ctx) (flashblock_index ctx)
    (sh_state_root (parent ctx)) (timestamp ctx) (saturating_sub (tg_gas t) pool_gas_used) overrides.

Definition sidecar_phase ctx (t : Targets) (gas_before : Z) : M unit := fun s =>
  let request := poll_request ctx t gas_before s in
  match poll_transactions (w_sidecar_config w) (w_sidecar w (fs_now s) request) with
  | None => None
  | Some (Ok (Some ((_ :: _) as external_txs)), _) =>
      let '(r, (info, d)) :=
        execute_sidecar_transactions ctx (loop_limits ctx t) external_txs (fs_info s) (fs_db s) in
      Some (r, later (with_exec s info d))
  | Some (Panic, _) => Some (Panic, later s)
  | Some (_, _) => Some (Ok tt, later s)
  end.

Definition seal_phase ctx : M (OpBuiltPayload * OpFlashblockPayload) := fun s =>
  let '(r, info, d) :=
    build_block ctx (fs_info s) (fs_db s)
      (negb (fx_disable_state_root (extra_ctx ctx)) || no_tx_pool (attributes ctx)) in
  Some (r, with_exec s info d).

(** [fb_payload.index = flashblock_index; fb_payload.base = None] *)
Definition as_delta ctx (fb : OpFlashblockPayload) : OpFlashblockPayload :=
  mkFlashblock (fb_payload_id fb) (flashblock_index ctx) None (fb_diff fb) (fb_metadata fb).

Definition ws_publish (fb : OpFlashblockPayload) : M unit := fun s =>
  if w_publish w (fs_now s) fb then Some (Ok tt, later (with_published s fb))
  else Some (Err (Message "failed to publish flashblock via websocket"), later s).
Definition payload_try_send (p : OpBuiltPayload) : M unit := fun s =>
  if w_try_send w (fs_now s) p then Some (Ok tt, later (with_sent s p))
  else Some (Err (Message "failed to send built payload to handler"), later s).
Definition set_best_payload (p : OpBuiltPayload) : M unit := fun s =>
  Some (Ok tt, with_cell s p).

(** Publishing, unless the block was cancelled: then nothing of the flashblock is kept. *)
Definition publish_phase ctx (t : Targets) (p : OpBuiltPayload) (fb : OpFlashblockPayload)
    : M (option FlashblocksExtraCtx) :=
  do cancelled <~ block_cancelled then
  if cancelled then mret None
  else
    do _ <~ ws_publish (as_delta ctx fb) then
    do _ <~ payload_try_send p then
    do _ <~ set_best_payload p then
    mret (Some (next_extra_ctx ctx t)).

(** [build_next_flashblock] *)
Definition build_next_flashblock ctx : M (option FlashblocksExtraCtx) :=
  do builder_txs <~ builder_phase ctx true then
  do targets <~ mget (fun s => reserve_targets ctx (fs_info s) builder_txs) then
  do gas_before <~ mget (fun s => cumulative_gas_used (fs_info s)) then
  do _ <~ pool_phase ctx targets then
  do cancelled <~ block_cancelled then
  if cancelled then mret None
  else
    do _ <~ sidecar_phase ctx targets gas_before then
    do _ <~ builder_phase ctx false then
    do built <~ seal_phase ctx then
    publish_phase ctx targets (fst built) (snd built).

(** ** Specification *)

(** The best payload is the block the published flashblocks describe: they concatenate to its
    transactions and the last one names its hash. *)
Definition cell_matches (s : St) : Prop :=
  exists p, fs_cell s = Some p /\
    mbind (diff_transactions ∘ fb_diff) (fs_published s)
      = tx_encoded_2718 <$> b_transactions (p_block p) /\
    (diff_block_hash ∘ fb_diff <$> last (fs_published s)) = Some (p_hash p) /\
    last (fs_sent s) = Some p.

(** Between flashblocks: the block so far is a replay from [d0], the info ends with what was
    published, and the payload matches. *)
Record coherent ctx (d0 : db) (s : St) : Prop := {
  coh_executes : executes ctx d0 (fs_info s) (fs_db s);
  coh_index : last_flashblock_index (extra (fs_info s)) = length (executed_transactions (fs_info s));
  coh_published : mbind (diff_transactions ∘ fb_diff) (fs_published s)
    = tx_encoded_2718 <$> executed_transactions (fs_info s);
  coh_cell : cell_matches s;
}.

(** A payload whose block replays from [d0] to its own receipts and gas. *)
Definition valid_payload {ExtraCtx} (ctx : OpPayloadBuilderCtx ExtraCtx) (d0 : db)
    (p : OpBuiltPayload) : Prop :=
  exists d, replay ctx (zip_with mkRecovered (b_transactions (p_block p)) (p_senders p)) d0 0
    = Some (p_receipts p, d, h_gas_used (b_header (p_block p))).

(** Whether the state root of a block is computed. *)
Definition calculates_root (ctx : FbCtx) : bool :=
  negb (fx_disable_state_root (extra_ctx ctx)) || no_tx_pool (attributes ctx).

(** A payload sealed from a replay from [d0], in the context of some flashblock of the job. *)
Definition sealed_payload (ctx : FbCtx) (d0 : db) (p : OpBuiltPayload) : Prop :=
  exists t x (info info' : FbInfo) d d' fb,
    fx_disable_state_root x = fx_disable_state_root (extra_ctx ctx) /\
    executes ctx d0 info d /\
    build_block (with_extra_ctx (with_cancel ctx t) x) info d (calculates_root ctx)
      = (Ok (p, fb), info', d').

(** The phases before publishing only execute: they extend the block and leave what was published
    alone. *)
Record extends (ctx : FbCtx) (s s' : St) : Prop := {
  ext_executes : forall d0, executes ctx d0 (fs_info s) (fs_db s) ->
    executes ctx d0 (fs_info s') (fs_db s');
  ext_prefix : executed_transactions (fs_info s) `prefix_of` executed_transactions (fs_info s');
  ext_extra : extra (fs_info s') = extra (fs_info s);
  ext_scalar : da_footprint_scalar (fs_info s') = da_footprint_scalar (fs_info s);
  ext_blob : optional_blob_fields (fs_info s') = optional_blob_fields (fs_info s);
  ext_cell : fs_cell s' = fs_cell s;
  ext_sent : fs_sent s' = fs_sent s;
  ext_published : fs_published s' = fs_published s;
  ext_now : (fs_now s <= fs_now s')%nat;
}.

End BuildNext.

(** ** Lemmas *)

Section Lemmas.
Context `{X : Externals} `{B : !BuilderExternals X} `{S : !StateExternals X}.
Context `{G : !EvmGas X} `{RL : !ReceiptLaws X} `{FL : !FeeLaws X}.
Context {It Self : Type} `{PT : PayloadTransactions It} `{PL : !PayloadTransactionsLaws It}.
Context `{BT : !BuilderTransactions Self FlashblocksExtraCtx FlashblocksExecutionInfo}.
Context `{BL : !BuilderTransactionsLaws Self FlashblocksExtraCtx FlashblocksExecutionInfo}.
Context (w : World It) (p0 : db).
Implicit Type ctx : FbCtx.
Implicit Type s : FbState It Self.

Lemma extends_refl ctx s : extends ctx s s.
Proof. by split. Qed.

Lemma extends_trans ctx s1 s2 s3 : extends ctx s1 s2 -> extends ctx s2 s3 -> extends ctx s1 s3.
Proof.
  intros [] []. split; try congruence; auto; [by etrans|lia].
Qed.

Lemma builder_phase_spec ctx b s r s' :
  self_ok (fs_self s) -> builder_phase p0 ctx b s = Some (r, s') ->
  extends ctx s s' /\ self_ok (fs_self s').
Proof using G RL BL.
  intros Hok. unfold builder_phase.
  destruct (add_builder_txs _ _ _ _ _ _) as [[[r0 self0] info1] d2] eqn:Hs.
  destruct (add_builder_txs_trace _ _ _ _ _ _ _ _ _ _ Hok Hs) as (Hok' & l & _ & Hl & _).
  destruct (builder_lists _ _ _ _ _ _ _ Hl) as (Ht & _ & _ & He & Hsc & Hbl & _).
  assert (Hext : extends ctx s (with_exec (with_self s self0) info1 d2)).
  { split; simpl; try done; [intros d0; by eapply builder_executes|rewrite Ht; by eexists]. }
  destruct r0; intros [= <- <-]; done.
Qed.

Lemma pool_phase_spec ctx t s r s' :
  pool_phase w ctx t s = Some (r, s') -> extends ctx s s' /\ fs_self s' = fs_self s.
Proof using G RL FL PL.
  unfold pool_phase.
  set (e0 := mkExec (fs_info s) (fs_db s) _ (fs_limiter s) (Datatypes.S (fs_now s)) []).
  destruct (execute_best_transactions_trace ctx (loop_limits ctx t) (fun _ => True) e0)
    as ([r1 e] & -> & (l & _ & Hl) & Hend); [done|]. simpl in *.
  destruct (inclusions_app_lists _ _ _ _ _ _ _ _ Hl) as (Ht & _ & _ & He & Hsc & Hbl).
  set (s1 := at_time _ _ _).
  assert (Hext : extends ctx s s1).
  { split; simpl; try done; [intros d0; by eapply inclusions_executes|rewrite Ht; by eexists|].
    destruct Hend as [Hnow _]. simpl in Hnow. lia. }
  assert (Hb : forall b, extends ctx s (with_best s1 b)).
  { intros b. eapply extends_trans; [exact Hext|]. by split. }
  destruct r1; [|intros [= <- <-]; done..].
  destruct (slice_from _ _); intros [= <- <-]; split; auto.
Qed.

Lemma sidecar_phase_spec ctx t g s r s' :
  sidecar_phase w ctx t g s = Some (r, s') -> extends ctx s s' /\ fs_self s' = fs_self s.
Proof using G RL.
  unfold sidecar_phase. destruct (poll_transactions _ _) as [[res ps]|]; [|done].
  assert (Hl : extends ctx s (later s)) by (split; simpl; try done; lia).
  destruct res as [[[|x l]|]| |]; try (intros [= <- <-]; by split).
  destruct (execute_sidecar_transactions _ _ _ _ _) as [r1 [info d]] eqn:E. intros [= <- <-].
  split; [|done].
  assert (exists pre, sidecar_inv ctx (loop_limits ctx t) (fs_info s) (fs_db s) pre (info, d))
    as (pre & li & Hli & _).
  { apply (execute_sidecar_transactions_trace ctx (loop_limits ctx t)) in E. destruct r1; [by eexists| |done].
    destruct E as (pre & ? & ? & ? & ? & ? & _). by eexists. }
  simpl in Hli. destruct (external_lists _ _ _ _ _ _ _ Hli) as (Ht & _ & _ & _ & He & Hsc & Hbl & _).
  split; simpl; try done; [|rewrite Ht; by eexists|lia].
  intros d0. by eapply external_executes.
Qed.

(** What a flashblock leaves behind when it is not published. *)
Definition quiet s s' : Prop :=
  fs_cell s' = fs_cell s /\ fs_sent s' = fs_sent s /\ fs_published s' = fs_published s.

Lemma extends_quiet ctx s s' : extends ctx s s' -> quiet s s'.
Proof. by intros []. Qed.

Lemma quiet_trans s1 s2 s3 : quiet s1 s2 -> quiet s2 s3 -> quiet s1 s3.
Proof. unfold quiet. intros (? & ? & ?) (? & ? & ?). split_and!; congruence. Qed.

(** Publishing, case by case. *)
Lemma publish_phase_spec ctx t p fb s r s' :
  publish_phase w ctx t p fb s = Some (r, s') ->
  fs_info s' = fs_info s /\ fs_db s' = fs_db s /\
  match r with
  | Ok None => is_cancelled (w_block_cancel w) (fs_now s) = true /\ quiet s s'
  | Ok (Some next) => next = next_extra_ctx ctx t /\ fs_cell s' = Some p /\
      fs_sent s' = fs_sent s ++ [p] /\ fs_published s' = fs_published s ++ [as_delta ctx fb] /\
      fs_self s' = fs_self s
  | Err e => fs_cell s' = fs_cell s /\ fs_sent s' = fs_sent s /\
      (fs_published s' = fs_published s \/
       e = Message "failed to send built payload to handler" /\
       fs_published s' = fs_published s ++ [as_delta ctx fb])
  | Panic => False
  end.
Proof.
  unfold publish_phase, mbind', block_cancelled, ws_publish, payload_try_send, set_best_payload, mret.
  destruct (is_cancelled (w_block_cancel w) (fs_now s)); [by intros [= <- <-]|].
  destruct (w_publish w _ _); [|intros [= <- <-]; simpl; split_and!; auto].
  destruct (w_try_send w _ _); intros [= <- <-]; simpl; split_and!; auto.
Qed.

(** A payload and the difference that was made with it. *)
Definition sealed_with ctx (p : OpBuiltPayload) (diff : OpFlashblockPayloadDelta) : Prop :=
  exists (info info' : FbInfo) d d' c fb,
    build_block ctx info d c = (Ok (p, fb), info', d') /\ diff = fb_diff fb.

Definition publishes ctx d0 s r s' : Prop :=
  match r with
  | Ok (Some next) =>
      coherent ctx d0 s' /\ self_ok (fs_self s') /\
      (exists fb p, fs_published s' = fs_published s ++ [fb] /\ fb_index fb = flashblock_index ctx /\
         fb_base fb = None /\ fs_sent s' = fs_sent s ++ [p] /\ fs_cell s' = Some p /\
         sealed_payload ctx d0 p /\ sealed_with ctx p (fb_diff fb)) /\
      (exists info txs, next = next_extra_ctx ctx (reserve_targets ctx info txs))
  | Ok None => quiet s s' /\ exists n, (fs_now s <= n)%nat /\ is_cancelled (w_block_cancel w) n = true
  | Err e => fs_cell s' = fs_cell s /\ fs_sent s' = fs_sent s /\
      (fs_published s' = fs_published s \/
       e = Message "failed to send built payload to handler" /\
       exists fb, fs_published s' = fs_published s ++ [fb])
  | Panic => quiet s s'
  end.

Context `{SL : !StateLaws X}.

Lemma seals_valid {ExtraCtx Extra} (ctx : OpPayloadBuilderCtx ExtraCtx) d0
    (info : ExecutionInfo Extra) d p :
  seals ctx info p -> executes ctx d0 info d -> valid_payload ctx d0 p.
Proof.
  intros Hs [Hr _]. exists d. rewrite (seal_txs _ _ _ Hs), (seal_senders _ _ _ Hs).
  by rewrite (seal_receipts _ _ _ Hs), (seal_gas_used _ _ _ Hs).
Qed.

Lemma sealed_payload_ext ctx t x d0 p :
  fx_disable_state_root x = fx_disable_state_root (extra_ctx ctx) ->
  sealed_payload (with_extra_ctx (with_cancel ctx t) x) d0 p <-> sealed_payload ctx d0 p.
Proof.
  intros Hx. unfold sealed_payload, executes, calculates_root. simpl. rewrite Hx.
  by setoid_rewrite (replay_ext _ ctx).
Qed.

Lemma seal_sealed ctx d0 (info info' : FbInfo) d d' p fb :
  build_block ctx info d (calculates_root ctx) = (Ok (p, fb), info', d') ->
  executes ctx d0 info d -> sealed_payload ctx d0 p.
Proof.
  intros Hb He. exists (cancel ctx), (extra_ctx ctx), info, info', d, d', fb.
  split_and!; [done..|]. by destruct ctx.
Qed.

Lemma sealed_valid ctx d0 p : sealed_payload ctx d0 p -> valid_payload ctx d0 p.
Proof.
  intros (t & x & info & info' & d & d' & fb & _ & He & Hb). apply build_block_Ok in Hb as ([Hs _] & _).
  destruct (seals_valid _ d0 _ d _ Hs) as [d2 Hr].
  - destruct He as [He Hl]. split; [|done]. by rewrite (replay_ext _ ctx).
  - exists d2. by rewrite (replay_ext _ ctx) in Hr.
Qed.

(** Sealing and publishing after the execution phases. *)
Lemma seal_publish_spec ctx d0 t s0 s r s' :
  coherent ctx d0 s0 -> no_bundle d0 -> extends ctx s0 s -> self_ok (fs_self s) ->
  (exists info txs, t = reserve_targets ctx info txs) ->
  mbind' (seal_phase ctx) (fun built => publish_phase w ctx t (fst built) (snd built)) s
    = Some (r, s') ->
  publishes ctx d0 s0 r s'.
Proof using SL.
  intros Hco Hnb Hext Hself (ti & ttxs & ->) H.
  destruct Hext as [He [new Hnew] Hextra _ _ Hcell Hsent Hpub Hnow].
  destruct Hco as [Hex Hidx Hcp Hcm]. specialize (He _ Hex).
  unfold mbind', seal_phase in H.
  destruct (build_block ctx (fs_info s) (fs_db s) _) as [[rb info'] d'] eqn:Hb.
  destruct rb as [[p fb]|e|].
  2: { injection H as <- <-. simpl. auto. }
  2: { injection H as <- <-. simpl. done. }
  destruct (build_block_continues _ _ _ _ _ _ _ _ _ Hb He Hnb) as [-> He'].
  pose proof (seal_sealed _ _ _ _ _ _ _ _ Hb He) as Hsp.
  assert (Hw : sealed_with ctx p (fb_diff fb)) by (by eexists _, _, _, _, _, _).
  apply build_block_Ok in Hb as ([Hs _] & Hc & Hle & _ & _ & -> & _).
  apply publish_phase_spec in H as (Hi & Hd & H). simpl in *. unfold quiet in *. simpl in *.
  destruct r as [[next|]|e|]; [| | |done].
  - destruct H as (-> & Hcell' & Hsent' & Hpub' & Hself'). simpl in *.
    pose proof (cont_txs _ _ _ _ _ Hc) as Hct. pose proof (cont_hash _ _ _ _ _ Hc) as Hch.
    pose proof (seal_txs _ _ _ Hs) as Hst.
    assert (Htxs : mbind (diff_transactions ∘ fb_diff) (fs_published s')
      = tx_encoded_2718 <$> executed_transactions (fs_info s)).
    { rewrite Hpub', Hpub, bind_app. simpl. rewrite app_nil_r, Hcp, Hct, Hextra, Hidx, Hnew.
      by rewrite drop_app_length, fmap_app. }
    split_and!; [|by rewrite Hself'| |by eexists _, _].
    + rewrite <- Hi, <- Hd in He'. split; [done|by rewrite Hi|by rewrite Hi|].
      exists p. rewrite Hst. split_and!; [done|done| |by rewrite Hsent', last_snoc].
      rewrite Hpub', last_snoc. simpl. by rewrite Hch.
    + exists (as_delta ctx fb), p. rewrite Hpub', Hpub, Hsent', Hsent. by split_and!.
  - destruct H as (Hcan & Hq1 & Hq2 & Hq3). split; [unfold quiet; split_and!; congruence|].
    exists (fs_now s). split; [lia|done].
  - destruct H as (Hq1 & Hq2 & Hor). unfold publishes. split_and!; [congruence..|].
    rewrite Hpub in Hor. destruct Hor as [?|[-> ?]]; [by left|right; eauto].
Qed.

(** One flashblock. *)
Lemma build_next_flashblock_trace ctx d0 s r s' :
  coherent ctx d0 s -> no_bundle d0 -> self_ok (fs_self s) ->
  build_next_flashblock w p0 ctx s = Some (r, s') -> publishes ctx d0 s r s'.
Proof using G RL FL PL BL SL.
  intros Hco Hnb Hok H. unfold build_next_flashblock in H.
  assert (Hquiet : forall s1 r1, extends ctx s s1 ->
    r1 = (r, s1) -> (exists e, r = Err e) \/ r = Panic -> publishes ctx d0 s r s1).
  { intros s1 r1 (? & ? & ?)%extends_quiet _ [[e ->]| ->]; simpl; unfold quiet; eauto. }
  apply mbind'_Some in H as [(btxs & s1 & H1 & H)|Hfail].
  2: { destruct Hfail as [(e & H & ->)|[H ->]]; apply builder_phase_spec in H as [H _]; eauto. }
  apply builder_phase_spec in H1 as [Hx1 Hok1]; [|done].
  unfold mget in H. simpl in H. unfold mbind' at 1 2 in H. set (t := reserve_targets _ _ _) in H.
  apply mbind'_Some in H as [([] & s2 & H2 & H)|Hfail].
  2: { destruct Hfail as [(e & H & ->)|[H ->]]; apply pool_phase_spec in H as [H _];
       eapply Hquiet; eauto using extends_trans. }
  apply pool_phase_spec in H2 as [Hx2 Hself2]. pose proof (extends_trans _ _ _ _ Hx1 Hx2) as Hx12.
  unfold block_cancelled in H. unfold mbind' at 1 in H.
  destruct (is_cancelled (w_block_cancel w) (fs_now s2)) eqn:Hcan.
  { injection H as <- <-. simpl. split; [by apply extends_quiet in Hx12|].
    exists (fs_now s2). split; [apply Hx12|done]. }
  assert (Hx2' : extends ctx s (later s2)).
  { eapply extends_trans; [exact Hx12|]. split; simpl; try done. lia. }
  apply mbind'_Some in H as [([] & s3 & H3 & H)|Hfail].
  2: { destruct Hfail as [(e & H & ->)|[H ->]]; apply sidecar_phase_spec in H as [H _];
       eapply Hquiet; eauto using extends_trans. }
  apply sidecar_phase_spec in H3 as [Hx3 Hself3].
  assert (Hok3 : self_ok (fs_self s3)) by (rewrite Hself3; simpl; by rewrite Hself2).
  apply mbind'_Some in H as [(bt & s4 & H4 & H)|Hfail].
  2: { destruct Hfail as [(e & H & ->)|[H ->]];
       destruct (builder_phase_spec _ _ _ _ _ Hok3 H) as [Hx _];
       eapply Hquiet; eauto using extends_trans. }
  destruct (builder_phase_spec _ _ _ _ _ Hok3 H4) as [Hx4 Hok4].
  eapply seal_publish_spec; [done..| |done|by eexists _, _|exact H].
  eauto using extends_trans.
Qed.

(** *** Every phase returns *)

Lemma builder_phase_returns ctx b s : is_Some (builder_phase p0 ctx b s).
Proof.
  unfold builder_phase. destruct (add_builder_txs _ _ _ _ _ _) as [[[r ?] ?] ?]. destruct r; eauto.
Qed.

Lemma pool_phase_returns ctx t s : is_Some (pool_phase w ctx t s).
Proof using G RL FL PL.
  unfold pool_phase.
  set (e0 := mkExec (fs_info s) (fs_db s) _ (fs_limiter s) (Datatypes.S (fs_now s)) []).
  destruct (execute_best_transactions_trace ctx (loop_limits ctx t) (fun _ => True) e0)
    as ([r1 e] & -> & _); [done|]. destruct r1; eauto. destruct (slice_from _ _); eauto.
Qed.

Lemma sidecar_phase_returns ctx t g s :
  0 <= max_retries (w_sidecar_config w) < U32_MOD - 1 -> is_Some (sidecar_phase w ctx t g s).
Proof.
  intros Hmax. unfold sidecar_phase.
  destruct (poll_transactions_returns (w_sidecar_config w)
    (w_sidecar w (fs_now s) (poll_request w ctx t g s)) Hmax) as [[res ps] ->].
  destruct res as [[[|]|]| |]; eauto. destruct (execute_sidecar_transactions _ _ _ _ _) as [? []].
  eauto.
Qed.

Lemma publish_phase_returns ctx t p fb s : is_Some (publish_phase w ctx t p fb s).
Proof.
  unfold publish_phase, mbind', block_cancelled, ws_publish, payload_try_send, set_best_payload, mret.
  repeat case_match; simplify_eq; eauto.
Qed.

(** With a finite retry budget of the sidecar, building a flashblock returns. *)
Lemma build_next_flashblock_total ctx s :
  0 <= max_retries (w_sidecar_config w) < U32_MOD - 1 ->
  is_Some (build_next_flashblock w p0 ctx s).
Proof using G RL FL PL.
  intros Hmax. unfold build_next_flashblock.
  apply bind_returns; [apply builder_phase_returns|]. intros btxs s1.
  do 2 (apply bind_returns; [by eexists|]; intros ? ?).
  apply bind_returns; [apply pool_phase_returns|]. intros [] s4.
  apply bind_returns; [by eexists|]. intros [] s5; [by eexists|].
  apply bind_returns; [by apply sidecar_phase_returns|]. intros [] s6.
  apply bind_returns; [apply builder_phase_returns|]. intros bt s7.
  apply bind_returns; [unfold seal_phase; destruct (build_block _ _ _ _) as [[]]; eauto|].
  intros [p fb] s8. apply publish_phase_returns.
Qed.

End Lemmas.

(** ** A job after its fallback block

    An empty fallback block, the pool and the builder transactions of the other examples, and a
    sidecar that answers at once with one transaction. *)
Import TestState.

Module TestJob.

Abbreviation TestSt := (FbState (H := TestChain.chain) TestPool.pool_iter TestSigner.canned).

Definition job_world (sends : bool) : World TestPool.pool_iter :=
  mkWorld (fun _ _ => TestPool.mkIter sample_pool []) (fun _ _ => true) (fun _ _ => sends)
    (mkSidecarConfig "http://localhost:8082" 200 5) (fun _ _ => holding_sidecar 1) never_cancelled.

Definition job_ctx (i : Z) : FbCtx :=
  sample_ctx false [] never_cancelled
    (mkFbCtx i 4 (i * 1000000) (Some (i * 5000)) None 1000000 (Some 5000) None false).

Definition job_header : Header :=
  make_header (X := TestChain.chain) (job_ctx 0) (with_capacity default_fb_info) 0 0 0 None None None
    None [].
Definition job_payload : OpBuiltPayload :=
  make_payload (X := TestChain.chain) (job_ctx 0) (with_capacity default_fb_info) job_header.
Definition job_flashblock : OpFlashblockPayload :=
  mkFlashblock 77 0 None (mkDelta 0 0 0 0 (p_hash job_payload) [] [] 0 None) (mkMetadata ∅ ∅ 42).

Definition job_state : TestSt :=
  mkFb (H := TestChain.chain) (with_capacity default_fb_info) [] (new_best (TestPool.mkIter [] []))
    (new_limiter (mkGasLimiterArgs false 0 0 0)) (TestSigner.sample_builder_txs) 0 (Some job_payload)
    [job_payload] [job_flashblock].

End TestJob.

Import TestChain TestPool TestSigner TestJob.

Lemma job_coherent : coherent (job_ctx 1) ([] : @db chain) job_state.
Proof.
  split; [apply executes_initial|done|done|]. exists job_payload. split_and!; reflexivity.
Qed.

Lemma job_self_ok : Forall builder_tx_ok (fs_self job_state : canned).
Proof.
  repeat (apply Forall_cons; split; [vm_compute; repeat split; discriminate || reflexivity|]).
  apply Forall_nil_2.
Qed.

(** ** Properties *)

(** C4: building a flashblock keeps the builder and its subscribers coherent.  When it succeeds,
    exactly one flashblock, with this index and without a base, was published, the flashblocks
    published so far concatenate to the transactions of the block in the best payload, whose hash the
    last of them names, the same payload went to the handler, and the block replays from the state it
    started on.  When the block is cancelled nothing is published, sent or set.  When it fails the best
    payload is as before and nothing was published, unless the payload channel refused the payload
    after the flashblock was out. *)
Theorem build_next_flashblock_spec `{X : Externals} `{B : !BuilderExternals X}
    `{S : !StateExternals X} `{!EvmGas X} `{!ReceiptLaws X} `{!FeeLaws X} `{!StateLaws X}
    {It Self} `{PT : PayloadTransactions It} `{!PayloadTransactionsLaws It}
    `{BT : !BuilderTransactions Self FlashblocksExtraCtx FlashblocksExecutionInfo}
    `{BL : !BuilderTransactionsLaws Self FlashblocksExtraCtx FlashblocksExecutionInfo}
    (w : World It) p0 (ctx : FbCtx) d0 (s s' : FbState It Self) r :
  build_next_flashblock w p0 ctx s = Some (r, s') ->
  coherent ctx d0 s -> no_bundle d0 -> self_ok (fs_self s) ->
  publishes w ctx d0 s r s'.
Proof. intros. by eapply build_next_flashblock_trace. Qed.

Lemma build_next_flashblock_spec_witness :
  exists s' next, build_next_flashblock (X := chain) (job_world true) [] (job_ctx 1) job_state
      = Some (Ok (Some next), s') /\
    coherent (job_ctx 1) ([] : @db chain) s' /\
    (tx_hash <$> executed_transactions (fs_info s')) = [64; 2; 5; 501; 63].
Proof.
  assert (H : (fun r => (is_ok (fst r), tx_hash <$> executed_transactions (fs_info (snd r)))) <$>
    build_next_flashblock (X := chain) (job_world true) [] (job_ctx 1) job_state
    = Some (true, [64; 2; 5; 501; 63])) by (vm_compute; reflexivity).
  destruct (build_next_flashblock (X := chain) (job_world true) [] (job_ctx 1) job_state)
    as [[r s']|] eqn:E; [|discriminate].
  injection H as Hr Htx.
  pose proof (build_next_flashblock_spec (X := chain) (job_world true) [] (job_ctx 1) [] job_state s'
    r E job_coherent I job_self_ok) as Hs.
  destruct r as [[next|]| |]; [|destruct Hs as [_ (n & _ & Hn)]; discriminate|discriminate..].
  destruct Hs as [Hco _]. exists s', next. split; [reflexivity|]. split; [exact Hco|exact Htx].
Defined.

(** When the payload channel refuses a payload, subscribers have already received a flashblock of
    a block that will not be returned: the published flashblocks no longer describe the best
    payload. *)
Theorem refused_payload_diverges `{X : Externals} {It Self} (w : World It) (ctx : FbCtx) t p fb
    (s s' : FbState It Self) :
  publish_phase w ctx t p fb s
    = Some (Err (Message "failed to send built payload to handler"), s') ->
  cell_matches s -> diff_block_hash (fb_diff fb) = p_hash p ->
  (forall q, fs_cell s = Some q -> p_hash q <> p_hash p) ->
  fs_published s' = fs_published s ++ [as_delta ctx fb] /\ fs_cell s' = fs_cell s /\
  ~ cell_matches s'.
Proof.
  intros H (q & Hq & _ & _ & _) Hh Hne.
  unfold publish_phase, mbind', block_cancelled, ws_publish, payload_try_send, set_best_payload,
    mret in H.
  destruct (is_cancelled _ _); [discriminate|]. destruct (w_publish w _ _); [|discriminate].
  destruct (w_try_send w _ _); [discriminate|]. injection H as <-. simpl.
  split_and!; [done..|]. intros (q' & Hq' & _ & Hl & _). simpl in *. rewrite Hq in Hq'.
  injection Hq' as <-. rewrite last_snoc in Hl. simpl in Hl. injection Hl as Hl.
  apply (Hne q); [done|]. congruence.
Qed.

Lemma refused_payload_diverges_witness :
  exists s', publish_phase (job_world false) (job_ctx 1) (mkTargets 0 None None)
      (mkPayload 77 (p_block job_payload) 999 0 [] [])
      (mkFlashblock 77 0 None (mkDelta 0 0 0 0 999 [] [] 0 None) (mkMetadata ∅ ∅ 42)) job_state
      = Some (Err (Message "failed to send built payload to handler"), s') /\
    ~ cell_matches s'.
Proof.
  eexists. split; [reflexivity|].
  eapply (refused_payload_diverges (job_world false) (job_ctx 1) (mkTargets 0 None None)
      (mkPayload 77 (p_block job_payload) 999 0 [] [])
      (mkFlashblock 77 0 None (mkDelta 0 0 0 0 999 [] [] 0 None) (mkMetadata ∅ ∅ 42)) job_state).
  - reflexivity.
  - exists job_payload. split_and!; reflexivity.
  - reflexivity.
  - intros q [= <-]. vm_compute. discriminate.
Defined.

(** From one flashblock to the next the index grows by one, the gas target by exactly the gas per
    batch whatever the builder transactions reserved, so that flashblock [i] has [i] batches of gas,
    while the data availability target is the reserved one plus a batch: what was reserved for
    builder transactions is not given back. *)
Theorem next_targets (ctx : FbCtx) (info : FbInfo) txs :
  let x := extra_ctx ctx in
  let next := next_extra_ctx ctx (reserve_targets ctx info txs) in
  0 <= fx_flashblock_index x < U64_MAX -> 0 <= fx_gas_per_batch x ->
  fx_target_gas_for_batch x = fx_flashblock_index x * fx_gas_per_batch x ->
  (fx_flashblock_index x + 1) * fx_gas_per_batch x < U64_MOD ->
  fx_flashblock_index next = fx_flashblock_index x + 1 /\
  fx_target_gas_for_batch next = fx_flashblock_index next * fx_gas_per_batch next /\
  fx_gas_per_batch next = fx_gas_per_batch x /\
  fx_target_flashblock_count next = fx_target_flashblock_count x /\
  (forall da per, fx_target_da_for_batch x = Some da -> fx_da_per_batch x = Some per ->
     0 <= reserved btx_da_size txs <= da -> 0 <= per -> da + per < U64_MOD ->
     fx_target_da_for_batch next = Some (da + per - reserved btx_da_size txs)).
Proof.
  intros x next Hi Hg Ht Hno. subst next. unfold next_extra_ctx, fb_next. simpl. fold x.
  unfold U64_MAX, U64_MOD in *.
  assert (Hi1 : add64 (fx_flashblock_index x) 1 = fx_flashblock_index x + 1)
    by (apply add64_exact; unfold U64_MOD; lia).
  rewrite Hi1. split_and!; [done| |done..|].
  - rewrite Ht, add64_exact by (unfold U64_MOD; nia). ring.
  - intros da per Hda Hper Hres Hp Hsum. rewrite Hda, Hper. simpl. f_equal.
    unfold saturating_sub. rewrite Z.max_r by lia. rewrite add64_exact by (unfold U64_MOD; lia). lia.
Qed.

Lemma next_targets_witness :
  fx_target_gas_for_batch
    (next_extra_ctx (job_ctx 2)
       (reserve_targets (job_ctx 2) (with_capacity default_fb_info) sample_builder_txs)) = 3000000 /\
  fx_target_da_for_batch
    (next_extra_ctx (job_ctx 2)
       (reserve_targets (job_ctx 2) (with_capacity default_fb_info) sample_builder_txs)) = Some 14700.
Proof.
  destruct (next_targets (job_ctx 2) (with_capacity default_fb_info) sample_builder_txs)
    as (Hi & Hg & Hp & _ & Hd).
  - vm_compute. split; discriminate || reflexivity.
  - vm_compute. discriminate.
  - reflexivity.
  - reflexivity.
  - split; [rewrite Hg, Hi; reflexivity|]. apply (Hd 10000 5000).
    + reflexivity.
    + reflexivity.
    + vm_compute. split; discriminate.
    + vm_compute. discriminate.
    + reflexivity.
Defined.

(** The gas limit in the poll request is not what is left of the flashblock: it exceeds it by the
    gas the block had used before the pool's transactions, since only the pool's gas is subtracted
    from the cumulative target. *)
Theorem poll_gas_overstated `{X : Externals} `{S : !StateExternals X} {It Self} (w : World It)
    (ctx : FbCtx) t gas_before (s : FbState It Self) :
  0 <= gas_before <= cumulative_gas_used (fs_info s) ->
  cumulative_gas_used (fs_info s) <= tg_gas t ->
  req_gas_limit (poll_request w ctx t gas_before s)
    = (tg_gas t - cumulative_gas_used (fs_info s)) + gas_before.
Proof. intros Hb Hc. simpl. unfold saturating_sub. lia. Qed.

(** In the second flashblock, with 21000 gas already used by the first and none by the pool. *)
Lemma poll_gas_overstated_witness :
  req_gas_limit (poll_request (job_world true) (job_ctx 2) (mkTargets 2000000 None None) 21000
    (with_exec job_state (push_executed (with_capacity default_fb_info) 21000 0 0
       (RLegacy (mkReceipt true 21000 [])) (sample_tx 1 7 0 [])) ([] : @db chain)))
  = (2000000 - 21000) + 21000.
Proof.
  apply (poll_gas_overstated (job_world true) (job_ctx 2) (mkTargets 2000000 None None) 21000
    (with_exec job_state (push_executed (with_capacity default_fb_info) 21000 0 0
       (RLegacy (mkReceipt true 21000 [])) (sample_tx 1 7 0 [])) ([] : @db chain))); simpl; lia.
Defined.
