(* ===== verification/BuildPayload.v ===== *)
(** * Building the payload of a job

    Models [OpPayloadBuilder::get_op_payload_builder_ctx] and [build_payload] of
    [builders/flashblocks/payload.rs]: the fallback block, the derivation of the batches, the timer
    task that signals when a flashblock is due, and the loop that builds one per signal. *)

From S2P Require Import Prelude External ExecInfo GasLimiter PoolTx BestTxs Sidecar Context Replay Sequencer BestExec SidecarExec BuilderTx FlashblocksCtx Timing BuildBlock Flashblocks.

(** [ConfigureEvm::next_evm_env] and [StateProviderFactory::state_by_block_hash]; numbers are
    errors. *)
Class JobExternals (X : Externals) : Type := {
  next_evm_env : SealedHeader -> OpNextBlockEnvAttributes -> Z + EvmEnv;
  state_by_block_hash : B256 -> Z + db;
}.

(** The state of the parent, with the pre-execution changes applied, has no bundle. *)
Class JobLaws (X : Externals) `{!StateExternals X} `{!StateLaws X} `{!JobExternals X} : Prop :=
  fresh_no_bundle h d hd a d1 :
    state_by_block_hash h = inr d -> apply_pre_execution_changes d hd a = inr d1 -> no_bundle d1.

(** ** The timer task *)

(** What the task waits for, and what it does: it cancels the token of the current flashblock, sends
    a token, or drops the channel.  Tokens are numbered in the order they are created; the first is
    created by [build_payload] itself. *)
Inductive TimerEvent : Type := Tick | Deadline | BlockCancelled.
Inductive TimerAction : Type :=
| CancelToken (i : nat)
| SendToken (i : nat)
| DropChannel.

(** The loop of the task, with the current token [cur] and the next number [next]. *)
Fixpoint timer_loop (cur next : nat) (events : list TimerEvent) : list TimerAction :=
  match events with
  | [] => []
  | Tick :: events' => CancelToken cur :: SendToken next :: timer_loop next (S next) events'
  | Deadline :: _ => [CancelToken cur; SendToken next]
  | BlockCancelled :: _ => [DropChannel]
  end.

Definition timer_task (build_at_interval_end : bool) (events : list TimerEvent) : list TimerAction :=
  (if build_at_interval_end then [] else [SendToken 0]) ++ timer_loop 0 1 events.

(** ** The job *)

(** What a job is started with. *)
Record PayloadConfig : Type := mkPayloadConfig {
  pc_parent : SealedHeader;
  pc_attributes : OpPayloadBuilderAttributes;
}.

Section BuildPayload.
Context `{X : Externals} `{B : !BuilderExternals X} `{S : !StateExternals X} `{J : !JobExternals X}.
Context {It Self : Type} `{PT : PayloadTransactions It}.
Context `{BT : !BuilderTransactions Self FlashblocksExtraCtx FlashblocksExecutionInfo}.
Context (config : FbConfig) (spec : OpChainSpec) (interop : bool) (w : World It).
Abbreviation St := (FbState It Self).

Abbreviation M := (action St PayloadBuilderError).

Definition job_extra_data (pc : PayloadConfig) : outcome PayloadBuilderError Bytes :=
  let ts := attributes_timestamp (pc_attributes pc) in
  if jovian_at spec ts then
    of_sum OtherExtraData
      (get_jovian_extra_data (pc_attributes pc) (base_fee_params_at_timestamp spec ts))
  else if holocene_at spec ts then
    of_sum OtherExtraData
      (get_holocene_extra_data (pc_attributes pc) (base_fee_params_at_timestamp spec ts))
  else Ok [].

Definition get_op_payload_builder_ctx (pc : PayloadConfig) (token : CancellationToken)
    (x : FlashblocksExtraCtx) : outcome PayloadBuilderError FbCtx :=
  let attrs := pc_attributes pc in
  let? extra := job_extra_data pc in
  let env_attributes :=
    mkNextBlockEnv (attributes_timestamp attrs) (suggested_fee_recipient attrs) (prev_randao attrs)
      (unwrap_or (attr_gas_limit attrs) (sh_gas_limit (pc_parent pc)))
      (parent_beacon_block_root attrs) extra in
  let? env := of_sum (OtherExternal "next_evm_env") (next_evm_env (pc_parent pc) env_attributes) in
  Ok (mkCtx (cfg_max_da_tx_size config) (cfg_max_da_block_size config) (cfg_gas_limit config) spec
        (pc_parent pc) attrs env env_attributes token (cfg_builder_signer config) x
        (cfg_max_gas_per_txn config) interop).

(** The extra context of the fallback block. *)
Definition fallback_extra_ctx : outcome PayloadBuilderError FlashblocksExtraCtx :=
  let? n := flashblocks_per_block config in
  Ok (mkFbCtx 0 n 0 None None 0 None None (disable_state_root (cfg_specific config))).

(** The fallback block: the builder transactions unless the pool is off, the sealing, and publishing.
    Here the payload is sent and set before the flashblock is published. *)
Definition fallback_phase (state_provider : db) (ctx : FbCtx) : M unit :=
  do _ <~ (if negb (no_tx_pool (attributes ctx)) then builder_phase state_provider ctx false
           else mret []) then
  do (p, fb) <~ seal_phase ctx then
  do _ <~ payload_try_send w p then
  do _ <~ set_best_payload p then
  if negb (no_tx_pool (attributes ctx)) then ws_publish w fb else mret tt.

(** The number of flashblocks, when the first is due and the deadline. *)
Definition derive_timing (clock : SystemTime) (timestamp : Z)
    : outcome PayloadBuilderError FlashblocksTiming :=
  if build_at_interval_end (cfg_specific config) then
    calculate_flashblocks_timing config clock timestamp
  else
    let? (n, offset) := calculate_flashblocks config clock timestamp in
    Ok (mkTiming n offset (cfg_block_time config)).

(** A division that panics by zero. *)
Definition div_panic {E} (a b : Z) : outcome E Z := if b =? 0 then Panic else Ok (a / b).

(** The extra context of the first flashblock after the fallback block. *)
Definition batch_extra_ctx (ctx : FbCtx) (info : FbInfo) (n : Z)
    : outcome PayloadBuilderError FlashblocksExtraCtx :=
  let? gas_per_batch := div_panic (block_gas_limit ctx) n in
  let da_per_batch := (fun da_limit => da_limit / n) <$> max_da_block_size ctx in
  let da_footprint_per_batch := (fun _ => block_gas_limit ctx / n) <$> da_footprint_scalar info in
  Ok (mkFbCtx 1 n gas_per_batch da_per_batch da_footprint_per_batch gas_per_batch da_per_batch
        da_footprint_per_batch (disable_state_root (cfg_specific config))).

(** The loop: one flashblock per token received, until the channel is closed or the target count is
    reached. *)
Fixpoint flashblock_loop (state_provider : db) (ctx : FbCtx) (signals : list CancellationToken)
    : M unit :=
  match signals with
  | [] => mret tt
  | new_fb_cancel :: signals' =>
      let ctx := with_cancel ctx new_fb_cancel in
      if target_flashblock_count ctx <? flashblock_index ctx then mret tt
      else
        do r <~ build_next_flashblock w state_provider ctx then
        match r with
        | Some next => flashblock_loop state_provider (with_extra_ctx ctx next) signals'
        | None => mret tt
        end
  end.

(** The part after the fallback block; [signals] are the tokens the timer task sends. *)
Definition flashblocks_phase (state_provider : db) (pc : PayloadConfig) (clock : SystemTime)
    (fb_cancel : CancellationToken) (signals : list CancellationToken) (ctx : FbCtx)
    : M unit := fun s =>
  match (let? timing := derive_timing clock (timestamp ctx) in
         let? x := batch_extra_ctx ctx (fs_info s) (tm_flashblocks_per_block timing) in
         get_op_payload_builder_ctx pc (child_token (w_block_cancel w) fb_cancel) x) with
  | Err e => Some (Err e, s)
  | Panic => Some (Panic, s)
  | Ok ctx =>
      let best := new_best (w_pool w (fs_now s) (best_transaction_attributes ctx)) in
      flashblock_loop state_provider ctx signals (with_best s best)
  end.

(** [build_payload]: [None] in the second component when the job fails before it has a state. *)
Definition build_payload (pc : PayloadConfig) (clock : SystemTime) (fb_cancel : CancellationToken)
    (signals : list CancellationToken) (self : Self) (limiter : AddressGasLimiter) (now : nat)
    : option (outcome PayloadBuilderError unit * option St) :=
  match (let? x := fallback_extra_ctx in
         let? ctx := get_op_payload_builder_ctx pc (w_block_cancel w) x in
         let? d := of_sum (OtherExternal "state_by_block_hash")
                     (state_by_block_hash (parent_hash ctx)) in
         Ok (ctx, d)) with
  | Err e => Some (Err e, None)
  | Panic => Some (Panic, None)
  | Ok (ctx, d) =>
      let limiter := refresh limiter (block_number ctx) in
      match execute_pre_steps ctx d with
      | (Err e, _) => Some (Err e, None)
      | (Panic, _) => Some (Panic, None)
      | (Ok info, d1) =>
          let best := new_best (w_pool w now (best_transaction_attributes ctx)) in
          let s := mkFb info d1 best limiter self now None [] [] in
          let job :=
            do _ <~ fallback_phase d ctx then
            if no_tx_pool (attributes ctx) then mret tt
            else flashblocks_phase d pc clock fb_cancel signals ctx in
          match job s with
          | Some (r, s') => Some (r, Some s')
          | None => None
          end
      end
  end.

(** ** Specification *)

(** The flashblocks published are numbered from 0. *)
Definition numbered (s : St) : Prop :=
  fb_index <$> fs_published s = Z.of_nat <$> seq 0 (length (fs_published s)).

(** Where the loop is: the flashblocks published are numbered, the next has the number of those, and
    the gas target is that many batches. *)
Record loop_inv (ctx : FbCtx) (d0 : db) (s : St) : Prop := {
  li_coherent : coherent ctx d0 s;
  li_numbered : numbered s;
  li_index : flashblock_index ctx = Z.of_nat (length (fs_published s));
  li_payloads : Forall (sealed_payload ctx d0) (fs_sent s);
  li_count : Z.of_nat (length (fs_published s)) <= target_flashblock_count ctx + 1;
}.

(** The token of the block is not cancelled as long as the job runs. *)
Definition uncancelled : Prop := forall n, is_cancelled (w_block_cancel w) n = false.

End BuildPayload.

(** ** Lemmas *)

Section Lemmas.
Context `{X : Externals} `{B : !BuilderExternals X} `{S : !StateExternals X} `{J : !JobExternals X}.
Context `{G : !EvmGas X} `{RL : !ReceiptLaws X} `{FL : !FeeLaws X} `{F : !FlzLaws X}.
Context `{SL : !StateLaws X} `{JL : !JobLaws X}.
Context {It Self : Type} `{PT : PayloadTransactions It} `{PL : !PayloadTransactionsLaws It}.
Context `{BT : !BuilderTransactions Self FlashblocksExtraCtx FlashblocksExecutionInfo}.
Context `{BL : !BuilderTransactionsLaws Self FlashblocksExtraCtx FlashblocksExecutionInfo}.
Context (config : FbConfig) (spec : OpChainSpec) (interop : bool) (w : World It).
Implicit Type ctx : FbCtx.
Implicit Type s : FbState It Self.

(** Two contexts of the same job differ in the token and the extra context only. *)
Lemma get_ctx_same pc t x t' x' ctx ctx' :
  get_op_payload_builder_ctx config spec interop pc t x = Ok ctx ->
  get_op_payload_builder_ctx config spec interop pc t' x' = Ok ctx' ->
  ctx' = with_extra_ctx (with_cancel ctx t') x'.
Proof.
  unfold get_op_payload_builder_ctx. intros (e & He & H)%bind_Ok (e' & He' & H')%bind_Ok.
  rewrite He in He'. injection He' as <-.
  apply bind_Ok in H as (env & Henv & [= <-]). apply bind_Ok in H' as (env' & Henv' & [= <-]).
  rewrite Henv in Henv'. by injection Henv' as <-.
Qed.

Lemma get_ctx_with pc t x t' x' ctx :
  get_op_payload_builder_ctx config spec interop pc t x = Ok ctx ->
  get_op_payload_builder_ctx config spec interop pc t' x' = Ok (with_extra_ctx (with_cancel ctx t') x').
Proof.
  unfold get_op_payload_builder_ctx. intros (e & He & H)%bind_Ok.
  apply bind_Ok in H as (env & Henv & [= <-]). rewrite He. simpl in *. by rewrite Henv.
Qed.

(** The state root is computed unless the configuration disables it. *)
Lemma calculates_root_job pc t x ctx :
  fallback_extra_ctx config = Ok x -> get_op_payload_builder_ctx config spec interop pc t x = Ok ctx ->
  calculates_root ctx
    = negb (disable_state_root (cfg_specific config)) || no_tx_pool (pc_attributes pc).
Proof.
  unfold fallback_extra_ctx. intros (n & _ & [= <-])%bind_Ok.
  unfold get_op_payload_builder_ctx. by intros (e & _ & (env & _ & [= <-])%bind_Ok)%bind_Ok.
Qed.

Lemma coherent_ext ctx t x d0 s :
  coherent ctx d0 s -> coherent (with_extra_ctx (with_cancel ctx t) x) d0 s.
Proof.
  intros [[Hr Hl] Hi Hp Hc]. split; [|done..]. split; [|done]. by rewrite (replay_ext _ ctx).
Qed.

Lemma payloads_ext ctx t x d0 l :
  fx_disable_state_root x = fx_disable_state_root (extra_ctx ctx) ->
  Forall (sealed_payload (with_extra_ctx (with_cancel ctx t) x) d0) l <->
  Forall (sealed_payload ctx d0) l.
Proof.
  intros Hx. split; intros H; (eapply Forall_impl; [exact H|]); intros q; by apply sealed_payload_ext.
Qed.

Lemma loop_inv_ext ctx t d0 s : loop_inv ctx d0 s -> loop_inv (with_cancel ctx t) d0 s.
Proof.
  intros [Hco Hn Hi Hv Hc]. split; [|done..| |done].
  - by apply (coherent_ext ctx t (extra_ctx ctx)).
  - by apply (payloads_ext ctx t (extra_ctx ctx)).
Qed.

(** The next number continues the numbering. *)
Lemma numbered_snoc s s' fb :
  numbered s -> fs_published s' = fs_published s ++ [fb] ->
  fb_index fb = Z.of_nat (length (fs_published s)) -> numbered s'.
Proof.
  unfold numbered. intros Hn -> Hi. rewrite length_app, fmap_app, Hn. simpl.
  rewrite seq_app, fmap_app. simpl. by rewrite Hi.
Qed.

Lemma publishes_loop_inv ctx d0 s s' next :
  loop_inv ctx d0 s -> flashblock_index ctx <= target_flashblock_count ctx ->
  target_flashblock_count ctx < U64_MAX ->
  publishes w ctx d0 s (Ok (Some next)) s' ->
  loop_inv (with_extra_ctx ctx next) d0 s' /\ self_ok (fs_self s') ∧
  target_flashblock_count (with_extra_ctx ctx next) = target_flashblock_count ctx ∧
  fx_disable_state_root next = fx_disable_state_root (extra_ctx ctx).
Proof.
  intros [Hco Hn Hi Hv Hc] Hle Hmax (Hco' & Hok & (fb & p & Hp & Hfi & _ & Hs & _ & Hvp & _) & (ti & tt' & ->)).
  assert (Hlen : Z.of_nat (length (fs_published s')) = flashblock_index ctx + 1).
  { rewrite Hp, length_app, Nat2Z.inj_add, <- Hi. done. }
  assert (Hnext : add64 (flashblock_index ctx) 1 = flashblock_index ctx + 1)
    by (apply add64_exact; unfold U64_MAX, U64_MOD in *; lia).
  split_and!; [|done..]. split.
  - by apply (coherent_ext ctx (cancel ctx)).
  - apply (numbered_snoc s s' fb Hn Hp). by rewrite Hfi, Hi.
  - unfold flashblock_index in *. simpl. by rewrite Hnext, Hlen.
  - rewrite Hs. apply Forall_app. split.
    + by apply (payloads_ext ctx (cancel ctx)).
    + constructor; [|done]. by apply (sealed_payload_ext ctx (cancel ctx)).
  - rewrite Hlen. unfold target_flashblock_count in *. simpl. lia.
Qed.

(** The loop keeps every payload valid, and what it leaves when it ends well: unless the block is
    cancelled, a flashblock for every signal, up to the target. *)
Lemma flashblock_loop_spec p0 d0 signals ctx s r s' :
  loop_inv ctx d0 s -> self_ok (fs_self s) -> no_bundle d0 ->
  target_flashblock_count ctx < U64_MAX ->
  flashblock_loop w p0 ctx signals s = Some (r, s') ->
  Forall (sealed_payload ctx d0) (fs_sent s') ∧
  (r = Ok tt -> cell_matches s' /\ numbered s' ∧
     Z.of_nat (length (fs_published s')) <= target_flashblock_count ctx + 1 ∧
     (uncancelled w -> Z.of_nat (length (fs_published s'))
        = Z.min (Z.of_nat (length (fs_published s) + length signals))
            (target_flashblock_count ctx + 1))).
Proof using G RL FL PL BL SL.
  intros Hinv Hok Hnb. revert ctx s Hinv Hok.
  induction signals as [|tok signals IH]; intros ctx s Hinv Hok Hmax; cbn [flashblock_loop].
  { intros [= <- <-]. destruct Hinv as [[] ? ? ? ?]. split_and!; [done|]. intros _. split_and!; [done..|].
    intros _. simpl. lia. }
  pose proof (loop_inv_ext ctx tok d0 s Hinv) as Hinv1.
  set (ctx1 := with_cancel ctx tok) in *.
  destruct (Z.ltb_spec (target_flashblock_count ctx1) (flashblock_index ctx1)) as [|Hle].
  { intros [= <- <-]. destruct Hinv as [[] ? Hi ? ?]. split; [done|]. intros _. split_and!; [done..|].
    intros _. unfold ctx1, flashblock_index, target_flashblock_count in *. simpl in *. lia. }
  intros [(next & s1 & H1 & H)|Hfail]%mbind'_Some.
  2: { assert (Hq : fs_sent s' = fs_sent s).
       { destruct Hfail as [(e & H & ->)|[H ->]];
           pose proof (build_next_flashblock_trace w p0 ctx1 d0 s _ s'
             (li_coherent _ _ _ Hinv1) Hnb Hok H) as (_ & Hs & _); exact Hs. }
       rewrite Hq. split; [apply Hinv|]. by destruct Hfail as [(e & _ & ->)|[_ ->]]. }
  pose proof (build_next_flashblock_trace w p0 ctx1 d0 s _ s1 (li_coherent _ _ _ Hinv1) Hnb Hok H1)
    as Hpub.
  destruct next as [next|].
  - destruct (publishes_loop_inv ctx1 d0 s s1 next Hinv1 Hle Hmax Hpub) as (Hinv2 & Hok2 & Ht & Hd).
    destruct (IH _ _ Hinv2 Hok2 ltac:(by rewrite Ht) H) as [Hv Hr]. split.
    + by apply (payloads_ext ctx tok next).
    + rewrite Ht in Hr. intros Hok'. destruct (Hr Hok') as (? & ? & ? & Hcount). split_and!; [done..|].
      intros Hun. rewrite (Hcount Hun). destruct Hpub as (_ & _ & (fb & p & -> & _) & _).
      rewrite length_app. simpl. f_equal. lia.
  - injection H as <- <-. destruct Hpub as [(Hc & Hs & Hp) (n & _ & Hcan)].
    destruct Hinv as [[_ _ _ Hcm] Hn _ Hv Hcnt].
    rewrite Hs. split; [done|]. intros _. unfold cell_matches, numbered in *. rewrite Hc, Hs, Hp.
    split_and!; [done..|]. intros Hun. by rewrite (Hun n) in Hcan.
Qed.

(** The fallback block. *)
Lemma fallback_phase_spec p0 ctx d0 s r s' :
  executes ctx d0 (fs_info s) (fs_db s) -> no_bundle d0 -> self_ok (fs_self s) ->
  last_flashblock_index (extra (fs_info s)) = 0%nat ->
  fs_cell s = None -> fs_sent s = [] -> fs_published s = [] ->
  fallback_phase w p0 ctx s = Some (r, s') ->
  Forall (sealed_payload ctx d0) (fs_sent s') ∧
  (r = Ok tt -> self_ok (fs_self s') /\ exists p, fs_cell s' = Some p /\ fs_sent s' = [p] ∧
     if no_tx_pool (attributes ctx) then fs_published s' = []
     else coherent ctx d0 s' /\ exists fb, fs_published s' = [fb] /\ fb_index fb = 0).
Proof using G RL BL SL.
  intros He Hnb Hok Hidx Hc0 Hs0 Hp0 H. unfold fallback_phase in H.
  apply mbind'_Some in H as [(l & s1 & H1 & H)|Hfail].
  2: { assert (Hq : fs_sent s' = []).
       { destruct (negb (no_tx_pool (attributes ctx))); destruct Hfail as [(e & H & ->)|[H ->]];
           try discriminate; apply builder_phase_spec in H as [[] _]; congruence. }
       rewrite Hq. split; [done|]. by destruct Hfail as [(e & _ & ->)|[_ ->]]. }
  assert (Hx : extends ctx s s1 /\ self_ok (fs_self s1)).
  { destruct (negb (no_tx_pool (attributes ctx))); [by eapply builder_phase_spec|].
    injection H1 as <- <-. split; [apply extends_refl|done]. }
  destruct Hx as [[Hx1 _ Hx3 _ _ Hx6 Hx7 Hx8 _] Hok1]. specialize (Hx1 _ He).
  unfold seal_phase in H. unfold mbind' at 1 in H.
  destruct (build_block ctx (fs_info s1) (fs_db s1) _) as [[rb info'] d'] eqn:Hb.
  destruct rb as [[p fb]|e|]; [|injection H as <- <-; simpl; rewrite Hx7, Hs0; by split..].
  pose proof (seal_sealed _ _ _ _ _ _ _ _ Hb Hx1) as Hvp.
  destruct (build_block_continues _ _ _ _ _ _ _ _ _ Hb Hx1 Hnb) as [-> He'].
  apply build_block_Ok in Hb as ([Hs _] & Hct & Hle & _ & Hi0 & -> & _).
  unfold mbind', payload_try_send, set_best_payload, ws_publish, mret in H. simpl in H.
  destruct (w_try_send w _ p); [|injection H as <- <-; simpl; rewrite Hx7, Hs0; by split].
  destruct (no_tx_pool (attributes ctx)); simpl in H.
  { injection H as <- <-. simpl. rewrite Hx7, Hs0. split; [by constructor|]. intros _.
    split; [done|]. exists p. by rewrite Hx8. }
  destruct (w_publish w _ fb); injection H as <- <-; simpl; rewrite Hx7, Hs0;
    (split; [by constructor|]); [|done]. intros _. split; [done|]. exists p.
  split; [done|]. split; [done|]. rewrite Hx8, Hp0. simpl.
  pose proof (cont_txs _ _ _ _ _ Hct) as Htx. rewrite Hx3, Hidx, drop_0 in Htx.
  split; [|by exists fb].
  assert (Hone : [fb] ≫= diff_transactions ∘ fb_diff
                 = tx_encoded_2718 <$> executed_transactions (fs_info s1)).
  { rewrite bind_singleton. exact Htx. }
  assert (Hpub1 : fs_published s1 = []) by congruence.
  assert (Hsent1 : fs_sent s1 = []) by congruence.
  split; simpl; rewrite ?Hpub1; [done|done|exact Hone|]. exists p. simpl.
  rewrite Hpub1, Hsent1, (seal_txs _ _ _ Hs). split; [done|]. split; [exact Hone|].
  split; [|done]. simpl. by rewrite (cont_hash _ _ _ _ _ Hct).
Qed.

Lemma derive_timing_range clock ts tm :
  wf_config config -> derive_timing config clock ts = Ok tm ->
  0 <= tm_flashblocks_per_block tm < U64_MAX.
Proof.
  intros Hwf. unfold derive_timing. destruct (build_at_interval_end (cfg_specific config)).
  - by apply calculate_flashblocks_timing_range.
  - intros ([n o] & Hn & [= <-])%bind_Ok. by eapply calculate_flashblocks_range.
Qed.

(** The loop runs from the state [s1] that the fallback block leaves, with a fresh iterator, for the
    number of flashblocks the timing asks for. *)
Definition loop_ran clock ts fc signals p0 ctx d0 s1 (r : outcome PayloadBuilderError unit) s : Prop :=
  exists tm t x s2, derive_timing config clock ts = Ok tm ∧
    0 <= tm_flashblocks_per_block tm < U64_MAX ∧
    let ctx2 := with_extra_ctx (with_cancel ctx t) x in
    target_flashblock_count ctx2 = tm_flashblocks_per_block tm ∧
    fx_disable_state_root x = fx_disable_state_root (extra_ctx ctx) ∧
    loop_inv ctx2 d0 s2 ∧ self_ok (fs_self s2) ∧ length (fs_published s2) = 1%nat ∧
    (fs_info s2 = fs_info s1 ∧ fs_published s2 = fs_published s1 ∧ fs_limiter s2 = fs_limiter s1 ∧
     fs_sent s2 = fs_sent s1 ∧
     s2 = with_best s1 (new_best (w_pool w (fs_now s1) (best_transaction_attributes ctx2))) ∧
     t = child_token (w_block_cancel w) fc ∧
     batch_extra_ctx config ctx (fs_info s1) (tm_flashblocks_per_block tm) = Ok x) ∧
    flashblock_loop w p0 ctx2 signals s2 = Some (r, s).

(** The flashblocks after the fallback block. *)
Lemma flashblocks_phase_runs p0 pc clock fc signals x ctx d0 s r s' :
  wf_config config -> fallback_extra_ctx config = Ok x ->
  get_op_payload_builder_ctx config spec interop pc (w_block_cancel w) x = Ok ctx ->
  coherent ctx d0 s -> self_ok (fs_self s) -> Forall (sealed_payload ctx d0) (fs_sent s) ->
  (exists fb, fs_published s = [fb] ∧ fb_index fb = 0) ->
  flashblocks_phase config spec interop w p0 pc clock fc signals ctx s = Some (r, s') ->
  (r <> Ok tt ∧ s' = s) ∨ loop_ran clock (timestamp ctx) fc signals p0 ctx d0 s r s'.
Proof.
  intros Hwf Hx Hctx Hco Hok Hv (fb & Hp & Hfi). unfold flashblocks_phase, loop_ran.
  assert (Hdis : disable_state_root (cfg_specific config) = fx_disable_state_root (extra_ctx ctx)).
  { rewrite (get_ctx_same _ _ _ _ _ _ _ Hctx Hctx). simpl.
    unfold fallback_extra_ctx in Hx. by apply bind_Ok in Hx as (n & _ & [= <-]). }
  destruct (bind (derive_timing _ _ _) _) as [ctx2|e|] eqn:Hb; [|left; by simplify_eq..].
  apply bind_Ok in Hb as (tm & Htm & Hb). apply bind_Ok in Hb as (x2 & Hx2 & Hb).
  pose proof (get_ctx_same _ _ _ _ _ _ _ Hctx Hb) as ->.
  pose proof (derive_timing_range _ _ _ Hwf Htm) as Hn.
  pose proof Hx2 as Hbatch.
  unfold batch_extra_ctx in Hx2. apply bind_Ok in Hx2 as (g & _ & [= <-]).
  set (t := child_token _ _). set (x2 := mkFbCtx 1 _ _ _ _ _ _ _ _) in *. intros H. right.
  match type of H with flashblock_loop _ _ _ _ ?s2 = _ => exists tm, t, x2, s2 end.
  split_and!; [done|lia|lia|done|done| |exact Hok| |done..|exact H].
  2: { simpl. by rewrite Hp. }
  split.
  - apply coherent_ext. destruct Hco. by split.
  - unfold numbered. simpl. rewrite Hp. simpl. by rewrite Hfi.
  - simpl. by rewrite Hp.
  - by apply payloads_ext.
  - simpl. rewrite Hp. simpl. unfold target_flashblock_count. simpl. lia.
Qed.

(** What the loop leaves behind. *)
Lemma loop_ran_spec clock ts fc signals p0 ctx d0 s1 r s :
  loop_ran clock ts fc signals p0 ctx d0 s1 r s -> no_bundle d0 ->
  Forall (sealed_payload ctx d0) (fs_sent s) ∧ (r = Ok tt -> cell_matches s ∧ numbered s).
Proof using G RL FL PL BL SL.
  intros (tm & t & x & s2 & _ & Hn & Ht & Hd & Hinv & Hok & _ & _ & H) Hnb.
  destruct (flashblock_loop_spec _ _ _ _ _ _ _ Hinv Hok Hnb ltac:(rewrite Ht; lia) H) as [Hv Hr].
  split; [by apply (payloads_ext ctx t x)|]. intros E. by destruct (Hr E) as (? & ? & _).
Qed.

(** How many flashblocks a job that ends well has published: the fallback block and one for every
    signal, up to the number the timing asks for. *)
Lemma loop_ran_count clock ts fc signals p0 ctx d0 s1 s :
  loop_ran clock ts fc signals p0 ctx d0 s1 (Ok tt) s -> no_bundle d0 -> uncancelled w ->
  exists tm, derive_timing config clock ts = Ok tm ∧
    Z.of_nat (length (fs_published s))
      = 1 + Z.min (Z.of_nat (length signals)) (tm_flashblocks_per_block tm).
Proof using G RL FL PL BL SL.
  intros (tm & t & x & s2 & Htm & Hn & Ht & _ & Hinv & Hok & Hp & _ & H) Hnb Hun. exists tm. split; [done|].
  destruct (flashblock_loop_spec _ _ _ _ _ _ _ Hinv Hok Hnb ltac:(rewrite Ht; lia) H) as [_ Hr].
  destruct (Hr eq_refl) as (_ & _ & _ & Hc). rewrite (Hc Hun), Hp, Ht. lia.
Qed.

(** *** The cell

    Every payload put into the cell was sent just before: the cell holds the last payload sent. *)
Definition cell_is_last s : Prop := fs_cell s = last (fs_sent s).
Definition keeps_cell {A} (m : action (FbState It Self) PayloadBuilderError A) : Prop :=
  forall s r s', m s = Some (r, s') -> cell_is_last s -> cell_is_last s'.

Lemma keeps_bind {A C} (m : action (FbState It Self) PayloadBuilderError A)
    (k : A -> action (FbState It Self) PayloadBuilderError C) :
  keeps_cell m -> (forall a, keeps_cell (k a)) -> keeps_cell (mbind' m k).
Proof.
  intros Hm Hk s r s' [(a & s1 & H1 & H2)|[(e & H1 & _)|[H1 _]]]%mbind'_Some Hc.
  - eapply Hk; [exact H2|]. by eapply Hm.
  - by eapply Hm.
  - by eapply Hm.
Qed.

Lemma keeps_pure {A} (f : FbState It Self -> outcome PayloadBuilderError A) :
  keeps_cell (fun s => Some (f s, s)).
Proof. by intros s r s' [= _ <-]. Qed.

Lemma keeps_builder p0 ctx b : keeps_cell (builder_phase p0 ctx b).
Proof.
  intros s r s'. unfold builder_phase. destruct (add_builder_txs _ _ _ _ _ _) as [[[r0 ?] ?] ?].
  by destruct r0; intros [= _ <-].
Qed.

Lemma keeps_pool ctx t : keeps_cell (pool_phase w ctx t).
Proof.
  intros s r s'. unfold pool_phase. destruct (execute_best_transactions _ _ _) as [[r1 e]|]; [|done].
  destruct r1; try destruct (slice_from _ _); by intros [= _ <-].
Qed.

Lemma keeps_sidecar ctx t g : keeps_cell (sidecar_phase w ctx t g).
Proof.
  intros s r s'. unfold sidecar_phase.
  destruct (poll_transactions _ _) as [[[[[|]|]| |] ps]|]; try done; try (by intros [= _ <-]).
  destruct (execute_sidecar_transactions _ _ _ _ _) as [? []]. by intros [= _ <-].
Qed.

Lemma keeps_seal ctx : keeps_cell (seal_phase ctx).
Proof.
  intros s r s'. unfold seal_phase. destruct (build_block _ _ _ _) as [[]]. by intros [= _ <-].
Qed.

Lemma keeps_cancelled : keeps_cell (block_cancelled w).
Proof. by intros s r s' [= _ <-]. Qed.

Lemma keeps_publish fb : keeps_cell (ws_publish w fb).
Proof. intros s r s'. unfold ws_publish. by case_match; intros [= _ <-]. Qed.

(** Sending and setting go together. *)
Lemma keeps_send_set {A} p (k : action (FbState It Self) PayloadBuilderError A) :
  keeps_cell k -> keeps_cell (do _ <~ payload_try_send w p then do _ <~ set_best_payload p then k).
Proof.
  intros Hk s r s'. unfold mbind', payload_try_send, set_best_payload.
  destruct (w_try_send w _ p); [|by intros [= _ <-]]. intros H _. eapply Hk; [exact H|].
  unfold cell_is_last. simpl. by rewrite last_snoc.
Qed.

Lemma keeps_build_next p0 ctx : keeps_cell (build_next_flashblock w p0 ctx).
Proof.
  unfold build_next_flashblock.
  apply keeps_bind; [apply keeps_builder|intros btxs].
  do 2 (apply keeps_bind; [apply (keeps_pure (fun s => Ok _))|intros ?]).
  apply keeps_bind; [apply keeps_pool|intros []]. apply keeps_bind; [apply keeps_cancelled|intros []].
  { apply (keeps_pure (fun s => Ok None)). }
  apply keeps_bind; [apply keeps_sidecar|intros []]. apply keeps_bind; [apply keeps_builder|intros ?].
  apply keeps_bind; [apply keeps_seal|intros [p fb]].
  unfold publish_phase. apply keeps_bind; [apply keeps_cancelled|intros []].
  { apply (keeps_pure (fun s => Ok None)). }
  apply keeps_bind; [apply keeps_publish|intros []]. apply keeps_send_set.
  apply (keeps_pure (fun s => Ok _)).
Qed.

Lemma keeps_loop p0 signals ctx : keeps_cell (flashblock_loop w p0 ctx signals).
Proof.
  revert ctx. induction signals as [|tok signals IH]; intros ctx; simpl.
  { apply (keeps_pure (fun s => Ok tt)). }
  case_match; [apply (keeps_pure (fun s => Ok tt))|].
  apply keeps_bind; [apply keeps_build_next|intros [next|]]; [apply IH|apply (keeps_pure (fun s => Ok tt))].
Qed.

Lemma build_payload_cell pc clock fc signals self limiter now r s :
  build_payload config spec interop w pc clock fc signals self limiter now = Some (r, Some s) ->
  cell_is_last s.
Proof.
  unfold build_payload. destruct (bind _ _) as [[ctx d]|e|]; [|done..].
  destruct (execute_pre_steps ctx d) as [[info|e|] d1]; [|done..].
  set (s0 := mkFb _ _ _ _ _ _ _ _ _). destruct (mbind' _ _ s0) as [[r1 s1]|] eqn:H; [|done].
  intros [= <- <-]. revert H. intros H. cut (cell_is_last s0); [|done]. revert H.
  apply keeps_bind; [|intros []].
  - unfold fallback_phase. apply keeps_bind.
    { case_match; [apply keeps_builder|apply (keeps_pure (fun s => Ok []))]. }
    intros ?. apply keeps_bind; [apply keeps_seal|intros [p fb]]. apply keeps_send_set.
    case_match; [apply keeps_publish|apply (keeps_pure (fun s => Ok tt))].
  - case_match; [apply (keeps_pure (fun s => Ok tt))|].
    intros s2 r2 s2'. unfold flashblocks_phase. destruct (bind _ _); [|by intros [= _ <-]..].
    intros Hl Hc. eapply keeps_loop; [exact Hl|]. exact Hc.
Qed.

(** *** The job returns *)

Lemma flashblock_loop_returns p0 signals ctx s :
  0 <= max_retries (w_sidecar_config w) < U32_MOD - 1 ->
  is_Some (flashblock_loop w p0 ctx signals s).
Proof using G RL FL PL.
  intros Hmax. revert ctx s. induction signals as [|tok signals IH]; intros ctx s; simpl; [by eexists|].
  case_match; [by eexists|]. apply bind_returns; [by apply build_next_flashblock_total|].
  intros [next|] s2; [apply IH|by eexists].
Qed.

Lemma fallback_phase_returns p0 ctx s : is_Some (fallback_phase w p0 ctx s).
Proof.
  unfold fallback_phase. apply bind_returns.
  { case_match; [apply builder_phase_returns|by eexists]. }
  intros ? s1. apply bind_returns; [unfold seal_phase; destruct (build_block _ _ _ _) as [[]]; eauto|].
  intros [p fb] s2. apply bind_returns; [unfold payload_try_send; case_match; eauto|]. intros ? s3.
  apply bind_returns; [by eexists|]. intros ? s4. unfold ws_publish. repeat case_match; by eexists.
Qed.

Lemma build_payload_total pc clock fc signals self limiter now :
  0 <= max_retries (w_sidecar_config w) < U32_MOD - 1 ->
  is_Some (build_payload config spec interop w pc clock fc signals self limiter now).
Proof using G RL FL PL.
  intros Hmax. unfold build_payload.
  destruct (bind _ _) as [[ctx d]|e|]; [|by eexists..].
  destruct (execute_pre_steps ctx d) as [[info|e|] d1]; [|by eexists..].
  set (s0 := mkFb _ _ _ _ _ _ _ _ _).
  match goal with |- context [mbind' ?m ?k s0] => assert (Hr : is_Some (mbind' m k s0)) end;
    [|destruct Hr as [[r s] ->]; by eexists].
  apply bind_returns; [apply fallback_phase_returns|]. intros [] s2. case_match; [by eexists|].
  unfold flashblocks_phase. destruct (bind _ _); [by apply flashblock_loop_returns|by eexists..].
Qed.

(** What a job leaves behind. *)
Definition job_post pc clock fc signals self limiter now ctx d d0 (r : outcome PayloadBuilderError unit) s : Prop :=
  Forall (sealed_payload ctx d0) (fs_sent s) ∧
  (r = Ok tt -> exists p, fs_cell s = Some p ∧ sealed_payload ctx d0 p ∧
     if no_tx_pool (pc_attributes pc) then fs_published s = [] ∧ fs_sent s = [p]
     else cell_matches s ∧ numbered s) ∧
  no_bundle d0 ∧
  (r = Ok tt -> no_tx_pool (pc_attributes pc) = false ->
     exists s0 s1, execute_pre_steps ctx d = (Ok (fs_info s0), fs_db s0) ∧ fs_self s0 = self ∧
       s0 = mkFb (fs_info s0) (fs_db s0) (new_best (w_pool w now (best_transaction_attributes ctx)))
              (refresh limiter (block_number ctx)) self now None [] [] ∧ fs_published s0 = [] ∧
       fallback_phase w d ctx s0 = Some (Ok tt, s1) ∧
       loop_ran clock (attributes_timestamp (pc_attributes pc)) fc signals d ctx d0 s1 r s).

Lemma build_payload_trace pc clock fc signals self limiter now r s :
  wf_config config -> self_ok self ->
  build_payload config spec interop w pc clock fc signals self limiter now = Some (r, Some s) ->
  exists x ctx d d0,
    fallback_extra_ctx config = Ok x ∧
    get_op_payload_builder_ctx config spec interop pc (w_block_cancel w) x = Ok ctx ∧
    state_by_block_hash (parent_hash ctx) = inr d ∧
    apply_pre_execution_changes d (parent ctx) (block_env_attributes ctx) = inr d0 ∧
    job_post pc clock fc signals self limiter now ctx d d0 r s.
Proof using G RL FL F PL BL SL JL.
  intros Hwf Hok. unfold build_payload.
  destruct (bind (fallback_extra_ctx _) _) as [[ctx d]|e|] eqn:Hb; [|done..].
  apply bind_Ok in Hb as (x & Hx & Hb). apply bind_Ok in Hb as (ctx' & Hctx & Hb).
  apply bind_Ok in Hb as (d' & Hd & [= -> ->]).
  destruct (state_by_block_hash (parent_hash ctx)) as [|d'] eqn:Hst; [done|]. injection Hd as ->.
  destruct (execute_pre_steps ctx d) as [[info| |] d1] eqn:Hsteps; [|done..].
  pose proof Hsteps as Hseq. unfold execute_pre_steps in Hseq.
  destruct (apply_pre_execution_changes _ _ _) as [|d0] eqn:Hpre; [done|].
  pose proof (execute_sequencer_extra _ _ _ _ _ Hseq) as [Hex _].
  destruct (execute_sequencer_executes _ _ _ _ _ Hseq) as [He _].
  pose proof (fresh_no_bundle _ _ _ _ _ Hst Hpre) as Hnb.
  set (s0 := mkFb _ _ _ _ _ _ _ _ _). destruct (mbind' _ _ s0) as [[r1 s1]|] eqn:H; [|done].
  intros [= -> ->]. exists x, ctx, d, d0. split_and!; [done..|].
  assert (Hattr : attributes ctx = pc_attributes pc).
  { unfold get_op_payload_builder_ctx in Hctx. apply bind_Ok in Hctx as (? & _ & Hc).
    by apply bind_Ok in Hc as (? & _ & [= <-]). }
  apply mbind'_Some in H as [([] & s2 & H1 & H)|Hfail].
  - pose proof H1 as Hfall. apply fallback_phase_spec with (d0 := d0) in H1; [|simpl; by rewrite ?Hex..].
    destruct H1 as [Hv Hr]. destruct (Hr eq_refl) as [Hok2 (p & Hc & Hs & Hif)].
    unfold job_post. rewrite <- Hattr. destruct (no_tx_pool (attributes ctx)).
    + injection H as <- <-. split_and!; [done| |done|done]. intros _. exists p. split_and!; try done.
      rewrite Hs in Hv. by apply Forall_cons in Hv as [? _].
    + destruct Hif as [Hco Hfb]. eapply flashblocks_phase_runs in H as [[Hne ->]|Hran]; [..|done]; try done.
      pose proof (loop_ran_spec _ _ _ _ _ _ _ _ _ _ Hran Hnb) as [Hv' Hr'].
      split_and!; [done| |done|intros _ _; by exists s0, s2]. intros Hr1.
      destruct (Hr' Hr1) as [Hcm Hnum]. pose proof Hcm as (q & Hq & _ & _ & Hl).
      exists q. split_and!; try done. apply last_Some_elem_of in Hl.
      rewrite Forall_forall in Hv'. by apply Hv'.
  - destruct Hfail as [(e & H & ->)|[H ->]];
      (apply fallback_phase_spec with (d0 := d0) in H; [|simpl; by rewrite ?Hex..]);
      by destruct H as [Hv _].
Qed.

End Lemmas.

Lemma timer_loop_sends cur events i :
  SendToken i ∈ timer_loop cur (S cur) events -> (cur < i)%nat.
Proof.
  revert cur. induction events as [|[] events IH]; intros cur; simpl; [set_solver| | |set_solver].
  - rewrite !elem_of_cons. intros [|[[= ->]|H%IH]]; [done|lia|lia].
  - rewrite !elem_of_cons. intros [|[[= ->]|?]]; [done|lia|set_solver].
Qed.

(** Once the loop has sent a token, every older one, its own current one included, is cancelled. *)
Lemma timer_loop_cancels cur events pre i j :
  pre `prefix_of` timer_loop cur (S cur) events -> SendToken j ∈ pre -> (i < j)%nat ->
  i = cur \/ SendToken i ∈ pre -> CancelToken i ∈ pre.
Proof.
  revert cur pre. induction events as [|[] events IH]; intros cur pre; simpl.
  - intros ->%prefix_nil_inv. set_solver.
  - intros [k Hk] Hj Hlt Hi. destruct pre as [|a [|b pre]]; simplify_eq/=; [set_solver|set_solver|].
    apply elem_of_cons. destruct (decide (i = cur)) as [->|Hne]; [by left|right].
    apply elem_of_cons. right.
    rewrite !elem_of_cons in Hj. rewrite !elem_of_cons in Hi.
    assert (Hpre : pre `prefix_of` timer_loop (S cur) (S (S cur)) events) by (by exists k).
    assert (Hin : forall n, SendToken n ∈ pre -> (S cur < n)%nat).
    { intros n Hn. eapply timer_loop_sends. eapply elem_of_prefix; done. }
    destruct Hi as [|[|[[= ->]|Hi]]]; [done|done| |].
    + destruct Hj as [|[[= ->]|Hj]]; [done|lia|]. apply (IH (S cur)); [done..|by left].
    + destruct Hj as [|[[= ->]|Hj]]; [done|apply Hin in Hi; lia|]. apply (IH (S cur)); [done..|by right].
  - intros [k Hk] Hj Hlt Hi. destruct pre as [|a [|b pre]]; simplify_eq/=; [set_solver|set_solver|].
    destruct pre; [|done]. rewrite !elem_of_cons in Hj, Hi |- *.
    destruct Hj as [|[[= ->]|?]]; [done| |set_solver].
    destruct Hi as [->|[|[[= ->]|?]]]; [by left|done|lia|set_solver].
  - intros [k Hk] Hj. destruct pre as [|a [|b pre]]; simplify_eq/=; set_solver.
Qed.

(** ** A job on the small chain *)
Module TestPayload.

#[export] Instance test_job : JobExternals TestChain.chain := {|
  next_evm_env _ a :=
    inr (mkEvmEnv 42 1 (nb_gas_limit a) (nb_suggested_fee_recipient a) (Some 1) false false false);
  state_by_block_hash _ := inr ([] : @db TestChain.chain);
|}.

(** Whether a job ended well, and how many flashblocks it published. *)
Definition job_summary {X : Externals} {It Self}
    (r : option (outcome PayloadBuilderError unit * option (FbState It Self))) : bool * nat :=
  match r with
  | Some (Ok _, Some s) => (true, length (fs_published s))
  | _ => (false, 0%nat)
  end.

End TestPayload.

Import TestChain TestPool TestSigner TestState TestJob TestPayload.

#[export] Instance test_job_laws : JobLaws chain.
Proof. done. Qed.

(** The sample job: a fallback block and one flashblock on a signal of the timer. *)
Lemma sample_job_runs :
  exists s, build_payload (X := chain) (sample_config 0) (sample_spec false) false (job_world true)
      (mkPayloadConfig sample_parent (sample_attributes sample_sequencer_txs))
      (from_secs 1000 + from_millis 100) never_cancelled [never_cancelled]
      sample_builder_txs (new_limiter (mkGasLimiterArgs false 0 0 0)) 0 = Some (Ok tt, Some s) /\
    length (fs_published s) = 2%nat.
Proof.
  assert (H : job_summary
    (build_payload (X := chain) (sample_config 0) (sample_spec false) false (job_world true)
      (mkPayloadConfig sample_parent (sample_attributes sample_sequencer_txs))
      (from_secs 1000 + from_millis 100) never_cancelled [never_cancelled]
      sample_builder_txs (new_limiter (mkGasLimiterArgs false 0 0 0)) 0)
    = (true, 2%nat)) by (vm_compute; reflexivity).
  destruct (build_payload (X := chain) _ _ _ _ _ _ _ _ _ _ _) as [[[[]| |] [s|]]|] eqn:E;
    try discriminate H.
  injection H as Hlen.
  exists s. split; [reflexivity|exact Hlen].
Qed.

(** ** Properties *)

(** C3: a payload job ends with a valid block.  Every payload handed to the payload handler, and the
    best payload, replays from the parent's state (with the pre-execution changes) to its own receipts
    and gas; a job without the transaction pool publishes nothing and sends just one payload;
    otherwise, when the job ends well, the flashblocks published are numbered from 0, concatenate to
    the transactions of the best payload and the last of them names its hash. *)
Theorem build_payload_spec `{X : Externals} `{B : !BuilderExternals X} `{S : !StateExternals X}
    `{J : !JobExternals X} `{!EvmGas X} `{!ReceiptLaws X} `{!FeeLaws X} `{!FlzLaws X}
    `{SL : !StateLaws X} `{!JobLaws X} {It Self} `{PT : PayloadTransactions It}
    `{!PayloadTransactionsLaws It}
    `{BT : !BuilderTransactions Self FlashblocksExtraCtx FlashblocksExecutionInfo}
    `{BL : !BuilderTransactionsLaws Self FlashblocksExtraCtx FlashblocksExecutionInfo}
    config spec interop (w : World It) pc clock fc signals (self : Self) limiter now r s :
  build_payload config spec interop w pc clock fc signals self limiter now = Some (r, Some s) ->
  wf_config config -> self_ok self ->
  exists x ctx d d0,
    get_op_payload_builder_ctx config spec interop pc (w_block_cancel w) x = Ok ctx /\
    state_by_block_hash (parent_hash ctx) = inr d /\
    apply_pre_execution_changes d (parent ctx) (block_env_attributes ctx) = inr d0 /\
    Forall (valid_payload ctx d0) (fs_sent s) /\
    (r = Ok tt -> exists p, fs_cell s = Some p /\ valid_payload ctx d0 p /\
       if no_tx_pool (pc_attributes pc) then fs_published s = [] /\ fs_sent s = [p]
       else cell_matches s /\ numbered s).
Proof.
  intros H Hwf Hok. eapply build_payload_trace in H as (x & ctx & d & d0 & _ & Hc & Hd & Hd0 & Hv & Hr & _); [|done..].
  exists x, ctx, d, d0. split_and!; [done..| |].
  - eapply Forall_impl; [exact Hv|]. apply sealed_valid.
  - intros E. destruct (Hr E) as (p & Hp & Hs & Hrest). exists p. apply sealed_valid in Hs. by split_and!.
Qed.

Lemma build_payload_spec_witness :
  exists s, build_payload (X := chain) (sample_config 0) (sample_spec false) false (job_world true)
      (mkPayloadConfig sample_parent (sample_attributes sample_sequencer_txs))
      (from_secs 1000 + from_millis 100) never_cancelled [never_cancelled]
      sample_builder_txs (new_limiter (mkGasLimiterArgs false 0 0 0)) 0 = Some (Ok tt, Some s) /\
    cell_matches s /\ numbered s /\ length (fs_published s) = 2%nat.
Proof.
  destruct sample_job_runs as (s & E & Hlen).
  destruct (build_payload_spec (X := chain) _ _ _ _ _ _ _ _ _ _ _ _ _ E)
    as (x & ctx & d & d0 & _ & _ & _ & _ & Hp).
  - unfold wf_config. vm_compute. repeat split; discriminate || reflexivity.
  - exact job_self_ok.
  - destruct (Hp eq_refl) as (p & _ & _ & Hcm & Hn). exists s.
    split; [exact E|]. split; [exact Hcm|]. split; [exact Hn|exact Hlen].
Defined.

(** A payload job returns.  The timer has sent finitely many signals and closed its channel, the
    sidecar's retry budget is below the largest [u32], and each iterator of the pool yields finitely many
    transactions, those that arrive while the loop reads it included
    ([BestTxs.PayloadTransactionsLaws]). *)
Theorem build_payload_returns `{X : Externals} `{B : !BuilderExternals X} `{S : !StateExternals X}
    `{J : !JobExternals X} `{!EvmGas X} `{!ReceiptLaws X} `{!FeeLaws X} {It Self}
    `{PT : PayloadTransactions It} `{!PayloadTransactionsLaws It}
    `{BT : !BuilderTransactions Self FlashblocksExtraCtx FlashblocksExecutionInfo}
    config spec interop (w : World It) pc clock fc signals (self : Self) limiter now :
  0 <= max_retries (w_sidecar_config w) < U32_MOD - 1 ->
  exists r s, build_payload config spec interop w pc clock fc signals self limiter now = Some (r, s).
Proof.
  intros Hmax.
  destruct (build_payload_total config spec interop w pc clock fc signals self limiter now Hmax)
    as [[r s] H]. by exists r, s.
Qed.

Lemma build_payload_returns_witness :
  exists r s, build_payload (X := chain) (sample_config 0) (sample_spec false) false (job_world true)
      (mkPayloadConfig sample_parent (sample_attributes sample_sequencer_txs))
      (from_secs 1000 + from_millis 100) never_cancelled [never_cancelled; never_cancelled]
      sample_builder_txs (new_limiter (mkGasLimiterArgs false 0 0 0)) 0 = Some (r, s).
Proof. apply (build_payload_returns (X := chain)). vm_compute. split; [discriminate|reflexivity]. Defined.

(** The timer never leaves two flashblocks running: whenever a token has been sent, every token
    sent before it has been cancelled. *)
Theorem timer_one_live build_at_end events pre i j :
  pre `prefix_of` timer_task build_at_end events ->
  SendToken i ∈ pre -> SendToken j ∈ pre -> (i < j)%nat -> CancelToken i ∈ pre.
Proof.
  unfold timer_task. destruct build_at_end; simpl.
  - intros Hp Hi Hj Hlt. eapply timer_loop_cancels; eauto.
  - intros [k Hk] Hi Hj Hlt. destruct pre as [|a pre]; simplify_eq/=; [set_solver|].
    rewrite elem_of_cons in Hi, Hj |- *. right.
    assert (Hp : pre `prefix_of` timer_loop 0 1 events) by (by exists k).
    destruct Hj as [[= ->]|Hj]; [lia|].
    eapply timer_loop_cancels; [done..|]. destruct Hi as [[= ->]|Hi]; auto.
Qed.

Lemma timer_one_live_witness :
  CancelToken 0 ∈ [SendToken 0; CancelToken 0; SendToken 1; CancelToken 1] /\
  timer_task false [Tick; Tick; Deadline]
    = [SendToken 0; CancelToken 0; SendToken 1; CancelToken 1; SendToken 2; CancelToken 2; SendToken 3].
Proof.
  split; [|reflexivity].
  apply (timer_one_live false [Tick; Tick; Deadline] _ 0 1).
  - by exists [SendToken 2; CancelToken 2; SendToken 3].
  - set_solver.
  - set_solver.
  - lia.
Defined.
