(* ===== verification/Schedule.v ===== *)
(** * The schedule of a job

    When the timer task of [build_payload] ([builders/flashblocks/payload.rs]) fires, and what follows
    for the job it drives: how many signals it sends before it returns, and that a job which is asked
    for in time publishes all of its flashblocks. *)

From S2P Require Import Prelude External ExecInfo GasLimiter PoolTx BestTxs Sidecar Context Replay Sequencer BestExec SidecarExec BuilderTx FlashblocksCtx Timing BuildBlock Flashblocks BuildPayload.

(** ** The clock of the timer task *)

(** Which branches the [select!] of the task takes: the interval fires at the first offset and then
    every [int], the sleep at [deadline] and the token of the block at [cancelled], if at all.  A
    timer is seen when it is due, and of two that are due together either may be taken first.  The
    index is when the interval fires next. *)
Inductive timer_fires (int deadline : Duration) (cancelled : option Duration)
    : Duration -> list TimerEvent -> Prop :=
| fires_tick t events :
    t <= deadline -> (forall c, cancelled = Some c -> t <= c) ->
    timer_fires int deadline cancelled (t + int) events ->
    timer_fires int deadline cancelled t (Tick :: events)
| fires_deadline t :
    deadline <= t -> (forall c, cancelled = Some c -> deadline <= c) ->
    timer_fires int deadline cancelled t [Deadline]
| fires_cancelled t c :
    cancelled = Some c -> c <= t -> c <= deadline ->
    timer_fires int deadline cancelled t [BlockCancelled].





(** ** Lemmas *)


(** The task comes to an end: some sequence of events is the one the timers produce. *)
Lemma timer_fires_ends int deadline t :
  0 < int -> exists events, timer_fires int deadline None t events.
Proof.
  intros Hint. remember (Z.to_nat (deadline - t)) as k eqn:Hk.
  assert (Hle : deadline - t <= Z.of_nat k) by lia. clear Hk. revert t Hle.
  induction k as [|k IH]; intros t Hle.
  - exists [Deadline]. apply fires_deadline; [lia|done].
  - destruct (Z.le_gt_cases deadline t).
    + exists [Deadline]. by apply fires_deadline.
    + destruct (IH (t + int)) as [events Hev]; [lia|].
      exists (Tick :: events). apply fires_tick; [lia|done..].
Qed.




(** ** Properties *)

Import TestChain TestPool TestSigner TestState TestJob TestPayload.



