(* ===== verification/Contents.v ===== *)
(** * What a flashblock holds

    Where the transactions of a flashblock come from and in which order they stand in it: the phases of
    [build_next_flashblock] ([builders/flashblocks/payload.rs]) put together, first for one flashblock,
    then for all that a job publishes.  From this follows what a bundle sent to [eth_sendBundle]
    ([revert_protection.rs]) can rely on. *)

From S2P Require Import Prelude External ExecInfo GasLimiter Bundle PoolTx RevertProtection BestTxs Sidecar Context Replay Sequencer BestExec SidecarExec BuilderTx FlashblocksCtx Timing BuildBlock Flashblocks BuildPayload.

(** ** The parts of a flashblock *)

(** The builder transactions of the top, those of the pool, those of the sidecar, and the builder
    transactions of the bottom. *)
Record Contents : Type := mkContents {
  ct_top : list BuilderTransactionCtx;
  ct_pool : list Included;
  ct_sidecar : list SidecarIncluded;
  ct_bottom : list BuilderTransactionCtx;
}.

Definition builder_txs_of (l : list BuilderTransactionCtx) : list OpTransactionSigned :=
  inner ∘ btx_signed_tx <$> l.
Definition pool_txs_of (l : list Included) : list OpTransactionSigned :=
  (fun i => inner (into_consensus (inc_tx i))) <$> l.

(** The transactions in the order they are executed. *)
Definition contents_txs (c : Contents) : list OpTransactionSigned :=
  builder_txs_of (ct_top c) ++ pool_txs_of (ct_pool c) ++ (inner ∘ si_tx <$> ct_sidecar c) ++
  builder_txs_of (ct_bottom c).

(** A transaction of the pool that may stand in flashblock [n]. *)
Definition in_flashblock_range (n : Z) (t : FBPooledTransaction) : Prop :=
  (forall m, flashblock_number_min t = Some m -> m <= n) /\
  (forall m, flashblock_number_max t = Some m -> n <= m).

Section Contents.
Context `{X : Externals}.
Implicit Type ctx : FbCtx.

(** What the builder checked of a transaction of the pool before including it in flashblock [n]: it is
    within its flashblock range and its block conditions, neither a blob nor a deposit, within the gas
    cap, and successful if it is revert protected. *)
Record pool_policy ctx (n : Z) (i : Included) : Prop := {
  pp_flashblock : in_flashblock_range n (inc_tx i);
  pp_conditional : forall c, tx_conditional (inc_tx i) = Some c ->
    matches_block_attributes c (mkBlockAttr (block_number ctx) (timestamp ctx)) = true;
  pp_blob : is_eip4844 (inner (into_consensus (inc_tx i))) = false;
  pp_deposit : is_deposit (inner (into_consensus (inc_tx i))) = false;
  pp_max_gas : forall m, max_gas_per_txn ctx = Some m -> inc_gas i <= m;
  pp_revert : revert_protected (inc_tx i) = true ->
    rcpt_status (as_receipt (inc_receipt i)) = true;
}.

(** The policy of all the parts; [exts] is what the sidecar answered. *)
Record contents_ok ctx (n : Z) (exts : list ExternalTransaction) (c : Contents) : Prop := {
  co_top : Forall (fun t => btx_is_top_of_block t = true) (ct_top c);
  co_pool : Forall (pool_policy ctx n) (ct_pool c);
  co_external : Forall (fun i => decode_2718 (raw (si_ext i)) = inr (inner (si_tx i)) /\
                                 rcpt_status (as_receipt (si_receipt i)) = true) (ct_sidecar c);
  co_sidecar : si_ext <$> ct_sidecar c `sublist_of` exts;
  co_required : List.filter required exts `sublist_of` si_ext <$> ct_sidecar c;
  co_bottom : Forall (fun t => btx_is_top_of_block t = false) (ct_bottom c);
}.

(** A flashblock message of the job: it names the job and its block, and carries the base of the block
    just when it is the first. *)
Record message_ok ctx (fb : OpFlashblockPayload) : Prop := {
  mo_id : fb_payload_id fb = payload_id ctx;
  mo_number : md_block_number (fb_metadata fb) = block_number ctx;
  mo_base : is_Some (fb_base fb) <-> fb_index fb = 0;
}.

End Contents.

(** ** Lemmas *)

(** What the flashblocks iterator yields is in the range of the current flashblock. *)
Lemma best_yields_in_range {It} `{PT : PayloadTransactions It} `{!PayloadTransactionsLaws It}
    (self : BestFlashblocksTxs It) :
  yields_only (in_flashblock_range (current_flashblock_number self)) self.
Proof.
  intros self1 t self2 Hst (s1 & it & Hp & _ & _ & Ha)%best_next_trace. simpl in *.
  destruct (Ha t eq_refl) as (_ & Hmin & Hmax).
  destruct (passes_over_keeps _ _ Hp) as [Hn _]. rewrite Hn in *.
  assert (Hc : current_flashblock_number self1 = current_flashblock_number self).
  { clear -Hst PayloadTransactionsLaws0. induction Hst as [|a b c Hs _ IH]; [done|]. rewrite IH.
    destruct Hs as [i r i' H|]; [|done]. simpl in H.
    apply best_next_trace in H as (s2 & it2 & Hp2 & Heq & _). simpl in Heq. rewrite Heq. simpl.
    by destruct (passes_over_keeps _ _ Hp2). }
  rewrite Hc in *. by split.
Qed.

Section Lemmas.
Context `{X : Externals} `{B : !BuilderExternals X} `{S : !StateExternals X}.
Context {It Self : Type} `{PT : PayloadTransactions It}.
Context `{BT : !BuilderTransactions Self FlashblocksExtraCtx FlashblocksExecutionInfo}.
Context (w : World It) (p0 : db).
Implicit Type ctx : FbCtx.
Implicit Type s : FbState It Self.

(** *** What the phases add

    Each phase is a function, so that the states between the phases are determined, and what a phase adds
    is determined by the states before and after it. *)

(** The pool loop as [pool_phase] starts it, and what it picks. *)
Definition pool_start ctx s : ExecState FlashblocksExecutionInfo (BestFlashblocksTxs It) :=
  mkExec (fs_info s) (fs_db s)
    (refresh_iterator (fs_best s) (w_pool w (fs_now s) (best_transaction_attributes ctx))
       (flashblock_index ctx)) (fs_limiter s) (Datatypes.S (fs_now s)) [].
Definition pool_adds ctx (t : Targets) s (l : list Included) s' : Prop :=
  exists r e, picks ctx (loop_limits ctx t) (pool_start ctx s) l (Ok r, e) /\
    fs_info s' = st_info e /\ fs_db s' = st_db e /\ fs_limiter s' = st_limiter e.

(** What the sidecar answers to the request of a flashblock; nothing when it is not asked, holds for
    too long or fails. *)
Definition sidecar_answer ctx (t : Targets) (gas_before : Z) s : list ExternalTransaction :=
  match poll_transactions (w_sidecar_config w)
          (w_sidecar w (fs_now s) (poll_request w ctx t gas_before s)) with
  | Some (Ok (Some exts), _) => exts
  | _ => []
  end.
Definition sidecar_adds ctx (t : Targets) (gas_before : Z) s (l : list SidecarIncluded) s' : Prop :=
  external_inclusions ctx (loop_limits ctx t) (fs_info s) (fs_db s) l (fs_info s') (fs_db s') /\
  si_ext <$> l `sublist_of` sidecar_answer ctx t gas_before s /\
  List.filter required (sidecar_answer ctx t gas_before s) `sublist_of` si_ext <$> l.

(** The states between the phases of one flashblock. *)
Record Phases : Type := mkPhases {
  ph_builder_txs : list BuilderTransactionCtx;
  ph_top : FbState It Self;
  ph_pool : FbState It Self;
  ph_sidecar : FbState It Self;
  ph_bottom : FbState It Self;
}.
Definition ph_targets ctx (ph : Phases) : Targets :=
  reserve_targets ctx (fs_info (ph_top ph)) (ph_builder_txs ph).
Definition ph_gas (ph : Phases) : Z := cumulative_gas_used (fs_info (ph_top ph)).

Record ran ctx s (ph : Phases) s' : Prop := {
  ran_top : builder_phase p0 ctx true s = Some (Ok (ph_builder_txs ph), ph_top ph);
  ran_pool : pool_phase w ctx (ph_targets ctx ph) (ph_top ph) = Some (Ok tt, ph_pool ph);
  ran_sidecar : sidecar_phase w ctx (ph_targets ctx ph) (ph_gas ph) (later (ph_pool ph))
    = Some (Ok tt, ph_sidecar ph);
  ran_bottom : exists txs, builder_phase p0 ctx false (ph_sidecar ph) = Some (Ok txs, ph_bottom ph);
  ran_published : exists next,
    mbind' (seal_phase ctx)
      (fun built => publish_phase w ctx (ph_targets ctx ph) (fst built) (snd built)) (ph_bottom ph)
      = Some (Ok (Some next), s');
}.

(** The flashblock built from [s] to [s'] holds [c]: each part is what its phase added. *)
Definition assembled ctx s (c : Contents) s' : Prop :=
  exists ph, ran ctx s ph s' /\
    builder_adds (fs_self s) p0 (fs_info s) ctx (fs_db s) true (ct_top c)
      (fs_info (ph_top ph)) (fs_db (ph_top ph)) /\
    pool_adds ctx (ph_targets ctx ph) (ph_top ph) (ct_pool c) (ph_pool ph) /\
    sidecar_adds ctx (ph_targets ctx ph) (ph_gas ph) (later (ph_pool ph)) (ct_sidecar c)
      (ph_sidecar ph) /\
    builder_adds (fs_self (ph_sidecar ph)) p0 (fs_info (ph_sidecar ph)) ctx (fs_db (ph_sidecar ph)) false
      (ct_bottom c) (fs_info (ph_bottom ph)) (fs_db (ph_bottom ph)) /\
    contents_ok ctx (flashblock_index ctx)
      (sidecar_answer ctx (ph_targets ctx ph) (ph_gas ph) (later (ph_pool ph))) c /\
    executed_transactions (fs_info s') = executed_transactions (fs_info s) ++ contents_txs c.

(** The flashblocks of the loop with what they hold, one after the other. *)
Inductive loop_holds : FbCtx -> list CancellationToken -> FbState It Self ->
    list (OpFlashblockPayload * Contents) -> FbState It Self -> Prop :=
| loop_holds_end ctx signals s s' :
    flashblock_loop w p0 ctx signals s = Some (Ok tt, s') -> fs_published s' = fs_published s ->
    loop_holds ctx signals s [] s'
| loop_holds_next ctx tok signals s next s1 fb c ks s' :
    build_next_flashblock w p0 (with_cancel ctx tok) s = Some (Ok (Some next), s1) ->
    fs_published s1 = fs_published s ++ [fb] -> assembled (with_cancel ctx tok) s c s1 ->
    loop_holds (with_extra_ctx (with_cancel ctx tok) next) signals s1 ks s' ->
    loop_holds ctx (tok :: signals) s ((fb, c) :: ks) s'.

(** A published flashblock of the job: its transactions are those of its parts, and those of the pool
    satisfy the policy of its index. *)
Definition described ctx (k : OpFlashblockPayload * Contents) : Prop :=
  diff_transactions (fb_diff (fst k)) = tx_encoded_2718 <$> contents_txs (snd k) /\
  message_ok ctx (fst k) /\ Forall (pool_policy ctx (fb_index (fst k))) (ct_pool (snd k)).

(** *** Lemmas about the phases *)

Context `{G : !EvmGas X} `{RL : !ReceiptLaws X} `{FL : !FeeLaws X}.
Context `{PL : !PayloadTransactionsLaws It}.
Context `{BL : !BuilderTransactionsLaws Self FlashblocksExtraCtx FlashblocksExecutionInfo}.

Lemma builder_phase_contents ctx top s r s' :
  self_ok (fs_self s) -> builder_phase p0 ctx top s = Some (r, s') ->
  exists l rs, builder_adds (fs_self s) p0 (fs_info s) ctx (fs_db s) top l (fs_info s') (fs_db s') /\
    executed_transactions (fs_info s') = executed_transactions (fs_info s) ++ builder_txs_of l /\
    receipts (fs_info s') = receipts (fs_info s) ++ rs /\ length rs = length l /\
    Forall (fun r => rcpt_status (as_receipt r) = true) rs /\
    Forall (fun t => btx_is_top_of_block t = top) l /\ fs_limiter s' = fs_limiter s.
Proof using G RL BL.
  intros Hok. unfold builder_phase.
  destruct (add_builder_txs _ _ _ _ _ _) as [[[r0 self0] info1] d2] eqn:Hs.
  destruct (add_builder_txs_trace _ _ _ _ _ _ _ _ _ _ Hok Hs) as (_ & l & Ha & Hl & _).
  destruct (builder_lists _ _ _ _ _ _ _ Hl) as (Ht & (rs & ? & ? & ?) & _ & _ & _ & _ & Htop).
  destruct r0; intros [= <- <-]; by exists l, rs.
Qed.

Lemma admits_policy ctx lim (info : FbInfo) d i d' :
  admits ctx lim (in_flashblock_range (flashblock_index ctx)) info d i d' ->
  pool_policy ctx (flashblock_index ctx) i.
Proof. intros []. split; try done. intros Hp. rewrite adm_status. auto. Qed.

Lemma pool_phase_contents ctx t s s' :
  pool_phase w ctx t s = Some (Ok tt, s') ->
  exists l, pool_adds ctx t s l s' /\
    executed_transactions (fs_info s') = executed_transactions (fs_info s) ++ pool_txs_of l /\
    receipts (fs_info s') = receipts (fs_info s) ++ (inc_receipt <$> l) /\
    Forall (pool_policy ctx (flashblock_index ctx)) l /\
    charged (fs_limiter s) l (fs_limiter s').
Proof using G RL FL PL.
  unfold pool_phase. fold (pool_start ctx s).
  destruct (execute_best_transactions_charges ctx (loop_limits ctx t)
    (in_flashblock_range (flashblock_index ctx)) (pool_start ctx s)) as ([r1 e] & -> & (l & Hp & Hl & Hch) & _).
  { apply best_yields_in_range. }
  simpl in *. destruct (inclusions_app_lists _ _ _ _ _ _ _ _ Hl) as (Ht & _ & Hr & _).
  assert (Hpol : Forall (pool_policy ctx (flashblock_index ctx)) l).
  { eapply Forall_impl; [by eapply inclusions_Forall|].
    intros i (info1 & d1 & d2 & Ha). by eapply admits_policy. }
  destruct r1 as [r1| |]; [|done..]. destruct (slice_from _ _); [|done..]. intros [= <-].
  exists l. split_and!; try done. by exists r1, e.
Qed.

Lemma sidecar_phase_contents ctx t g s s' :
  sidecar_phase w ctx t g s = Some (Ok tt, s') ->
  exists l, sidecar_adds ctx t g s l s' /\
    executed_transactions (fs_info s') = executed_transactions (fs_info s) ++ (inner ∘ si_tx <$> l) /\
    receipts (fs_info s') = receipts (fs_info s) ++ (si_receipt <$> l) /\
    Forall (fun i => decode_2718 (raw (si_ext i)) = inr (inner (si_tx i)) /\
                     rcpt_status (as_receipt (si_receipt i)) = true) l /\
    fs_limiter s' = fs_limiter s.
Proof using G RL.
  unfold sidecar_phase, sidecar_adds, sidecar_answer.
  destruct (poll_transactions _ _) as [[res ps]|] eqn:Hp; [|done].
  destruct res as [[[|x exts]|]| |]; try done; try (intros [= <-]; exists [];
    rewrite !app_nil_r; split_and!; [constructor|done..]).
  destruct (execute_sidecar_transactions _ _ _ _ _) as [r1 [info d]] eqn:E. intros [= -> <-].
  pose proof (execute_sidecar_transactions_trace ctx (loop_limits ctx t) _ _ _ _ _ E)
    as (l & Hl & Hsub & Hreq). simpl in *.
  destruct (external_lists _ _ _ _ _ _ _ Hl) as (Ht & _ & Hr & _ & _ & _ & _ & Hst).
  exists l. split_and!; try done. apply Forall_and. split; [|done].
  clear -Hl. induction Hl as [|l info1 d1 i d2 _ IH []]; [done|]. apply Forall_app. auto.
Qed.

(** Sealing and publishing add no transaction. *)
Lemma seal_publish_contents ctx t s next s' :
  mbind' (seal_phase ctx) (fun built => publish_phase w ctx t (fst built) (snd built)) s
    = Some (Ok (Some next), s') ->
  executed_transactions (fs_info s') = executed_transactions (fs_info s) /\
  receipts (fs_info s') = receipts (fs_info s) /\ fs_limiter s' = fs_limiter s /\
  exists fb, fs_published s' = fs_published s ++ [fb] /\ fb_payload_id fb = payload_id ctx /\
    md_block_number (fb_metadata fb) = block_number ctx /\ fb_base fb = None.
Proof.
  unfold mbind' at 1, seal_phase.
  destruct (build_block ctx (fs_info s) (fs_db s) _) as [[[[p fb]|e|] info'] d'] eqn:Hb; [|done..].
  apply build_block_Ok in Hb as ([_ Hnum] & Hct & _ & _ & _ & -> & _).
  unfold publish_phase, mbind', block_cancelled, ws_publish, payload_try_send, set_best_payload, mret.
  intros H. repeat (case_match; simplify_eq/=). split_and!; [done..|]. exists (as_delta ctx fb).
  destruct Hct. split_and!; [done..| |done]. simpl. congruence.
Qed.

(** The receipts of a flashblock: those of its parts, in order. *)
Definition contents_receipts (c : Contents) (rs : list OpReceipt) : Prop :=
  exists rt rb, rs = rt ++ (inc_receipt <$> ct_pool c) ++ (si_receipt <$> ct_sidecar c) ++ rb /\
    length rt = length (ct_top c) /\ length rb = length (ct_bottom c) /\
    Forall (fun r => rcpt_status (as_receipt r) = true) (rt ++ rb).

Lemma build_next_ran ctx s next s' :
  build_next_flashblock w p0 ctx s = Some (Ok (Some next), s') -> exists ph, ran ctx s ph s'.
Proof.
  unfold build_next_flashblock. intros H.
  apply mbind'_Some in H as [(btxs & s1 & H1 & H)|[(? & _ & [=])|[_ [=]]]].
  unfold mget in H. simpl in H. unfold mbind' at 1 2 in H. set (t := reserve_targets _ _ _) in H.
  apply mbind'_Some in H as [([] & s2 & H2 & H)|[(? & _ & [=])|[_ [=]]]].
  unfold block_cancelled in H. unfold mbind' at 1 in H.
  destruct (is_cancelled (w_block_cancel w) (fs_now s2)); [done|].
  apply mbind'_Some in H as [([] & s3 & H3 & H)|[(? & _ & [=])|[_ [=]]]].
  apply mbind'_Some in H as [(bt & s4 & H4 & H)|[(? & _ & [=])|[_ [=]]]].
  exists (mkPhases btxs s1 s2 s3 s4). split; try done; by eexists.
Qed.

Lemma build_next_contents ctx s next s' :
  self_ok (fs_self s) -> build_next_flashblock w p0 ctx s = Some (Ok (Some next), s') ->
  exists c rs, assembled ctx s c s' /\
    receipts (fs_info s') = receipts (fs_info s) ++ rs /\ contents_receipts c rs /\
    charged (fs_limiter s) (ct_pool c) (fs_limiter s') /\
    exists fb, fs_published s' = fs_published s ++ [fb] /\ fb_payload_id fb = payload_id ctx /\
      md_block_number (fb_metadata fb) = block_number ctx /\ fb_base fb = None.
Proof using G RL FL PL BL.
  intros Hok [ph Hran]%build_next_ran. pose proof Hran as [H1 H2 H3 [bt H4] [nx H5]].
  destruct (builder_phase_spec _ _ _ _ _ _ Hok H1) as [Hx1 Hok1].
  apply builder_phase_contents in H1 as (top & rt & Ha1 & Ht1 & Hr1 & Hl1 & Hs1 & Htop & Hg1); [|done].
  pose proof (pool_phase_spec _ _ _ _ _ _ H2) as [Hx2 Hself2].
  apply pool_phase_contents in H2 as (pool & Ha2 & Ht2 & Hr2 & Hpool & Hg2).
  pose proof (sidecar_phase_spec _ _ _ _ _ _ _ H3) as [Hx3 Hself3].
  apply sidecar_phase_contents in H3 as (side & Ha3 & Ht3 & Hr3 & Hdec & Hg3).
  simpl in Ht3, Hr3, Hself3, Hg3.
  assert (Hok3 : self_ok (fs_self (ph_sidecar ph))) by (by rewrite Hself3, Hself2).
  destruct (builder_phase_spec _ _ _ _ _ _ Hok3 H4) as [Hx4 _].
  apply builder_phase_contents in H4 as (bottom & rb & Ha4 & Ht4 & Hr4 & Hl4 & Hs4 & Hbot & Hg4); [|done].
  apply seal_publish_contents in H5 as (Ht5 & Hr5 & Hg5 & Hfb).
  exists (mkContents top pool side bottom),
    (rt ++ (inc_receipt <$> pool) ++ (si_receipt <$> side) ++ rb). split_and!.
  - exists ph. split_and!; try done; [split; try done; apply Ha3|].
    rewrite Ht5, Ht4, Ht3, Ht2, Ht1. unfold contents_txs. simpl. by rewrite <- !app_assoc.
  - rewrite Hr5, Hr4, Hr3, Hr2, Hr1. by rewrite <- !app_assoc.
  - exists rt, rb. split_and!; [done..|]. apply Forall_app. by split.
  - by rewrite Hg5, Hg4, Hg3, <- Hg1.
  - destruct Hx1, Hx2, Hx3, Hx4. simpl in *. by rewrite ext_published2, ext_published1, ext_published0,
      ext_published in Hfb.
Qed.

(** The policy is the same for all contexts of the job. *)
Lemma described_ext ctx t x k :
  described (with_extra_ctx (with_cancel ctx t) x) k -> described ctx k.
Proof.
  intros (Hd & [] & Hp). split_and!; [done..|]. eapply Forall_impl; [exact Hp|]. intros i []. by split.
Qed.

Context `{SL : !StateLaws X}.

Lemma build_next_described ctx d0 s next s' :
  flashblock_index ctx <> 0 -> coherent ctx d0 s -> no_bundle d0 -> self_ok (fs_self s) ->
  build_next_flashblock w p0 ctx s = Some (Ok (Some next), s') ->
  exists fb c rs, fs_published s' = fs_published s ++ [fb] /\ assembled ctx s c s' /\
    described ctx (fb, c) /\
    receipts (fs_info s') = receipts (fs_info s) ++ rs /\ contents_receipts c rs /\
    charged (fs_limiter s) (ct_pool c) (fs_limiter s').
Proof using G RL FL PL BL SL.
  intros Hne Hco Hnb Hok H.
  destruct (build_next_flashblock_trace _ _ _ _ _ _ _ Hco Hnb Hok H)
    as (Hco' & _ & (fb & p & Hp & Hi & _) & _).
  apply build_next_contents in H as (c & rs & Hass & Hr & Hrs & Hch & fb' & Hp' & Hid & Hnum & Hbase); [|done].
  rewrite Hp in Hp'. apply app_inj_2 in Hp' as [_ [= <-]]; [|done].
  exists fb, c, rs. split_and!; [done..| |done|done|done].
  destruct Hass as (ph & _ & _ & _ & _ & _ & Hok' & Ht). split_and!.
  - pose proof (coh_published _ _ _ Hco') as Hall.
    rewrite Hp, Ht, bind_app, bind_singleton, fmap_app, (coh_published _ _ _ Hco) in Hall.
    by apply app_inv_head in Hall.
  - split; [done..|]. simpl. rewrite Hbase, Hi. split; [by intros []|done].
  - simpl. rewrite Hi. apply Hok'.
Qed.

Lemma flashblock_loop_described d0 signals ctx s s' :
  loop_inv ctx d0 s -> fs_published s <> [] -> self_ok (fs_self s) -> no_bundle d0 ->
  target_flashblock_count ctx < U64_MAX ->
  flashblock_loop w p0 ctx signals s = Some (Ok tt, s') ->
  exists ks l, loop_holds ctx signals s ks s' /\ fs_published s' = fs_published s ++ (fst <$> ks) /\
    Forall (described ctx) ks /\ charged (fs_limiter s) (mbind (ct_pool ∘ snd) ks) l.
Proof using G RL FL PL BL SL.
  intros Hinv Hpne Hok Hnb. revert ctx s Hinv Hpne Hok.
  assert (Hnone : forall ctx signals s s', flashblock_loop w p0 ctx signals s = Some (Ok tt, s') ->
    fs_published s' = fs_published s ->
    exists ks l, loop_holds ctx signals s ks s' /\ fs_published s' = fs_published s ++ (fst <$> ks) /\
      Forall (described ctx) ks /\ charged (fs_limiter s) (mbind (ct_pool ∘ snd) ks) l).
  { intros ctx sg s1 s1' Hl Hp. exists [], (fs_limiter s1). rewrite app_nil_r.
    split_and!; [by constructor|done..|]. apply charged_refl. }
  induction signals as [|tok signals IH]; intros ctx s Hinv Hpne Hok Hmax Hrun.
  { apply Hnone; [done|]. by injection Hrun as <-. }
  pose proof Hrun as Hrun'. cbn [flashblock_loop] in Hrun'.
  pose proof (loop_inv_ext ctx tok d0 s Hinv) as Hinv1. set (ctx1 := with_cancel ctx tok) in *.
  destruct (Z.ltb_spec (target_flashblock_count ctx1) (flashblock_index ctx1)) as [|Hle].
  { apply Hnone; [done|]. by injection Hrun' as <-. }
  apply mbind'_Some in Hrun' as [(next & s1 & H1 & H)|[(? & _ & [=])|[_ [=]]]].
  pose proof (build_next_flashblock_trace w p0 ctx1 d0 s _ s1 (li_coherent _ _ _ Hinv1) Hnb Hok H1) as Hpub.
  destruct next as [next|].
  - assert (Hidx : flashblock_index ctx1 <> 0).
    { rewrite (li_index _ _ _ Hinv1). destruct (fs_published s); [done|simpl; lia]. }
    destruct (build_next_described _ _ _ _ _ Hidx (li_coherent _ _ _ Hinv1) Hnb Hok H1)
      as (fb & c & rs & Hp & Hass & Hd & _ & _ & Hch).
    destruct (publishes_loop_inv w ctx1 d0 s s1 next Hinv1 Hle Hmax Hpub) as (Hinv2 & Hok2 & Ht & _).
    destruct (IH _ _ Hinv2 ltac:(rewrite Hp; by destruct (fs_published s)) Hok2 ltac:(by rewrite Ht) H)
      as (ks & l & Hks & Hps & Hds & Hchs).
    exists ((fb, c) :: ks), l. split_and!.
    + by eapply loop_holds_next.
    + by rewrite Hps, Hp, <- app_assoc.
    + constructor; [by apply (described_ext ctx tok (extra_ctx ctx))|].
      eapply Forall_impl; [exact Hds|]. intros k. apply described_ext.
    + rewrite bind_cons. by eapply charged_app.
  - injection H as <-. destruct Hpub as [(_ & _ & Hp) _]. by apply Hnone.
Qed.

(** The builder transactions of the fallback block. *)
Definition fallback_adds ctx s (l : list BuilderTransactionCtx) : Prop :=
  exists txs s1, builder_phase p0 ctx false s = Some (Ok txs, s1) /\
    builder_adds (fs_self s) p0 (fs_info s) ctx (fs_db s) false l (fs_info s1) (fs_db s1).

Lemma fallback_phase_contents ctx s s' :
  self_ok (fs_self s) -> no_tx_pool (attributes ctx) = false ->
  fallback_phase w p0 ctx s = Some (Ok tt, s') ->
  exists l, fallback_adds ctx s l /\
    executed_transactions (fs_info s') = executed_transactions (fs_info s) ++ builder_txs_of l /\
    fs_limiter s' = fs_limiter s /\
    exists fb, fs_published s' = fs_published s ++ [fb] /\ message_ok ctx fb.
Proof using G RL BL.
  intros Hok Hpool. unfold fallback_phase. rewrite Hpool. simpl.
  intros [(l & s1 & H1 & H)|[(? & _ & [=])|[_ [=]]]]%mbind'_Some.
  destruct (builder_phase_spec _ _ _ _ _ _ Hok H1) as [[_ _ _ _ _ _ _ Hp _] _]. pose proof H1 as Hb1.
  apply builder_phase_contents in H1 as (top & rt & Ha & Ht & _ & _ & _ & Htop & Hg); [|done].
  exists top. rewrite <- Ht, <- Hg, <- Hp. unfold seal_phase in H. unfold mbind' at 1 in H.
  destruct (build_block ctx (fs_info s1) (fs_db s1) _) as [[[[p fb]|e|] info'] d'] eqn:Hb; [|done..].
  apply build_block_Ok in Hb as ([_ Hnum] & Hct & _ & Hbase & Hi & -> & _).
  unfold mbind', payload_try_send, set_best_payload, ws_publish in H. simpl in H.
  destruct (w_try_send w _ p); [|done]. destruct (w_publish w _ fb); simplify_eq/=.
  split_and!; [by exists l, s1|done..|]. exists fb. split; [done|]. destruct Hct. split; [done|congruence|done].
Qed.

(** Concatenating what the flashblocks carry. *)
Lemma described_transactions ctx ks :
  Forall (described ctx) ks ->
  mbind (diff_transactions ∘ fb_diff) (fst <$> ks) = tx_encoded_2718 <$> mbind (contents_txs ∘ snd) ks.
Proof.
  induction 1 as [|[fb c] ks (Hd & _) _ IH]; [done|].
  rewrite fmap_cons, !bind_cons, fmap_app, <- IH. simpl in *. by rewrite Hd.
Qed.

End Lemmas.

(** ** The block of a job *)

Section Job.
Context `{X : Externals} `{B : !BuilderExternals X} `{S : !StateExternals X} `{J : !JobExternals X}.
Context {It Self : Type} `{PT : PayloadTransactions It}.
Context `{BT : !BuilderTransactions Self FlashblocksExtraCtx FlashblocksExecutionInfo}.
Context (config : FbConfig) (spec : OpChainSpec) (interop : bool) (w : World It).

(** The state of a job after the sequencer's transactions. *)
Definition job_start (ctx : FbCtx) (info : FbInfo) (d1 : db) (self : Self) limiter now : FbState It Self :=
  mkFb info d1 (new_best (w_pool w now (best_transaction_attributes ctx)))
    (refresh limiter (block_number ctx)) self now None [] [].

(** A job that ends well, in the state [s], on the parent state [d]: the sequencer's transactions give
    [info], the fallback block adds [bottom] in the context [ctx] and leaves the state [s1], and then the
    loop builds the flashblocks [ks] in contexts that start with [ctx2]. *)
Record job_holds pc clock fc signals (self : Self) limiter now (ctx : FbCtx) (d : db) (info : FbInfo)
    (bottom : list BuilderTransactionCtx) (ks : list (OpFlashblockPayload * Contents))
    (s : FbState It Self) : Prop := {
  jh_ctx : exists x, fallback_extra_ctx config = Ok x /\
    get_op_payload_builder_ctx config spec interop pc (w_block_cancel w) x = Ok ctx;
  jh_state : state_by_block_hash (parent_hash ctx) = inr d;
  jh_run : exists d1 s1 tm x2,
    execute_pre_steps ctx d = (Ok info, d1) /\
    fallback_adds d ctx (job_start ctx info d1 self limiter now) bottom /\
    fallback_phase w d ctx (job_start ctx info d1 self limiter now) = Some (Ok tt, s1) /\
    derive_timing config clock (attributes_timestamp (pc_attributes pc)) = Ok tm /\
    batch_extra_ctx config ctx (fs_info s1) (tm_flashblocks_per_block tm) = Ok x2 /\
    let ctx2 := with_extra_ctx (with_cancel ctx (child_token (w_block_cancel w) fc)) x2 in
    loop_holds w d ctx2 signals
      (with_best s1 (new_best (w_pool w (fs_now s1) (best_transaction_attributes ctx2)))) ks s;
}.

Context `{G : !EvmGas X} `{RL : !ReceiptLaws X} `{FL : !FeeLaws X} `{F : !FlzLaws X}.
Context `{SL : !StateLaws X} `{JL : !JobLaws X} `{PL : !PayloadTransactionsLaws It}.
Context `{BL : !BuilderTransactionsLaws Self FlashblocksExtraCtx FlashblocksExecutionInfo}.

Lemma build_payload_holds pc clock fc signals self limiter now s :
  build_payload config spec interop w pc clock fc signals self limiter now = Some (Ok tt, Some s) ->
  wf_config config -> self_ok self -> no_tx_pool (pc_attributes pc) = false ->
  exists ctx d info bottom ks p,
    job_holds pc clock fc signals self limiter now ctx d info bottom ks s /\ fs_cell s = Some p /\
    tx_encoded_2718 <$> b_transactions (p_block p)
      = tx_encoded_2718 <$> executed_transactions info ++ builder_txs_of bottom ++
          mbind (contents_txs ∘ snd) ks /\
    tail (fs_published s) = fst <$> ks /\ Forall (described ctx) ks /\
    (exists l, charged (refresh limiter (block_number ctx)) (mbind (ct_pool ∘ snd) ks) l) /\
    Forall (message_ok ctx) (fs_published s).
Proof using G RL FL F PL BL SL JL.
  intros H Hwf Hok Hpool.
  apply build_payload_trace in H
    as (x & ctx & d & d0 & Hx & Hctx & Hd & _ & _ & Hr & Hnb & Hrun); [|done..].
  destruct (Hrun eq_refl Hpool) as (s0 & s1 & Hseq & _ & Hs0 & Hp0 & Hfall & Hran).
  destruct Hran as (tm & t & x2 & s2 & Htm & Hn & Ht & _ & Hinv & Hok2 & Hlen
    & (Hi & Hp & Hl2 & _ & Hs2 & -> & Hx2) & Hloop).
  destruct (Hr eq_refl) as (p & Hcell & _ & Hm). rewrite Hpool in Hm.
  destruct Hm as [(q & Hq & Htx & _) _]. rewrite Hcell in Hq. injection Hq as <-.
  assert (Hattr : attributes ctx = pc_attributes pc).
  { unfold get_op_payload_builder_ctx in Hctx. apply bind_Ok in Hctx as (? & _ & Hc).
    by apply bind_Ok in Hc as (? & _ & [= <-]). }
  fold (job_start ctx (fs_info s0) (fs_db s0) self limiter now) in Hs0.
  destruct (fallback_phase_contents w d ctx s0 s1) as (bottom & Hadds & Hbot & Hl1 & fb0 & Hp1 & Hmsg0);
    [by rewrite Hs0|by rewrite Hattr|done|].
  destruct (flashblock_loop_described _ _ _ _ _ _ _ Hinv ltac:(by destruct (fs_published s2)) Hok2 Hnb ltac:(rewrite Ht; lia) Hloop)
    as (ks & l & Hks & Hpub & Hds & Hch).
  assert (Hds' : Forall (described ctx) ks).
  { eapply Forall_impl; [exact Hds|]. intros k. apply described_ext. }
  assert (Htail : tail (fs_published s) = fst <$> ks).
  { rewrite Hpub. destruct (fs_published s2) as [|fb [|]]; [done|done|done]. }
  exists ctx, d, (fs_info s0), bottom, ks, p. split_and!; [|done| |done..| |].
  - split; [by exists x|done|]. exists (fs_db s0), s1, tm, x2. rewrite <- Hs0. split_and!; try done.
    cbv zeta. by rewrite <- Hs2.
  - rewrite <- Htx, Hpub, bind_app, (described_transactions _ _ Hds').
    rewrite (coh_published _ _ _ (li_coherent _ _ _ Hinv)), Hi, Hbot.
    by rewrite !fmap_app, <- app_assoc.
  - exists l. replace (refresh limiter (block_number ctx)) with (fs_limiter s0) by (by rewrite Hs0).
    by rewrite <- Hl1, <- Hl2.
  - rewrite Hpub, Hp, Hp1, Hp0. simpl. constructor; [done|].
    apply Forall_fmap. eapply Forall_impl; [exact Hds'|]. by intros k (_ & ? & _).
Qed.

End Job.

(** ** Bundles *)

(** What a bundle asks for, when [last] was the last block as it was submitted. *)
Record bundle_allows (b : Bundle) (last number timestamp index : Z) : Prop := {
  ba_block_min : forall m, block_number_min b = Some m -> m <= number;
  ba_block_max : number <= unwrap_or (block_number_max b) (last + MAX_BLOCK_RANGE_BLOCKS);
  ba_timestamp_min : forall m, min_timestamp b = Some m -> m <= timestamp;
  ba_timestamp_max : forall m, max_timestamp b = Some m -> timestamp <= m;
  ba_flashblock_min : forall m, bundle_flashblock_number_min b = Some m -> m <= index;
  ba_flashblock_max : forall m, bundle_flashblock_number_max b = Some m -> index <= m;
}.

(** The hashes of a bundle that may revert. *)
Definition may_revert (b : Bundle) (h : B256) : Prop :=
  exists hs, reverting_hashes b = Some hs /\ h ∈ hs.

(** The policy of the builder is what the bundle asked for. *)
Lemma bundle_policy `{X : Externals} `{!ConditionalLaws X} (ctx : FbCtx) b c last t n i :
  0 <= last -> last + MAX_BLOCK_RANGE_BLOCKS < U64_MOD ->
  conditional b last = Ok c -> inc_tx i = bundle_pool_transaction b c t -> pool_policy ctx n i ->
  bundle_allows b last (block_number ctx) (timestamp ctx) n /\
  (rcpt_status (as_receipt (inc_receipt i)) = true \/ may_revert b (tx_hash (inner t))).
Proof.
  intros H0 H1 Hc Hi [[Hmin Hmax] Hcond _ _ _ Hrev]. rewrite Hi in *.
  destruct (conditional_spec b last H0 H1) as [_ Hval].
  destruct (Hval c Hc) as (Htc & Hfmin & Hfmax).
  specialize (Hcond _ eq_refl). rewrite Htc in Hcond.
  apply matches_spec in Hcond as (Hb1 & Hb2 & Ht1 & Ht2). simpl in *. rewrite Hfmin, Hfmax in *.
  split; [by split; auto|]. unfold revert_protected, may_revert in *. simpl in *.
  destruct (reverting_hashes b) as [hs|]; simpl in *; [|left; auto].
  destruct (decide (tx_hash (inner t) ∈ hs)) as [Hin|Hout]; [right; eauto|left; apply Hrev].
  by rewrite bool_decide_eq_false_2.
Qed.

(** ** Properties *)

Import TestChain TestPool TestSigner TestState TestJob TestPayload.

(** A flashblock is the builder's transactions of the top, transactions of the pool, transactions
    of the sidecar's answer and the builder's transactions of the bottom, in this order.  Those of the
    pool are within their flashblock range and block conditions, none is a blob or a deposit or above
    the gas cap, and a revert protected one succeeded; those of the sidecar are among its answer in
    its order, with all the required ones, and succeeded, as did those of the builder.  The receipts
    stand in the same order. *)
Theorem flashblock_contents `{X : Externals} `{B : !BuilderExternals X} `{S : !StateExternals X}
    `{!EvmGas X} `{!ReceiptLaws X} `{!FeeLaws X} {It Self} `{PT : PayloadTransactions It}
    `{!PayloadTransactionsLaws It}
    `{BT : !BuilderTransactions Self FlashblocksExtraCtx FlashblocksExecutionInfo}
    `{BL : !BuilderTransactionsLaws Self FlashblocksExtraCtx FlashblocksExecutionInfo}
    `{SL : !StateLaws X} (w : World It) (p0 d0 : db) (ctx : FbCtx) (s s' : FbState It Self) next :
  build_next_flashblock w p0 ctx s = Some (Ok (Some next), s') ->
  flashblock_index ctx <> 0 -> coherent ctx d0 s -> no_bundle d0 -> self_ok (fs_self s) ->
  exists fb c rs, fs_published s' = fs_published s ++ [fb] /\ assembled w p0 ctx s c s' /\
    described ctx (fb, c) /\
    receipts (fs_info s') = receipts (fs_info s) ++ rs /\ contents_receipts c rs.
Proof.
  intros H Hne Hco Hnb Hok.
  destruct (build_next_described _ _ _ _ _ _ _ Hne Hco Hnb Hok H) as (fb & c & rs & ? & ? & ? & ? & ? & _).
  by exists fb, c, rs.
Qed.

Lemma flashblock_contents_witness :
  exists (s' : TestSt) fb c rs, fs_published s' = fs_published job_state ++ [fb] /\
    described (job_ctx 1) (fb, c) /\
    receipts (fs_info s') = receipts (fs_info job_state) ++ rs /\ contents_receipts c rs /\
    (tx_hash <$> executed_transactions (fs_info s')) = [64; 2; 5; 501; 63].
Proof.
  assert (H : (fun r => (match fst r with Ok (Some _) => true | _ => false end,
                         tx_hash <$> executed_transactions (fs_info (snd r)))) <$>
    build_next_flashblock (X := chain) (job_world true) [] (job_ctx 1) job_state
    = Some (true, [64; 2; 5; 501; 63])) by (vm_compute; reflexivity).
  destruct (build_next_flashblock (X := chain) (job_world true) [] (job_ctx 1) job_state)
    as [[[[next|]| |] s']|] eqn:E; try discriminate H.
  injection H as Htx.
  destruct (flashblock_contents (X := chain) (job_world true) [] [] (job_ctx 1) job_state s' next E
    ltac:(discriminate) job_coherent) as (fb & c & rs & H1 & _ & H2 & H3 & H4); [exact I|exact job_self_ok|].
  exists s', fb, c, rs. split; [exact H1|]. split; [exact H2|]. split; [exact H3|]. split; [exact H4|exact Htx].
Defined.

(** C5: the block of a job that ended well is accounted for.  Its transactions are, in order: those of the
    payload attributes that were valid when their turn came; the builder transactions that the fallback
    block added; and for each flashblock that was published after it, what its phases added, each phase
    run in the state the phase before it left: the builder transactions of the top, what the pool loop
    picked from the pool's iterator of that flashblock, what was included of the sidecar's answer to the
    request of that flashblock, all required transactions among it, and the builder transactions of the
    bottom.  What the pool loop picked is within its flashblock range and block conditions, neither a blob
    nor a deposit, within the gas cap, and successful if it is revert protected. *)
Theorem block_composition `{X : Externals} `{B : !BuilderExternals X} `{S : !StateExternals X}
    `{J : !JobExternals X} `{!EvmGas X} `{!ReceiptLaws X} `{!FeeLaws X} `{!FlzLaws X}
    `{SL : !StateLaws X} `{!JobLaws X} {It Self} `{PT : PayloadTransactions It}
    `{!PayloadTransactionsLaws It}
    `{BT : !BuilderTransactions Self FlashblocksExtraCtx FlashblocksExecutionInfo}
    `{BL : !BuilderTransactionsLaws Self FlashblocksExtraCtx FlashblocksExecutionInfo}
    config spec interop (w : World It) pc clock fc signals (self : Self) limiter now s :
  build_payload config spec interop w pc clock fc signals self limiter now = Some (Ok tt, Some s) ->
  wf_config config -> self_ok self -> no_tx_pool (pc_attributes pc) = false ->
  exists ctx d d0 d1 info bottom ks p,
    job_holds config spec interop w pc clock fc signals self limiter now ctx d info bottom ks s /\
    apply_pre_execution_changes d (parent ctx) (block_env_attributes ctx) = inr d0 /\
    accepted ctx d0 (attr_transactions (pc_attributes pc)) (recovered_of info) d1
      (cumulative_gas_used info) /\
    fs_cell s = Some p /\
    tx_encoded_2718 <$> b_transactions (p_block p)
      = tx_encoded_2718 <$> executed_transactions info ++ builder_txs_of bottom ++
          mbind (contents_txs ∘ snd) ks /\
    tail (fs_published s) = fst <$> ks /\ Forall (described ctx) ks.
Proof.
  intros H Hwf Hok Hpool.
  destruct (build_payload_holds _ _ _ _ _ _ _ _ _ _ _ _ H Hwf Hok Hpool)
    as (ctx & d & info & bottom & ks & p & Hj & ? & ? & ? & ? & _).
  pose proof Hj as [[x [_ Hctx]] _ (d1 & s1 & tm & x2 & Hpre & _)]. unfold execute_pre_steps in Hpre.
  destruct (apply_pre_execution_changes _ _ _) as [|d0] eqn:Hd0; [done|].
  apply execute_sequencer_accepts in Hpre as [_ Hacc].
  unfold get_op_payload_builder_ctx in Hctx.
  apply bind_Ok in Hctx as (? & _ & (? & _ & Heq)%bind_Ok). injection Heq as <-.
  by eexists _, d, d0, d1, info, bottom, ks, p.
Qed.

(** A fallback block, and a flashblock with transactions of the builder, the pool and the sidecar. *)
Lemma block_composition_witness :
  exists s p bottom (ks : list (OpFlashblockPayload * Contents)) (info : FbInfo),
    build_payload (X := chain) (sample_config 0) (sample_spec false) false (job_world true)
      (mkPayloadConfig sample_parent (sample_attributes sample_sequencer_txs))
      (from_secs 1000 + from_millis 100) never_cancelled [never_cancelled]
      sample_builder_txs (new_limiter (mkGasLimiterArgs false 0 0 0)) 0 = Some (Ok tt, Some s) /\
    fs_cell s = Some p /\
    tx_encoded_2718 <$> b_transactions (p_block p)
      = tx_encoded_2718 <$> executed_transactions info ++ builder_txs_of bottom ++
          mbind (contents_txs ∘ snd) ks /\ length ks = 1%nat.
Proof.
  destruct sample_job_runs as (s & E & Hlen).
  destruct (block_composition (X := chain) _ _ _ _ _ _ _ _ _ _ _ _ E)
    as (ctx & d & d0 & d1 & info & bottom & ks & p & _ & _ & _ & Hc & Ht & Hp & _).
  - unfold wf_config. vm_compute. repeat split; discriminate || reflexivity.
  - exact job_self_ok.
  - reflexivity.
  - exists s, p, bottom, ks, info. split; [exact E|]. split; [exact Hc|]. split; [exact Ht|].
    apply (f_equal length) in Hp. rewrite length_fmap in Hp. rewrite <- Hp.
    destruct (fs_published s) as [|fb [|fb' [|]]]; [discriminate Hlen|discriminate Hlen|reflexivity|discriminate Hlen].
Defined.

(** A bundle with one transaction of account 9 that must not revert, for block 42 and the first
    flashblock, and a job whose pool holds it. *)
Definition sample_bundle : Bundle :=
  mkBundle [[3; 0]] None (Some 42) (Some 45) (Some 1) (Some 1) None None.
Definition sample_bundle_tx : FBPooledTransaction :=
  bundle_pool_transaction (X := chain) sample_bundle
    (mkBundleConditional (mkConditional (Some 42) (Some 45) None None) (Some 1) (Some 1))
    (sample_tx 3 9 0 []).
Definition bundle_world : World pool_iter :=
  mkWorld (fun _ _ => mkIter [sample_bundle_tx] []) (fun _ _ => true) (fun _ _ => true)
    default_sidecar_config (fun _ _ _ => None) never_cancelled.

(** C15: a bundle that [eth_sendBundle] accepted gets what it asked for: whenever the pool loop of a
    flashblock of a job that ended well picks the transaction that was put into the pool for it, the
    block's number and timestamp and the flashblock's index are in the ranges of the bundle, the block is
    one of the [MAX_BLOCK_RANGE_BLOCKS] after the last one when the bundle gave no end, and the
    transaction did not revert unless the bundle lists its hash. *)
Theorem bundle_honoured `{X : Externals} `{B : !BuilderExternals X} `{S : !StateExternals X}
    `{J : !JobExternals X} `{!EvmGas X} `{!ReceiptLaws X} `{!FeeLaws X} `{!FlzLaws X}
    `{SL : !StateLaws X} `{!JobLaws X} `{!ConditionalLaws X} {It Self} `{PT : PayloadTransactions It}
    `{!PayloadTransactionsLaws It}
    `{BT : !BuilderTransactions Self FlashblocksExtraCtx FlashblocksExecutionInfo}
    `{BL : !BuilderTransactionsLaws Self FlashblocksExtraCtx FlashblocksExecutionInfo}
    {Pool} last recover (add : Pool -> FBPooledTransaction -> (Z + B256) * Pool) pool b res pool'
    config spec interop (w : World It) pc clock fc signals (self : Self) limiter now s :
  send_bundle_inner (Some last) recover add pool b = (Ok res, pool') ->
  0 <= last -> last + MAX_BLOCK_RANGE_BLOCKS < U64_MOD ->
  build_payload config spec interop w pc clock fc signals self limiter now = Some (Ok tt, Some s) ->
  wf_config config -> self_ok self -> no_tx_pool (pc_attributes pc) = false ->
  exists t p ctx d info bottom ks, add pool p = (inr (bundle_hash res), pool') /\ into_consensus p = t /\
    job_holds config spec interop w pc clock fc signals self limiter now ctx d info bottom ks s /\
    tail (fs_published s) = fst <$> ks /\
    Forall (fun k =>
      diff_transactions (fb_diff (fst k)) = tx_encoded_2718 <$> contents_txs (snd k) /\
      Forall (fun i => inc_tx i = p ->
        bundle_allows b last (block_number ctx) (timestamp ctx) (fb_index (fst k)) /\
        (rcpt_status (as_receipt (inc_receipt i)) = true \/ may_revert b (tx_hash (inner t))))
        (ct_pool (snd k))) ks.
Proof.
  intros (last' & raw & c & t & [= <-] & _ & Hc & _ & Hadd)%send_bundle_inner_Ok H0 H1 H Hwf Hok Hpool.
  destruct (build_payload_holds _ _ _ _ _ _ _ _ _ _ _ _ H Hwf Hok Hpool)
    as (ctx & d & info & bottom & ks & p & Hj & _ & _ & Htail & Hds & _).
  exists t, (bundle_pool_transaction b c t), ctx, d, info, bottom, ks. split_and!; [done..|].
  eapply Forall_impl; [exact Hds|]. intros k (Hd & _ & Hpol). split; [done|].
  eapply Forall_impl; [exact Hpol|]. intros i Hp Hi. by eapply bundle_policy.
Qed.

Lemma bundle_honoured_witness :
  exists s t p (ks : list (OpFlashblockPayload * Contents)) (ctx : FbCtx),
    build_payload (X := chain) (sample_config 0) (sample_spec false) false bundle_world
      (mkPayloadConfig sample_parent (sample_attributes sample_sequencer_txs))
      (from_secs 1000 + from_millis 100) never_cancelled [never_cancelled]
      sample_builder_txs (new_limiter (mkGasLimiterArgs false 0 0 0)) 0 = Some (Ok tt, Some s) /\
    (fun t => tx_encoded_2718 (inner (into_consensus t))) sample_bundle_tx
      ∈ mbind (diff_transactions ∘ fb_diff) (tail (fs_published s)) /\
    into_consensus p = t /\ tail (fs_published s) = fst <$> ks /\
    Forall (fun k =>
      diff_transactions (fb_diff (fst k)) = tx_encoded_2718 <$> contents_txs (snd k) /\
      Forall (fun i => inc_tx i = p ->
        bundle_allows sample_bundle 41 (block_number ctx) (timestamp ctx) (fb_index (fst k)) /\
        (rcpt_status (as_receipt (inc_receipt i)) = true \/
         may_revert sample_bundle (tx_hash (inner t)))) (ct_pool (snd k))) ks.
Proof.
  assert (H : (fun r => match r with
      | (Ok _, Some s) => bool_decide (tx_encoded_2718 (inner (into_consensus sample_bundle_tx))
          ∈ mbind (diff_transactions ∘ fb_diff) (tail (fs_published s)))
      | _ => false end) <$>
    build_payload (X := chain) (sample_config 0) (sample_spec false) false bundle_world
      (mkPayloadConfig sample_parent (sample_attributes sample_sequencer_txs))
      (from_secs 1000 + from_millis 100) never_cancelled [never_cancelled]
      sample_builder_txs (new_limiter (mkGasLimiterArgs false 0 0 0)) 0
    = Some true) by (vm_compute; reflexivity).
  destruct (build_payload (X := chain) _ _ _ _ _ _ _ _ _ _ _) as [[[[]| |] [s|]]|] eqn:E;
    try discriminate H.
  assert (Hin := f_equal (fun o => match o with Some x => x | None => false end) H). cbn beta iota in Hin.
  destruct (bundle_honoured (X := chain) 41 (fun _ => Some (sample_tx 3 9 0 []))
    (fun pool p => (inr (fb_hash p), p :: pool)) [] sample_bundle (mkBundleResult 3) [sample_bundle_tx]
    (sample_config 0) (sample_spec false) false bundle_world _ _ _ _ _ _ _ s
    ltac:(vm_compute; reflexivity) ltac:(lia) ltac:(reflexivity) E)
    as (t & p & ctx & d & info & bottom & ks & _ & Ht & _ & Htail & Hall).
  - unfold wf_config. vm_compute. repeat split; discriminate || reflexivity.
  - exact job_self_ok.
  - reflexivity.
  - exists s, t, p, ks, ctx. split; [reflexivity|].
    split; [exact (bool_decide_eq_true_1 _ Hin)|]. split; [exact Ht|]. split; [exact Htail|exact Hall].
Defined.

(** C16: no sender takes more of a block than the gas limiter allows: the gas that the transactions of
    one address used which the pool loops picked in all flashblocks of a job that ended well is at most
    what its bucket held when the job began plus one refill, and never more than the capacity. *)
Theorem block_gas_per_address `{X : Externals} `{B : !BuilderExternals X} `{S : !StateExternals X}
    `{J : !JobExternals X} `{!EvmGas X} `{!ReceiptLaws X} `{!FeeLaws X} `{!FlzLaws X}
    `{SL : !StateLaws X} `{!JobLaws X} {It Self} `{PT : PayloadTransactions It}
    `{!PayloadTransactionsLaws It}
    `{BT : !BuilderTransactions Self FlashblocksExtraCtx FlashblocksExecutionInfo}
    `{BL : !BuilderTransactionsLaws Self FlashblocksExtraCtx FlashblocksExecutionInfo}
    config spec interop (w : World It) pc clock fc signals (self : Self) i now s :
  build_payload config spec interop w pc clock fc signals self (mkLimiter (Some i)) now
    = Some (Ok tt, Some s) ->
  wf_config config -> self_ok self -> no_tx_pool (pc_attributes pc) = false -> wf_inner i ->
  exists ctx d info bottom ks,
    job_holds config spec interop w pc clock fc signals self (mkLimiter (Some i)) now ctx d info bottom
      ks s /\
    tail (fs_published s) = fst <$> ks /\
    Forall (fun k => diff_transactions (fb_diff (fst k)) = tx_encoded_2718 <$> contents_txs (snd k)) ks /\
    forall a, gas_of a (mbind (ct_pool ∘ snd) ks)
      <= Z.min (max_gas_per_address (limiter_config i))
           (balance i a + refill_rate_per_block (limiter_config i)).
Proof.
  intros H Hwf Hok Hpool Hi.
  destruct (build_payload_holds _ _ _ _ _ _ _ _ _ _ _ _ H Hwf Hok Hpool)
    as (ctx & d & info & bottom & ks & p & Hj & _ & _ & Htail & Hds & [l Hch] & _).
  exists ctx, d, info, bottom, ks.
  split_and!; [done..|eapply Forall_impl; [exact Hds|by intros ? (? & _)]|]. intros a.
  destruct (refresh_inner_spec i (block_number ctx) Hi) as (i0 & Hi0 & Hwf0 & Hcfg & Hgain).
  unfold charged, refresh in Hch. cbn [limiter_inner] in Hch. rewrite Hi0 in Hch.
  destruct (Hch Hwf0) as (i1 & _ & Hwf1 & _ & Hb). specialize (Hb a). specialize (Hgain a).
  pose proof (balance_nonneg i1 a Hwf1). pose proof (balance_le i0 a Hwf0). rewrite Hcfg in *. lia.
Qed.

(** Account 9 has 15000 gas left from the block before and gets 10000 back: enough for its
    transaction of 21000. *)
Definition sample_limiter : AddressGasLimiterInner :=
  mkLimiterInner (mkGasLimiterArgs true 50000 10000 10) {[9 := mkBucket 50000 15000]}.

Lemma block_gas_per_address_witness :
  exists s (ks : list (OpFlashblockPayload * Contents)),
    build_payload (X := chain) (sample_config 0) (sample_spec false) false bundle_world
      (mkPayloadConfig sample_parent (sample_attributes sample_sequencer_txs))
      (from_secs 1000 + from_millis 100) never_cancelled [never_cancelled]
      sample_builder_txs (mkLimiter (Some sample_limiter)) 0 = Some (Ok tt, Some s) /\
    tail (fs_published s) = fst <$> ks /\ gas_of 9 (mbind (ct_pool ∘ snd) ks) <= 25000 /\
    length (fs_published s) = 2%nat.
Proof.
  assert (H : job_summary
    (build_payload (X := chain) (sample_config 0) (sample_spec false) false bundle_world
      (mkPayloadConfig sample_parent (sample_attributes sample_sequencer_txs))
      (from_secs 1000 + from_millis 100) never_cancelled [never_cancelled]
      sample_builder_txs (mkLimiter (Some sample_limiter)) 0)
    = (true, 2%nat)) by (vm_compute; reflexivity).
  destruct (build_payload (X := chain) _ _ _ _ _ _ _ _ _ _ _) as [[[[]| |] [s|]]|] eqn:E;
    try discriminate H.
  injection H as Hlen.
  destruct (block_gas_per_address (X := chain) _ _ _ _ _ _ _ _ _ _ _ _ E)
    as (ctx & d & info & bottom & ks & _ & Htail & _ & Hg).
  - unfold wf_config. vm_compute. repeat split; discriminate || reflexivity.
  - exact job_self_ok.
  - reflexivity.
  - split; [unfold sample_limiter, wf_args, in_u64, U64_MOD;
      cbn [limiter_config max_gas_per_address refill_rate_per_block]; lia|].
    unfold sample_limiter. cbn [address_buckets limiter_config]. apply map_Forall_singleton.
    split; cbn [capacity available max_gas_per_address]; lia.
  - exists s, ks. split; [reflexivity|]. split; [exact Htail|]. split; [|exact Hlen].
    etransitivity; [apply (Hg 9)|]. vm_compute. discriminate.
Defined.

(** C17: the stream of messages a job publishes is well formed: they are numbered from 0 without a gap,
    all name the job and the number of its block, and the first, and no other, carries the base of the
    block. *)
Theorem flashblock_stream_wf `{X : Externals} `{B : !BuilderExternals X} `{S : !StateExternals X}
    `{J : !JobExternals X} `{!EvmGas X} `{!ReceiptLaws X} `{!FeeLaws X} `{!FlzLaws X}
    `{SL : !StateLaws X} `{!JobLaws X} {It Self} `{PT : PayloadTransactions It}
    `{!PayloadTransactionsLaws It}
    `{BT : !BuilderTransactions Self FlashblocksExtraCtx FlashblocksExecutionInfo}
    `{BL : !BuilderTransactionsLaws Self FlashblocksExtraCtx FlashblocksExecutionInfo}
    config spec interop (w : World It) pc clock fc signals (self : Self) limiter now s :
  build_payload config spec interop w pc clock fc signals self limiter now = Some (Ok tt, Some s) ->
  wf_config config -> self_ok self -> no_tx_pool (pc_attributes pc) = false ->
  exists x ctx,
    get_op_payload_builder_ctx config spec interop pc (w_block_cancel w) x = Ok ctx /\
    numbered s /\ Forall (message_ok ctx) (fs_published s).
Proof.
  intros H Hwf Hok Hpool.
  destruct (build_payload_holds _ _ _ _ _ _ _ _ _ _ _ _ H Hwf Hok Hpool)
    as (ctx & ? & ? & ? & ? & ? & [(x & _ & Hctx) _ _] & _ & _ & _ & _ & _ & Hm).
  exists x, ctx. split_and!; [done| |done].
  apply build_payload_trace in H as (? & ? & ? & ? & _ & _ & _ & _ & _ & Hr & _); [|done..].
  destruct (Hr eq_refl) as (p & _ & _ & Hif). rewrite Hpool in Hif. by destruct Hif.
Qed.

Lemma flashblock_stream_wf_witness :
  exists s ctx, build_payload (X := chain) (sample_config 0) (sample_spec false) false (job_world true)
      (mkPayloadConfig sample_parent (sample_attributes sample_sequencer_txs))
      (from_secs 1000 + from_millis 100) never_cancelled [never_cancelled]
      sample_builder_txs (new_limiter (mkGasLimiterArgs false 0 0 0)) 0 = Some (Ok tt, Some s) /\
    numbered s /\ Forall (message_ok ctx) (fs_published s) /\ length (fs_published s) = 2%nat.
Proof.
  destruct sample_job_runs as (s & E & Hlen).
  destruct (flashblock_stream_wf (X := chain) _ _ _ _ _ _ _ _ _ _ _ _ E) as (x & ctx & _ & Hn & Hm).
  - unfold wf_config. vm_compute. repeat split; discriminate || reflexivity.
  - exact job_self_ok.
  - reflexivity.
  - exists s, ctx. split; [exact E|]. split; [exact Hn|]. split; [exact Hm|exact Hlen].
Defined.
