(* ===== verification/Standard.v ===== *)
(** * The standard payload builder

    Models [builders/standard/payload.rs]: [StandardOpPayloadBuilder::build_payload] with its entry
    points [try_build] and [build_empty_payload], and [OpBuilder::execute] and [build], which make one
    block out of the sequencer's, the builder's and the pool's transactions. *)

From S2P Require Import Prelude External ExecInfo GasLimiter PoolTx BestTxs Sidecar Context Replay Sequencer BestExec BuilderTx Timing BuildBlock Flashblocks BuildPayload.

(** [BuildOutcomeKind] of the payload builder's framework. *)
Inductive BuildOutcomeKind (P : Type) : Type :=
| Better (payload : P)
| Aborted (fees : Z)
| Cancelled
| Freeze (payload : P).
Arguments Better {P} payload.
Arguments Aborted {P} fees.
Arguments Cancelled {P}.
Arguments Freeze {P} payload.

Definition into_payload {P} (o : BuildOutcomeKind P) : option P :=
  match o with Better p | Freeze p => Some p | _ => None end.

(** [NoopPayloadTransactions]: an iterator that yields nothing. *)
Inductive NoopPayloadTransactions : Type := Noop.

#[export] Instance noop_transactions : PayloadTransactions NoopPayloadTransactions := {|
  pt_next it := (None, it);
  pt_mark_invalid it _ _ := it;
  remaining _ := O;
|}.

#[export] Instance noop_laws : PayloadTransactionsLaws NoopPayloadTransactions.
Proof. by split. Qed.

(** What building one block changes. *)
Record StdState `{Externals} (Self : Type) : Type := mkStd {
  ss_info : ExecutionInfo unit;
  ss_db : db;
  ss_self : Self;
  ss_limiter : AddressGasLimiter;
  ss_now : nat;
}.
Arguments mkStd {_ Self}.
Arguments ss_info {_ Self} _.
Arguments ss_db {_ Self} _.
Arguments ss_self {_ Self} _.
Arguments ss_limiter {_ Self} _.
Arguments ss_now {_ Self} _.

(** The sums over all builder transactions, and what they leave of the limits. *)
Definition all_reserved (f : BuilderTransactionCtx -> Z) (txs : list BuilderTransactionCtx) : Z :=
  fold_left (fun acc t => add64 acc (f t)) txs 0.

Definition standard_limits (ctx : OpPayloadBuilderCtx unit) (info : ExecutionInfo unit)
    (txs : list BuilderTransactionCtx) : Limits :=
  let builder_tx_gas := all_reserved btx_gas_used txs in
  let builder_tx_da_size := all_reserved btx_da_size txs in
  mkLimits (saturating_sub (block_gas_limit ctx) builder_tx_gas)
    ((fun da_limit => saturating_sub da_limit builder_tx_da_size) <$> max_da_block_size ctx)
    ((fun scalar => saturating_sub (block_gas_limit ctx) (saturating_mul builder_tx_da_size scalar))
       <$> da_footprint_scalar info).

Section Standard.
Context `{X : Externals} `{B : !BuilderExternals X} `{S : !StateExternals X} `{J : !JobExternals X}.
Context {It Self : Type} `{PT : PayloadTransactions It} `{BT : !BuilderTransactions Self unit unit}.
Context (config : BuilderConfig unit) (spec : OpChainSpec) (interop : bool).
Implicit Type ctx : OpPayloadBuilderCtx unit.
Abbreviation St := (StdState Self).
Abbreviation M := (action St PayloadBuilderError).

(** ** Executing *)

Definition std_exec (s : St) (info : ExecutionInfo unit) (d : db) : St :=
  mkStd info d (ss_self s) (ss_limiter s) (ss_now s).

(** The pre-execution changes and the sequencer's transactions. *)
Definition std_pre_phase ctx : M unit := fun s =>
  match apply_pre_execution_changes (ss_db s) (parent ctx) (block_env_attributes ctx) with
  | inl e => Some (Err (OtherExternal "apply_pre_execution_changes" e), s)
  | inr d =>
      match execute_sequencer_transactions ctx tt d with
      | (Ok info, d') => Some (Ok tt, std_exec s info d')
      | (Err e, d') => Some (Err e, std_exec s (ss_info s) d')
      | (Panic, d') => Some (Panic, std_exec s (ss_info s) d')
      end
  end.

(** [builder_tx.add_builder_txs]; an error is logged and gives no transactions. *)
Definition std_builder_phase (state_provider : db) ctx (top_of_block : bool)
    : M (list BuilderTransactionCtx) := fun s =>
  let '(r, self, info, d) :=
    add_builder_txs (ss_self s) state_provider (ss_info s) ctx (ss_db s) top_of_block in
  let s := mkStd info d self (ss_limiter s) (ss_now s) in
  match r with
  | Ok txs => Some (Ok txs, s)
  | Err _ => Some (Ok [], s)
  | Panic => Some (Panic, s)
  end.

(** The pool's transactions; [best] is the iterator the pool gives at a moment for the attributes. *)
Definition std_pool_phase ctx (best : nat -> Z * option Z -> It) (lim : Limits) : M (option unit) :=
  fun s =>
  let it := best (ss_now s) (best_transaction_attributes ctx) in
  match execute_best_transactions ctx lim
          (mkExec (ss_info s) (ss_db s) it (ss_limiter s) (Datatypes.S (ss_now s)) []) with
  | None => None
  | Some (r, e) =>
      Some (r, mkStd (st_info e) (st_db e) (ss_self s) (st_limiter e) (st_now e))
  end.

Definition merge_phase : M unit := fun s =>
  Some (Ok tt, std_exec s (ss_info s) (merge_transitions (ss_db s))).

(** [OpBuilder::execute] *)
Definition execute (state_provider : db) ctx (best : nat -> Z * option Z -> It)
    : M (BuildOutcomeKind (ExecutionInfo unit)) :=
  do _ <~ std_pre_phase ctx then
  do builder_txs <~ std_builder_phase state_provider ctx true then
  do lim <~ mget (fun s => standard_limits ctx (ss_info s) builder_txs) then
  do cancelled <~ (if negb (no_tx_pool (attributes ctx)) then std_pool_phase ctx best lim
                   else mret None) then
  match cancelled with
  | Some _ => mret Cancelled
  | None =>
      do _ <~ std_builder_phase state_provider ctx false then
      do _ <~ merge_phase then
      do info <~ mget ss_info then
      mret (Better info)
  end.

(** ** Sealing *)

(** The withdrawals root and the requests hash. *)
Definition std_withdrawals_fields ctx (state_provider d : db)
    : outcome PayloadBuilderError (option B256 * option B256) :=
  if is_isthmus_active ctx then
    let? root :=
      of_sum (OtherExternal "withdrawals_root")
        (isthmus_withdrawals_root (bundle_state d) state_provider) in
    Ok (Some root, Some EMPTY_REQUESTS_HASH)
  else if is_canyon_active ctx then Ok (Some EMPTY_WITHDRAWALS, None)
  else Ok (None, None).

(** The block of an info, from the merged state [d]. *)
Definition std_seal (state_provider : db) ctx (info : ExecutionInfo unit) (d : db)
    : outcome PayloadBuilderError OpBuiltPayload :=
  let number := block_number ctx in
  let? (excess_blob_gas, blob_gas_used) := blob_fields ctx info in
  let? receipts_root := expect (receipts_root_slow number (receipts info) number) in
  let? logs_bloom := expect (block_logs_bloom number (receipts info) number) in
  let? state_root :=
    of_sum (OtherExternal "state_root_with_updates")
      (state_root_with_updates state_provider (bundle_state d)) in
  let? (withdrawals_root, requests_hash) := std_withdrawals_fields ctx state_provider d in
  let? extra := extra_data ctx in
  Ok (make_payload ctx info
        (make_header ctx info receipts_root logs_bloom state_root withdrawals_root requests_hash
           blob_gas_used excess_blob_gas extra)).

(** [OpBuilder::build] *)
Definition build (state_provider : db) ctx (best : nat -> Z * option Z -> It)
    : M (BuildOutcomeKind OpBuiltPayload) :=
  do outcome <~ execute state_provider ctx best then
  match outcome with
  | Better info | Freeze info =>
      do d <~ mget ss_db then
      do payload <~ mlift (std_seal state_provider ctx info d) then
      mret (if no_tx_pool (attributes ctx) then Freeze payload else Better payload)
  | Cancelled => mret Cancelled
  | Aborted fees => mret (Aborted fees)
  end.

(** ** The builder *)

(** The context of a job. *)
Definition standard_ctx (pc : PayloadConfig) (token : CancellationToken)
    : outcome PayloadBuilderError (OpPayloadBuilderCtx unit) :=
  let attrs := pc_attributes pc in
  let? extra := job_extra_data spec pc in
  let env_attributes :=
    mkNextBlockEnv (attributes_timestamp attrs) (suggested_fee_recipient attrs) (prev_randao attrs)
      (unwrap_or (attr_gas_limit attrs) (sh_gas_limit (pc_parent pc)))
      (parent_beacon_block_root attrs) extra in
  let? env := of_sum (OtherExternal "next_evm_env") (next_evm_env (pc_parent pc) env_attributes) in
  Ok (mkCtx (cfg_max_da_tx_size config) (cfg_max_da_block_size config) (cfg_gas_limit config) spec
        (pc_parent pc) attrs env env_attributes token (cfg_builder_signer config) tt
        (cfg_max_gas_per_txn config) interop).

(** [build_payload]; besides the outcome it leaves the builder transactions and the gas limiter. *)
Definition standard_build_payload (pc : PayloadConfig) (token : CancellationToken)
    (best : nat -> Z * option Z -> It) (self : Self) (limiter : AddressGasLimiter) (now : nat)
    : option (outcome PayloadBuilderError (BuildOutcomeKind OpBuiltPayload) *
              (Self * AddressGasLimiter)) :=
  match standard_ctx pc token with
  | Err e => Some (Err e, (self, limiter))
  | Panic => Some (Panic, (self, limiter))
  | Ok ctx =>
      let limiter := refresh limiter (block_number ctx) in
      match state_by_block_hash (parent_hash ctx) with
      | inl e => Some (Err (OtherExternal "state_by_block_hash" e), (self, limiter))
      | inr d =>
          match build d ctx best (mkStd (with_capacity tt) d self limiter now) with
          | Some (r, s) => Some (r, (ss_self s, ss_limiter s))
          | None => None
          end
      end
  end.

(** [try_build]: the framework's token is not passed on. *)
Definition try_build (pc : PayloadConfig) (_cancel : CancellationToken)
    (best : nat -> Z * option Z -> It) (self : Self) (limiter : AddressGasLimiter) (now : nat)
    : option (outcome PayloadBuilderError (BuildOutcomeKind OpBuiltPayload) *
              (Self * AddressGasLimiter)) :=
  standard_build_payload pc never_cancelled best self limiter now.

End Standard.

(** [build_empty_payload] *)
Definition build_empty_payload `{X : Externals} `{B : !BuilderExternals X} `{S : !StateExternals X}
    `{J : !JobExternals X} {Self : Type} `{BT : !BuilderTransactions Self unit unit}
    (config : BuilderConfig unit) (spec : OpChainSpec) (interop : bool)
    (pc : PayloadConfig) (self : Self) (limiter : AddressGasLimiter) (now : nat)
    : option (outcome PayloadBuilderError OpBuiltPayload) :=
  match standard_build_payload config spec interop pc never_cancelled (fun _ _ => Noop) self limiter
          now with
  | Some (Ok o, _) => Some (ok_or (into_payload o) MissingPayload)
  | Some (Err e, _) => Some (Err e)
  | Some (Panic, _) => Some Panic
  | None => None
  end.

(** ** Specification *)

(** What the phases add to the block.  Each phase is a function, so that the states between the phases are
    determined, and what a phase adds is determined by the states before and after it. *)
Section Spec.
Context `{X : Externals} `{B : !BuilderExternals X} `{S : !StateExternals X} `{J : !JobExternals X}.
Context {It Self : Type} `{PT : PayloadTransactions It} `{BT : !BuilderTransactions Self unit unit}.
Implicit Type ctx : OpPayloadBuilderCtx unit.
Implicit Type s : StdState Self.

(** The builder transactions [l] of one position, when the call returned [txs]. *)
Definition std_builder_adds p ctx (top : bool) s (txs l : list BuilderTransactionCtx) s' : Prop :=
  std_builder_phase p ctx top s = Some (Ok txs, s') /\
  builder_adds (ss_self s) p (ss_info s) ctx (ss_db s) top l (ss_info s') (ss_db s').

(** The transactions that the pool loop picks; none without the pool. *)
Definition std_pool_start ctx (best : nat -> Z * option Z -> It) s : ExecState unit It :=
  mkExec (ss_info s) (ss_db s) (best (ss_now s) (best_transaction_attributes ctx)) (ss_limiter s)
    (Datatypes.S (ss_now s)) [].
Definition std_pool_adds ctx (best : nat -> Z * option Z -> It) (lim : Limits) s (l : list Included) s'
    : Prop :=
  if no_tx_pool (attributes ctx) then l = [] /\ s' = s
  else exists e, std_pool_phase ctx best lim s = Some (Ok None, s') /\
    picks ctx lim (std_pool_start ctx best s) l (Ok None, e) /\
    st_info e = ss_info s' /\ st_db e = ss_db s'.

(** The states between the phases, and what the phases add. *)
Record StdRun : Type := mkStdRun {
  sr_sequencer : StdState Self;
  sr_builder_txs : list BuilderTransactionCtx;
  sr_top : list BuilderTransactionCtx;
  sr_top_state : StdState Self;
  sr_pool : list Included;
  sr_pool_state : StdState Self;
  sr_bottom : list BuilderTransactionCtx;
  sr_end : StdState Self;
}.

(** The transactions of the block in order. *)
Definition run_txs (r : StdRun) : list OpTransactionSigned :=
  executed_transactions (ss_info (sr_sequencer r)) ++ (inner ∘ btx_signed_tx <$> sr_top r) ++
  ((fun i => inner (into_consensus (inc_tx i))) <$> sr_pool r) ++
  (inner ∘ btx_signed_tx <$> sr_bottom r).

(** How a block is put together from the state [s] on, [d0] being the state after the pre-execution
    changes: the transactions of the attributes that were valid when their turn came, top-of-block builder
    transactions, what the pool loop picked, and bottom-of-block builder transactions. *)
Record std_ran (p : db) ctx best s (d0 : db) (r : StdRun) : Prop := {
  rn_pre : apply_pre_execution_changes (ss_db s) (parent ctx) (block_env_attributes ctx) = inr d0;
  rn_sequencer : std_pre_phase ctx s = Some (Ok tt, sr_sequencer r);
  rn_accepted : accepted ctx d0 (attr_transactions (attributes ctx))
    (recovered_of (ss_info (sr_sequencer r))) (ss_db (sr_sequencer r))
    (cumulative_gas_used (ss_info (sr_sequencer r)));
  rn_top : std_builder_adds p ctx true (sr_sequencer r) (sr_builder_txs r) (sr_top r) (sr_top_state r);
  rn_pool : std_pool_adds ctx best (standard_limits ctx (ss_info (sr_top_state r)) (sr_builder_txs r))
    (sr_top_state r) (sr_pool r) (sr_pool_state r);
  rn_bottom : exists txs,
    std_builder_adds p ctx false (sr_pool_state r) txs (sr_bottom r) (sr_end r);
  rn_txs : executed_transactions (ss_info (sr_end r)) = run_txs r;
}.

End Spec.
Arguments StdRun {X} Self.

(** A payload of the standard builder: it is put together as above from the parent's state, sealed from
    the info and the merged state at the end of the run, and replays from the parent's state with the
    pre-execution changes to its own receipts and gas. *)
Definition standard_payload `{X : Externals} `{B : !BuilderExternals X} `{!StateExternals X}
    `{!JobExternals X} {It Self : Type} `{PT : PayloadTransactions It}
    `{BT : !BuilderTransactions Self unit unit} config spec interop (pc : PayloadConfig)
    (token : CancellationToken) (best : nat -> Z * option Z -> It) (self : Self) limiter now P
    (q : OpBuiltPayload) : Prop :=
  exists ctx d d0 r,
    standard_ctx config spec interop pc token = Ok ctx /\
    state_by_block_hash (parent_hash ctx) = inr d /\
    std_ran d ctx best (mkStd (with_capacity tt) d self (refresh limiter (block_number ctx)) now) d0 r /\
    std_seal d ctx (ss_info (sr_end r)) (merge_transitions (ss_db (sr_end r))) = Ok q /\
    b_transactions (p_block q) = run_txs r /\ Forall (fun i => P (inc_tx i)) (sr_pool r) /\
    valid_payload ctx d0 q /\ h_parent_hash (b_header (p_block q)) = sh_hash (pc_parent pc).

(** ** Lemmas *)

Section Lemmas.
Context `{X : Externals} `{B : !BuilderExternals X} `{S : !StateExternals X} `{J : !JobExternals X}.
Context `{G : !EvmGas X} `{RL : !ReceiptLaws X} `{FL : !FeeLaws X} `{F : !FlzLaws X}.
Context {It Self : Type} `{PT : PayloadTransactions It} `{PL : !PayloadTransactionsLaws It}.
Context `{BT : !BuilderTransactions Self unit unit} `{BL : !BuilderTransactionsLaws Self unit unit}.
Implicit Type ctx : OpPayloadBuilderCtx unit.
Implicit Type s : StdState Self.

(** Between the phases: the block so far replays from [d0] and consists of [txs]. *)
Definition std_inv ctx d0 (txs : list OpTransactionSigned) s : Prop :=
  executes ctx d0 (ss_info s) (ss_db s) /\ self_ok (ss_self s) /\
  executed_transactions (ss_info s) = txs.

Lemma std_pre_phase_spec ctx s :
  self_ok (ss_self s) ->
  wp (std_pre_phase ctx) (on_ok (fun _ s' => exists d0,
    apply_pre_execution_changes (ss_db s) (parent ctx) (block_env_attributes ctx) = inr d0 /\
    std_pre_phase ctx s = Some (Ok tt, s') /\
    accepted ctx d0 (attr_transactions (attributes ctx)) (recovered_of (ss_info s')) (ss_db s')
      (cumulative_gas_used (ss_info s')) /\
    std_inv ctx d0 (executed_transactions (ss_info s')) s')) s.
Proof using G RL F.
  intros Hok. unfold wp, std_pre_phase.
  destruct (apply_pre_execution_changes _ _ _) as [e|d0]; [by do 2 eexists|].
  destruct (execute_sequencer_transactions ctx tt d0) as [[info|e|] d'] eqn:E; [|by do 2 eexists..].
  eexists _, _. split; [done|]. simpl. apply execute_sequencer_accepts in E as [He Hs].
  by exists d0.
Qed.

Lemma std_builder_phase_spec p ctx top d0 txs s :
  std_inv ctx d0 txs s ->
  wp (std_builder_phase p ctx top) (on_ok (fun btxs s' => exists l,
    std_builder_adds p ctx top s btxs l s' /\
    std_inv ctx d0 (txs ++ (inner ∘ btx_signed_tx <$> l)) s')) s.
Proof using G RL BL.
  intros (He & Hok & Ht). unfold wp, std_builder_adds, std_builder_phase.
  destruct (add_builder_txs _ _ _ _ _ _) as [[[r self0] info1] d2] eqn:Hs.
  destruct (add_builder_txs_trace _ _ _ _ _ _ _ _ _ _ Hok Hs) as (Hok' & l & Ha & Hl & Hf).
  destruct (builder_lists _ _ _ _ _ _ _ Hl) as (Ht' & _).
  assert (Hinv : std_inv ctx d0 (txs ++ (inner ∘ btx_signed_tx <$> l))
                   (mkStd info1 d2 self0 (ss_limiter s) (ss_now s))).
  { split_and!; simpl; [by eapply builder_executes|done|by rewrite Ht', Ht]. }
  destruct r; (eexists _, _; split; [done|]; simpl; try done); by exists l.
Qed.

Lemma std_pool_phase_spec ctx best lim P d0 txs s :
  no_tx_pool (attributes ctx) = false ->
  (forall n a, yields_only P (best n a)) -> std_inv ctx d0 txs s ->
  wp (std_pool_phase ctx best lim) (on_ok (fun c s' =>
    match c with
    | Some _ => exists n, is_cancelled (cancel ctx) n = true
    | None => exists l, std_pool_adds ctx best lim s l s' /\ Forall (fun i => P (inc_tx i)) l /\
        std_inv ctx d0 (txs ++ ((fun i => inner (into_consensus (inc_tx i))) <$> l)) s'
    end)) s.
Proof using G RL FL PL.
  intros Hn Hy (He & Hok & Ht). unfold wp, std_pool_adds. rewrite Hn. unfold std_pool_phase.
  fold (std_pool_start ctx best s).
  destruct (execute_best_transactions_trace ctx lim P (std_pool_start ctx best s))
    as ([r e] & -> & (l & Hp & Hl) & _ & Hend); [apply Hy|].
  eexists _, _. split; [done|]. simpl in *. destruct r as [[[]|]| |]; simpl; try done.
  - destruct Hend as (n & _ & _ & Hc). by exists n.
  - exists l. split_and!; [by exists e| |].
    + eapply Forall_impl; [by eapply inclusions_Forall|]. intros i (info1 & d1 & d2 & Ha). apply Ha.
    + destruct (inclusions_app_lists _ _ _ _ _ _ _ _ Hl) as (Ht' & _).
      split_and!; simpl; [by eapply inclusions_executes|done|]. by rewrite Ht', <- Ht.
Qed.

(** The outcome of executing: a block whose merged state is [merge_transitions d], or a cancellation
    that was seen. *)
Lemma execute_spec p ctx best P s :
  (forall n a, yields_only P (best n a)) -> self_ok (ss_self s) ->
  wp (execute p ctx best) (on_ok (fun o s' =>
    match o with
    | Better info => exists d0 r, std_ran p ctx best s d0 r /\
        executes ctx d0 info (ss_db (sr_end r)) /\ info = ss_info (sr_end r) /\
        ss_db s' = merge_transitions (ss_db (sr_end r)) /\ Forall (fun i => P (inc_tx i)) (sr_pool r)
    | Cancelled => exists n, is_cancelled (cancel ctx) n = true
    | _ => False
    end)) s.
Proof using G RL FL F PL BL.
  intros Hy Hok. unfold execute.
  eapply wp_bind_ok; [by apply std_pre_phase_spec|]. intros [] s1 (d0 & Hd0 & Hpre & Hacc & H1).
  eapply wp_bind_ok; [by eapply std_builder_phase_spec|]. intros btxs s2 (top & Htop & H2).
  eapply (wp_bind_ok _ _ (fun a s' => a = standard_limits ctx (ss_info s2) btxs /\ s' = s2)); [by apply wp_get|].
  intros lim ? [-> ->].
  eapply (wp_bind_ok _ _ (fun c s3 => match c with
    | Some _ => exists n, is_cancelled (cancel ctx) n = true
    | None => exists l, std_pool_adds ctx best (standard_limits ctx (ss_info s2) btxs) s2 l s3 /\
        Forall (fun i => P (inc_tx i)) l /\
        std_inv ctx d0 ((executed_transactions (ss_info s1) ++ (inner ∘ btx_signed_tx <$> top)) ++
          ((fun i => inner (into_consensus (inc_tx i))) <$> l)) s3
    end)).
  { destruct (no_tx_pool (attributes ctx)) eqn:Hn; simpl.
    - apply wp_ret. exists []. unfold std_pool_adds. rewrite Hn, app_nil_r. done.
    - eapply wp_mono; [by eapply std_pool_phase_spec|]. by intros [[[]|]| |] s3. }
  intros [[]|] s3; [intros Hc; by apply wp_ret|]. intros (pool & Hadds & Hp & H3).
  eapply wp_bind_ok; [by eapply std_builder_phase_spec|]. intros bt s4 (bottom & Hbot & He & _ & Ht).
  eapply (wp_bind_ok _ _ (fun _ s' => s' = std_exec s4 (ss_info s4) (merge_transitions (ss_db s4)))).
  { by eexists _, _. }
  intros [] ? ->. eapply (wp_bind_ok _ _ (fun i s' => i = ss_info s4 /\
    s' = std_exec s4 (ss_info s4) (merge_transitions (ss_db s4)))); [by apply wp_get|].
  intros i ? [-> ->]. apply wp_ret. exists d0, (mkStdRun s1 btxs top s2 pool s3 bottom s4).
  split_and!; try done. split; try done; [by exists bt|].
  unfold run_txs. simpl. by rewrite Ht, <- !app_assoc.
Qed.

Lemma std_seal_Ok p ctx info d q : std_seal p ctx info d = Ok q -> seals ctx info q.
Proof.
  unfold std_seal. intros ([eb bg] & _ & H)%bind_Ok.
  do 3 apply bind_Ok in H as (? & _ & H). apply bind_Ok in H as ([] & _ & H).
  apply bind_Ok in H as (ed & _ & [= <-]). by split.
Qed.

Lemma build_spec p ctx best P s :
  (forall n a, yields_only P (best n a)) -> self_ok (ss_self s) ->
  wp (build p ctx best) (on_ok (fun o _ =>
    match o with
    | Better q | Freeze q => exists d0 r,
        (match o with Freeze _ => true | _ => false end) = no_tx_pool (attributes ctx) /\
        std_ran p ctx best s d0 r /\
        std_seal p ctx (ss_info (sr_end r)) (merge_transitions (ss_db (sr_end r))) = Ok q /\
        b_transactions (p_block q) = run_txs r /\ Forall (fun i => P (inc_tx i)) (sr_pool r) /\
        valid_payload ctx d0 q /\ h_parent_hash (b_header (p_block q)) = parent_hash ctx
    | Cancelled => exists n, is_cancelled (cancel ctx) n = true
    | Aborted _ => False
    end)) s.
Proof using G RL FL F PL BL.
  intros Hy Hok. unfold build. eapply wp_bind_ok; [by apply execute_spec|].
  intros [info|fees| |info] s1 H; [|done|by apply wp_ret|done].
  destruct H as (d0 & r & Hran & He & -> & Hdb & Hp).
  eapply (wp_bind_ok _ _ (fun a s' => a = ss_db s' /\ s' = s1)); [by apply wp_get|]. intros a ? [-> ->].
  eapply (wp_bind_ok _ _ (fun q _ => std_seal p ctx (ss_info (sr_end r)) (ss_db s1) = Ok q)).
  { apply wp_lift. by destruct (std_seal _ _ _ _). }
  intros q s2 Hs. apply wp_ret. simpl. pose proof (std_seal_Ok _ _ _ _ _ Hs) as Hseal. rewrite Hdb in Hs.
  assert (Hq : valid_payload ctx d0 q /\ h_parent_hash (b_header (p_block q)) = parent_hash ctx /\
    b_transactions (p_block q) = run_txs r).
  { split; [by eapply seals_valid|]. split; [apply (seal_parent _ _ _ Hseal)|].
    by rewrite (seal_txs _ _ _ Hseal), (rn_txs _ _ _ _ _ _ Hran). }
  destruct Hq as (? & ? & ?).
  destruct (no_tx_pool (attributes ctx)) eqn:Hn; exists d0, r; by split_and!.
Qed.

Lemma standard_ctx_fields config spec interop pc token ctx :
  standard_ctx config spec interop pc token = Ok ctx ->
  attributes ctx = pc_attributes pc /\ parent ctx = pc_parent pc /\ cancel ctx = token.
Proof. unfold standard_ctx. intros (? & _ & (? & _ & [= <-])%bind_Ok)%bind_Ok. done. Qed.

(** The whole call. *)
Lemma standard_build_payload_trace config spec interop pc token best P (self : Self) limiter now :
  (forall n a, yields_only P (best n a)) -> self_ok self ->
  exists r st,
    standard_build_payload config spec interop pc token best self limiter now = Some (r, st) /\
    match r with
    | Ok (Better q) => no_tx_pool (pc_attributes pc) = false /\
        standard_payload config spec interop pc token best self limiter now P q
    | Ok (Freeze q) => no_tx_pool (pc_attributes pc) = true /\
        standard_payload config spec interop pc token best self limiter now P q
    | Ok Cancelled => exists n, is_cancelled token n = true
    | Ok (Aborted _) => False
    | Err _ | Panic => True
    end.
Proof using G RL FL F PL BL.
  intros Hy Hok. unfold standard_build_payload.
  destruct (standard_ctx config spec interop pc token) as [ctx|e|] eqn:Hctx; [|by eexists _, _..].
  pose proof (standard_ctx_fields _ _ _ _ _ _ Hctx) as (Ha & Hp & Hc).
  destruct (state_by_block_hash (parent_hash ctx)) as [e|d] eqn:Hd; [by eexists _, _|].
  set (s0 := mkStd _ _ _ _ _).
  destruct (build_spec d ctx best P s0 Hy Hok) as (r & s' & -> & H). eexists _, _. split; [done|].
  destruct r as [[q|fees| |q]| |]; simpl in H; try done; [|by rewrite <- Hc|];
    destruct H as (d0 & r & Hn & Hran & Hs & Ht & Hf & Hv & Hh); rewrite <- Ha; (split; [done|]);
    exists ctx, d, d0, r; unfold parent_hash in Hh; rewrite Hp in Hh; by split_and!.
Qed.

End Lemmas.

(** The empty payload is never missing. *)
Lemma build_empty_payload_returns `{X : Externals} `{B : !BuilderExternals X}
    `{S : !StateExternals X} `{J : !JobExternals X} `{!EvmGas X} `{!ReceiptLaws X} `{!FeeLaws X}
    `{!FlzLaws X} {Self} `{BT : !BuilderTransactions Self unit unit}
    `{BL : !BuilderTransactionsLaws Self unit unit} config spec interop pc (self : Self) limiter now :
  self_ok self ->
  exists r, build_empty_payload config spec interop pc self limiter now = Some r /\
    match r with
    | Ok q => standard_payload config spec interop pc never_cancelled (fun _ _ => Noop) self limiter now
        (fun _ => False) q
    | Err _ | Panic => True
    end.
Proof.
  intros Hok. unfold build_empty_payload.
  destruct (standard_build_payload_trace config spec interop pc never_cancelled
    (fun _ _ => Noop) (fun _ => False) self limiter now) as (r & st & -> & H); [|done|].
  { intros n a it1 t it2 _ [=]. }
  destruct r as [[q|fees| |q]| |]; simpl; eauto; [naive_solver|done| |naive_solver].
  destruct H as (n & Hn). discriminate Hn.
Qed.

(** ** A syncing node

    Attributes that turn the pool off, a configuration, and the hashes of the block they give. *)
Module TestStandard.

Definition std_attributes : OpPayloadBuilderAttributes :=
  mkAttributes 900 77 1002 5 6 [] (Some 8) true sample_sequencer_txs (Some 30000000) (fun _ => inr [])
    (fun _ => inr []).
Definition std_config : BuilderConfig unit :=
  mkBuilderConfig None false default_flashtestations_args (from_secs 2) None None None 0 100 tt None
    (mkGasLimiterArgs false 0 0 0).
Definition frozen_hashes {A} (r : option (outcome PayloadBuilderError
    (BuildOutcomeKind OpBuiltPayload) * A)) : option (list Z) :=
  match r with
  | Some (Ok (Freeze q), _) => Some (tx_hash <$> b_transactions (p_block q))
  | _ => None
  end.

End TestStandard.

Import TestChain TestPool TestSigner TestState TestJob TestPayload TestStandard.

(** ** Properties *)

(** C7: the standard builder always returns, and a block it returns is valid: it replays from the parent's
    state with the pre-execution changes to its own receipts and gas, on top of the parent.  Its
    transactions are, in this order: those of the attributes less the ones that the EVM rejected as invalid
    when their turn came; the builder transactions that adding those of the top of the block added; what
    the pool loop picked from the pool's iterator; and what adding the builder transactions of the bottom
    added, each in the state the part before it left.  The block is frozen exactly when the pool is off:
    then the pool's iterator is not used, and besides those of the attributes the block has only the
    builder's transactions, which the code adds in that case too.  The build is never cancelled or aborted,
    since the framework's token is ignored. *)
Theorem standard_try_build_spec `{X : Externals} `{B : !BuilderExternals X} `{S : !StateExternals X}
    `{J : !JobExternals X} `{!EvmGas X} `{!ReceiptLaws X} `{!FeeLaws X} `{!FlzLaws X}
    {It Self} `{PT : PayloadTransactions It} `{!PayloadTransactionsLaws It}
    `{BT : !BuilderTransactions Self unit unit} `{BL : !BuilderTransactionsLaws Self unit unit}
    config spec interop pc token best P (self : Self) limiter now :
  (forall n a, yields_only P (best n a)) -> self_ok self ->
  exists r st, try_build config spec interop pc token best self limiter now = Some (r, st) /\
    match r with
    | Ok (Better q) => no_tx_pool (pc_attributes pc) = false /\
        standard_payload config spec interop pc never_cancelled best self limiter now P q
    | Ok (Freeze q) => no_tx_pool (pc_attributes pc) = true /\
        standard_payload config spec interop pc never_cancelled best self limiter now P q
    | Ok _ => False
    | Err _ | Panic => True
    end.
Proof.
  intros Hy Hok. unfold try_build.
  destruct (standard_build_payload_trace config spec interop pc never_cancelled best P self limiter now
              Hy Hok) as (r & st & Hr & H). exists r, st. split; [done|].
  destruct r as [[q|fees| |q]| |]; try done. destruct H as (n & Hn). discriminate Hn.
Qed.

(** A run without the pool.  The frozen block has the builder's transactions 63 and 64 besides those
    of the attributes. *)
Lemma standard_try_build_spec_witness :
  exists q st, try_build (X := chain) std_config (sample_spec false) false
      (mkPayloadConfig sample_parent std_attributes) never_cancelled
      (fun _ _ => mkIter sample_pool []) sample_builder_txs (new_limiter (mkGasLimiterArgs false 0 0 0))
      0 = Some (Ok (Freeze q), st) /\
    standard_payload (X := chain) std_config (sample_spec false) false
      (mkPayloadConfig sample_parent std_attributes) never_cancelled (fun _ _ => mkIter sample_pool [])
      sample_builder_txs (new_limiter (mkGasLimiterArgs false 0 0 0)) 0 (pool_tx_ok 30000000) q /\
    tx_hash <$> b_transactions (p_block q) = [1; 3; 64; 63].
Proof.
  assert (H : frozen_hashes (try_build (X := chain) std_config (sample_spec false) false
      (mkPayloadConfig sample_parent std_attributes) never_cancelled
      (fun _ _ => mkIter sample_pool []) sample_builder_txs (new_limiter (mkGasLimiterArgs false 0 0 0))
      0) = Some [1; 3; 64; 63]) by (vm_compute; reflexivity).
  destruct (standard_try_build_spec (X := chain) std_config (sample_spec false) false
      (mkPayloadConfig sample_parent std_attributes) never_cancelled
      (fun _ _ => mkIter sample_pool []) (pool_tx_ok 30000000) sample_builder_txs
      (new_limiter (mkGasLimiterArgs false 0 0 0)) 0) as (r & st & E & Hr).
  - intros _ _. exact sample_pool_ok.
  - exact job_self_ok.
  - rewrite E in H. destruct r as [[q|fees| |q]| |]; try discriminate H.
    exists q, st. destruct Hr as [_ Hr]. split; [exact E|]. split; [exact Hr|].
    by injection H.
Defined.
