(* ===== verification/NoPool.v ===== *)
(** * Blocks without the pool

    A request with [no_tx_pool] asks for the block that the transactions of the request determine; a node
    that follows the chain derives it this way.  Both builders can be asked: the flashblocks builder stops
    after its fallback block ([builders/flashblocks/payload.rs]), the standard builder leaves out the pool
    ([builders/standard/payload.rs]).  The two are compared here: they run the same execution with
    different contexts, execution infos and sealing code. *)

From S2P Require Import Prelude External ExecInfo GasLimiter PoolTx BestTxs Sidecar Context Replay Sequencer BestExec SidecarExec BuilderTx FlashblocksCtx BuilderTxImpls Timing BuildBlock Flashblocks BuildPayload Standard.

(** ** What the comparison rests on *)

(** The state of a block lies on the provider of the parent's state, which executing does not change, and
    the roots are computed by the provider: the flashblocks builder reaches it through the state, the
    standard builder holds it. *)
Class ProviderLaws (X : Externals) `{!StateExternals X} : Type := {
  Provider : Type;
  provider : db -> Provider;
  provider_commit d c : provider (commit d c) = provider d;
  provider_merge d : provider (merge_transitions d) = provider d;
  provider_pre d h a d' : apply_pre_execution_changes d h a = inr d' -> provider d' = provider d;
  provider_state_root d d' b :
    provider d = provider d' -> state_root_with_updates d b = state_root_with_updates d' b;
  provider_withdrawals_root d d' b :
    provider d = provider d' -> isthmus_withdrawals_root b d = isthmus_withdrawals_root b d';
}.

(** A builder that has no transactions of its own. *)
Definition adds_nothing `{X : Externals} {Self ExtraCtx Extra : Type}
    `{!BuilderTransactions Self ExtraCtx Extra} (self : Self) : Prop :=
  forall p (info : ExecutionInfo Extra) (ctx : OpPayloadBuilderCtx ExtraCtx) d top,
    exists d', simulate_builder_txs self p info ctx d top = (Ok [], self, d').

(** ** One context for another *)

(** The context of the same job for a builder with another configuration and extra part, and an info with
    another extra part. *)
Definition recast {A C K} (config : BuilderConfig K) (interop : bool) (tok : CancellationToken) (x : C)
    (ctx : OpPayloadBuilderCtx A) : OpPayloadBuilderCtx C :=
  mkCtx (cfg_max_da_tx_size config) (cfg_max_da_block_size config) (gas_limit_config ctx) (chain_spec ctx)
    (parent ctx) (attributes ctx) (evm_env ctx) (block_env_attributes ctx) tok
    (cfg_builder_signer config) x (cfg_max_gas_per_txn config) interop.

Definition recast_info {A C} (x : C) (info : ExecutionInfo A) : ExecutionInfo C :=
  mkInfo (executed_transactions info) (executed_senders info) (receipts info) (cumulative_gas_used info)
    (cumulative_da_bytes_used info) (total_fees info) x (da_footprint_scalar info)
    (optional_blob_fields info).

Definition map_ok {E A C} (f : A -> C) (r : outcome E A) : outcome E C :=
  match r with Ok a => Ok (f a) | Err e => Err e | Panic => Panic end.

(** A loop whose body is the image of another's. *)
Lemma for_each_map {A S S' R R'} (body : A -> S -> ctl S R) (body' : A -> S' -> ctl S' R') f g xs s :
  (forall x s, body' x (f s) = match body x s with Next s' => Next (f s') | Stop r => Stop (g r) end) ->
  for_each body' xs (f s) = match for_each body xs s with Next s' => Next (f s') | Stop r => Stop (g r) end.
Proof.
  intros H. revert s. induction xs as [|x xs IH]; intros s; [done|]. simpl. rewrite H.
  destruct (body x s); [apply IH|done].
Qed.

Section NoPool.
Context `{X : Externals} `{B : !BuilderExternals X} `{S : !StateExternals X} `{J : !JobExternals X}.

(** The sequencer's transactions are executed alike. *)
Lemma sequencer_recast {A C K EA EC} (config : BuilderConfig K) interop (ctx : OpPayloadBuilderCtx A) tok
    (x : C) (ea : EA) (ec : EC) d :
  execute_sequencer_transactions (recast config interop tok x ctx) ec d =
  let '(r, d') := execute_sequencer_transactions ctx ea d in (map_ok (recast_info ec) r, d').
Proof using.
  unfold execute_sequencer_transactions.
  change (with_capacity ec, d)
    with ((fun s : ExecutionInfo EA * db => (recast_info ec (fst s), snd s)) (with_capacity ea, d)).
  rewrite (for_each_map (sequencer_body ctx) _ _ (fun r => (map_ok (recast_info ec) (fst r), snd r))).
  - change (attr_transactions (attributes (recast config interop tok x ctx))) with (attr_transactions (attributes ctx)).
    destruct (for_each _ _ _) as [[info d']|[r d']]; [|done]. simpl. f_equal. unfold record_scalar.
    change (is_jovian_active (recast config interop tok x ctx)) with (is_jovian_active ctx).
    destruct (is_jovian_active ctx); [|done]. simpl.
    by destruct (fetch_da_footprint_gas_scalar d').
  - intros t [info d0]. unfold sequencer_body. simpl.
    change (depositor_nonce (recast config interop tok x ctx)) with (depositor_nonce ctx).
    destruct (is_eip4844 t); [done|]. destruct (try_clone_into_recovered t) as [tx|]; [|done].
    destruct (depositor_nonce ctx d0 tx); [done|].
    destruct (transact (evm_env ctx) d0 tx) as [err|[result state]]; [by destruct (is_invalid_tx_err err)|].
    done.
Qed.

(** Executing stays on the provider. *)
Context `{PL : !ProviderLaws X}.

Lemma sequencer_provider {A EA} (ctx : OpPayloadBuilderCtx A) (ea : EA) d info d' :
  execute_sequencer_transactions ctx ea d = (Ok info, d') -> provider d' = provider d.
Proof using.
  unfold execute_sequencer_transactions. intros H.
  pose proof (for_each_invariant (fun s : ExecutionInfo EA * db => provider (snd s) = provider d)
    (fun r => match fst r with Ok _ => False | _ => True end) (sequencer_body ctx)
    (attr_transactions (attributes ctx))) as Hinv.
  specialize (Hinv ltac:(clear; intros t [i d1] s' _ Hs; unfold sequencer_body; intros Hn;
    repeat case_match; simplify_eq/=; by rewrite ?provider_commit)).
  specialize (Hinv ltac:(clear; intros t [i d1] r _ _ (e & -> & _)%sequencer_body_Stop; done)
    (with_capacity ea, d) eq_refl).
  destruct (for_each _ _ _) as [[i d1]|[r d1]]; simplify_eq/=; [done|by destruct Hinv].
Qed.

(** The two contexts of a request. *)
Lemma standard_ctx_recast (fcfg : FbConfig) (scfg : BuilderConfig unit) spec interop interop' pc tok x
    ctx tok' :
  cfg_gas_limit fcfg = cfg_gas_limit scfg -> get_op_payload_builder_ctx fcfg spec interop pc tok x = Ok ctx ->
  standard_ctx scfg spec interop' pc tok' = Ok (recast scfg interop' tok' tt ctx).
Proof using.
  intros Hgas. unfold get_op_payload_builder_ctx, standard_ctx.
  intros (e & He & (env & Henv & [= <-])%bind_Ok)%bind_Ok. rewrite He. simpl in *. rewrite Henv.
  unfold recast. simpl. by rewrite Hgas.
Qed.

(** The block that the flashblocks builder seals with its state root is the one the standard builder
    seals. *)
Lemma std_seal_recast (config : BuilderConfig unit) interop (ctx : FbCtx) (info : FbInfo) tok p d q :
  provider d = provider p -> seal_block ctx info d true = Ok q ->
  std_seal p (recast config interop tok tt ctx) (recast_info tt info) d = Ok q.
Proof using.
  intros Hp. unfold seal_block. intros ([[rr lb] sr] & Hr & H)%bind_Ok.
  apply bind_Ok in H as ([wr rh] & Hw & H). apply bind_Ok in H as ([eb bg] & Hb & H).
  apply bind_Ok in H as (ed & He & [= <-]).
  unfold block_roots in Hr. destruct (negb _); [done|].
  apply bind_Ok in Hr as (rr' & Hrr & Hr). apply bind_Ok in Hr as (lb' & Hlb & Hr).
  apply bind_Ok in Hr as (sr' & Hsr & [= -> -> ->]).
  unfold std_seal.
  change (blob_fields (recast config interop tok tt ctx) (recast_info tt info)) with (blob_fields (E := PayloadBuilderError) ctx info).
  change (extra_data (recast config interop tok tt ctx)) with (extra_data ctx).
  change (block_number (recast config interop tok tt ctx)) with (block_number ctx). simpl receipts.
  assert (Hw' : std_withdrawals_fields (recast config interop tok tt ctx) p d = Ok (wr, rh)).
  { rewrite <- Hw. unfold std_withdrawals_fields, withdrawals_fields.
    by rewrite (provider_withdrawals_root p d) by done. }
  rewrite (provider_state_root p d), Hb, Hw', He by done. cbn [bind].
  destruct (receipts_root_slow _ _ _); [|done]. destruct (block_logs_bloom _ _ _); [|done].
  simplify_eq/=. rewrite Hsr. done.
Qed.

(** The builder transactions of a builder that has none. *)
Lemma std_builder_phase_nothing {Self} `{BT : !BuilderTransactions Self unit unit} p
    (ctx : OpPayloadBuilderCtx unit) top (s : StdState Self) :
  adds_nothing (ss_self s) -> std_builder_phase p ctx top s = Some (Ok [], s).
Proof using.
  intros Hn. unfold std_builder_phase, add_builder_txs, simulate_builder_txs_with_state_copy.
  destruct (Hn p (ss_info s) ctx (with_cached_prestate p (ss_db s)) top) as [d' ->]. by destruct s.
Qed.

(** The standard builder freezes the sealed block of the sequencer's transactions. *)
Lemma build_no_pool {It Self} `{PT : PayloadTransactions It} `{BT : !BuilderTransactions Self unit unit}
    (ctx : OpPayloadBuilderCtx unit) (best : nat -> Z * option Z -> It) (s : StdState Self)
    d0 info d1 p q :
  no_tx_pool (attributes ctx) = true -> adds_nothing (ss_self s) ->
  apply_pre_execution_changes (ss_db s) (parent ctx) (block_env_attributes ctx) = inr d0 ->
  execute_sequencer_transactions ctx tt d0 = (Ok info, d1) ->
  std_seal p ctx info (merge_transitions d1) = Ok q ->
  build p ctx best s = Some (Ok (Freeze q), std_exec s info (merge_transitions d1)).
Proof using.
  intros Hn Hs Hd0 Hx Hq. unfold build, execute, mbind', std_pre_phase. rewrite Hd0, Hx.
  rewrite std_builder_phase_nothing by done. unfold mget, mret. simpl. rewrite Hn. simpl.
  rewrite std_builder_phase_nothing by done. unfold merge_phase, mlift. simpl. by rewrite Hq.
Qed.

(** What a flashblocks job that ends well without the pool has done. *)
Lemma build_payload_no_pool {It Self} `{PT : PayloadTransactions It}
    `{BT : !BuilderTransactions Self FlashblocksExtraCtx FlashblocksExecutionInfo}
    (config : FbConfig) spec interop (w : World It) pc clock fc signals (self : Self) limiter now s :
  no_tx_pool (pc_attributes pc) = true ->
  build_payload config spec interop w pc clock fc signals self limiter now = Some (Ok tt, Some s) ->
  exists x ctx d d0 info d1 p,
    get_op_payload_builder_ctx config spec interop pc (w_block_cancel w) x = Ok ctx /\
    state_by_block_hash (parent_hash ctx) = inr d /\
    apply_pre_execution_changes d (parent ctx) (block_env_attributes ctx) = inr d0 /\
    execute_sequencer_transactions ctx default_fb_info d0 = (Ok info, d1) /\
    seal_block ctx info (merge_transitions d1) true = Ok p /\
    fs_sent s = [p] /\ fs_cell s = Some p /\ fs_published s = [].
Proof using.
  intros Hn. unfold build_payload.
  destruct (let? x := fallback_extra_ctx config in _) as [[ctx d]| |] eqn:Hc; [|done..].
  apply bind_Ok in Hc as (x & Hx & Hc). apply bind_Ok in Hc as (ctx' & Hctx & Hc).
  apply bind_Ok in Hc as (d' & Hd%of_sum_Ok & [= <- <-]).
  assert (Ha : attributes ctx' = pc_attributes pc).
  { unfold get_op_payload_builder_ctx in Hctx.
    by apply bind_Ok in Hctx as (e & _ & (env & _ & [= <-])%bind_Ok). }
  unfold execute_pre_steps. destruct (apply_pre_execution_changes _ _ _) as [|d0] eqn:Hd0; [done|].
  destruct (execute_sequencer_transactions _ _ _) as [[info| |] d1] eqn:Hs; [|done..].
  unfold fallback_phase, mbind', seal_phase, payload_try_send, set_best_payload.
  rewrite Ha, Hn. simpl. rewrite orb_true_r.
  destruct (build_block ctx' info d1 true) as [[[[p fb]| |] info'] d2] eqn:Hb; [|done..].
  destruct (w_try_send w _ p); [|done]. intros [= <-]. simpl.
  exists x, ctx', d', d0, info, d1, p. split_and!; try done.
  unfold build_block in Hb. destruct (seal_block ctx' info _ true) as [q| |]; [|done..].
  destruct (new_since info) as [[txs rs]| |]; [|done..].
  destruct (make_flashblock _ _ _ _ _ _); [|done..]. congruence.
Qed.

End NoPool.

(** Without a key and without flashtestations the standard builder has no transactions of its own. *)
Lemma keyless_adds_nothing `{X : Externals} `{!BuilderExternals X} `{Abi} :
  adds_nothing (mkStandard None None).
Proof. intros p info ctx d top. by exists d. Qed.

(** The test chain computes its roots from the bundle alone. *)
Module TestNoPool.
Import TestChain TestPool TestSigner TestState TestJob TestPayload TestStandard.

#[export] Instance test_provider : ProviderLaws chain.
Proof. refine {| Provider := unit; provider _ := tt |}; done. Defined.

(** A request without the pool, as each builder is asked. *)
Definition derived : PayloadConfig := mkPayloadConfig sample_parent std_attributes.
Definition derive_flashblocks (self : canned) :=
  build_payload (X := chain) (sample_config 0) (sample_spec false) false
    (job_world true) derived 0 never_cancelled [] self
    (new_limiter (mkGasLimiterArgs false 0 0 0)) 0.
Definition derive_standard (self : canned) :=
  try_build (X := chain) std_config (sample_spec false) true derived
    never_cancelled (fun _ _ => mkIter sample_pool []) self
    (new_limiter (mkGasLimiterArgs false 0 0 0)) 0.
Definition best_hashes {A} (r : option (A * option (FbState pool_iter canned))) : option (list Z) :=
  match r with
  | Some (_, Some s) => (fun p => tx_hash <$> b_transactions (p_block p)) <$> fs_cell s
  | _ => None
  end.

End TestNoPool.

Import TestChain TestPool TestSigner TestState TestJob TestPayload TestStandard TestNoPool.

(** With a key, the standard builder's block has the builder transactions 64 and 63 that the flashblocks
    builder leaves out. *)
Lemma builder_txs_without_pool :
  frozen_hashes (derive_standard sample_builder_txs) = Some [1; 3; 64; 63] /\
  best_hashes (derive_flashblocks sample_builder_txs) = Some [1; 3].
Proof. split; vm_compute; reflexivity. Qed.

(** ** Properties *)

(** C8: a request without the pool is answered with one block, by either builder: when the flashblocks
    builder ends well, whatever its pool, its clock, its timer and its sidecar do, it has sent one
    payload, which is its best payload, and has published nothing; and a standard builder with the same
    configured gas limit and no transactions of its own freezes that same payload, whatever the rest of
    its configuration, its pool, its token and its gas limiter.  The payload has the same header with the same roots, the same transactions and
    receipts, the same hash and the same fees. *)
Theorem no_pool_builders_agree `{X : Externals} `{B : !BuilderExternals X} `{S : !StateExternals X}
    `{J : !JobExternals X} `{!ProviderLaws X} {It It' Self Self'} `{PT : PayloadTransactions It}
    `{PT' : PayloadTransactions It'}
    `{BT : !BuilderTransactions Self FlashblocksExtraCtx FlashblocksExecutionInfo}
    `{BT' : !BuilderTransactions Self' unit unit}
    (fcfg : FbConfig) (scfg : BuilderConfig unit) spec interop interop' (w : World It) pc
    clock fc signals (self : Self) limiter now s
    token (best : nat -> Z * option Z -> It') (self' : Self') limiter' now' :
  no_tx_pool (pc_attributes pc) = true -> cfg_gas_limit fcfg = cfg_gas_limit scfg ->
  adds_nothing self' ->
  build_payload fcfg spec interop w pc clock fc signals self limiter now = Some (Ok tt, Some s) ->
  exists p, fs_sent s = [p] /\ fs_cell s = Some p /\ fs_published s = [] /\
    exists st, try_build scfg spec interop' pc token best self' limiter' now' = Some (Ok (Freeze p), st).
Proof.
  intros Hn Hsame Hnone H.
  destruct (build_payload_no_pool _ _ _ _ _ _ _ _ _ _ _ _ Hn H)
    as (x & ctx & d & d0 & info & d1 & p & Hctx & Hd & Hd0 & Hseq & Hseal & Hsent & Hcell & Hpub).
  exists p. split_and!; [done..|]. unfold try_build, standard_build_payload.
  rewrite (standard_ctx_recast _ _ _ _ interop' _ _ _ _ never_cancelled Hsame Hctx).
  change (parent_hash (recast scfg interop' never_cancelled tt ctx)) with (parent_hash ctx). rewrite Hd.
  assert (Ha : attributes ctx = pc_attributes pc).
  { unfold get_op_payload_builder_ctx in Hctx.
    by apply bind_Ok in Hctx as (e & _ & (env & _ & [= <-])%bind_Ok). }
  rewrite (build_no_pool _ _ _ d0 (recast_info tt info) d1 _ p); [by eexists|simpl..].
  - by rewrite Ha.
  - done.
  - done.
  - rewrite (sequencer_recast _ _ ctx _ _ default_fb_info), Hseq. done.
  - apply std_seal_recast; [|done]. rewrite provider_merge, (sequencer_provider _ _ _ _ _ Hseq).
    by eapply provider_pre.
Qed.

(** The two builders on the request above, the standard one without transactions of its own. *)
Lemma no_pool_builders_agree_witness :
  exists s p st, derive_flashblocks sample_builder_txs = Some (Ok tt, Some s) /\
    fs_sent s = [p] /\ derive_standard [] = Some (Ok (Freeze p), st) /\
    tx_hash <$> b_transactions (p_block p) = [1; 3].
Proof.
  assert (Hrun : job_summary (derive_flashblocks sample_builder_txs) = (true, 0%nat))
    by (vm_compute; reflexivity).
  destruct (derive_flashblocks sample_builder_txs) as [[[[]| |] [s|]]|] eqn:E; try discriminate Hrun.
  destruct (no_pool_builders_agree (X := chain) (sample_config 0) std_config (sample_spec false) false true
    (job_world true) derived 0 never_cancelled [] sample_builder_txs
    (new_limiter (mkGasLimiterArgs false 0 0 0)) 0 s never_cancelled
    (fun _ _ => mkIter sample_pool []) ([] : canned) (new_limiter (mkGasLimiterArgs false 0 0 0)) 0)
    as (p & Hs & _ & _ & st & Hst).
  - reflexivity.
  - reflexivity.
  - intros ? ? ? d ?. by exists d.
  - exact E.
  - exists s, p, st. split; [reflexivity|]. split; [exact Hs|]. split; [exact Hst|].
    assert (H : frozen_hashes (derive_standard []) = Some [1; 3]) by (vm_compute; reflexivity).
    unfold derive_standard in H. rewrite Hst in H. injection H as H. exact H.
Defined.
