(* ===== verification/Generator.v ===== *)
(** * The payload job generator

    Models [builders/generator.rs]: the generator that starts a job for every request to build a
    block, the jobs with their cancellation tokens, deadlines and cells, and the futures that wait for
    a payload.  Tokens, cells and the generator are shared between the service, the build tasks and
    the futures; they live in one store, and what the parties do is a step relation on it. *)

From S2P Require Import Prelude External ExecInfo Context Timing BuildPayload.

(** ** Data *)

(** [CachedReads]: the accounts and storage slots read so far. *)
Definition CachedReads : Type := gmap Address (AccountInfo * gmap Z Z).

Definition insert_account (c : CachedReads) (address : Address) (info : AccountInfo)
    (storage : gmap Z Z) : CachedReads := <[address := (info, storage)]> c.

Record PrecachedState : Type := mkPrecached { pre_block : B256; pre_cached_reads : CachedReads }.

(** An account of the execution outcome of a committed chain: its info, if it exists, and the
    present values of its slots. *)
Record BundleAccount : Type := mkBundleAccount {
  ba_info : option AccountInfo;
  ba_storage : list (Z * Z);
}.

Record BlockPayloadJobGenerator : Type := mkGenerator {
  ensure_only_one_payload : bool;
  last_payload : nat;
  extra_block_deadline : Duration;
  pre_cached : option PrecachedState;
}.

(** The build task of a job: still running, or finished with what it sent through the channel that
    [build_complete] receives from. *)
Inductive BuildTask : Type :=
| Running
| Finished (result : outcome PayloadBuilderError unit).

(** A job with the cell it shares with its build task.  Besides the cell's value all the values it
    was ever set to are kept, and the reads the task was started with. *)
Record BlockPayloadJob (P : Type) : Type := mkJob {
  job_config : PayloadConfig;
  job_history : list P;
  job_cancel : nat;
  job_deadline_at : SystemTime;
  job_build_complete : BuildTask;
  job_cached_reads : option CachedReads;
  job_build_reads : CachedReads;
}.
Arguments mkJob {P}.
Arguments job_config {P} _.
Arguments job_history {P} _.
Arguments job_cancel {P} _.
Arguments job_deadline_at {P} _.
Arguments job_build_complete {P} _.
Arguments job_cached_reads {P} _.
Arguments job_build_reads {P} _.

(** The store: the generator, the tokens created so far and the cancelled ones, and the jobs. *)
Record Store (P : Type) : Type := mkStore {
  st_generator : BlockPayloadJobGenerator;
  st_tokens : nat;
  st_cancelled : gset nat;
  st_jobs : list (BlockPayloadJob P);
}.
Arguments mkStore {P}.
Arguments st_generator {P} _.
Arguments st_tokens {P} _.
Arguments st_cancelled {P} _.
Arguments st_jobs {P} _.

Inductive Poll (A : Type) : Type :=
| Ready (a : A)
| Pending.
Arguments Ready {A} a.
Arguments Pending {A}.

(** ** Deadlines *)

(** [job_deadline] *)
Definition job_deadline (unix_timestamp_secs : Z) (now : SystemTime) : Duration :=
  let unix_now := now / SECOND in
  let duration_until := saturating_sub unix_timestamp_secs unix_now in
  if duration_until =? 0 then from_secs 1 else from_secs duration_until.

(** The sum of two durations panics when it overflows. *)
Definition dur_add {E} (a b : Duration) : outcome E Duration :=
  if DURATION_MAX <? a + b then Panic else Ok (a + b).

(** ** The generator *)

Section Generator.
Context {P : Type}.
(** The client's lookups of headers; a number is a provider error. *)
Context (latest_header : Z + option SealedHeader) (sealed_header_by_hash : B256 -> Z + option SealedHeader).
Implicit Type s : Store P.
Implicit Type job : BlockPayloadJob P.

(** [BlockPayloadJobGenerator::with_builder]: the first token belongs to no job. *)
Definition with_builder (ensure_only_one_payload : bool) (extra_block_deadline : Duration) : Store P :=
  mkStore (mkGenerator ensure_only_one_payload 0 extra_block_deadline None) 1 ∅ [].

Definition maybe_pre_cached (g : BlockPayloadJobGenerator) (parent : B256) : option CachedReads :=
  match pre_cached g with
  | Some pc => if pre_block pc =? parent then Some (pre_cached_reads pc) else None
  | None => None
  end.

(** [CancellationToken::new], [cancel] and [is_cancelled]. *)
Definition new_token s : nat * Store P :=
  (st_tokens s, mkStore (st_generator s) (S (st_tokens s)) (st_cancelled s) (st_jobs s)).
Definition cancel_token (t : nat) s : Store P :=
  mkStore (st_generator s) (st_tokens s) ({[t]} ∪ st_cancelled s) (st_jobs s).
Definition token_cancelled (t : nat) s : bool := bool_decide (t ∈ st_cancelled s).

Definition set_last_payload (t : nat) s : Store P :=
  let g := st_generator s in
  mkStore (mkGenerator (ensure_only_one_payload g) t (extra_block_deadline g) (pre_cached g))
    (st_tokens s) (st_cancelled s) (st_jobs s).

Definition push_job job s : Store P :=
  mkStore (st_generator s) (st_tokens s) (st_cancelled s) (st_jobs s ++ [job]).
Definition alter_job (f : BlockPayloadJob P -> BlockPayloadJob P) (j : nat) s : Store P :=
  mkStore (st_generator s) (st_tokens s) (st_cancelled s) (alter f j (st_jobs s)).

(** [spawn_build_job]: the task takes the cached reads. *)
Definition spawn_build_job job : BlockPayloadJob P :=
  mkJob (job_config job) (job_history job) (job_cancel job) (job_deadline_at job) Running None
    (unwrap_or (job_cached_reads job) ∅).

(** The token of a new job. *)
Definition job_token s : nat * Store P :=
  let g := st_generator s in
  if ensure_only_one_payload g then
    let s := cancel_token (last_payload g) s in
    let '(cancel_token, s) := new_token s in
    (cancel_token, set_last_payload cancel_token s)
  else new_token s.

Definition parent_header (attributes : OpPayloadBuilderAttributes)
    : outcome PayloadBuilderError SealedHeader :=
  let? found :=
    of_sum (OtherExternal "header")
      (if attr_parent attributes =? 0 then latest_header
       else sealed_header_by_hash (attr_parent attributes)) in
  ok_or found (MissingParentBlock (attr_parent attributes)).

(** [new_payload_job]; the result is the number of the job. *)
Definition new_payload_job (attributes : OpPayloadBuilderAttributes) (now : SystemTime) s
    : outcome PayloadBuilderError nat * Store P :=
  let '(cancel_token, s) := job_token s in
  match (let? header := parent_header attributes in
         let? deadline :=
           dur_add (job_deadline (attributes_timestamp attributes) now)
             (extra_block_deadline (st_generator s)) in
         Ok (header, deadline)) with
  | Err e => (Err e, s)
  | Panic => (Panic, s)
  | Ok (header, deadline) =>
      let job :=
        mkJob (mkPayloadConfig header attributes) [] cancel_token (now + deadline) Running
          (maybe_pre_cached (st_generator s) (sh_hash header)) ∅ in
      (Ok (length (st_jobs s)), push_job (spawn_build_job job) s)
  end.

(** [on_new_state] *)
Definition on_new_state (tip : B256) (accounts : list (Address * BundleAccount)) s : Store P :=
  let cached :=
    fold_left (fun cached '(addr, acc) =>
      match ba_info acc with
      | Some info => insert_account cached addr info (list_to_map (ba_storage acc))
      | None => cached
      end) accounts ∅ in
  let g := st_generator s in
  mkStore (mkGenerator (ensure_only_one_payload g) (last_payload g) (extra_block_deadline g)
             (Some (mkPrecached tip cached)))
    (st_tokens s) (st_cancelled s) (st_jobs s).

(** ** Jobs, cells and futures *)

(** [BlockCell::set] and [get] on the cell of a job. *)
Definition cell_set (j : nat) (value : P) s : Store P :=
  alter_job (fun job =>
    mkJob (job_config job) (job_history job ++ [value]) (job_cancel job) (job_deadline_at job)
      (job_build_complete job) (job_cached_reads job) (job_build_reads job)) j s.
Definition cell_get (j : nat) s : option P :=
  job ← st_jobs s !! j; last (job_history job).

(** The end of the build task: its result goes into the channel. *)
Definition build_done (j : nat) (result : outcome PayloadBuilderError unit) s : Store P :=
  alter_job (fun job =>
    mkJob (job_config job) (job_history job) (job_cancel job) (job_deadline_at job)
      (Finished result) (job_cached_reads job) (job_build_reads job)) j s.

(** [WaitForValue::poll] and [ResolvePayload::poll] of the future for a job. *)
Definition wait_poll (j : nat) s : Poll P :=
  match cell_get j s with Some value => Ready value | None => Pending end.
Definition resolve_poll (j : nat) s : Poll (outcome PayloadBuilderError P) :=
  match wait_poll j s with Ready value => Ready (Ok value) | Pending => Pending end.

(** [resolve_kind]: the job is cancelled; the future waits for its cell. *)
Definition resolve_kind (j : nat) s : Store P :=
  match st_jobs s !! j with Some job => cancel_token (job_cancel job) s | None => s end.

(** [best_payload], which is not implemented, and [payload_attributes] of a job. *)
Definition best_payload (j : nat) s : outcome PayloadBuilderError P := Panic.
Definition payload_attributes (j : nat) s : outcome PayloadBuilderError (option OpPayloadBuilderAttributes) :=
  Ok (pc_attributes ∘ job_config <$> st_jobs s !! j).

(** [poll] of a job. *)
Definition job_poll (j : nat) (now : SystemTime) s
    : Poll (outcome PayloadBuilderError unit) * Store P :=
  match st_jobs s !! j with
  | None => (Pending, s)
  | Some job =>
      if job_deadline_at job <=? now then (Ready (Ok tt), cancel_token (job_cancel job) s)
      else if token_cancelled (job_cancel job) s then (Ready (Ok tt), s)
      else (Pending, s)
  end.

End Generator.

(** ** The builder of a job

    What the runs of [PayloadBuilder::try_build] may do: the payloads they set the cell to, in order,
    and their result. *)
Class PayloadBuilder (P : Type) : Type :=
  builds : PayloadConfig -> list P -> outcome PayloadBuilderError unit -> Prop.

(** What a builder promises to the generator: its payloads are good for the job, and a run that ends
    well has set the cell. *)
Class PayloadBuilderLaws (P : Type) `{!PayloadBuilder P} : Type := {
  good_payload : PayloadConfig -> P -> Prop;
  builds_good pc ps r : builds pc ps r -> Forall (good_payload pc) ps;
  builds_sets pc ps : builds pc ps (Ok tt) -> ps <> [];
}.

(** ** Steps

    Requests from the engine, news of the chain, resolutions, polls by the service, and the build
    tasks, interleaved in any order. *)
Section Steps.
Context {P : Type} `{PB : !PayloadBuilder P}.
Implicit Type s : Store P.

Inductive step : Store P -> Store P -> Prop :=
| step_request latest by_hash attributes now s :
    step s (snd (new_payload_job latest by_hash attributes now s))
| step_new_state tip accounts s : step s (on_new_state tip accounts s)
| step_resolve j s : step s (resolve_kind j s)
| step_poll j now s : step s (snd (job_poll j now s))
| step_set j job value ps r s :
    st_jobs s !! j = Some job -> job_build_complete job = Running ->
    builds (job_config job) ps r -> job_history job ++ [value] `prefix_of` ps ->
    step s (cell_set j value s)
| step_done j job r s :
    st_jobs s !! j = Some job -> job_build_complete job = Running ->
    builds (job_config job) (job_history job) r ->
    step s (build_done j r s).

(** ** Specification *)

(** A job the store may hold: its payloads come from a run of the builder. *)
Definition wf_job (job : BlockPayloadJob P) : Prop :=
  (job_history job <> [] -> exists ps r, builds (job_config job) ps r /\ job_history job `prefix_of` ps) /\
  (forall r, job_build_complete job = Finished r -> builds (job_config job) (job_history job) r).

(** Every job has its own token, and with [ensure_only_one_payload] only the newest can be live. *)
Record wf_store s : Prop := {
  wf_tokens : Forall (fun job => (job_cancel job < st_tokens s)%nat) (st_jobs s);
  wf_last : (last_payload (st_generator s) < st_tokens s)%nat;
  wf_jobs : Forall wf_job (st_jobs s);
  wf_live : ensure_only_one_payload (st_generator s) = true ->
    Forall (fun job => job_cancel job ∈ st_cancelled s \/
                       job_cancel job = last_payload (st_generator s)) (st_jobs s);
  wf_newest : ensure_only_one_payload (st_generator s) = true ->
    forall j job, st_jobs s !! j = Some job -> job_cancel job = last_payload (st_generator s) ->
      S j = length (st_jobs s);
}.

(** What no step undoes: the jobs stay, with their configuration, token and deadline; histories grow,
    cancelled tokens stay cancelled, and a finished task stays finished with its history. *)
Record later_store s s' : Prop := {
  ls_flag : ensure_only_one_payload (st_generator s') = ensure_only_one_payload (st_generator s);
  ls_cancelled : st_cancelled s ⊆ st_cancelled s';
  ls_jobs : forall j job, st_jobs s !! j = Some job -> exists job',
    st_jobs s' !! j = Some job' /\ job_config job' = job_config job /\
    job_cancel job' = job_cancel job /\ job_deadline_at job' = job_deadline_at job /\
    job_history job `prefix_of` job_history job' /\
    (forall r, job_build_complete job = Finished r ->
       job_build_complete job' = Finished r /\ job_history job' = job_history job);
}.

(** What cancels the job [j]: its payload is asked for, it is polled at or after its deadline, or a new
    job is requested where only one may run. *)
Inductive ends_job (j : nat) : Store P -> Store P -> Prop :=
| ends_resolve s : ends_job j s (resolve_kind j s)
| ends_poll s job now : st_jobs s !! j = Some job -> job_deadline_at job <= now ->
    ends_job j s (snd (job_poll j now s))
| ends_request s latest by_hash attributes now : ensure_only_one_payload (st_generator s) = true ->
    ends_job j s (snd (new_payload_job latest by_hash attributes now s)).

(** No two jobs share a token, and a token that was not created is not cancelled. *)
Record own_tokens s : Prop := {
  own_distinct : NoDup (job_cancel <$> st_jobs s);
  own_created : Forall (fun t => (t < st_tokens s)%nat) (job_cancel <$> st_jobs s);
  own_last : (last_payload (st_generator s) < st_tokens s)%nat;
  own_cancelled : forall t, t ∈ st_cancelled s -> (t < st_tokens s)%nat;
}.

(** ** Lemmas *)

(** A job is given at least a second, and the time until the block. *)
Lemma job_deadline_after ts now :
  from_secs 1 <= job_deadline ts now /\ from_secs ts - now <= job_deadline ts now.
Proof using.
  unfold job_deadline, saturating_sub, from_secs, SECOND.
  pose proof (Z.mul_div_le now 1000000000 eq_refl).
  pose proof (Z.mul_succ_div_gt now 1000000000 eq_refl).
  destruct (Z.eqb_spec (Z.max 0 (ts - now / 1000000000)) 0); lia.
Qed.

Lemma later_store_refl s : later_store s s.
Proof. split; [done|done|]. intros j job H. exists job. naive_solver. Qed.

Lemma later_store_trans s1 s2 s3 : later_store s1 s2 -> later_store s2 s3 -> later_store s1 s3.
Proof.
  intros [F1 C1 J1] [F2 C2 J2]. split; [congruence|set_solver|]. intros j job Hj.
  destruct (J1 _ _ Hj) as (job1 & Hj1 & A1 & B1 & D1 & E1 & G1).
  destruct (J2 _ _ Hj1) as (job2 & Hj2 & A2 & B2 & D2 & E2 & G2).
  exists job2. split_and!; [done|congruence..|by etrans|]. intros r Hr.
  destruct (G1 _ Hr) as [Hr1 Hh1]. destruct (G2 _ Hr1) as [Hr2 Hh2]. split; [done|congruence].
Qed.

(** A store whose jobs are the same, with more cancelled tokens. *)
Lemma later_store_same s s' :
  ensure_only_one_payload (st_generator s') = ensure_only_one_payload (st_generator s) ->
  st_cancelled s ⊆ st_cancelled s' -> st_jobs s `prefix_of` st_jobs s' -> later_store s s'.
Proof.
  intros Hf Hc Hp. split; [done..|]. intros j job Hj. exists job.
  split; [by eapply prefix_lookup_Some|]. naive_solver.
Qed.

Lemma later_store_alter f j s job :
  st_jobs s !! j = Some job -> job_build_complete job = Running ->
  job_config (f job) = job_config job -> job_cancel (f job) = job_cancel job ->
  job_deadline_at (f job) = job_deadline_at job -> job_history job `prefix_of` job_history (f job) ->
  later_store s (alter_job f j s).
Proof.
  intros Hj Hr Hc Ht Hd Hh. split; [done..|]. intros i job' Hi. simpl.
  destruct (decide (i = j)) as [->|Hne].
  - rewrite Hj in Hi. injection Hi as <-. exists (f job). rewrite list_lookup_alter_eq, Hj.
    split_and!; try done. intros r Hr'. by rewrite Hr' in Hr.
  - exists job'. rewrite list_lookup_alter_ne by done. naive_solver.
Qed.

(** The token of a new job is fresh, and whatever the flag says, nothing else is forgotten. *)
Lemma job_token_spec s t s1 :
  job_token s = (t, s1) ->
  t = st_tokens s /\ st_tokens s1 = S (st_tokens s) /\ st_jobs s1 = st_jobs s /\
  ensure_only_one_payload (st_generator s1) = ensure_only_one_payload (st_generator s) /\
  extra_block_deadline (st_generator s1) = extra_block_deadline (st_generator s) /\
  pre_cached (st_generator s1) = pre_cached (st_generator s) /\
  st_cancelled s ⊆ st_cancelled s1 /\
  if ensure_only_one_payload (st_generator s)
  then last_payload (st_generator s1) = t /\ last_payload (st_generator s) ∈ st_cancelled s1
  else last_payload (st_generator s1) = last_payload (st_generator s).
Proof.
  unfold job_token. destruct (ensure_only_one_payload (st_generator s)) eqn:E; simpl;
    intros [= <- <-]; simpl; rewrite ?E; split_and!; try done; set_solver.
Qed.

Lemma wf_job_token s t s1 : wf_store s -> job_token s = (t, s1) -> wf_store s1.
Proof.
  intros [Ht Hl Hj Hv Hn] (-> & Hk & Hjobs & Hf & _ & _ & Hc & Hif)%job_token_spec.
  split; rewrite ?Hjobs, ?Hk, ?Hf.
  - eapply Forall_impl; [exact Ht|]. simpl. lia.
  - destruct (ensure_only_one_payload _); [destruct Hif as [-> _]; lia|rewrite Hif; lia].
  - done.
  - intros He. rewrite He in Hif. destruct Hif as [Hlp Hin]. eapply Forall_impl; [by apply Hv|].
    simpl. intros job [Hjc|Hjc]; left; [set_solver|by rewrite Hjc].
  - intros He j job Hlk Heq. rewrite He in Hif. destruct Hif as [Hlp _]. rewrite Hlp in Heq.
    rewrite Forall_lookup in Ht. specialize (Ht _ _ Hlk). simpl in Ht. lia.
Qed.

Lemma wf_cancel_token t s : wf_store s -> wf_store (cancel_token t s).
Proof.
  intros [Ht Hl Hj Hv Hn]. split; simpl; try done. intros He. eapply Forall_impl; [by apply Hv|].
  simpl. set_solver.
Qed.

Lemma wf_request latest by_hash attributes now s :
  wf_store s -> wf_store (snd (new_payload_job latest by_hash attributes now s)).
Proof.
  intros Hw. unfold new_payload_job. destruct (job_token s) as [t s1] eqn:E.
  pose proof (wf_job_token _ _ _ Hw E) as [Ht Hl Hj Hv Hn].
  apply job_token_spec in E as (-> & Hk & Hjobs & Hf & _ & _ & _ & Hif).
  destruct (bind _ _) as [[header deadline]| |]; simpl; [|by split..].
  split; simpl.
  - apply Forall_app. split; [done|]. constructor; [simpl; lia|done].
  - done.
  - apply Forall_app. split; [done|]. constructor; [|done]. by split.
  - intros He. apply Forall_app. split; [by apply Hv|]. constructor; [|done]. simpl. right.
    rewrite <- Hf, He in Hif. by destruct Hif.
  - intros He j job Hlk Heq. rewrite length_app. simpl.
    apply lookup_app_Some in Hlk as [Hlk|[Hle Hlk]].
    + specialize (Hn He _ _ Hlk Heq). rewrite <- Hf, He in Hif. destruct Hif as [Hlp _].
      rewrite Hlp in Heq. rewrite Hjobs in Hlk. destruct Hw as [Ht0 _ _ _ _].
      rewrite Forall_lookup in Ht0. specialize (Ht0 _ _ Hlk). simpl in Ht0. lia.
    + apply list_lookup_singleton_Some in Hlk as [Hz _]. lia.
Qed.

(** Altering a job's history or task keeps the store well formed. *)
Lemma wf_alter f j s job :
  wf_store s -> st_jobs s !! j = Some job -> (forall job, job_cancel (f job) = job_cancel job) ->
  wf_job (f job) -> wf_store (alter_job f j s).
Proof.
  intros [Ht Hl Hj Hv Hn] Hlk Hc Hw.
  assert (Hall : forall Q : BlockPayloadJob P -> Prop, Forall Q (st_jobs s) -> Q (f job) ->
    Forall Q (alter f j (st_jobs s))).
  { intros Q HQ Hf. rewrite Forall_lookup in *. intros i job' Hi.
    destruct (decide (i = j)) as [->|Hne].
    - rewrite list_lookup_alter_eq, Hlk in Hi. by injection Hi as <-.
    - rewrite list_lookup_alter_ne in Hi by done. by eapply HQ. }
  split; simpl; try done.
  - apply Hall; [done|]. rewrite Hc. by eapply (Forall_lookup_1 _ _ _ _ Ht).
  - by apply Hall.
  - intros He. apply Hall; [by apply Hv|]. rewrite Hc.
    by eapply (Forall_lookup_1 _ _ _ _ (Hv He)).
  - intros He i job' Hi Heq. rewrite length_alter. destruct (decide (i = j)) as [->|Hne].
    + rewrite list_lookup_alter_eq, Hlk in Hi. injection Hi as <-. rewrite Hc in Heq. by eapply Hn.
    + rewrite list_lookup_alter_ne in Hi by done. by eapply Hn.
Qed.

Lemma step_store_wf s s' : wf_store s -> step s s' -> wf_store s'.
Proof.
  intros Hw Hs. revert Hw.
  destruct Hs as [| | | |j job value ps r s H|j job r s H]; intros Hw; simpl.
  - by apply wf_request.
  - destruct Hw. by split.
  - unfold resolve_kind. case_match; [by apply wf_cancel_token|done].
  - unfold job_poll. repeat case_match; simpl; auto using wf_cancel_token.
  - eapply wf_alter; [done..|]. split; simpl; [eauto|]. intros r' Hr. congruence.
  - eapply wf_alter; [done..|]. pose proof (Forall_lookup_1 _ _ _ _ (wf_jobs _ Hw) H) as [Hh _].
    split; simpl; [done|]. by intros r' [= <-].
Qed.

Lemma request_later latest by_hash attributes now s :
  later_store s (snd (new_payload_job latest by_hash attributes now s)).
Proof.
  unfold new_payload_job. destruct (job_token s) as [t s1] eqn:E.
  apply job_token_spec in E as (_ & _ & Hj & Hf & _ & _ & Hc & _).
  destruct (bind _ _) as [[header deadline]| |]; simpl; apply later_store_same; simpl; try done;
    rewrite Hj; [by eexists|done..].
Qed.

Lemma step_later s s' : step s s' -> later_store s s'.
Proof.
  intros []; simpl.
  - apply request_later.
  - by apply later_store_same.
  - unfold resolve_kind. case_match; [|apply later_store_refl].
    apply later_store_same; simpl; [done|set_solver|done].
  - unfold job_poll. repeat case_match; simpl; try apply later_store_refl.
    apply later_store_same; simpl; [done|set_solver|done].
  - eapply later_store_alter; [done..|]. simpl. by eexists.
  - eapply later_store_alter; [done..|]. done.
Qed.

Lemma steps_later s s' : star step s s' -> later_store s s'.
Proof.
  induction 1 as [s|s t u Hs _ IH]; [apply later_store_refl|].
  eapply later_store_trans; [by apply step_later|done].
Qed.

Lemma with_builder_wf ensure extra : wf_store (with_builder ensure extra : Store P).
Proof. split; simpl; [constructor|lia|constructor|constructor|]. intros _ j job Hj. set_solver. Qed.

Lemma reachable_wf ensure extra s : star step (with_builder ensure extra) s -> wf_store s.
Proof.
  intros H. apply (star_invariant step wf_store step_store_wf _ _ H), with_builder_wf.
Qed.

(** What a request does to the tokens. *)
Lemma request_tokens latest by_hash attributes now s :
  let s' := snd (new_payload_job latest by_hash attributes now s) in
  st_tokens s' = S (st_tokens s) /\
  (last_payload (st_generator s') = st_tokens s \/ st_generator s' = st_generator s) /\
  st_cancelled s' = (if ensure_only_one_payload (st_generator s)
                     then {[last_payload (st_generator s)]} ∪ st_cancelled s else st_cancelled s) /\
  (job_cancel <$> st_jobs s' = job_cancel <$> st_jobs s \/
   job_cancel <$> st_jobs s' = (job_cancel <$> st_jobs s) ++ [st_tokens s]).
Proof.
  unfold new_payload_job, job_token. destruct (ensure_only_one_payload (st_generator s)); simpl;
    destruct (bind _ _) as [[header deadline]| |]; simpl; rewrite ?fmap_app; simpl; auto.
Qed.

Lemma own_cancel s job j : own_tokens s -> st_jobs s !! j = Some job -> own_tokens (cancel_token (job_cancel job) s).
Proof.
  intros [Hd Hc Hl Hx] Hj. split; simpl; try done. intros t [->%elem_of_singleton|Ht]%elem_of_union; [|auto].
  rewrite Forall_fmap in Hc. exact (Forall_lookup_1 _ _ _ _ Hc Hj).
Qed.

Lemma own_alter f j s : (forall job, job_cancel (f job) = job_cancel job) -> own_tokens s -> own_tokens (alter_job f j s).
Proof.
  intros Hf [Hd Hc Hl Hx].
  assert (He : job_cancel <$> alter f j (st_jobs s) = job_cancel <$> st_jobs s).
  { apply list_eq. intros i. rewrite !list_lookup_fmap. destruct (decide (i = j)) as [->|Hne].
    - rewrite list_lookup_alter_eq. destruct (st_jobs s !! j); simpl; by rewrite ?Hf.
    - by rewrite list_lookup_alter_ne. }
  split; simpl; rewrite ?He; done.
Qed.

Lemma step_own_tokens s s' : own_tokens s -> step s s' -> own_tokens s'.
Proof.
  intros Ho Hs. revert Ho. destruct Hs as [latest by_hash attributes now s| | | |j job value ps r s H|j job r s H];
    intros Ho.
  - destruct (request_tokens latest by_hash attributes now s) as (Ht & Hl & Hc & Hj).
    destruct Ho as [O1 O2 O3 O4]. split; rewrite ?Ht.
    + destruct Hj as [-> | ->]; [done|]. apply NoDup_app. split_and!; [done| |apply NoDup_singleton].
      intros t Hin ->%list_elem_of_singleton. rewrite Forall_forall in O2. specialize (O2 _ Hin). simpl in O2. lia.
    + assert (Forall (fun t => (t < S (st_tokens s))%nat) (job_cancel <$> st_jobs s)).
      { eapply Forall_impl; [exact O2|]. simpl. lia. }
      destruct Hj as [-> | ->]; [done|]. apply Forall_app. split; [done|]. constructor; [lia|done].
    + destruct Hl as [-> | ->]; lia.
    + rewrite Hc. intros t. destruct (ensure_only_one_payload _); [|intros Hin; specialize (O4 _ Hin); lia].
      intros [->%elem_of_singleton|Hin]%elem_of_union; [lia|]. specialize (O4 _ Hin). lia.
  - destruct Ho. by split.
  - unfold resolve_kind. case_match; [by eapply own_cancel|done].
  - unfold job_poll. repeat case_match; simpl; eauto using own_cancel.
  - by apply own_alter.
  - by apply own_alter.
Qed.

Lemma reachable_own ensure extra s : star step (with_builder ensure extra) s -> own_tokens s.
Proof.
  intros H. apply (star_invariant step own_tokens step_own_tokens _ _ H).
  split; simpl; [constructor|constructor|lia|set_solver].
Qed.

(** The token of another job is another one. *)
Lemma own_index s i j a b :
  own_tokens s -> st_jobs s !! i = Some a -> st_jobs s !! j = Some b -> job_cancel a = job_cancel b -> i = j.
Proof.
  intros [Hd _ _ _] Ha Hb He. eapply NoDup_lookup; [exact Hd| |]; rewrite list_lookup_fmap.
  - by rewrite Ha.
  - by rewrite Hb, He.
Qed.

(** A step that cancels the token of a job is one of those that end it. *)
Lemma cancels_ends s s' j job :
  own_tokens s -> st_jobs s !! j = Some job -> step s s' -> token_cancelled (job_cancel job) s = false ->
  token_cancelled (job_cancel job) s' = true -> ends_job j s s'.
Proof.
  unfold token_cancelled. rewrite bool_decide_eq_true, bool_decide_eq_false.
  intros Ho Hj Hs Hn Hc. destruct Hs as [latest by_hash attributes now s|tip accounts s|i s|i now s| |]; simpl in *; try done.
  - destruct (request_tokens latest by_hash attributes now s) as (_ & _ & Hx & _).
    destruct (ensure_only_one_payload (st_generator s)) eqn:E; [by constructor|]. by rewrite Hx in Hc.
  - unfold resolve_kind in Hc. destruct (st_jobs s !! i) as [a|] eqn:Hi; [|done].
    simpl in Hc. apply elem_of_union in Hc as [Hc%elem_of_singleton|Hc]; [|done].
    assert (j = i) as -> by (by eapply own_index). constructor.
  - unfold job_poll in Hc. destruct (st_jobs s !! i) as [a|] eqn:Hi; [|done].
    destruct (Z.leb_spec (job_deadline_at a) now); [|by case_match].
    simpl in Hc. apply elem_of_union in Hc as [Hc%elem_of_singleton|Hc]; [|done].
    assert (j = i) as -> by (by eapply own_index). by econstructor.
Qed.

Lemma cancelled_ended s s' j job :
  own_tokens s -> st_jobs s !! j = Some job -> star step s s' -> token_cancelled (job_cancel job) s = false ->
  token_cancelled (job_cancel job) s' = true ->
  exists a b, star step s a /\ ends_job j a b /\ star step b s'.
Proof.
  intros Ho Hj H. revert job Ho Hj. induction H as [s|s t u Hs Ht IH]; intros job Ho Hj Hn Hc; [congruence|].
  destruct (token_cancelled (job_cancel job) t) eqn:E.
  - exists s, t. split_and!; [apply star_refl|by eapply cancels_ends|done].
  - destruct (ls_jobs _ _ (step_later _ _ Hs) _ _ Hj) as (job' & Hj' & _ & Hk & _).
    rewrite <- Hk in *. destruct (IH job') as (a & b & Ha & Hb & Hu); [by eapply step_own_tokens|done..|].
    exists a, b. split_and!; [by eapply star_step|done..].
Qed.

(** When a job is polled. *)
Lemma job_poll_spec j job now s :
  st_jobs s !! j = Some job ->
  (fst (job_poll j now s) = Ready (Ok tt) <->
     job_deadline_at job <= now \/ token_cancelled (job_cancel job) s = true) /\
  (fst (job_poll j now s) = Ready (Ok tt) ->
     token_cancelled (job_cancel job) (snd (job_poll j now s)) = true).
Proof.
  intros Hj. unfold job_poll. rewrite Hj. destruct (Z.leb_spec (job_deadline_at job) now); simpl.
  - split; [split; auto|]. intros _. apply bool_decide_eq_true. simpl. set_solver.
  - destruct (token_cancelled (job_cancel job) s) eqn:Ec; simpl; rewrite ?Ec.
    + split; [split; auto|done].
    + split; [|done]. split; [done|]. intros [|]; [lia|done].
Qed.

(** A job that was started: its token is new, and it has the time until the block. *)
Lemma started_job latest by_hash attributes now s s' j :
  new_payload_job latest by_hash attributes now s = (Ok j, s') ->
  exists job, st_jobs s' !! j = Some job /\ job_history job = [] /\ job_build_complete job = Running /\
    now + from_secs 1 + extra_block_deadline (st_generator s) <= job_deadline_at job /\
    from_secs (attributes_timestamp attributes) + extra_block_deadline (st_generator s)
      <= job_deadline_at job /\
    job_cancel job = st_tokens s.
Proof using.
  unfold new_payload_job. destruct (job_token s) as [t s1] eqn:E.
  apply job_token_spec in E as (-> & _ & Hj & _ & Hx & _ & _ & _). rewrite Hx.
  destruct (bind _ _) as [[header deadline]| |] eqn:Hb; [|done..]. intros [= <- <-].
  apply bind_Ok in Hb as (h & _ & Hb). apply bind_Ok in Hb as (dl & Hd & [= -> ->]).
  unfold dur_add in Hd. destruct (_ <? _); [done|]. injection Hd as Hd.
  eexists. split; [simpl; by rewrite Hj, lookup_app_r, Nat.sub_diag by lia|]. simpl.
  pose proof (job_deadline_after (attributes_timestamp attributes) now) as Hdl.
  split_and!; try done; lia.
Qed.

(** A payload in the cell of a job is in its history. *)
Lemma resolve_poll_Ready j s r :
  resolve_poll j s = Ready r <->
  exists job p, r = Ok p /\ st_jobs s !! j = Some job /\ last (job_history job) = Some p.
Proof.
  unfold resolve_poll, wait_poll, cell_get. destruct (st_jobs s !! j) as [job|] eqn:E; simpl.
  - destruct (last (job_history job)) as [p|] eqn:El; split; try done.
    + intros [= <-]. by exists job, p.
    + by intros (? & ? & -> & [= <-] & ?); simplify_eq.
    + intros (? & ? & -> & [= <-] & ?). congruence.
  - split; [done|]. by intros (? & ? & _ & ? & _).
Qed.

Lemma resolve_poll_Pending j s job :
  st_jobs s !! j = Some job -> resolve_poll j s = Pending <-> job_history job = [].
Proof.
  intros Hj. unfold resolve_poll, wait_poll, cell_get. rewrite Hj. simpl.
  destruct (last (job_history job)) as [p|] eqn:El.
  - split; [done|]. intros Hn. by rewrite Hn in El.
  - split; [|done]. intros _. by apply last_None.
Qed.

(** Once ready, the future of a job stays ready. *)
Lemma resolve_stays_ready j s s' r :
  later_store s s' -> resolve_poll j s = Ready r -> exists r', resolve_poll j s' = Ready r'.
Proof.
  intros [_ _ Hj] (job & p & -> & Hlk & Hp)%resolve_poll_Ready.
  destruct (Hj _ _ Hlk) as (job' & Hlk' & _ & _ & _ & [k Hk] & _).
  destruct (last (job_history job')) as [p'|] eqn:El.
  - exists (Ok p'). apply resolve_poll_Ready. by exists job', p'.
  - apply last_None in El. rewrite El in Hk. symmetry in Hk; apply app_nil in Hk as [Hk _]. by rewrite Hk in Hp.
Qed.

End Steps.

(** ** A builder and a run

    A builder of numbers: a run sets the cell to 1, 2, ... and ends well if it set it at all.  A job
    is started, its builder sets a payload, and it is resolved; the engine asks for another. *)
Module TestGenerator.

#[export] Instance counting : PayloadBuilder nat := fun _ ps r =>
  ps = seq 1 (length ps) /\ (r = Ok tt <-> ps <> []).

#[export] Instance counting_laws : PayloadBuilderLaws nat.
Proof.
  refine {| good_payload := fun _ p => (0 < p)%nat |}.
  - intros pc ps r [-> _]. apply Forall_forall. intros x Hx. apply elem_of_seq in Hx. lia.
  - intros pc ps [_ H]. by apply H.
Defined.

Definition headers (h : B256) : Z + option SealedHeader :=
  inr (if h =? 900 then Some sample_parent else None).
Definition request (s : Store nat) : Store nat :=
  snd (new_payload_job (inr None) headers (sample_attributes []) (from_secs 1000) s).
Definition started (ensure : bool) : Store nat := request (with_builder ensure (from_millis 500)).
Definition built : Store nat := cell_set 0 1%nat (started true).
Definition failed : Store nat := build_done 0 (Err MissingPayload) (started true).

Lemma started_reachable ensure : star step (with_builder ensure (from_millis 500)) (started ensure).
Proof. eapply star_step; [apply step_request|apply star_refl]. Qed.

Lemma built_reachable : star step (with_builder true (from_millis 500)) built.
Proof.
  eapply star_trans; [apply started_reachable|]. eapply star_step; [|apply star_refl].
  eapply (step_set 0 _ 1%nat [1%nat] (Ok tt)); [reflexivity|reflexivity|by split|done].
Qed.

Lemma failed_reachable : star step (with_builder true (from_millis 500)) failed.
Proof.
  eapply star_trans; [apply started_reachable|]. eapply star_step; [|apply star_refl].
  eapply step_done; [reflexivity|reflexivity|by split].
Qed.

End TestGenerator.

Import TestGenerator.

(** ** Properties *)

(** At most one job is alive.  When the generator ensures that only one payload is built, in every
    reachable state a job whose token is not cancelled is the newest one; and a new request cancels
    every job there was, also when it is then refused, so that no job is left. *)
Theorem one_live_job {P} `{PB : !PayloadBuilder P} extra (s : Store P) :
  star step (with_builder true extra) s ->
  (forall j job, st_jobs s !! j = Some job -> token_cancelled (job_cancel job) s = false ->
     S j = length (st_jobs s)) /\
  (forall latest by_hash attributes now r s',
     new_payload_job latest by_hash attributes now s = (r, s') ->
     Forall (fun job => token_cancelled (job_cancel job) s' = true) (st_jobs s)).
Proof.
  intros Hs. pose proof (reachable_wf _ _ _ Hs) as [Ht Hl _ Hv Hn].
  assert (He : ensure_only_one_payload (st_generator s) = true) by apply (steps_later _ _ Hs).
  specialize (Hv He). specialize (Hn He). split.
  - intros j job Hj Hc. apply (Hn j job Hj). apply (Forall_lookup_1 _ _ _ _ Hv) in Hj as [Hj|Hj]; [|done].
    by apply bool_decide_eq_false in Hc.
  - intros latest by_hash attributes now r s' H. unfold new_payload_job in H.
    destruct (job_token s) as [t s1] eqn:E.
    apply job_token_spec in E as (_ & _ & _ & _ & _ & _ & Hc & Hif). rewrite He in Hif.
    assert (Hcs : st_cancelled s' = st_cancelled s1).
    { destruct (bind _ _) as [[]| |]; by injection H as <- <-. }
    eapply Forall_impl; [exact Hv|]. intros job Hjob. apply bool_decide_eq_true. rewrite Hcs.
    destruct Hif as [_ Hin], Hjob as [Hin'|Heq]; [set_solver|by rewrite Heq].
Qed.

Lemma one_live_job_witness :
  token_cancelled 1 (request (started true)) = true /\ token_cancelled 2 (request (started true)) = false
  /\ length (st_jobs (request (started true))) = 2%nat.
Proof.
  split; [|split; reflexivity].
  destruct (one_live_job (from_millis 500) (started true) (started_reachable true)) as [_ H].
  specialize (H (inr None) headers (sample_attributes []) (from_secs 1000) (Ok 1%nat)
                (request (started true)) eq_refl).
  apply Forall_cons in H as [H _]. exact H.
Defined.

(** C24: a resolved payload is good.  Whatever the order of requests, polls, resolutions and steps of
    the builds, what the future of a job returns is the last payload the job's own build set, which is
    good for the job's configuration; once the future is ready it stays ready, and it is ready as soon
    as the build has ended well. *)
Theorem resolved_payload_good {P} `{PB : !PayloadBuilder P} `{PL : !PayloadBuilderLaws P} ensure extra
    (s : Store P) j job :
  star step (with_builder ensure extra) s -> st_jobs s !! j = Some job ->
  (forall r, resolve_poll j s = Ready r ->
     exists p, r = Ok p /\ last (job_history job) = Some p /\ good_payload (job_config job) p /\
       forall s', star step s s' -> exists r', resolve_poll j s' = Ready r') /\
  (job_build_complete job = Finished (Ok tt) -> exists p, resolve_poll j s = Ready (Ok p)).
Proof.
  intros Hs Hj. pose proof (reachable_wf _ _ _ Hs) as Hw.
  destruct (Forall_lookup_1 _ _ _ _ (wf_jobs _ Hw) Hj) as [Hh Hf]. split.
  - intros r Hr. pose proof Hr as (job' & p & -> & Hj' & Hp)%resolve_poll_Ready.
    rewrite Hj in Hj'. injection Hj' as <-. exists p. split_and!; [done..| |].
    + destruct Hh as (ps & r & Hb & Hpre); [by intros Hn; rewrite Hn in Hp|].
      pose proof (builds_good _ _ _ Hb) as Hg. rewrite Forall_forall in Hg. apply Hg.
      eapply elem_of_prefix; [|done]. by apply last_Some_elem_of.
    + intros s' Hs'. eapply resolve_stays_ready; [by apply steps_later|done].
  - intros Hd. specialize (Hf _ Hd). apply builds_sets in Hf.
    destruct (last (job_history job)) as [p|] eqn:El; [|by apply last_None in El].
    exists p. apply resolve_poll_Ready. by exists job, p.
Qed.

Lemma resolved_payload_good_witness :
  resolve_poll 0 built = Ready (Ok 1%nat) /\ (0 < 1)%nat.
Proof.
  split; [reflexivity|].
  destruct (resolved_payload_good true (from_millis 500) built 0 _ built_reachable eq_refl) as [H _].
  destruct (H (Ok 1%nat) eq_refl) as (p & [= <-] & _ & Hg & _). exact Hg.
Defined.

(** Asking a job for the best payload so far panics, also when the future of the job would return one;
    the attributes of a job are those it was requested with. *)
Lemma best_payload_panics {P} latest by_hash attributes now (s s' : Store P) j p :
  new_payload_job latest by_hash attributes now s = (Ok j, s') ->
  payload_attributes j s' = Ok (Some attributes) /\
  resolve_poll j (cell_set j p s') = Ready (Ok p) /\ best_payload j (cell_set j p s') = Panic.
Proof.
  unfold new_payload_job. destruct (job_token s) as [t s1].
  destruct (bind _ _) as [[header deadline]| |]; [|done..]. intros [= <- <-].
  assert (Hj : forall job : BlockPayloadJob P, (st_jobs s1 ++ [job]) !! length (st_jobs s1) = Some job).
  { intros job. by rewrite lookup_app_r, Nat.sub_diag by lia. }
  unfold payload_attributes, resolve_poll, wait_poll, cell_get, cell_set, alter_job, push_job. simpl.
  rewrite list_lookup_alter_eq, Hj. simpl. by split_and!.
Qed.

(** C40: a build that ends without a payload is never reported: its result is sent to a channel nobody
    reads, and the future of the job stays pending in every later state. *)
Theorem failed_build_never_resolves {P} `{PB : !PayloadBuilder P} (s s' : Store P) j job r :
  st_jobs s !! j = Some job ->
  job_build_complete job = Finished r -> job_history job = [] -> star step s s' ->
  resolve_poll j s' = Pending.
Proof.
  intros Hj Hd Hh Hs'. destruct (steps_later _ _ Hs') as [_ _ Hjobs].
  destruct (Hjobs _ _ Hj) as (job' & Hj' & _ & _ & _ & _ & Hfin).
  destruct (Hfin _ Hd) as [_ Hh']. apply (resolve_poll_Pending _ _ _ Hj'). congruence.
Qed.

Lemma failed_build_never_resolves_witness :
  star step (with_builder true (from_millis 500)) failed /\
  resolve_poll 0 (request (resolve_kind 0 failed)) = Pending.
Proof.
  split; [exact failed_reachable|].
  eapply (failed_build_never_resolves failed _ 0 _ (Err MissingPayload)).
  - reflexivity.
  - reflexivity.
  - reflexivity.
  - eapply star_step; [apply step_resolve|]. eapply star_step; [apply step_request|apply star_refl].
Defined.

(** C25: a job lives long enough.  Take a job that was started in a reachable store.  Its deadline is not
    before its block's timestamp plus the extra deadline, nor within a second and the extra deadline of
    its start.  It starts uncancelled, and in every store that is reached later, however requests, polls,
    resolutions and builds interleave: its deadline is the same; polling it reports its end exactly when
    the deadline has passed or its token is cancelled, and then its token is cancelled from there on; and
    if its token is cancelled, there was a step since its start that resolved this job, polled it at or
    after its deadline, or requested a new job where only one may run. *)
Theorem job_lifetime {P} `{!PayloadBuilder P} ensure extra latest by_hash attributes now (s s' t : Store P) j :
  star step (with_builder ensure extra) s ->
  new_payload_job latest by_hash attributes now s = (Ok j, s') -> star step s' t ->
  exists job job', st_jobs s' !! j = Some job /\ st_jobs t !! j = Some job' /\
    job_history job = [] /\ job_build_complete job = Running /\
    let extra := extra_block_deadline (st_generator s) in
    now + from_secs 1 + extra <= job_deadline_at job /\
    from_secs (attributes_timestamp attributes) + extra <= job_deadline_at job /\
    token_cancelled (job_cancel job) s' = false /\
    job_deadline_at job' = job_deadline_at job /\ job_cancel job' = job_cancel job /\
    (forall later,
       (fst (job_poll j later t) = Ready (Ok tt) <->
          job_deadline_at job <= later \/ token_cancelled (job_cancel job) t = true) /\
       (fst (job_poll j later t) = Ready (Ok tt) ->
          forall u, star step (snd (job_poll j later t)) u -> token_cancelled (job_cancel job) u = true)) /\
    (token_cancelled (job_cancel job) t = true ->
       exists a b, star step s' a /\ ends_job j a b /\ star step b t).
Proof.
  intros Hs Hnew Ht. pose proof (reachable_own _ _ _ Hs) as Ho.
  assert (Hstep : step s s').
  { change s' with (snd (@Ok PayloadBuilderError _ j, s')). rewrite <- Hnew. constructor. }
  destruct (started_job _ _ _ _ _ _ _ Hnew) as (job & Hj & Hh & Hr & Hd1 & Hd2 & Hk).
  assert (Hnc : token_cancelled (job_cancel job) s' = false).
  { apply bool_decide_eq_false. rewrite Hk. intros Hin.
    pose proof (request_tokens latest by_hash attributes now s) as (_ & _ & Hx & _).
    rewrite Hnew in Hx. simpl in Hx. rewrite Hx in Hin. destruct Ho as [_ _ Hl Hc].
    assert (st_tokens s < st_tokens s)%nat; [|lia].
    destruct (ensure_only_one_payload _); [|by apply Hc].
    apply elem_of_union in Hin as [Heq%elem_of_singleton|Hin]; [by rewrite Heq at 1|by apply Hc]. }
  destruct (ls_jobs _ _ (steps_later _ _ Ht) _ _ Hj) as (job' & Hj' & _ & Hk' & Hd' & _).
  exists job, job'. cbv zeta. split_and!; try done; [|by apply (cancelled_ended _ _ _ _ (step_own_tokens _ _ Ho Hstep))].
  intros later. destruct (job_poll_spec _ _ later _ Hj') as [H1 H2]. rewrite Hk', Hd' in *. split; [done|].
  intros Hp u Hu. specialize (H2 Hp). apply bool_decide_eq_true in H2. apply bool_decide_eq_true.
  exact (ls_cancelled _ _ (steps_later _ _ Hu) _ H2).
Qed.

(** A job that is polled, resolved and polled again. *)
Lemma job_lifetime_witness :
  exists job, st_jobs (started true) !! 0%nat = Some job /\
    from_secs 1002 + from_millis 500 <= job_deadline_at job /\
    job_poll 0 (from_secs 1001) (started true) = (Pending, started true) /\
    fst (job_poll 0 (from_secs 1001) (resolve_kind 0 (started true))) = Ready (Ok tt).
Proof.
  destruct (job_lifetime true (from_millis 500) (inr None) headers (sample_attributes []) (from_secs 1000)
    (with_builder true (from_millis 500)) (started true) (resolve_kind 0 (started true)) 0
    (star_refl _ _) eq_refl (star_step _ _ _ _ (step_resolve _ _) (star_refl _ _)))
    as (job & job' & Hj & _ & _ & _ & _ & Hd & _ & _ & _ & Hp & _).
  exists job. split; [exact Hj|]. split; [exact Hd|]. split; [reflexivity|].
  apply Hp. right. vm_compute in Hj. injection Hj as <-. reflexivity.
Defined.
