(* ===== verification/GeneratorSpec.v ===== *)
(** * What the payload job generator promises

    An abstract machine of the payload service, without tokens, cells, channels and caches: a list of
    jobs, each with the payload it would return now.  The generator of [Generator] implements it:
    forgetting the tokens of a store gives a state of the machine, every step of the generator is a step
    of the machine or leaves its state alone, and what the futures and the polls of the jobs return can
    be read off the machine's state. *)

From S2P Require Import Prelude External ExecInfo Context Timing BuildPayload Generator.

(** ** The abstract machine *)

Record SpecJob (P : Type) : Type := mkSpecJob {
  sj_config : PayloadConfig;
  sj_deadline : SystemTime;
  sj_payload : option P;
  sj_live : bool;
  sj_task : BuildTask;
}.
Arguments mkSpecJob {P}.
Arguments sj_config {P} _.
Arguments sj_deadline {P} _.
Arguments sj_payload {P} _.
Arguments sj_live {P} _.
Arguments sj_task {P} _.

Section Machine.
Context {P : Type}.
Implicit Type sj : SpecJob P.
Implicit Type S : list (SpecJob P).

Definition stopped sj : SpecJob P :=
  mkSpecJob (sj_config sj) (sj_deadline sj) (sj_payload sj) false (sj_task sj).
Definition offered (p : P) sj : SpecJob P :=
  mkSpecJob (sj_config sj) (sj_deadline sj) (Some p) (sj_live sj) (sj_task sj).
Definition ended (r : outcome PayloadBuilderError unit) sj : SpecJob P :=
  mkSpecJob (sj_config sj) (sj_deadline sj) (sj_payload sj) (sj_live sj) (Finished r).

(** A request stops the jobs there are, when only one payload may be built. *)
Definition replaced (only_one : bool) S : list (SpecJob P) := if only_one then stopped <$> S else S.

(** What the future of a job returns, and what polling the job returns. *)
Definition spec_get (j : nat) S : Poll (outcome PayloadBuilderError P) :=
  match S !! j ≫= sj_payload with Some p => Ready (Ok p) | None => Pending end.
Definition spec_poll (j : nat) (now : SystemTime) S : Poll (outcome PayloadBuilderError unit) :=
  match S !! j with
  | Some sj => if (sj_deadline sj <=? now) || negb (sj_live sj) then Ready (Ok tt) else Pending
  | None => Pending
  end.

Context `{PB : !PayloadBuilder P} `{PL : !PayloadBuilderLaws P}.

(** The steps.  A request starts a job, whose time is not over before that of its block, or is refused;
    a job is stopped; while its build runs it offers payloads that are good for its configuration; and
    the build ends, well only if it has offered one. *)
Inductive spec_step (only_one : bool) (extra : Duration)
    : list (SpecJob P) -> list (SpecJob P) -> Prop :=
| spec_start S pc deadline :
    from_secs (attributes_timestamp (pc_attributes pc)) + extra <= deadline ->
    spec_step only_one extra S (replaced only_one S ++ [mkSpecJob pc deadline None true Running])
| spec_refuse S : spec_step only_one extra S (replaced only_one S)
| spec_stop S j : spec_step only_one extra S (alter stopped j S)
| spec_offer S j sj p :
    S !! j = Some sj -> sj_task sj = Running -> good_payload (sj_config sj) p ->
    spec_step only_one extra S (alter (offered p) j S)
| spec_end S j sj r :
    S !! j = Some sj -> sj_task sj = Running -> (r = Ok tt -> sj_payload sj <> None) ->
    spec_step only_one extra S (alter (ended r) j S).

(** ** Forgetting the tokens *)

Definition abs_job (cancelled : gset nat) (job : BlockPayloadJob P) : SpecJob P :=
  mkSpecJob (job_config job) (job_deadline_at job) (last (job_history job))
    (negb (bool_decide (job_cancel job ∈ cancelled))) (job_build_complete job).

Definition abs (s : Store P) : list (SpecJob P) := abs_job (st_cancelled s) <$> st_jobs s.

(** What the refinement rests on besides [wf_store]: no two jobs share a token, the tokens that were
    handed out are the only ones that are cancelled, and the flag and the extra time stay. *)
Record ref_inv (only_one : bool) (extra : Duration) (s : Store P) : Prop := {
  ri_wf : wf_store s;
  ri_tokens : NoDup (job_cancel <$> st_jobs s);
  ri_cancelled : forall t, t ∈ st_cancelled s -> (t < st_tokens s)%nat;
  ri_only : ensure_only_one_payload (st_generator s) = only_one;
  ri_extra : extra_block_deadline (st_generator s) = extra;
}.

(** ** Lemmas *)

Implicit Type s : Store P.

Lemma abs_lookup s j : abs s !! j = abs_job (st_cancelled s) <$> st_jobs s !! j.
Proof using. apply list_lookup_fmap. Qed.

(** Altering a job, when the machine sees it. *)
Lemma abs_alter f g j s :
  (forall job, st_jobs s !! j = Some job ->
     abs_job (st_cancelled s) (f job) = g (abs_job (st_cancelled s) job)) ->
  abs (alter_job f j s) = alter g j (abs s).
Proof using.
  intros H. apply list_eq. intros i. rewrite abs_lookup. simpl. destruct (decide (i = j)) as [->|Hne].
  - rewrite !list_lookup_alter_eq, abs_lookup. destruct (st_jobs s !! j) as [job|]; [|done]. simpl.
    by rewrite H.
  - by rewrite !list_lookup_alter_ne, abs_lookup by done.
Qed.

(** Cancelling the token of a job stops that job and no other. *)
Lemma abs_cancel s j job :
  NoDup (job_cancel <$> st_jobs s) -> st_jobs s !! j = Some job ->
  abs (cancel_token (job_cancel job) s) = alter stopped j (abs s).
Proof.
  intros Hnd Hj. apply list_eq. intros i. destruct (decide (i = j)) as [->|Hne].
  - rewrite list_lookup_alter_eq, !abs_lookup. simpl. rewrite Hj. simpl. f_equal.
    unfold abs_job, stopped. simpl. f_equal. apply negb_false_iff, bool_decide_eq_true. set_solver.
  - rewrite list_lookup_alter_ne, !abs_lookup by done. simpl.
    destruct (st_jobs s !! i) as [job'|] eqn:Hi; [|done]. simpl. f_equal. unfold abs_job. f_equal.
    f_equal. apply bool_decide_ext. assert (job_cancel job' <> job_cancel job); [|set_solver].
    intros Heq. apply Hne. eapply (NoDup_lookup _ _ _ (job_cancel job) Hnd);
      rewrite list_lookup_fmap; [by rewrite Hi, <- Heq|by rewrite Hj].
Qed.

(** The token of a new job: it is live, and the others are stopped when only one may be. *)
Lemma abs_job_token only_one extra s t s1 :
  ref_inv only_one extra s -> job_token s = (t, s1) ->
  abs s1 = replaced only_one (abs s) /\ (t ∉ st_cancelled s1) /\ ref_inv only_one extra s1.
Proof using.
  intros [Hw Hnd Hc Ho Hx] E. pose proof (wf_job_token _ _ _ Hw E) as Hw1.
  destruct Hw as [Ht Hl _ Hv _]. rewrite Ho in Hv.
  unfold job_token in E. rewrite Ho in E. destruct only_one; injection E as <- <-.
  - specialize (Hv eq_refl). split_and!; simpl.
    + unfold abs, replaced. simpl. rewrite <- list_fmap_compose. apply list_fmap_ext. intros i job Hi.
      unfold abs_job, stopped. simpl. f_equal. apply negb_false_iff, bool_decide_eq_true.
      apply (Forall_lookup_1 _ _ _ _ Hv) in Hi. set_solver.
    + intros [Hin%elem_of_singleton|Hin%Hc]%elem_of_union; lia.
    + split; simpl; try done. intros t [->%elem_of_singleton|Hin%Hc]%elem_of_union; lia.
  - split_and!; simpl; [done| |].
    + intros Hin%Hc. lia.
    + split; simpl; try done. intros t Hin%Hc. lia.
Qed.

(** A request is a start or a refusal. *)
Lemma abs_request only_one extra latest by_hash attributes now s :
  ref_inv only_one extra s ->
  let s' := snd (new_payload_job latest by_hash attributes now s) in
  spec_step only_one extra (abs s) (abs s') /\ ref_inv only_one extra s'.
Proof.
  intros Hi. pose proof (wf_request latest by_hash attributes now _ (ri_wf _ _ _ Hi)) as Hw.
  unfold new_payload_job in *. destruct (job_token s) as [t s1] eqn:E.
  destruct (abs_job_token _ _ _ _ _ Hi E) as (Ha & Hf & Hi1).
  apply job_token_spec in E as (-> & Hk & Hjobs & _).
  destruct (bind _ _) as [[header deadline]| |] eqn:Hb; simpl in *;
    [|rewrite Ha; split; [apply spec_refuse|done]..].
  apply bind_Ok in Hb as (h & _ & (dl & Hd & [= -> ->])%bind_Ok). unfold dur_add in Hd.
  destruct (_ <? _); [done|]. injection Hd as Hd. rewrite (ri_extra _ _ _ Hi1) in Hd.
  pose proof (job_deadline_after (attributes_timestamp attributes) now) as Hdl.
  destruct Hi1 as [_ Hnd Hc Ho Hx]. split.
  - unfold abs. simpl. rewrite fmap_app. fold (abs s1). rewrite Ha. simpl. unfold abs_job. simpl.
    rewrite bool_decide_false by done. apply spec_start. simpl. lia.
  - split; simpl; try done. rewrite fmap_app. apply NoDup_app. split_and!; [done| |apply NoDup_singleton].
    intros t Ht ->%list_elem_of_singleton. simpl in Ht. apply list_elem_of_fmap in Ht as (job & He & Hin).
    rewrite Hjobs in Hin. pose proof (wf_tokens _ (ri_wf _ _ _ Hi)) as Hts.
    rewrite Forall_forall in Hts. specialize (Hts _ Hin). simpl in Hts. lia.
Qed.

(** Stopping a job. *)
Lemma abs_stop only_one extra s j job :
  ref_inv only_one extra s -> st_jobs s !! j = Some job ->
  spec_step only_one extra (abs s) (abs (cancel_token (job_cancel job) s)) /\
  ref_inv only_one extra (cancel_token (job_cancel job) s).
Proof.
  intros [Hw Hnd Hc Ho Hx] Hj. rewrite (abs_cancel _ _ _ Hnd Hj). split; [apply spec_stop|].
  split; simpl; try done; [by apply wf_cancel_token|].
  pose proof (Forall_lookup_1 _ _ _ _ (wf_tokens _ Hw) Hj) as Ht. simpl in Ht.
  intros t [->%elem_of_singleton|Hin%Hc]%elem_of_union; lia.
Qed.

(** Altering what a job has built keeps the invariant. *)
Lemma ref_inv_alter only_one extra f j s :
  ref_inv only_one extra s -> wf_store (alter_job f j s) ->
  (forall job, job_cancel (f job) = job_cancel job) -> ref_inv only_one extra (alter_job f j s).
Proof using.
  intros [_ Hnd Hc Ho Hx] Hw Hf. split; simpl; try done.
  replace (job_cancel <$> alter f j (st_jobs s)) with (job_cancel <$> st_jobs s); [done|].
  apply list_eq. intros i. rewrite !list_lookup_fmap, list_lookup_alter. case_decide as He; [|done].
  subst i. destruct (st_jobs s !! j) as [job|]; [|done]. simpl. by rewrite Hf.
Qed.

(** Every step of the generator is a step of the machine, or none. *)
Lemma step_refines only_one extra s s' :
  ref_inv only_one extra s -> step s s' ->
  (abs s' = abs s \/ spec_step only_one extra (abs s) (abs s')) /\ ref_inv only_one extra s'.
Proof.
  intros Hi Hs. pose proof (step_store_wf _ _ (ri_wf _ _ _ Hi) Hs) as Hw. revert Hi Hw.
  destruct Hs as [latest by_hash attributes now s|tip accounts s|j s|j now s|j job p ps r s Hj Hr Hb Hp
    |j job r s Hj Hr Hb]; intros Hi Hw.
  - destruct (abs_request _ _ latest by_hash attributes now _ Hi); auto.
  - split; [by left|]. destruct Hi; by split.
  - unfold resolve_kind in *. destruct (st_jobs s !! j) as [job|] eqn:Hj; [|auto].
    destruct (abs_stop _ _ _ _ _ Hi Hj); auto.
  - unfold job_poll in *. destruct (st_jobs s !! j) as [job|] eqn:Hj; [|auto].
    destruct (_ <=? _); simpl in *; [destruct (abs_stop _ _ _ _ _ Hi Hj); auto|].
    destruct (token_cancelled _ _); auto.
  - split; [right|by apply ref_inv_alter].
    unfold cell_set. erewrite (abs_alter _ (offered p)).
    + eapply spec_offer; [by rewrite abs_lookup, Hj|done|]. simpl.
      eapply Forall_forall; [by eapply builds_good|]. eapply elem_of_prefix; [|exact Hp]. set_solver.
    + intros job' _. unfold abs_job, offered. simpl. by rewrite last_snoc.
  - split; [right|by apply ref_inv_alter].
    unfold build_done. erewrite (abs_alter _ (ended r)) by done.
    eapply spec_end; [by rewrite abs_lookup, Hj|done|]. simpl. intros -> Hn%last_None.
    rewrite Hn in Hb. by apply builds_sets in Hb.
Qed.

(** What the machine's state says is what the generator answers. *)
Lemma abs_get j s : resolve_poll j s = spec_get j (abs s).
Proof using.
  unfold resolve_poll, wait_poll, cell_get, spec_get. rewrite abs_lookup.
  by destruct (st_jobs s !! j) as [job|]; simpl; [destruct (last _)|].
Qed.

Lemma abs_poll j now s : fst (job_poll j now s) = spec_poll j now (abs s).
Proof using.
  unfold job_poll, spec_poll, token_cancelled. rewrite abs_lookup.
  destruct (st_jobs s !! j) as [job|]; simpl; [|done].
  destruct (_ <=? _); simpl; [done|]. by destruct (bool_decide _).
Qed.

Lemma with_builder_ref_inv only_one extra : ref_inv only_one extra (with_builder only_one extra).
Proof using. split; simpl; [apply with_builder_wf|constructor|set_solver|done..]. Qed.

Lemma steps_refine only_one extra s s' :
  star step s s' -> ref_inv only_one extra s ->
  star (spec_step only_one extra) (abs s) (abs s') /\ ref_inv only_one extra s'.
Proof.
  induction 1 as [s|s t u Hs _ IH]; intros Hi; [split; [apply star_refl|done]|].
  destruct (step_refines _ _ _ _ Hi Hs) as [Ha Hi']. destruct (IH Hi') as [IH1 IH2]. split; [|done].
  destruct Ha as [<-|Ha]; [done|by eapply star_step].
Qed.

End Machine.

(** ** What the machine guarantees *)

Section Guarantees.
Context {P : Type} `{PB : !PayloadBuilder P} `{PL : !PayloadBuilderLaws P}.
Implicit Type S : list (SpecJob P).

(** A job the machine may hold. *)
Definition spec_job_ok (extra : Duration) (sj : SpecJob P) : Prop :=
  (forall p, sj_payload sj = Some p -> good_payload (sj_config sj) p) /\
  (sj_task sj = Finished (Ok tt) -> sj_payload sj <> None) /\
  from_secs (attributes_timestamp (pc_attributes (sj_config sj))) + extra <= sj_deadline sj.

Definition spec_ok (only_one : bool) (extra : Duration) S : Prop :=
  Forall (spec_job_ok extra) S /\
  (only_one = true -> forall j sj, S !! j = Some sj -> sj_live sj = true -> (j + 1)%nat = length S).

Lemma spec_ok_alter only_one extra f j S :
  spec_ok only_one extra S -> (forall sj, S !! j = Some sj -> spec_job_ok extra (f sj)) ->
  (forall sj, sj_live (f sj) = true -> sj_live sj = true) -> spec_ok only_one extra (alter f j S).
Proof.
  intros [Hj Hl] Hf Hlive. split.
  - rewrite Forall_lookup in *. intros i sj Hi. rewrite list_lookup_alter in Hi.
    case_decide as He; [|by eapply Hj]. subst i. apply fmap_Some in Hi as (sj' & Hi & ->). by apply Hf.
  - intros Ho i sj Hi Hs. rewrite length_alter. rewrite list_lookup_alter in Hi.
    case_decide as He; [|by eapply Hl]. subst i. apply fmap_Some in Hi as (sj' & Hi & ->).
    by eapply Hl; eauto.
Qed.

Lemma replaced_ok only_one extra S :
  spec_ok only_one extra S -> Forall (spec_job_ok extra) (replaced only_one S).
Proof.
  intros [Hj _]. destruct only_one; [|done]. apply Forall_fmap. eapply Forall_impl; [exact Hj|]. done.
Qed.

Lemma replaced_stopped S j sj : replaced true S !! j = Some sj -> sj_live sj = false.
Proof. simpl. rewrite list_lookup_fmap. by intros (sj' & _ & ->)%fmap_Some. Qed.

Lemma spec_step_ok only_one extra S S' :
  spec_ok only_one extra S -> spec_step only_one extra S S' -> spec_ok only_one extra S'.
Proof.
  intros Hok Hs. pose proof (replaced_ok _ _ _ Hok) as Hrep. revert Hok Hrep.
  destruct Hs as [S pc dl Hd|S|S j|S j sj p Hj Ht Hg|S j sj r Hj Ht Hr]; intros Hok Hrep.
  - split.
    + apply Forall_app. split; [done|]. by repeat constructor.
    + intros -> j sj Hj Hl. rewrite length_app. apply lookup_app_Some in Hj as [Hj|[Hle Hj]].
      * by rewrite (replaced_stopped _ _ _ Hj) in Hl.
      * apply list_lookup_singleton_Some in Hj as [Hz _]. simpl in *. lia.
  - split; [done|]. intros -> j sj Hj Hl. by rewrite (replaced_stopped _ _ _ Hj) in Hl.
  - apply spec_ok_alter; [done| |done]. intros sj Hj. by apply (Forall_lookup_1 _ _ _ _ (proj1 Hok)) in Hj.
  - apply spec_ok_alter; [done| |done]. intros sj' Hj'. simplify_eq.
    apply (Forall_lookup_1 _ _ _ _ (proj1 Hok)) in Hj as (_ & _ & Hd).
    split_and!; simpl; [by intros q [= <-]|done|done].
  - apply spec_ok_alter; [done| |done]. intros sj' Hj'. simplify_eq.
    apply (Forall_lookup_1 _ _ _ _ (proj1 Hok)) in Hj as (Hp & _ & Hd).
    split_and!; simpl; [done| |done]. intros [= ->]. by apply Hr.
Qed.

Lemma spec_reachable_ok only_one extra S :
  star (spec_step only_one extra) [] S -> spec_ok only_one extra S.
Proof.
  intros H. apply (star_invariant _ _ (spec_step_ok only_one extra) _ _ H).
  split; [constructor|]. intros _ j sj Hj. by rewrite lookup_nil in Hj.
Qed.

End Guarantees.

(** ** Properties *)

Import TestGenerator.

(** C23: the generator implements the payload service.  The abstract service is a list of jobs, each with
    the payload it would return: a request stops the others and adds one, jobs offer payloads that are
    good for their configuration, are stopped, and end.  Whatever order requests, news of the chain,
    polls, resolutions and builds come in, the generator's store, its tokens and cells forgotten, is a
    state the abstract service reaches, and every future and every poll answers what that state says;
    there at most the newest job is live when only one may be, every payload is good for its job, a
    build that ended well has one, and no job's time is over before that of its block. *)
Theorem generator_refines_service {P} `{PB : !PayloadBuilder P} `{PL : !PayloadBuilderLaws P} only_one
    extra (s : Store P) :
  star step (with_builder only_one extra) s ->
  star (spec_step only_one extra) [] (abs s) /\ spec_ok only_one extra (abs s) /\
  (forall j, resolve_poll j s = spec_get j (abs s)) /\
  (forall j now, fst (job_poll j now s) = spec_poll j now (abs s)).
Proof.
  intros Hs. destruct (steps_refine only_one extra _ _ Hs) as [Hr _]; [apply with_builder_ref_inv|].
  split; [exact Hr|]. split; [by apply spec_reachable_ok|]. split; intros; [apply abs_get|apply abs_poll].
Qed.

Lemma generator_refines_service_witness :
  star (spec_step true (from_millis 500)) [] (abs built) /\ spec_get 0 (abs built) = Ready (Ok 1%nat).
Proof.
  destruct (generator_refines_service true (from_millis 500) built built_reachable) as (Hs & _ & Hg & _).
  split; [exact Hs|]. rewrite <- Hg. reflexivity.
Defined.
