(* ===== verification/Service.v ===== *)
(** * The flashblocks payload service

    The flashblocks builder ([BuildPayload]) behind the job generator ([Generator]): its runs are
    those of [build_payload], with whatever the outside world does, and it keeps the promises the
    generator asks of a builder. *)

From S2P Require Import Prelude External ExecInfo GasLimiter PoolTx BestTxs Sidecar Context Replay Sequencer BestExec SidecarExec BuilderTx FlashblocksCtx Timing BuildBlock Flashblocks BuildPayload Generator.

Section Service.
Context `{X : Externals} `{B : !BuilderExternals X} `{S : !StateExternals X} `{J : !JobExternals X}.
Context {It Self : Type} `{PT : PayloadTransactions It}.
Context `{BT : !BuilderTransactions Self FlashblocksExtraCtx FlashblocksExecutionInfo}.
Context `{BL : !BuilderTransactionsLaws Self FlashblocksExtraCtx FlashblocksExecutionInfo}.
Context (config : FbConfig) (spec : OpChainSpec) (interop : bool).

(** The payloads a run has put into the cell.  Every one was handed to the payload handler just
    before, and nothing else is. *)
Definition run_payloads (o : option (FbState It Self)) : list OpBuiltPayload :=
  match o with Some s => fs_sent s | None => [] end.

(** The runs: any world, clock, timer signals, builder and limiter state. *)
Definition flashblocks_builds : PayloadBuilder OpBuiltPayload := fun pc ps r =>
  exists (w : World It) clock fc signals (self : Self) limiter now o,
    self_ok self /\
    build_payload config spec interop w pc clock fc signals self limiter now = Some (r, o) /\
    ps = run_payloads o.

(** A payload that is valid for the job: it replays from the state of the parent the job was asked to
    build on. *)
Definition valid_for (pc : PayloadConfig) (p : OpBuiltPayload) : Prop :=
  exists token x ctx d d0,
    get_op_payload_builder_ctx config spec interop pc token x = Ok ctx /\
    state_by_block_hash (sh_hash (pc_parent pc)) = inr d /\
    apply_pre_execution_changes d (pc_parent pc) (block_env_attributes ctx) = inr d0 /\
    valid_payload ctx d0 p.

Context `{G : !EvmGas X} `{RL : !ReceiptLaws X} `{FL : !FeeLaws X} `{F : !FlzLaws X}.
Context `{SL : !StateLaws X} `{JL : !JobLaws X} `{PL : !PayloadTransactionsLaws It}.

(** A run that fails before it has a state did not end well. *)
Lemma build_payload_no_state (w : World It) pc clock fc signals (self : Self) limiter now r :
  build_payload config spec interop w pc clock fc signals self limiter now = Some (r, None) ->
  r <> Ok tt.
Proof.
  unfold build_payload. destruct (bind _ _) as [[ctx d]|e|]; [|by intros [= <-]..].
  destruct (execute_pre_steps ctx d) as [[info|e|] d1]; [|by intros [= <-]..].
  by destruct (mbind' _ _ _) as [[]|].
Qed.

(** The cell holds the last of the payloads. *)
Lemma run_payloads_cell (w : World It) pc clock fc signals (self : Self) limiter now r s :
  build_payload config spec interop w pc clock fc signals self limiter now = Some (r, Some s) ->
  last (run_payloads (Some s)) = fs_cell s.
Proof. intros H. by apply build_payload_cell in H. Qed.

Lemma get_ctx_parent pc token x ctx :
  get_op_payload_builder_ctx config spec interop pc token x = Ok ctx -> parent ctx = pc_parent pc.
Proof.
  unfold get_op_payload_builder_ctx. by intros (? & _ & (? & _ & [= <-])%bind_Ok)%bind_Ok.
Qed.

Definition flashblocks_builds_laws (Hwf : wf_config config) :
  PayloadBuilderLaws (PayloadBuilder0 := flashblocks_builds) OpBuiltPayload.
Proof using G RL FL F SL JL PL.
  refine {| good_payload := valid_for : PayloadConfig -> OpBuiltPayload -> Prop |}.
  - intros pc ps r (w & clock & fc & signals & self & limiter & now & [s|] & Hok & H & ->); [|constructor].
    apply build_payload_trace in H as (x & ctx & d & d0 & _ & Hc & Hd & H0 & Hv & _); [|done..].
    pose proof (get_ctx_parent _ _ _ _ Hc) as Hp. unfold parent_hash in Hd. rewrite Hp in Hd, H0.
    eapply Forall_impl; [exact Hv|]. intros p Hvp%sealed_valid. by exists (w_block_cancel w), x, ctx, d, d0.
  - intros pc ps (w & clock & fc & signals & self & limiter & now & [s|] & Hok & H & ->).
    + apply build_payload_trace in H as (x & ctx & d & d0 & _ & _ & _ & _ & _ & Hr & _); [|done..].
      destruct (Hr eq_refl) as (p & _ & _ & Hif). simpl.
      destruct (no_tx_pool (pc_attributes pc)); [by destruct Hif as [_ ->]|].
      destruct Hif as [(q & _ & _ & _ & Hl) _]. by destruct (fs_sent s).
    + by apply build_payload_no_state in H.
Defined.

(** What the future of a job returns is valid for the job. *)
Lemma resolved_valid ensure extra s j job r :
  wf_config config ->
  star (step (PB := flashblocks_builds)) (with_builder ensure extra) s ->
  st_jobs s !! j = Some job -> resolve_poll j s = Ready r ->
  exists p, r = Ok p /\ p ∈ job_history job /\ valid_for (job_config job) p.
Proof using G RL FL F SL JL PL.
  intros Hwf Hs Hj Hr. pose proof (reachable_wf (PB := flashblocks_builds) _ _ _ Hs) as Hw.
  destruct (Forall_lookup_1 _ _ _ _ (wf_jobs _ Hw) Hj) as [Hh _].
  apply resolve_poll_Ready in Hr as (job' & p & -> & Hj' & Hp). rewrite Hj in Hj'. injection Hj' as <-.
  apply last_Some_elem_of in Hp. exists p. split_and!; [done..|].
  destruct Hh as (ps & r & Hb & Hpre); [by intros Hn; rewrite Hn in Hp; apply not_elem_of_nil in Hp|].
  pose proof (builds_good (PayloadBuilderLaws := flashblocks_builds_laws Hwf) _ _ _ Hb) as Hg.
  rewrite Forall_forall in Hg. apply Hg. by eapply elem_of_prefix.
Qed.

End Service.

Import TestChain TestPool TestSigner TestState TestJob TestPayload.

(** ** A service on the small chain *)
Module TestService.

Definition service_config : PayloadConfig :=
  mkPayloadConfig sample_parent (sample_attributes sample_sequencer_txs).

#[export] Instance service_builds : PayloadBuilder OpBuiltPayload :=
  flashblocks_builds (X := chain) (It := pool_iter) (Self := canned) (sample_config 0)
    (sample_spec false) false.

Lemma service_wf : wf_config (sample_config 0).
Proof. unfold wf_config. vm_compute. repeat split; discriminate || reflexivity. Qed.

(** A run that ends well has payloads. *)
Lemma service_run : exists p ps, builds service_config (p :: ps) (Ok tt).
Proof.
  assert (H : job_summary
    (build_payload (X := chain) (sample_config 0) (sample_spec false) false (job_world true)
      service_config (from_secs 1000 + from_millis 100) never_cancelled [never_cancelled]
      sample_builder_txs (new_limiter (mkGasLimiterArgs false 0 0 0)) 0)
    = (true, 2%nat)) by (vm_compute; reflexivity).
  destruct (build_payload (X := chain) _ _ _ _ _ _ _ _ _ _ _) as [[[[]| |] [s|]]|] eqn:E;
    try discriminate H.
  assert (Hb : builds service_config (fs_sent s) (Ok tt)).
  { unfold builds, service_builds, flashblocks_builds.
    do 7 eexists. exists (Some s). split; [exact job_self_ok|]. split; [exact E|done]. }
  pose proof (builds_sets (PayloadBuilderLaws := flashblocks_builds_laws (X := chain) _ _ _ service_wf)
    _ _ Hb) as Hn.
  clear E H. destruct (fs_sent s) as [|p ps]; [by destruct (Hn eq_refl)|]. exists p, ps. exact Hb.
Qed.

Definition service_started : Store OpBuiltPayload :=
  snd (new_payload_job (inr None) TestGenerator.headers (sample_attributes sample_sequencer_txs)
         (from_secs 1000) (with_builder true (from_millis 500))).

End TestService.

Import TestService.

(** ** Properties *)

(** C1: [engine_getPayload] returns only valid blocks.  Whatever the engine requests, the chain
    reports, the timers do and the builds find in the pool and the sidecar, in any order, a payload
    that the future of a job returns was built by that job and replays, from the state of the parent
    the job was asked to build on, to its own receipts and gas. *)
Theorem get_payload_valid `{X : Externals} `{B : !BuilderExternals X} `{S : !StateExternals X}
    `{J : !JobExternals X} `{!EvmGas X} `{!ReceiptLaws X} `{!FeeLaws X} `{!FlzLaws X}
    `{SL : !StateLaws X} `{!JobLaws X} {It Self} `{PT : PayloadTransactions It}
    `{!PayloadTransactionsLaws It}
    `{BT : !BuilderTransactions Self FlashblocksExtraCtx FlashblocksExecutionInfo}
    `{BL : !BuilderTransactionsLaws Self FlashblocksExtraCtx FlashblocksExecutionInfo}
    config spec interop ensure extra s j job r :
  wf_config config ->
  star (step (PB := flashblocks_builds (It := It) (Self := Self) config spec interop))
    (with_builder ensure extra) s ->
  st_jobs s !! j = Some job -> resolve_poll j s = Ready r ->
  exists p, r = Ok p /\ p ∈ job_history job /\ valid_for config spec interop (job_config job) p.
Proof. intros. by eapply resolved_valid. Qed.

Lemma get_payload_valid_witness :
  exists s p, star step (with_builder true (from_millis 500)) s /\ resolve_poll 0 s = Ready (Ok p) /\
    valid_for (X := chain) (sample_config 0) (sample_spec false) false service_config p.
Proof.
  destruct service_run as (p & ps & Hb).
  exists (cell_set 0 p service_started), p.
  assert (Hs : star step (with_builder true (from_millis 500)) (cell_set 0 p service_started)).
  { eapply star_step; [apply (step_request (inr None) TestGenerator.headers)|].
    eapply star_step; [|apply star_refl].
    eapply step_set; [reflexivity|reflexivity|exact Hb|by exists ps]. }
  split; [exact Hs|]. split; [reflexivity|].
  destruct (get_payload_valid (X := chain) (It := pool_iter) (Self := canned) (sample_config 0)
    (sample_spec false) false true (from_millis 500) (cell_set 0 p service_started) 0 _ (Ok p)
    service_wf Hs eq_refl eq_refl) as (q & [= <-] & _ & Hv).
  exact Hv.
Defined.
