(* ===== verification/EngineApi.v ===== *)
(** * The engine API

    Models [primitives/reth/engine_api_builder.rs]: the server trait [OpRbuilderEngineApi] with the
    names its methods are registered under, the implementation [OpEngineApiExt], which hands every
    method to reth's own engine API, and [OpEngineApiBuilder], which builds it.  reth's engine API, the
    decoding of parameters and the encoding of answers are parameters. *)

From S2P Require Import Prelude External.

(** The data of the engine API that the server only passes on. *)
Class EngineData : Type := {
  ExecutionPayloadInputV2 : Type;
  ExecutionPayloadV3 : Type;
  OpExecutionPayloadV4 : Type;
  Requests : Type;
  PayloadStatus : Type;
  ForkchoiceState : Type;
  OpPayloadAttributes : Type;
  ForkchoiceUpdated : Type;
  PayloadId : Type;
  ExecutionPayloadEnvelopeV2 : Type;
  OpExecutionPayloadEnvelopeV3 : Type;
  OpExecutionPayloadEnvelopeV4 : Type;
  ExecutionPayloadBodiesV1 : Type;
  SuperchainSignal : Type;
  ProtocolVersion : Type;
}.

Record ClientVersionV1 : Type := mkClientVersion {
  cv_code : string;
  cv_name : string;
  cv_version : string;
  cv_commit : string;
}.

(** ** The methods *)

(** The methods of the trait, in the order it declares them. *)
Inductive EngineMethod : Type :=
| NewPayloadV2 | NewPayloadV3 | NewPayloadV4
| ForkchoiceUpdatedV1 | ForkchoiceUpdatedV2 | ForkchoiceUpdatedV3
| GetPayloadV2 | GetPayloadV3 | GetPayloadV4
| GetPayloadBodiesByHashV1 | GetPayloadBodiesByRangeV1
| SignalSuperchainV1 | GetClientVersionV1 | ExchangeCapabilities.

#[export] Instance engine_method_eq_dec : EqDecision EngineMethod.
Proof. solve_decision. Defined.

Definition engine_methods : list EngineMethod :=
  [NewPayloadV2; NewPayloadV3; NewPayloadV4; ForkchoiceUpdatedV1; ForkchoiceUpdatedV2;
   ForkchoiceUpdatedV3; GetPayloadV2; GetPayloadV3; GetPayloadV4; GetPayloadBodiesByHashV1;
   GetPayloadBodiesByRangeV1; SignalSuperchainV1; GetClientVersionV1; ExchangeCapabilities].

(** The [name] of the [method] attribute. *)
Definition method_attribute (m : EngineMethod) : string :=
  match m with
  | NewPayloadV2 => "newPayloadV2"
  | NewPayloadV3 => "newPayloadV3"
  | NewPayloadV4 => "newPayloadV4"
  | ForkchoiceUpdatedV1 => "forkchoiceUpdatedV1"
  | ForkchoiceUpdatedV2 => "forkchoiceUpdatedV2"
  | ForkchoiceUpdatedV3 => "forkchoiceUpdatedV3"
  | GetPayloadV2 => "getPayloadV2"
  | GetPayloadV3 => "getPayloadV3"
  | GetPayloadV4 => "getPayloadV4"
  | GetPayloadBodiesByHashV1 => "getPayloadBodiesByHashV1"
  | GetPayloadBodiesByRangeV1 => "getPayloadBodiesByRangeV1"
  | SignalSuperchainV1 => "engine_signalSuperchainV1"
  | GetClientVersionV1 => "getClientVersionV1"
  | ExchangeCapabilities => "exchangeCapabilities"
  end.

(** The namespace of the trait comes first. *)
Definition rpc_name (m : EngineMethod) : string := "engine_" +:+ method_attribute m.

(** The names of the methods in the engine API of Ethereum ([execution-apis], the engine namespace) and in
    Optimism's extension of it ([exec-engine], [engine_signalSuperchainV1]). *)
Definition specified_name (m : EngineMethod) : string :=
  match m with
  | NewPayloadV2 => "engine_newPayloadV2"
  | NewPayloadV3 => "engine_newPayloadV3"
  | NewPayloadV4 => "engine_newPayloadV4"
  | ForkchoiceUpdatedV1 => "engine_forkchoiceUpdatedV1"
  | ForkchoiceUpdatedV2 => "engine_forkchoiceUpdatedV2"
  | ForkchoiceUpdatedV3 => "engine_forkchoiceUpdatedV3"
  | GetPayloadV2 => "engine_getPayloadV2"
  | GetPayloadV3 => "engine_getPayloadV3"
  | GetPayloadV4 => "engine_getPayloadV4"
  | GetPayloadBodiesByHashV1 => "engine_getPayloadBodiesByHashV1"
  | GetPayloadBodiesByRangeV1 => "engine_getPayloadBodiesByRangeV1"
  | SignalSuperchainV1 => "engine_signalSuperchainV1"
  | GetClientVersionV1 => "engine_getClientVersionV1"
  | ExchangeCapabilities => "engine_exchangeCapabilities"
  end.

(** The names that are served: the specified ones, one of them with the namespace twice. *)
Definition served_name (m : EngineMethod) : string :=
  match m with
  | SignalSuperchainV1 => "engine_engine_signalSuperchainV1"
  | _ => specified_name m
  end.

Section EngineApi.
Context `{D : EngineData}.

(** The arguments and the answer of a method. *)
Definition Arguments_of (m : EngineMethod) : Type :=
  match m with
  | NewPayloadV2 => ExecutionPayloadInputV2
  | NewPayloadV3 => ExecutionPayloadV3 * list B256 * B256
  | NewPayloadV4 => OpExecutionPayloadV4 * list B256 * B256 * Requests
  | ForkchoiceUpdatedV1 | ForkchoiceUpdatedV2 | ForkchoiceUpdatedV3 =>
      ForkchoiceState * option OpPayloadAttributes
  | GetPayloadV2 | GetPayloadV3 | GetPayloadV4 => PayloadId
  | GetPayloadBodiesByHashV1 => list B256
  | GetPayloadBodiesByRangeV1 => Z * Z
  | SignalSuperchainV1 => SuperchainSignal
  | GetClientVersionV1 => ClientVersionV1
  | ExchangeCapabilities => list string
  end.
Definition Answer_of (m : EngineMethod) : Type :=
  match m with
  | NewPayloadV2 | NewPayloadV3 | NewPayloadV4 => PayloadStatus
  | ForkchoiceUpdatedV1 | ForkchoiceUpdatedV2 | ForkchoiceUpdatedV3 => ForkchoiceUpdated
  | GetPayloadV2 => ExecutionPayloadEnvelopeV2
  | GetPayloadV3 => OpExecutionPayloadEnvelopeV3
  | GetPayloadV4 => OpExecutionPayloadEnvelopeV4
  | GetPayloadBodiesByHashV1 | GetPayloadBodiesByRangeV1 => ExecutionPayloadBodiesV1
  | SignalSuperchainV1 => ProtocolVersion
  | GetClientVersionV1 => list ClientVersionV1
  | ExchangeCapabilities => list string
  end.

(** Errors of a call: the engine's own, by code, and those of the RPC server. *)
Inductive RpcError : Type := EngineError (code : Z) | InvalidParams | MethodNotFound.

(** reth's [OpEngineApi] over a node in state [W]. *)
Context {W : Type}.
Definition OpEngineApi : Type :=
  forall m : EngineMethod, Arguments_of m -> W -> outcome RpcError (Answer_of m) * W.

(** [OpEngineApiExt] and [OpEngineApiExt::new] *)
Record OpEngineApiExt : Type := new_ext { ext_inner : OpEngineApi }.

(** ** The implementation of the trait *)

Definition new_payload_v2 (self : OpEngineApiExt) (payload : ExecutionPayloadInputV2) :=
  ext_inner self NewPayloadV2 payload.
Definition new_payload_v3 (self : OpEngineApiExt) (payload : ExecutionPayloadV3)
    (versioned_hashes : list B256) (parent_beacon_block_root : B256) :=
  ext_inner self NewPayloadV3 (payload, versioned_hashes, parent_beacon_block_root).
Definition new_payload_v4 (self : OpEngineApiExt) (payload : OpExecutionPayloadV4)
    (versioned_hashes : list B256) (parent_beacon_block_root : B256)
    (execution_requests : Requests) :=
  ext_inner self NewPayloadV4
    (payload, versioned_hashes, parent_beacon_block_root, execution_requests).
Definition fork_choice_updated_v1 (self : OpEngineApiExt) (fork_choice_state : ForkchoiceState)
    (payload_attributes : option OpPayloadAttributes) :=
  ext_inner self ForkchoiceUpdatedV1 (fork_choice_state, payload_attributes).
Definition fork_choice_updated_v2 (self : OpEngineApiExt) (fork_choice_state : ForkchoiceState)
    (payload_attributes : option OpPayloadAttributes) :=
  ext_inner self ForkchoiceUpdatedV2 (fork_choice_state, payload_attributes).
Definition fork_choice_updated_v3 (self : OpEngineApiExt) (fork_choice_state : ForkchoiceState)
    (payload_attributes : option OpPayloadAttributes) :=
  ext_inner self ForkchoiceUpdatedV3 (fork_choice_state, payload_attributes).
Definition get_payload_v2 (self : OpEngineApiExt) (payload_id : PayloadId) :=
  ext_inner self GetPayloadV2 payload_id.
Definition get_payload_v3 (self : OpEngineApiExt) (payload_id : PayloadId) :=
  ext_inner self GetPayloadV3 payload_id.
Definition get_payload_v4 (self : OpEngineApiExt) (payload_id : PayloadId) :=
  ext_inner self GetPayloadV4 payload_id.
Definition get_payload_bodies_by_hash_v1 (self : OpEngineApiExt) (block_hashes : list B256) :=
  ext_inner self GetPayloadBodiesByHashV1 block_hashes.
Definition get_payload_bodies_by_range_v1 (self : OpEngineApiExt) (start count : Z) :=
  ext_inner self GetPayloadBodiesByRangeV1 (start, count).
Definition signal_superchain_v1 (self : OpEngineApiExt) (signal : SuperchainSignal) :=
  ext_inner self SignalSuperchainV1 signal.
Definition get_client_version_v1 (self : OpEngineApiExt) (client : ClientVersionV1) :=
  ext_inner self GetClientVersionV1 client.
Definition exchange_capabilities (self : OpEngineApiExt) (capabilities : list string) :=
  ext_inner self ExchangeCapabilities capabilities.

(** The method of the trait behind a method of the API. *)
Definition serve (self : OpEngineApiExt) (m : EngineMethod)
    : Arguments_of m -> W -> outcome RpcError (Answer_of m) * W :=
  match m with
  | NewPayloadV2 => new_payload_v2 self
  | NewPayloadV3 => fun '(p, hs, root) => new_payload_v3 self p hs root
  | NewPayloadV4 => fun '(p, hs, root, reqs) => new_payload_v4 self p hs root reqs
  | ForkchoiceUpdatedV1 => fun '(st, attrs) => fork_choice_updated_v1 self st attrs
  | ForkchoiceUpdatedV2 => fun '(st, attrs) => fork_choice_updated_v2 self st attrs
  | ForkchoiceUpdatedV3 => fun '(st, attrs) => fork_choice_updated_v3 self st attrs
  | GetPayloadV2 => get_payload_v2 self
  | GetPayloadV3 => get_payload_v3 self
  | GetPayloadV4 => get_payload_v4 self
  | GetPayloadBodiesByHashV1 => get_payload_bodies_by_hash_v1 self
  | GetPayloadBodiesByRangeV1 => fun '(start, count) => get_payload_bodies_by_range_v1 self start count
  | SignalSuperchainV1 => signal_superchain_v1 self
  | GetClientVersionV1 => get_client_version_v1 self
  | ExchangeCapabilities => exchange_capabilities self
  end.

(** ** Building the API *)

(** What [reth_rpc_engine_api::EngineApi::new] is given that the builder decides; the handles of the
    node it takes from the context are not listed. *)
Record EngineApiParts (Validator : Type) : Type := mkEngineParts {
  ep_client : ClientVersionV1;
  ep_capabilities : list string;
  ep_validator : Validator;
  ep_accept_execution_requests_hash : bool;
}.

(** [OpEngineApiBuilder::build_engine_api]: [client_code], [meta] and [capabilities] are reth's
    [CLIENT_CODE], [version_metadata] (client name, version, commit) and [OP_ENGINE_CAPABILITIES];
    [validator] is what the validator builder returns and [new_engine] wraps reth's engine. *)
Definition build_engine_api {Validator} (client_code : string) (meta : string * string * string)
    (capabilities : list string) (validator : outcome Z Validator)
    (accept_execution_requests_hash : bool) (new_engine : EngineApiParts Validator -> OpEngineApi)
    : outcome Z OpEngineApiExt :=
  let? engine_validator := validator in
  let '(name, version, commit) := meta in
  let client := mkClientVersion client_code name version commit in
  Ok (new_ext (new_engine (mkEngineParts Validator client capabilities engine_validator
                             accept_execution_requests_hash))).

(** ** The RPC module *)

(** JSON values, and how the server decodes parameters and encodes answers. *)
Context {Value : Type}.
Context (decode_params : forall m, list Value -> option (Arguments_of m)).
Context (encode_answer : forall m, Answer_of m -> Value).

Definition Callback : Type := list Value -> W -> outcome RpcError Value * W.
Definition RpcModule : Type := list (string * Callback).

Definition callback (self : OpEngineApiExt) (m : EngineMethod) : Callback := fun params s =>
  match decode_params m params with
  | None => (Err InvalidParams, s)
  | Some args =>
      let '(r, s') := serve self m args s in
      (let? a := r in Ok (encode_answer m a), s')
  end.

(** Looking a method up. *)
Fixpoint find_method (module : RpcModule) (name : string) : option Callback :=
  match module with
  | [] => None
  | (n, c) :: module' => if String.eqb n name then Some c else find_method module' name
  end.

(** Registering a method; a name that is taken is a panic of the generated code. *)
Definition register_method {E} (self : OpEngineApiExt) (module : RpcModule) (m : EngineMethod)
    : outcome E RpcModule :=
  match find_method module (rpc_name m) with
  | Some _ => Panic
  | None => Ok (module ++ [(rpc_name m, callback self m)])
  end.

(** [IntoEngineApiRpcModule::into_rpc_module] *)
Definition into_rpc_module {E} (self : OpEngineApiExt) : outcome E RpcModule :=
  fold_left (fun acc m => let? module := acc in register_method self module m) engine_methods (Ok []).

(** A request to the module. *)
Definition call_method (module : RpcModule) (name : string) (params : list Value) (s : W)
    : outcome RpcError Value * W :=
  match find_method module name with
  | Some c => c params s
  | None => (Err MethodNotFound, s)
  end.

(** The answer of reth's engine to a request for a method. *)
Definition engine_answer (engine : OpEngineApi) (m : EngineMethod) (params : list Value) (s : W)
    : outcome RpcError Value * W :=
  match decode_params m params with
  | None => (Err InvalidParams, s)
  | Some args => let '(r, s') := engine m args s in (let? a := r in Ok (encode_answer m a), s')
  end.

(** What the module holds. *)
Definition engine_module (self : OpEngineApiExt) : RpcModule :=
  (fun m => (rpc_name m, callback self m)) <$> engine_methods.

Lemma serve_inner self m args s : serve self m args s = ext_inner self m args s.
Proof. destruct m; simpl in *; by repeat match goal with a : (_ * _)%type |- _ => destruct a end. Qed.

Lemma into_rpc_module_ok {E} self : (into_rpc_module self : outcome E _) = Ok (engine_module self).
Proof. reflexivity. Qed.

Lemma find_engine_method self m : find_method (engine_module self) (served_name m) = Some (callback self m).
Proof. by destruct m. Qed.

Lemma callback_answers self m params s : callback self m params s = engine_answer (ext_inner self) m params s.
Proof. unfold callback, engine_answer. destruct (decode_params m params); [|done]. by rewrite serve_inner. Qed.

Lemma find_unknown_method self name :
  name ∉ rpc_name <$> engine_methods -> find_method (engine_module self) name = None.
Proof.
  unfold engine_module. induction engine_methods as [|m ms IH]; [done|].
  rewrite !fmap_cons, not_elem_of_cons. intros [Hne Hms]. cbn [find_method].
  destruct (String.eqb_spec (rpc_name m) name) as [<-|]; [done|by apply IH].
Qed.

End EngineApi.

(** An engine over a counter: it counts the calls, and refuses the second. *)
Module TestEngine.

#[export] Instance numbers : EngineData := {|
  ExecutionPayloadInputV2 := Z; ExecutionPayloadV3 := Z; OpExecutionPayloadV4 := Z; Requests := Z;
  PayloadStatus := Z; ForkchoiceState := Z; OpPayloadAttributes := Z; ForkchoiceUpdated := Z; PayloadId := Z;
  ExecutionPayloadEnvelopeV2 := Z; OpExecutionPayloadEnvelopeV3 := Z; OpExecutionPayloadEnvelopeV4 := Z;
  ExecutionPayloadBodiesV1 := Z; SuperchainSignal := Z; ProtocolVersion := Z;
|}.

Definition number_of (m : EngineMethod) (n : Z) : Answer_of m :=
  match m with
  | GetClientVersionV1 | ExchangeCapabilities => []
  | _ => n
  end.
Definition counting_engine (parts : EngineApiParts unit) : OpEngineApi (W := Z) := fun m _ s =>
  (if s =? 1 then Err (EngineError 38001) else Ok (number_of m (s + 100)), s + 1).

Definition decode_number (m : EngineMethod) (params : list Z) : option (Arguments_of m) :=
  match m as m return option (Arguments_of m) with
  | GetPayloadV4 => match params with [p] => Some p | _ => None end
  | _ => None
  end.
Definition encode_number (m : EngineMethod) (a : Answer_of m) : Z :=
  match m as m return Answer_of m -> Z with GetPayloadV4 => fun n => n | _ => fun _ => 0 end a.

End TestEngine.

(** ** Properties *)

(** C27: the engine API is served.  When the validator cannot be built, nor can the API; otherwise the API
    is over an engine of reth with this validator, the given capabilities and setting, and the client
    version of the build, and its RPC module can be built, because no two methods share a name.  A call
    under the name that the specification gives to a method is decoded, answered by that method of the
    engine on the same arguments and encoded, with the engine's error and its change of state passed on,
    and refused without change when the parameters cannot be decoded; the exception is
    [engine_signalSuperchainV1], which is not found, because its attribute repeats the namespace: it
    answers to [engine_engine_signalSuperchainV1].  A call under any other name is not found and changes
    nothing. *)
Theorem engine_api_served `{D : EngineData} {W Value Validator : Type}
    (decode : forall m, list Value -> option (Arguments_of m)) (encode : forall m, Answer_of m -> Value)
    code name version commit capabilities accept (new_engine : EngineApiParts Validator -> OpEngineApi (W := W)) :
  (forall e, build_engine_api code (name, version, commit) capabilities (Err e) accept new_engine = Err e) /\
  forall v, exists self module,
    build_engine_api code (name, version, commit) capabilities (Ok v) accept new_engine = Ok self /\
    into_rpc_module (E := unit) decode encode self = Ok module /\
    let engine := new_engine (mkEngineParts _ (mkClientVersion code name version commit) capabilities v accept) in
    (forall m params s, m <> SignalSuperchainV1 ->
       call_method module (specified_name m) params s = engine_answer decode encode engine m params s) /\
    (forall params s,
       call_method module "engine_signalSuperchainV1" params s = (Err MethodNotFound, s) /\
       call_method module "engine_engine_signalSuperchainV1" params s
         = engine_answer decode encode engine SignalSuperchainV1 params s) /\
    (forall other params s, other ∉ served_name <$> engine_methods ->
       call_method module other params s = (Err MethodNotFound, s)).
Proof.
  split; [done|]. intros v. set (engine := new_engine _).
  exists (new_ext engine), (engine_module decode encode (new_ext engine)).
  assert (Hserved : forall m params s,
    call_method (engine_module decode encode (new_ext engine)) (served_name m) params s
    = engine_answer decode encode engine m params s).
  { intros m params s. unfold call_method. by rewrite find_engine_method, callback_answers. }
  split; [done|]. split; [apply into_rpc_module_ok|]. split_and!.
  - intros m params s Hm. rewrite <- Hserved. by destruct m.
  - intros params s. split; [reflexivity|]. apply (Hserved SignalSuperchainV1).
  - intros other params s Hn. unfold call_method. by rewrite find_unknown_method.
Qed.

(** The payload of the first call is served, the second call is refused by the engine, and the missing
    parameter by the server. *)
Lemma engine_api_served_witness :
  exists module,
    call_method (W := Z) module "engine_getPayloadV4" [7] 0 = (Ok 100, 1) /\
    call_method module "engine_getPayloadV4" [7] 1 = (Err (EngineError 38001), 2) /\
    call_method module "engine_getPayloadV4" [] 2 = (Err InvalidParams, 2) /\
    call_method module "engine_getPayloadV5" [7] 2 = (Err MethodNotFound, 2).
Proof.
  destruct (engine_api_served TestEngine.decode_number TestEngine.encode_number "OP" "op-rbuilder" "1" "c"
    [] true TestEngine.counting_engine) as [_ H].
  destruct (H tt) as (self & module & _ & _ & Hm & _ & Hn). exists module. split_and!.
  - by rewrite (Hm GetPayloadV4).
  - by rewrite (Hm GetPayloadV4).
  - by rewrite (Hm GetPayloadV4).
  - apply Hn. apply (bool_decide_eq_false_1 _). vm_compute. reflexivity.
Defined.
