(* ===== verification/PayloadHandler.v ===== *)
(** * The flashblocks payload handler

    Models [builders/flashblocks/payload_handler.rs], [ctx.rs] and [p2p.rs]: the task that announces
    the payloads this node builds and sends them to its peers, and that re-executes the payloads the
    peers send.  [execute_flashblock] is the re-execution; the task and the executions it spawns are a
    step relation. *)

From S2P Require Import Prelude External ExecInfo PoolTx Sidecar Context Replay Sequencer FlashblocksCtx Timing BuildBlock Flashblocks BuildPayload.

(** ** Data *)

(** Where an execution fails; the reports of [eyre] without their texts. *)
Inductive SyncError : Type :=
| ParentHeaderFailed (e : Z)
| ParentHeaderNotFound
| HeaderInvalid (e : Z)
| HeaderAgainstParentInvalid (e : Z)
| ParentStateFailed (e : Z)
| NextEvmEnvFailed (e : Z)
| PreExecutionFailed (e : Z)
| ExtraDataLength (expected : nat)
| RecoverFailed
| DepositorNonceFailed
| ExecuteFailed (e : EvmError)
| MaxGasPerTxnExceeded
| GasOverflow
| GasLimitExceeded
| BuildBlockFailed (e : PayloadBuilderError)
| HashMismatch (expected got : B256).

(** [ctx.rs]; the DA configuration is its two limits. *)
Record OpPayloadSyncerCtx : Type := mkSyncerCtx {
  sy_max_da_tx_size : option Z;
  sy_max_da_block_size : option Z;
  sy_chain_spec : OpChainSpec;
  sy_max_gas_per_txn : option Z;
  sy_interop : bool;
}.

(** [p2p.rs]: the payload on the wire has no executed block. *)
Record WirePayload : Type := mkWire {
  wire_id : Z;
  wire_block : Block;
  wire_hash : B256;
  wire_fees : Z;
}.
Inductive P2pMessage : Type := OpBuiltPayloadMessage (p : WirePayload).

(** The methods of the chain client that the handler calls; numbers are errors. *)
Record Client `{Externals} : Type := mkClient {
  header_by_id : B256 -> Z + option Header;
  client_state_by_block_hash : B256 -> Z + db;
  client_chain_spec : OpChainSpec;
}.

(** [OpBeaconConsensus] and the methods of [OpPayloadBuilderAttributes] that encode the EIP-1559
    parameters (eight bytes, when there are any) and the minimal base fee. *)
Class SyncExternals (X : Externals) : Type := {
  validate_header : OpChainSpec -> Header -> Z + unit;
  validate_header_against_parent : OpChainSpec -> Header -> Header -> B256 -> Z + unit;
  jovian_extra_data : option Bytes -> option Z -> Z -> Z + Bytes;
  holocene_extra_data : option Bytes -> Z -> Z + Bytes;
}.

(** ** Definitions *)

(** [From<RethOpBuiltPayload> for OpBuiltPayload], and back: the executed block is lost. *)
Definition to_wire (p : OpBuiltPayload) : WirePayload :=
  mkWire (p_id p) (p_block p) (p_hash p) (p_fees p).
Definition to_message (p : OpBuiltPayload) : P2pMessage := OpBuiltPayloadMessage (to_wire p).
Definition from_wire (p : WirePayload) : OpBuiltPayload :=
  mkPayload (wire_id p) (wire_block p) (wire_hash p) (wire_fees p) [] [].

(** [OpPayloadSyncerCtx::new] *)
Definition new_syncer_ctx {S} (spec : OpChainSpec) (config : BuilderConfig S) (interop : bool)
    : OpPayloadSyncerCtx :=
  mkSyncerCtx (cfg_max_da_tx_size config) (cfg_max_da_block_size config) spec
    (cfg_max_gas_per_txn config) interop.

(** [SealedHeader::new] *)
Definition seal_header (h : Header) (hash : B256) : SealedHeader :=
  mkSealedHeader hash (h_number h) (h_gas_limit h) (h_state_root h) (h_timestamp h).

Definition sync_is_regolith_active (sctx : OpPayloadSyncerCtx) (ts : Z) : bool :=
  regolith_at (sy_chain_spec sctx) ts.
Definition sync_is_canyon_active (sctx : OpPayloadSyncerCtx) (ts : Z) : bool :=
  canyon_at (sy_chain_spec sctx) ts.

Definition into_op_payload_builder_ctx (sctx : OpPayloadSyncerCtx) (pc : PayloadConfig) (env : EvmEnv)
    (env_attributes : OpNextBlockEnvAttributes) (token : CancellationToken)
    : OpPayloadBuilderCtx unit :=
  mkCtx (sy_max_da_tx_size sctx) (sy_max_da_block_size sctx) None (sy_chain_spec sctx) (pc_parent pc)
    (pc_attributes pc) env env_attributes token None tt (sy_max_gas_per_txn sctx) (sy_interop sctx).

(** [<[u8; 8]>::try_from(slice).ok()] *)
Definition try_into_8 (l : Bytes) : option Bytes := if (length l =? 8)%nat then Some l else None.

(** The EIP-1559 parameters and the minimal base fee in the extra data of a header. *)
Definition parse_extra_data (spec : OpChainSpec) (ts : Z) (data : Bytes)
    : outcome SyncError (option Bytes * option Z) :=
  if jovian_at spec ts then
    if negb (length data =? 17)%nat then Err (ExtraDataLength 17)
    else Ok (try_into_8 (slice data 1 9), Some (from_be_bytes (slice data 9 17)))
  else if holocene_at spec ts then
    if negb (length data =? 9)%nat then Err (ExtraDataLength 9)
    else Ok (try_into_8 (slice data 1 9), None)
  else if negb (length data =? 0)%nat then Err (ExtraDataLength 0)
  else Ok (None, None).

Section Handler.
Context `{X : Externals} `{S : !StateExternals X} `{J : !JobExternals X} `{Y : !SyncExternals X}.
Implicit Type sctx : OpPayloadSyncerCtx.
Implicit Type info : FbInfo.

Definition validate_pre_execution (p : OpBuiltPayload) (parent_header : Header) (parent_hash : B256)
    (spec : OpChainSpec) : outcome SyncError unit :=
  let? _ := of_sum HeaderInvalid (validate_header spec (b_header (p_block p))) in
  let? _ :=
    of_sum HeaderAgainstParentInvalid
      (validate_header_against_parent spec (b_header (p_block p)) parent_header parent_hash) in
  Ok tt.

Definition sync_depositor_nonce sctx (ts : Z) (d : db) (t : Recovered) : unit + option Z :=
  if sync_is_regolith_active sctx ts && is_deposit (inner t) then
    match load_cache_account d (signer t) with
    | inl e => inl e
    | inr acc => inr (Some (acc_nonce (unwrap_or acc default_account)))
    end
  else inr None.

Definition sync_build_receipt sctx (t : OpTransactionSigned) (result : ExecutionResult)
    (state : changes) (cumulative : Z) (deposit_nonce : option Z) (ts : Z) : OpReceipt :=
  match rb_build_receipt t result state cumulative with
  | Some receipt => receipt
  | None =>
      rb_build_deposit_receipt
        (mkDepositReceipt (mkReceipt (is_success result) cumulative (into_logs result)) deposit_nonce
           (if sync_is_canyon_active sctx ts then Some 1 else None))
  end.

(** One iteration of the loop of [execute_transactions]. *)
Definition sync_body sctx (gas_limit ts : Z) (env : EvmEnv) (tx : OpTransactionSigned)
    (s : FbInfo * db) : ctl (FbInfo * db) SyncError :=
  let '(info, d) := s in
  match try_clone_into_recovered tx with
  | None => Stop RecoverFailed
  | Some tx_recovered =>
      match sync_depositor_nonce sctx ts d tx_recovered with
      | inl _ => Stop DepositorNonceFailed
      | inr depositor_nonce =>
          match transact env d tx_recovered with
          | inl e => Stop (ExecuteFailed e)
          | inr (result, state) =>
              if is_some_and (sy_max_gas_per_txn sctx) (fun m => m <? gas_used result) then
                Stop MaxGasPerTxnExceeded
              else
                match checked_add (cumulative_gas_used info) (gas_used result) with
                | None => Stop GasOverflow
                | Some gas =>
                    if gas_limit <? gas then Stop GasLimitExceeded
                    else
                      Next (push_executed info gas (cumulative_da_bytes_used info) (total_fees info)
                              (sync_build_receipt sctx tx result state gas depositor_nonce ts)
                              tx_recovered,
                            commit d state)
                end
          end
      end
  end.

Definition execute_transactions sctx info (d : db) (txs : list OpTransactionSigned)
    (gas_limit ts : Z) (env : EvmEnv) (spec : OpChainSpec) : outcome SyncError (FbInfo * db) :=
  match for_each (sync_body sctx gas_limit ts env) txs (info, d) with
  | Stop e => Err e
  | Next (info, d) =>
      let? scalar :=
        (if jovian_at spec ts then
           let? s := expect (fetch_da_footprint_gas_scalar d) in Ok (Some s)
         else Ok None) in
      Ok (set_da_footprint_scalar info scalar, d)
  end.

(** The environment of the block, read off its header. *)
Definition header_env (h : Header) : OpNextBlockEnvAttributes :=
  mkNextBlockEnv (h_timestamp h) (h_beneficiary h) (h_mix_hash h) (h_gas_limit h)
    (h_parent_beacon_block_root h) (h_extra_data h).

(** The attributes of the block, read off the payload. *)
Definition sync_attributes (p : OpBuiltPayload) (eip_1559_params : option Bytes)
    (min_base_fee : option Z) : OpPayloadBuilderAttributes :=
  let header := b_header (p_block p) in
  mkAttributes (h_parent_hash header) (p_id p) (h_timestamp header) (h_mix_hash header)
    (h_beneficiary header) (unwrap_or (b_withdrawals (p_block p)) [])
    (h_parent_beacon_block_root header) false [] None
    (jovian_extra_data eip_1559_params min_base_fee) (holocene_extra_data eip_1559_params).

Definition initial_info (h : Header) : FbInfo :=
  set_optional_blob_fields (with_capacity default_fb_info)
    (Some (h_excess_blob_gas h, h_blob_gas_used h)).

Definition execute_flashblock (p : OpBuiltPayload) sctx (client : Client) (token : CancellationToken)
    : outcome SyncError (OpBuiltPayload * OpFlashblockPayload) :=
  let header := b_header (p_block p) in
  let parent_hash := h_parent_hash header in
  let? found := of_sum ParentHeaderFailed (header_by_id client parent_hash) in
  let? parent_header := ok_or found ParentHeaderNotFound in
  let spec := client_chain_spec client in
  let? _ := validate_pre_execution p parent_header parent_hash spec in
  let? d := of_sum ParentStateFailed (client_state_by_block_hash client parent_hash) in
  let ts := h_timestamp header in
  let env_attributes := header_env header in
  let parent := seal_header parent_header parent_hash in
  let? env := of_sum NextEvmEnvFailed (next_evm_env parent env_attributes) in
  let? d := of_sum PreExecutionFailed (apply_pre_execution_changes d parent env_attributes) in
  let? (eip_1559_parameters, min_base_fee) := parse_extra_data spec ts (h_extra_data header) in
  let pc := mkPayloadConfig parent (sync_attributes p eip_1559_parameters min_base_fee) in
  let? (info, d) :=
    execute_transactions sctx (initial_info header) d (b_transactions (p_block p))
      (h_gas_used header) ts env spec in
  let builder_ctx := into_op_payload_builder_ctx sctx pc env env_attributes token in
  let? (built, fb) := map_err BuildBlockFailed (build_block builder_ctx info d true).1.1 in
  if negb (p_hash built =? p_hash p) then Err (HashMismatch (p_hash p) (p_hash built))
  else Ok (built, fb).

End Handler.

#[local] Arguments sync_body : simpl never.

(** ** Specification *)

(** The gas of each transaction, from the cumulative gas of the receipts. *)
Fixpoint gas_steps (before : Z) (cumulative : list Z) : list Z :=
  match cumulative with
  | [] => []
  | g :: l => (g - before) :: gas_steps g l
  end.

(** Nothing uses more than [limit], when there is one. *)
Definition below (limit : option Z) (l : list Z) : Prop :=
  forall m, limit = Some m -> Forall (fun g => g <= m) l.

(** The context of a replay agrees with what the handler executes in. *)
Definition agrees {E} (sctx : OpPayloadSyncerCtx) (ts : Z) (env : EvmEnv)
    (ctx : OpPayloadBuilderCtx E) : Prop :=
  is_regolith_active ctx = sync_is_regolith_active sctx ts /\
  is_canyon_active ctx = sync_is_canyon_active sctx ts /\ evm_env ctx = env.

(** ** Lemmas *)

Lemma wire_roundtrip w : to_wire (from_wire w) = w.
Proof. by destruct w. Qed.

Section Execution.
Context `{X : Externals} `{G : !EvmGas X} `{RL : !ReceiptLaws X} {Ec : Type}.
Context (sctx : OpPayloadSyncerCtx) (gas_limit ts : Z) (env : EvmEnv).
Context (ctx : OpPayloadBuilderCtx Ec) (Ha : agrees sctx ts env ctx).
Implicit Type info : FbInfo.

(** One iteration is one step of a replay that stays within the limits. *)
Lemma sync_body_Next tx info d info' d' :
  in_u64 (cumulative_gas_used info) -> in_u64 (tx_gas_limit tx) ->
  sync_body sctx gas_limit ts env tx (info, d) = Next (info', d') <->
  exists a r gas, tx_from tx = Some a /\
    replay_tx ctx (mkRecovered tx a) d (cumulative_gas_used info) = Some (r, d', gas) /\
    cumulative_gas_used info <= gas <= gas_limit /\
    below (sy_max_gas_per_txn sctx) [gas - cumulative_gas_used info] /\
    info' = push_executed info gas (cumulative_da_bytes_used info) (total_fees info) r
              (mkRecovered tx a).
Proof using Ha G.
  intros Hc Ht. destruct Ha as (Hr & Hk & He). unfold sync_body, try_clone_into_recovered, replay_tx.
  destruct (tx_from tx) as [a|]; simpl; [|split; [done|by intros (? & ? & ? & ? & _)]].
  assert (Hn : sync_depositor_nonce sctx ts d (mkRecovered tx a) = depositor_nonce ctx d (mkRecovered tx a)).
  { unfold sync_depositor_nonce, depositor_nonce. by rewrite Hr. }
  rewrite Hn. destruct (depositor_nonce ctx d _) as [|nonce] eqn:Hd.
  { split; [done|]. intros (? & ? & ? & [= <-] & H & _). by rewrite Hd in H. } rewrite He.
  destruct (transact env d _) as [|[result state]] eqn:Htr.
  { split; [done|]. intros (? & ? & ? & [= <-] & H & _). by rewrite Hd, Htr in H. }
  assert (Hb : forall g, build_receipt ctx tx result state g nonce
                         = sync_build_receipt sctx tx result state g nonce ts).
  { intros g. unfold build_receipt, sync_build_receipt. by rewrite Hk. }
  pose proof (transact_gas _ _ _ _ _ Htr) as Hgas. simpl in Hgas. unfold in_u64 in *.
  unfold checked_add. split.
  - intros H. destruct (is_some_and _ _) eqn:Hm; [done|].
    destruct (Z.ltb_spec U64_MAX (cumulative_gas_used info + gas_used result)); [done|].
    destruct (Z.ltb_spec gas_limit (cumulative_gas_used info + gas_used result)); [done|].
    injection H as <- <-. unfold U64_MAX, U64_MOD in *.
    exists a, (sync_build_receipt sctx tx result state (cumulative_gas_used info + gas_used result) nonce ts),
      (cumulative_gas_used info + gas_used result).
    split_and!; try done; try lia.
    { rewrite Hd, Htr. simpl. by rewrite add64_exact, Hb by (unfold U64_MOD; lia). }
    intros m E. rewrite E in Hm. simpl in Hm. reflect_bools. constructor; [lia|done].
  - intros (a' & r & gas & [= <-] & Hrep & Hle & Hm & ->). rewrite Hd, Htr in Hrep. injection Hrep as <- <- <-.
    rewrite Hb.
    assert (Hg : add64 (cumulative_gas_used info) (gas_used result)
                 = cumulative_gas_used info + gas_used result).
    { apply add64_no_wrap; unfold in_u64; lia. }
    rewrite Hg in *. unfold U64_MAX.
    destruct (is_some_and _ _) eqn:Hx.
    { unfold below, is_some_and in *. destruct (sy_max_gas_per_txn sctx) as [m|]; [|done].
      specialize (Hm m eq_refl). apply Forall_cons_1 in Hm as [Hm _]. reflect_bools. lia. }
    assert (cumulative_gas_used info + gas_used result < U64_MOD).
    { rewrite <- Hg. apply add64_range. }
    unfold U64_MOD in *. rewrite (proj2 (Z.ltb_ge _ _)) by lia. by rewrite (proj2 (Z.ltb_ge _ _)) by lia.
Qed.

Lemma replay_tx_receipt t d g r d' g' :
  replay_tx ctx t d g = Some (r, d', g') -> receipt_gas r = g' /\ in_u64 g'.
Proof using RL.
  unfold replay_tx. destruct (depositor_nonce ctx d t); [done|].
  destruct (transact _ _ _) as [|[]]; [done|]. intros [= <- _ <-].
  split; [apply build_receipt_gas|apply add64_range].
Qed.

Definition push_all info (txs : list OpTransactionSigned) (senders : list Address)
    (rs : list OpReceipt) (gas : Z) : FbInfo :=
  mkInfo (executed_transactions info ++ txs) (executed_senders info ++ senders) (receipts info ++ rs)
    gas (cumulative_da_bytes_used info) (total_fees info) (extra info) (da_footprint_scalar info)
    (optional_blob_fields info).

(** The loop is a replay that stays within the limits. *)
Lemma sync_loop_Next txs info d info' d' :
  in_u64 (cumulative_gas_used info) -> cumulative_gas_used info <= gas_limit ->
  Forall (fun t => in_u64 (tx_gas_limit t)) txs ->
  for_each (sync_body sctx gas_limit ts env) txs (info, d) = Next (info', d') <->
  exists senders rs gas, Forall2 (fun t a => tx_from t = Some a) txs senders /\
    replay ctx (zip_with mkRecovered txs senders) d (cumulative_gas_used info) = Some (rs, d', gas) /\
    ascending (cumulative_gas_used info) (receipt_gas <$> rs) gas_limit /\
    below (sy_max_gas_per_txn sctx) (gas_steps (cumulative_gas_used info) (receipt_gas <$> rs)) /\
    info' = push_all info txs senders rs gas.
Proof using Ha G RL.
  intros Hc Hl Ht. revert info d Hc Hl. induction Ht as [|tx txs Htx Ht IH]; intros info d Hc Hl; simpl.
  { split.
    - intros [= <- <-]. exists [], [], (cumulative_gas_used info). split_and!; try done; [by constructor|].
      unfold push_all. rewrite !app_nil_r. by destruct info.
    - intros (senders & rs & gas & ->%Forall2_nil_inv_l & [= <- <- <-] & _ & _ & ->).
      unfold push_all. rewrite !app_nil_r. by destruct info. }
  split.
  - intros H. destruct (sync_body _ _ _ _ tx (info, d)) as [[info1 d1]|] eqn:Hb; [|done].
    apply sync_body_Next in Hb as (a & r & gas & Hf & Hr & Hle & Hm & ->); [|done..].
    destruct (replay_tx_receipt _ _ _ _ _ _ Hr) as [Hrg Hg].
    apply IH in H as (senders & rs & gas' & Hfs & Hrs & Has & Hms & ->); [|done|simpl; lia].
    exists (a :: senders), (r :: rs), gas'. simpl in *. rewrite Hr, Hrs, Hrg. split_and!; try done; try lia.
    + by constructor.
    + intros m E. specialize (Hm m E). apply Forall_cons_1 in Hm as [? _]. constructor; [done|auto].
    + unfold push_all. simpl. by rewrite <- !app_assoc.
  - intros (senders & rs & gas & Hfs & Hrs & Has & Hms & ->).
    apply Forall2_cons_inv_l in Hfs as (a & senders' & Hf & Hfs & ->). simpl in Hrs.
    destruct (replay_tx ctx _ d _) as [[[r d1] g1]|] eqn:Hr; [|done].
    destruct (replay ctx _ d1 g1) as [[[rs' d2] g2]|] eqn:Hrs'; [|done]. injection Hrs as <- <- <-.
    destruct (replay_tx_receipt _ _ _ _ _ _ Hr) as [Hrg Hg]. simpl in *. rewrite Hrg in *.
    destruct Has as [Hle Has]. pose proof (ascending_le _ _ _ Has).
    assert (Hb : sync_body sctx gas_limit ts env tx (info, d)
                 = Next (push_executed info g1 (cumulative_da_bytes_used info) (total_fees info) r
                           (mkRecovered tx a), d1)).
    { apply sync_body_Next; [done..|]. exists a, r, g1. split_and!; try done.
      intros m E. specialize (Hms m E). apply Forall_cons_1 in Hms as [? _]. by constructor. }
    rewrite Hb. apply IH; [done..|]. exists senders', rs', g2. split_and!; try done.
    + intros m E. specialize (Hms m E). by apply Forall_cons_1 in Hms as [_ ?].
    + unfold push_all. simpl. by rewrite <- !app_assoc.
Qed.

End Execution.

(** The context a received payload is sealed in. *)
Definition sync_ctx `{SyncExternals} (p : OpBuiltPayload) (sctx : OpPayloadSyncerCtx)
    (parent_header : Header) (env : EvmEnv) (params : option Bytes * option Z)
    (token : CancellationToken) : OpPayloadBuilderCtx unit :=
  let header := b_header (p_block p) in
  into_op_payload_builder_ctx sctx
    (mkPayloadConfig (seal_header parent_header (h_parent_hash header))
       (sync_attributes p params.1 params.2))
    env (header_env header) token.

Section Sync.
Context `{X : Externals} `{S : !StateExternals X} `{J : !JobExternals X} `{Y : !SyncExternals X}.
Context `{G : !EvmGas X} `{RL : !ReceiptLaws X}.
Implicit Type sctx : OpPayloadSyncerCtx.

(** What the handler finds before it executes: the parent, whose child the header is, the environment,
    the state with the pre-execution changes, and the parameters in the extra data. *)
Record prepared (client : Client) (p : OpBuiltPayload) (parent_header : Header) (env : EvmEnv) (d0 : db)
    (params : option Bytes * option Z) : Prop := {
  prep_parent : header_by_id client (h_parent_hash (b_header (p_block p))) = inr (Some parent_header);
  prep_valid : validate_header (client_chain_spec client) (b_header (p_block p)) = inr tt;
  prep_child : validate_header_against_parent (client_chain_spec client) (b_header (p_block p))
    parent_header (h_parent_hash (b_header (p_block p))) = inr tt;
  prep_state : exists d, client_state_by_block_hash client (h_parent_hash (b_header (p_block p))) = inr d /\
    apply_pre_execution_changes d (seal_header parent_header (h_parent_hash (b_header (p_block p))))
      (header_env (b_header (p_block p))) = inr d0;
  prep_env : next_evm_env (seal_header parent_header (h_parent_hash (b_header (p_block p))))
    (header_env (b_header (p_block p))) = inr env;
  prep_params : parse_extra_data (client_chain_spec client) (h_timestamp (b_header (p_block p)))
    (h_extra_data (b_header (p_block p))) = Ok params;
}.

(** The handler accepts a payload exactly when all of this is there, the transactions execute, and
    the block that is sealed has the hash of the payload. *)
Lemma execute_flashblock_Ok p sctx client token built fb :
  execute_flashblock p sctx client token = Ok (built, fb) <->
  exists parent_header env d0 params info d,
    prepared client p parent_header env d0 params /\
    execute_transactions sctx (initial_info (b_header (p_block p))) d0 (b_transactions (p_block p))
      (h_gas_used (b_header (p_block p))) (h_timestamp (b_header (p_block p))) env
      (client_chain_spec client) = Ok (info, d) /\
    (build_block (sync_ctx p sctx parent_header env params token) info d true).1.1 = Ok (built, fb) /\
    p_hash built = p_hash p.
Proof.
  split.
  - unfold execute_flashblock, validate_pre_execution.
    intros (found & Hf%of_sum_Ok & H)%bind_Ok. apply bind_Ok in H as (ph & Hp & H).
    destruct found as [?|]; simplify_eq/=.
    apply bind_Ok in H as ([] & Hv & H).
    apply bind_Ok in Hv as ([] & Hv1%of_sum_Ok & Hv). apply bind_Ok in Hv as ([] & Hv2%of_sum_Ok & _).
    apply bind_Ok in H as (d & Hd%of_sum_Ok & H). apply bind_Ok in H as (env & He%of_sum_Ok & H).
    apply bind_Ok in H as (d0 & Hd0%of_sum_Ok & H). apply bind_Ok in H as ([eip mbf] & Hx & H).
    apply bind_Ok in H as ([info d1] & Ht & H). apply bind_Ok in H as ([b f] & Hb & H).
    destruct (Z.eqb_spec (p_hash b) (p_hash p)); simplify_eq/=.
    exists ph, env, d0, (eip, mbf), info, d1. split_and!; try done.
    + split; try done. by exists d.
    + unfold sync_ctx. simpl. by destruct (build_block _ _ _ _).1.1; simplify_eq/=.
  - intros (ph & env & d0 & params & info & d & [Hp Hv1 Hv2 (d1 & Hd & Hd0) He Hx] & Ht & Hb & Hh).
    destruct params as [eip mbf]. unfold execute_flashblock, validate_pre_execution, sync_ctx in *.
    rewrite Hp. simpl. rewrite Hv1. simpl. rewrite Hv2. simpl. rewrite Hd. simpl. rewrite He. simpl.
    rewrite Hd0. simpl. rewrite Hx. simpl. rewrite Ht. simpl in *. rewrite Hb. simpl.
    by rewrite Hh, Z.eqb_refl.
Qed.

Lemma sync_ctx_agrees p sctx ph env params token :
  agrees sctx (h_timestamp (b_header (p_block p))) env (sync_ctx p sctx ph env params token).
Proof. done. Qed.

(** The scalar recorded after the execution. *)
Definition footprint_scalar (spec : OpChainSpec) (ts : Z) (d : db) : option Z :=
  if jovian_at spec ts then fetch_da_footprint_gas_scalar d else None.

Lemma execute_transactions_Ok {Ec} (ctx : OpPayloadBuilderCtx Ec) sctx h d0 txs ts env spec info d :
  agrees sctx ts env ctx -> 0 <= h_gas_used h -> Forall (fun t => in_u64 (tx_gas_limit t)) txs ->
  execute_transactions sctx (initial_info h) d0 txs (h_gas_used h) ts env spec = Ok (info, d) <->
  exists senders rs gas, Forall2 (fun t a => tx_from t = Some a) txs senders /\
    replay ctx (zip_with mkRecovered txs senders) d0 0 = Some (rs, d, gas) /\
    ascending 0 (receipt_gas <$> rs) (h_gas_used h) /\
    below (sy_max_gas_per_txn sctx) (gas_steps 0 (receipt_gas <$> rs)) /\
    (jovian_at spec ts = true -> is_Some (fetch_da_footprint_gas_scalar d)) /\
    info = set_da_footprint_scalar (push_all (initial_info h) txs senders rs gas)
             (footprint_scalar spec ts d).
Proof using G RL.
  intros Ha Hg Ht. unfold execute_transactions, footprint_scalar. split.
  - destruct (for_each _ _ _) as [[info1 d1]|] eqn:Hl; [|done].
    eapply sync_loop_Next in Hl as (senders & rs & gas & Hf & Hr & Has & Hm & ->); [|done..].
    intros H. exists senders, rs, gas. simpl in Hr.
    destruct (jovian_at spec ts), (fetch_da_footprint_gas_scalar d1) eqn:Hd; simplify_eq/=;
      rewrite ?Hd; split_and!; try done; by eexists.
  - intros (senders & rs & gas & Hf & Hr & Has & Hm & Hj & ->).
    assert (Hl : for_each (sync_body sctx (h_gas_used h) ts env) txs (initial_info h, d0)
                 = Next (push_all (initial_info h) txs senders rs gas, d)).
    { eapply (sync_loop_Next _ _ _ _ ctx Ha); [done..|]. by exists senders, rs, gas. }
    rewrite Hl. destruct (jovian_at spec ts); [|done]. destruct Hj as [sc ->]; done.
Qed.

(** An accepted payload is sealed from a replay of the transactions of the received one. *)
Lemma execute_flashblock_seals p sctx client token built fb :
  execute_flashblock p sctx client token = Ok (built, fb) ->
  0 <= h_gas_used (b_header (p_block p)) ->
  Forall (fun t => in_u64 (tx_gas_limit t)) (b_transactions (p_block p)) ->
  exists parent_header env d0 params (info : FbInfo) d, prepared client p parent_header env d0 params /\
    let ctx := sync_ctx p sctx parent_header env params token in
    executes ctx d0 info d /\ seals ctx info built /\
    executed_transactions info = b_transactions (p_block p) /\
    Forall2 (fun t a => tx_from t = Some a) (executed_transactions info) (executed_senders info) /\
    ascending 0 (receipt_gas <$> receipts info) (h_gas_used (b_header (p_block p))) /\
    below (sy_max_gas_per_txn sctx) (gas_steps 0 (receipt_gas <$> receipts info)) /\
    total_fees info = 0 /\ p_hash built = p_hash p.
Proof using G RL.
  intros (ph & env & d0 & params & info & d & Hp & Ht & Hb & Hh)%execute_flashblock_Ok Hg Htx.
  exists ph, env, d0, params, info, d. split; [done|]. simpl.
  eapply (execute_transactions_Ok (sync_ctx p sctx ph env params token)) in Ht
    as (senders & rs & gas & Hf & Hr & Has & Hm & _ & ->); [|done..].
  destruct (build_block _ _ _ _) as [[r info'] d'] eqn:E. simpl in Hb. subst r.
  apply build_block_Ok in E as ([Hs _] & _).
  split_and!; try done. split; [done|]. symmetry. by eapply Forall2_length.
Qed.

End Sync.

(** ** Only the withdrawals go unchecked *)

Definition with_withdrawals (p : OpBuiltPayload) (ws : list Z) : OpBuiltPayload :=
  mkPayload (p_id p) (mkBlock (b_header (p_block p)) (b_transactions (p_block p)) (Some ws)) (p_hash p)
    (p_fees p) (p_senders p) (p_receipts p).

Section Withdrawals.
Context `{X : Externals} `{S : !StateExternals X} `{J : !JobExternals X} `{Y : !SyncExternals X}.

(** The header does not depend on the withdrawals. *)
Lemma seal_withdrawals p ws sctx ph env params token info d built :
  seal_block (sync_ctx p sctx ph env params token) info d true = Ok built ->
  seal_block (sync_ctx (with_withdrawals p ws) sctx ph env params token) info d true
    = Ok (make_payload (sync_ctx (with_withdrawals p ws) sctx ph env params token) info
            (b_header (p_block built))).
Proof.
  intros (rr & lb & sr & wr & rq & eb & bg & ex & Hr & Hw & Hb & He & ->)%seal_block_parts.
  apply seal_block_parts. by exists rr, lb, sr, wr, rq, eb, bg, ex.
Qed.

Lemma build_withdrawals p ws sctx ph env params token info d built fb :
  (build_block (sync_ctx p sctx ph env params token) info d true).1.1 = Ok (built, fb) ->
  exists built' fb',
    (build_block (sync_ctx (with_withdrawals p ws) sctx ph env params token) info d true).1.1
      = Ok (built', fb') /\
    p_hash built' = p_hash built /\
    b_withdrawals (p_block built')
      = withdrawals (sync_ctx (with_withdrawals p ws) sctx ph env params token).
Proof.
  unfold build_block. destruct (seal_block _ _ _ _) as [b| |] eqn:E; [|done..].
  pose proof E as Hseal. apply seal_block_Ok in Hseal as [Hseal _].
  rewrite (seal_withdrawals p ws _ _ _ _ _ _ _ _ E).
  destruct (new_since info) as [[txs rs]| |]; [|done..]. unfold make_flashblock.
  change (blob_fields (sync_ctx (with_withdrawals p ws) sctx ph env params token) (advance_index info))
    with (blob_fields (sync_ctx p sctx ph env params token) (advance_index info)
          : outcome PayloadBuilderError _).
  change (extra_data (sync_ctx (with_withdrawals p ws) sctx ph env params token))
    with (extra_data (sync_ctx p sctx ph env params token)).
  change (parent_beacon_block_root (attributes (sync_ctx (with_withdrawals p ws) sctx ph env params token)))
    with (parent_beacon_block_root (attributes (sync_ctx p sctx ph env params token))).
  destruct (blob_fields _ _) as [[? ?]| |]; [|done..]. simpl.
  destruct (h_parent_beacon_block_root _); [|done]. simpl.
  destruct (extra_data _); [|done..]. simpl. intros [= <- _]. do 2 eexists. split; [done|].
  by rewrite (seal_hash _ _ _ Hseal).
Qed.

End Withdrawals.

(** ** The task *)

(** The channels of the handler, what it has sent, and the executions it has spawned; the last two
    fields remember everything that was ever put into the two incoming channels. *)
Record HandlerState : Type := mkHandler {
  hs_built_rx : list OpBuiltPayload;
  hs_built_open : bool;
  hs_p2p_rx : list P2pMessage;
  hs_p2p_open : bool;
  hs_p2p_tx : list P2pMessage;
  hs_events : list OpBuiltPayload;
  hs_tasks : list OpBuiltPayload;
  hs_running : bool;
  hs_built : list OpBuiltPayload;
  hs_received : list P2pMessage;
}.

Definition new_handler : HandlerState := mkHandler [] true [] true [] [] [] true [] [].

(** The branch for a payload this node built: an event, and a message to the peers; either channel may
    have no receiver. *)
Definition on_built (event_ok p2p_ok : bool) (p : OpBuiltPayload) (rest : list OpBuiltPayload)
    (s : HandlerState) : HandlerState :=
  mkHandler rest (hs_built_open s) (hs_p2p_rx s) (hs_p2p_open s)
    (if p2p_ok then hs_p2p_tx s ++ [to_message p] else hs_p2p_tx s)
    (if event_ok then hs_events s ++ [p] else hs_events s) (hs_tasks s) (hs_running s) (hs_built s)
    (hs_received s).

(** The branch for a message of a peer: an execution is spawned. *)
Definition on_message (m : P2pMessage) (rest : list P2pMessage) (s : HandlerState) : HandlerState :=
  let '(OpBuiltPayloadMessage w) := m in
  mkHandler (hs_built_rx s) (hs_built_open s) rest (hs_p2p_open s) (hs_p2p_tx s) (hs_events s)
    (hs_tasks s ++ [from_wire w]) (hs_running s) (hs_built s) (hs_received s).

(** The end of an execution. *)
Definition on_executed (event_ok : bool) (r : outcome SyncError (OpBuiltPayload * OpFlashblockPayload))
    (tasks : list OpBuiltPayload) (s : HandlerState) : HandlerState :=
  mkHandler (hs_built_rx s) (hs_built_open s) (hs_p2p_rx s) (hs_p2p_open s) (hs_p2p_tx s)
    (match r with
     | Ok (p, _) => if event_ok then hs_events s ++ [p] else hs_events s
     | _ => hs_events s
     end) tasks (hs_running s) (hs_built s) (hs_received s).

(** [else => break] *)
Definition on_closed (s : HandlerState) : HandlerState :=
  mkHandler (hs_built_rx s) (hs_built_open s) (hs_p2p_rx s) (hs_p2p_open s) (hs_p2p_tx s)
    (hs_events s) (hs_tasks s) false (hs_built s) (hs_received s).

(** What the other ends of the incoming channels do. *)
Definition send_built (p : OpBuiltPayload) (s : HandlerState) : HandlerState :=
  mkHandler (hs_built_rx s ++ [p]) (hs_built_open s) (hs_p2p_rx s) (hs_p2p_open s) (hs_p2p_tx s)
    (hs_events s) (hs_tasks s) (hs_running s) (hs_built s ++ [p]) (hs_received s).
Definition send_p2p (m : P2pMessage) (s : HandlerState) : HandlerState :=
  mkHandler (hs_built_rx s) (hs_built_open s) (hs_p2p_rx s ++ [m]) (hs_p2p_open s) (hs_p2p_tx s)
    (hs_events s) (hs_tasks s) (hs_running s) (hs_built s) (hs_received s ++ [m]).
Definition close_channels (built p2p : bool) (s : HandlerState) : HandlerState :=
  mkHandler (hs_built_rx s) (hs_built_open s && negb built) (hs_p2p_rx s) (hs_p2p_open s && negb p2p)
    (hs_p2p_tx s) (hs_events s) (hs_tasks s) (hs_running s) (hs_built s) (hs_received s).

Section Run.
Context `{X : Externals} `{S : !StateExternals X} `{J : !JobExternals X} `{Y : !SyncExternals X}.
(** The chain client goes through the states [known]. *)
Context (sctx : OpPayloadSyncerCtx) (known : Client -> Prop).
Implicit Type s : HandlerState.

Inductive handler_step : HandlerState -> HandlerState -> Prop :=
| step_send_built s p : hs_built_open s = true -> handler_step s (send_built p s)
| step_send_p2p s m : hs_p2p_open s = true -> handler_step s (send_p2p m s)
| step_close s built p2p : handler_step s (close_channels built p2p s)
| step_built s p rest event_ok p2p_ok :
    hs_running s = true -> hs_built_rx s = p :: rest -> handler_step s (on_built event_ok p2p_ok p rest s)
| step_message s m rest :
    hs_running s = true -> hs_p2p_rx s = m :: rest -> handler_step s (on_message m rest s)
| step_executed s before p after client token event_ok :
    hs_tasks s = before ++ p :: after -> known client ->
    handler_step s (on_executed event_ok (execute_flashblock p sctx client token) (before ++ after) s)
| step_closed s :
    hs_running s = true -> hs_built_rx s = [] -> hs_built_open s = false -> hs_p2p_rx s = [] ->
    hs_p2p_open s = false -> handler_step s (on_closed s).

(** A payload that a peer sent and that was executed here. *)
Definition synced (received : list P2pMessage) (p : OpBuiltPayload) : Prop :=
  exists w client token fb, OpBuiltPayloadMessage w ∈ received /\ known client /\
    execute_flashblock (from_wire w) sctx client token = Ok (p, fb).

Record handler_inv s : Prop := {
  hinv_events : Forall (fun p => p ∈ hs_built s \/ synced (hs_received s) p) (hs_events s);
  hinv_sent : hs_p2p_tx s ++ (to_message <$> hs_built_rx s) `sublist_of` (to_message <$> hs_built s);
  hinv_queued : hs_built_rx s ⊆ hs_built s;
  hinv_p2p : hs_p2p_rx s ⊆ hs_received s;
  hinv_tasks : Forall (fun p => exists w, p = from_wire w /\ OpBuiltPayloadMessage w ∈ hs_received s)
    (hs_tasks s);
  hinv_stopped : hs_running s = false ->
    hs_built_rx s = [] /\ hs_built_open s = false /\ hs_p2p_rx s = [] /\ hs_p2p_open s = false;
}.

Lemma synced_mono l k p : l ⊆ k -> synced l p -> synced k p.
Proof. intros Hlk (w & c & t & fb & Hw & H). exists w, c, t, fb. set_solver. Qed.

(** What the other ends of the channels do keeps the invariant. *)
Lemma sends_inv s :
  handler_inv s ->
  (forall p, hs_built_open s = true -> handler_inv (send_built p s)) /\
  (forall m, hs_p2p_open s = true -> handler_inv (send_p2p m s)) /\
  (forall built p2p, handler_inv (close_channels built p2p s)).
Proof.
  intros [He Ht Hq Hp Hk Hs]. split_and!; intros; split; simpl; try done.
  - eapply Forall_impl; [exact He|]. intros q [?|?]; [left; set_solver|by right].
  - rewrite !fmap_app, app_assoc. by apply sublist_app.
  - set_solver.
  - intros Hr. destruct (Hs Hr) as (_ & ? & _). congruence.
  - eapply Forall_impl; [exact He|]. intros q [?|?]; [by left|right].
    eapply synced_mono; [|done]. set_solver.
  - set_solver.
  - eapply Forall_impl; [exact Hk|]. intros q (w & -> & Hw). exists w. set_solver.
  - intros Hr. destruct (Hs Hr) as (_ & _ & _ & ?). congruence.
  - intros Hr. destruct (Hs Hr) as (? & -> & ? & ->). done.
Qed.

(** So does each branch of the loop. *)
Lemma branches_inv s :
  handler_inv s -> hs_running s = true ->
  (forall p rest e1 e2, hs_built_rx s = p :: rest -> handler_inv (on_built e1 e2 p rest s)) /\
  (forall m rest, hs_p2p_rx s = m :: rest -> handler_inv (on_message m rest s)).
Proof.
  intros [He Ht Hq Hp Hk Hs] Hrun. split.
  - intros p rest e1 e2 Hrx. rewrite Hrx in Ht, Hq. split; simpl; try done.
    + destruct e1; [|done]. apply Forall_app. split; [done|]. constructor; [left; set_solver|done].
    + simpl in Ht. destruct e2; [by rewrite <- app_assoc|]. etrans; [|exact Ht].
      apply sublist_app; [done|by constructor].
    + set_solver.
    + congruence.
  - intros [w] rest Hrx. rewrite Hrx in Hp. split; simpl; try done.
    + set_solver.
    + apply Forall_app. split; [done|]. constructor; [|done]. exists w. set_solver.
    + congruence.
Qed.

(** And the end of an execution. *)
Lemma executed_inv s before p after client token e :
  handler_inv s -> hs_tasks s = before ++ p :: after -> known client ->
  handler_inv (on_executed e (execute_flashblock p sctx client token) (before ++ after) s).
Proof.
  intros [He Ht Hq Hp Hk Hs] Htasks Hc. rewrite Htasks in Hk.
  apply Forall_app in Hk as [Hk1 [(w & -> & Hw) Hk2]%Forall_cons_1]. split; simpl; try done.
  - destruct (execute_flashblock _ _ _ _) as [[q fb]| |] eqn:E; [|done..]. destruct e; [|done].
    apply Forall_app. split; [done|]. constructor; [|done]. right. by exists w, client, token, fb.
  - by apply Forall_app.
Qed.

Lemma handler_step_inv s s' : handler_inv s -> handler_step s s' -> handler_inv s'.
Proof.
  intros Hi H. destruct (sends_inv s Hi) as (H1 & H2 & H3).
  destruct H; [auto..|by apply branches_inv|by apply branches_inv|by apply executed_inv|].
  destruct Hi. by split.
Qed.

Lemma handler_reachable s : star handler_step new_handler s -> handler_inv s.
Proof.
  intros H. eapply (star_invariant _ _ handler_step_inv); [exact H|]. by split.
Qed.

End Run.

(** ** Peers on the small chain *)
Module TestSync.

Definition test_jovian (params : option Bytes) (min_base_fee : option Z) : Z + Bytes :=
  match params, min_base_fee with
  | Some b, Some m =>
      if (length b =? 8)%nat && (0 <=? m) && (m <? 256 ^ 8) then inr (1 :: b ++ to_be_bytes 8 m)
      else inl 0
  | _, _ => inl 1
  end.
Definition test_holocene (params : option Bytes) : Z + Bytes :=
  match params with
  | Some b => if (length b =? 8)%nat then inr (0 :: b) else inl 0
  | None => inl 1
  end.

#[export] Instance test_sync : SyncExternals TestChain.chain := {|
  validate_header _ _ := inr tt;
  validate_header_against_parent _ h parent _ :=
    if h_number h =? h_number parent + 1 then inr tt else inl 0;
  jovian_extra_data p m _ := test_jovian p m;
  holocene_extra_data p _ := test_holocene p;
|}.

Import TestChain TestPayload TestState.

Definition sync_params : option Bytes := Some [0; 0; 0; 250; 0; 0; 0; 6].
Definition sync_pc : PayloadConfig :=
  mkPayloadConfig sample_parent
    (mkAttributes 900 77 1002 5 6 [] (Some 8) false sample_sequencer_txs (Some 30000000)
       (jovian_extra_data sync_params (Some 7))
       (holocene_extra_data sync_params)).
Definition sync_job_ctx : FbCtx :=
  mkCtx None (Some 100000) None (sample_spec true) sample_parent (pc_attributes sync_pc)
    (mkEvmEnv 42 1 30000000 6 (Some 1) false false false)
    (mkNextBlockEnv 1002 6 5 30000000 (Some 8)
       [1; 0; 0; 0; 250; 0; 0; 0; 6; 0; 0; 0; 0; 0; 0; 0; 7])
    never_cancelled (Some (mkSigner 50 1)) default_fb_ctx None false.

(** The block of the sequencer's transactions. *)
Definition sync_info : FbInfo :=
  mkInfo [sample_deposit; inner (sample_tx 3 7 0 [1])] [6; 7]
    [RDeposit (mkDepositReceipt (mkReceipt true 21000 []) (Some 0) (Some 1));
     REip1559 (mkReceipt false 42000 [])] 42000 100 0 default_fb_info (Some 400) None.
Definition sync_db : @db TestChain.chain := [(7, 1); (6, 1)].

Lemma sync_gas_limits : Forall (fun t => in_u64 (tx_gas_limit t)) (executed_transactions sync_info).
Proof. repeat constructor; unfold in_u64, U64_MOD; simpl; lia. Qed.

Definition sync_client : Client (H := TestChain.chain) :=
  mkClient TestChain.chain
    (fun h =>
       if h =? 900 then
         inr (Some (mkHeader 0 0 0 901 0 0 None 0 1000 0 0 None 41 30000000 0 0 [] None None None None))
       else inr None)
    (fun _ => inr ([] : @db TestChain.chain)) (sample_spec true).
Definition sync_syncer (max_gas : option Z) : OpPayloadSyncerCtx :=
  mkSyncerCtx None (Some 100000) (sample_spec true) max_gas false.
Definition sync_built : OpBuiltPayload :=
  match (build_block (X := TestChain.chain) sync_job_ctx sync_info sync_db true).1.1 with
  | Ok (p, _) => p
  | _ => mkPayload 0 (mkBlock (mkHeader 0 0 0 0 0 0 None 0 0 0 0 None 0 0 0 0 [] None None None None) [] None)
           0 0 [] []
  end.

End TestSync.

Import TestChain TestPayload TestState TestSync.

(** ** Properties *)

(** C12: a payload of a peer is accepted only if it is right.  What [execute_flashblock] returns has the
    hash of the received payload and its transactions, and replays from the state of the parent, which
    this node has and of which the header is a valid child, to its own receipts and gas, with the
    senders recovered from the signatures, within the gas the header claims and the limit per
    transaction.  When the hash is that of the received header only, the headers are the same and the
    header commits to the transactions.  The fees of the received payload are not kept. *)
Theorem execute_flashblock_sound `{X : Externals} `{S : !StateExternals X} `{J : !JobExternals X}
    `{Y : !SyncExternals X} `{!EvmGas X} `{!ReceiptLaws X} p sctx client token built fb :
  execute_flashblock p sctx client token = Ok (built, fb) ->
  0 <= h_gas_used (b_header (p_block p)) ->
  Forall (fun t => in_u64 (tx_gas_limit t)) (b_transactions (p_block p)) ->
  (exists parent_header env d0 params, prepared client p parent_header env d0 params /\
     valid_payload (sync_ctx p sctx parent_header env params token) d0 built) /\
  b_transactions (p_block built) = b_transactions (p_block p) /\
  Forall2 (fun t a => tx_from t = Some a) (b_transactions (p_block p)) (p_senders built) /\
  ascending 0 (receipt_gas <$> p_receipts built) (h_gas_used (b_header (p_block p))) /\
  below (sy_max_gas_per_txn sctx) (gas_steps 0 (receipt_gas <$> p_receipts built)) /\
  p_hash built = p_hash p /\ p_id built = p_id p /\ p_fees built = 0 /\
  ((forall h, hash_header h = p_hash p -> h = b_header (p_block p)) ->
     b_header (p_block built) = b_header (p_block p) /\
     h_transactions_root (b_header (p_block p))
       = calculate_transaction_root (b_transactions (p_block p))).
Proof.
  intros H Hg Hu. destruct (execute_flashblock_seals _ _ _ _ _ _ H Hg Hu)
    as (ph & env & d0 & params & info & d & Hp & He & Hs & Ht & Hf & Has & Hm & Hfee & Hh).
  pose proof (seals_valid _ _ _ _ _ Hs He) as Hv. destruct Hs as [Hid Hhash Hfees Htxs Hsd Hrc _ _ _ _ _ Hroot].
  rewrite Hsd, Hrc, Htxs, Ht, Hfees, Hfee. split_and!; try done.
  - by exists ph, env, d0, params.
  - by rewrite <- Ht.
  - intros Hc. assert (Hb : b_header (p_block built) = b_header (p_block p)).
    { apply Hc. congruence. }
    split; [done|]. rewrite <- Hb, Hroot. by rewrite Ht.
Qed.

Lemma execute_flashblock_sound_witness :
  exists built fb,
    execute_flashblock (X := chain) (from_wire (to_wire sync_built)) (sync_syncer (Some 21000)) sync_client
      never_cancelled = Ok (built, fb) /\
    b_transactions (p_block built) = b_transactions (p_block sync_built) /\ p_fees built = 0.
Proof.
  destruct (execute_flashblock (X := chain) (from_wire (to_wire sync_built)) (sync_syncer (Some 21000))
    sync_client never_cancelled) as [[built fb]| |] eqn:E; [|vm_compute in E; discriminate..].
  exists built, fb.
  destruct (execute_flashblock_sound (X := chain) (from_wire (to_wire sync_built)) (sync_syncer (Some 21000))
    sync_client never_cancelled built fb E) as (_ & Ht & _ & _ & _ & _ & _ & Hf & _).
  - vm_compute. discriminate.
  - exact sync_gas_limits.
  - split; [reflexivity|]. split; [exact Ht|exact Hf].
Defined.

(** The withdrawals of a received block are not checked.  When a payload is accepted after Shanghai,
    the payload with any other withdrawals in its body is accepted as well, and what is announced has
    the same hash and these withdrawals. *)
Theorem withdrawals_unchecked `{X : Externals} `{S : !StateExternals X} `{J : !JobExternals X}
    `{Y : !SyncExternals X} p sctx client token built fb ws :
  execute_flashblock p sctx client token = Ok (built, fb) ->
  shanghai_at (sy_chain_spec sctx) (h_timestamp (b_header (p_block p))) = true ->
  exists built' fb', execute_flashblock (with_withdrawals p ws) sctx client token = Ok (built', fb') /\
    p_hash built' = p_hash built /\ b_withdrawals (p_block built') = Some ws.
Proof.
  intros (ph & env & d0 & params & info & d & [] & Ht & Hb & Hh)%execute_flashblock_Ok Hs.
  destruct (build_withdrawals p ws _ _ _ _ _ _ _ _ _ Hb) as (built' & fb' & Hb' & Hh' & Hw).
  exists built', fb'. split_and!; [|done|].
  - apply execute_flashblock_Ok. exists ph, env, d0, params, info, d. split; [by split|].
    split_and!; [done|done|]. simpl. congruence.
  - rewrite Hw. unfold withdrawals, timestamp. simpl. by rewrite Hs.
Qed.

Lemma withdrawals_unchecked_witness :
  exists built' fb',
    execute_flashblock (X := chain) (with_withdrawals (from_wire (to_wire sync_built)) [1; 2; 3])
      (sync_syncer None) sync_client never_cancelled = Ok (built', fb') /\
    b_withdrawals (p_block built') = Some [1; 2; 3].
Proof.
  destruct (execute_flashblock (X := chain) (from_wire (to_wire sync_built)) (sync_syncer None)
    sync_client never_cancelled) as [[built fb]| |] eqn:E; [|vm_compute in E; discriminate..].
  destruct (withdrawals_unchecked (X := chain) _ _ _ _ built fb [1; 2; 3] E eq_refl)
    as (built' & fb' & H & _ & Hw).
  exists built', fb'. split; [exact H|exact Hw].
Defined.

(** C26: the handler announces only payloads that this node built or that a peer sent and this node
    executed, and sends to its peers only the payloads it built itself, each once and in order: what
    is received is never passed on.  It ends only when both channels are closed and empty. *)
Theorem handler_announces `{X : Externals} `{S : !StateExternals X} `{J : !JobExternals X}
    `{Y : !SyncExternals X} sctx known s :
  star (handler_step sctx known) new_handler s ->
  Forall (fun p => p ∈ hs_built s \/ synced sctx known (hs_received s) p) (hs_events s) /\
  hs_p2p_tx s `sublist_of` (to_message <$> hs_built s) /\
  (hs_running s = false ->
     hs_built_rx s = [] /\ hs_built_open s = false /\ hs_p2p_rx s = [] /\ hs_p2p_open s = false).
Proof.
  intros H. destruct (handler_reachable _ _ _ H) as [He Hs _ _ _ Hr]. split_and!; try done.
  etrans; [|exact Hs]. apply sublist_inserts_r. done.
Qed.

Lemma handler_announces_witness :
  exists s, star (handler_step (X := chain) (sync_syncer None) (fun _ => True)) new_handler s /\
    length (hs_events s) = 1%nat /\ hs_p2p_tx s = [] /\
    Forall (fun p => p ∈ hs_built s \/ synced (sync_syncer None) (fun _ => True) (hs_received s) p)
      (hs_events s).
Proof.
  set (s1 := on_message (to_message sync_built) [] (send_p2p (to_message sync_built) new_handler)).
  set (s2 := on_executed true (execute_flashblock (X := chain) (from_wire (to_wire sync_built))
               (sync_syncer None) sync_client never_cancelled) [] s1).
  assert (H : star (handler_step (X := chain) (sync_syncer None) (fun _ => True)) new_handler s2).
  { eapply star_step; [by apply step_send_p2p|]. eapply star_step; [by apply step_message|].
    eapply star_step; [|apply star_refl]. by apply (step_executed _ _ _ [] _ []). }
  exists s2. split; [exact H|]. split; [vm_compute; reflexivity|].
  destruct (handler_announces (X := chain) (sync_syncer None) (fun _ => True) s2 H) as (He & _ & _).
  split; [reflexivity|exact He].
Defined.
