(* ===== verification/Peers.v ===== *)
(** * Peers

    A block of the flashblocks builder at a peer that runs the payload handler: the two sides of
    [builders/flashblocks/payload_handler.rs] together.  What the builder seals ([BuildBlock]) in the
    context of a job ([BuildPayload]) is what the handler of a peer re-executes ([PayloadHandler]). *)

From S2P Require Import Prelude External ExecInfo GasLimiter PoolTx BestTxs Sidecar Context Replay Sequencer BestExec SidecarExec BuilderTx FlashblocksCtx Timing BuildBlock Flashblocks BuildPayload PayloadHandler.

(** ** The laws

    [ConfigureEvm::next_evm_env] takes the beneficiary and the gas limit from the attributes; the extra
    data has the documented length and can be decoded and encoded again. *)
Class EnvLaws (X : Externals) `{!JobExternals X} : Prop :=
  next_env parent a env :
    next_evm_env parent a = inr env ->
    env_beneficiary env = nb_suggested_fee_recipient a /\ env_gas_limit env = nb_gas_limit a.

Class ExtraDataLaws (X : Externals) `{!SyncExternals X} : Prop := {
  jovian_law params min_base_fee defaults b :
    jovian_extra_data params min_base_fee defaults = inr b ->
    length b = 17%nat /\
    jovian_extra_data (Some (slice b 1 9)) (Some (from_be_bytes (slice b 9 17))) defaults = inr b;
  holocene_law params defaults b :
    holocene_extra_data params defaults = inr b ->
    length b = 9%nat /\ holocene_extra_data (Some (slice b 1 9)) defaults = inr b;
}.

Section Peers.
Context `{X : Externals} `{S : !StateExternals X} `{J : !JobExternals X} `{Y : !SyncExternals X}.
Context `{G : !EvmGas X} `{RL : !ReceiptLaws X} `{EL : !EnvLaws X} `{XL : !ExtraDataLaws X}.

(** The request and the configuration fit: the configured gas limit, if any, is the one of the
    attributes, and the attributes encode EIP-1559 parameters. *)
Record job_fits (config : FbConfig) (pc : PayloadConfig) : Prop := {
  job_gas_limit : forall g, cfg_gas_limit config = Some g ->
    g = unwrap_or (attr_gas_limit (pc_attributes pc)) (sh_gas_limit (pc_parent pc));
  job_encoders : exists eip min_base_fee,
    get_jovian_extra_data (pc_attributes pc) = jovian_extra_data eip min_base_fee /\
    get_holocene_extra_data (pc_attributes pc) = holocene_extra_data eip;
}.

(** A context of a job of the builder. *)
Definition job_of (config : FbConfig) (spec : OpChainSpec) (pc : PayloadConfig) (ctx : FbCtx) : Prop :=
  job_fits config pc /\
  exists interop token x, get_op_payload_builder_ctx config spec interop pc token x = Ok ctx.

(** The senders of a payload are the signers of its transactions, and their gas limits add up to a
    [u64]. *)
Record portable (p : OpBuiltPayload) : Prop := {
  port_from : Forall2 (fun t a => tx_from t = Some a) (b_transactions (p_block p)) (p_senders p);
  port_limits : Forall (fun t => 0 <= tx_gas_limit t) (b_transactions (p_block p));
  port_sum : sum_Z (tx_gas_limit <$> b_transactions (p_block p)) < U64_MOD;
}.

(** The peer announces the block as it was sent. *)
Definition peer_accepts (p : OpBuiltPayload) sctx client token : Prop :=
  exists p' fb', execute_flashblock (from_wire (to_wire p)) sctx client token = Ok (p', fb') /\
    p_block p' = p_block p /\ p_hash p' = p_hash p /\ p_receipts p' = p_receipts p.

(** A peer that follows the chain: it has the parent of the block and its state, and the header is
    valid to it. *)
Record follows (spec : OpChainSpec) (parent : SealedHeader) (p : OpBuiltPayload)
    (sctx : OpPayloadSyncerCtx) (client : Client) : Prop := {
  follows_spec : sy_chain_spec sctx = spec /\ client_chain_spec client = spec;
  follows_parent : exists h, header_by_id client (sh_hash parent) = inr (Some h) /\
    seal_header h (sh_hash parent) = parent /\
    validate_header_against_parent spec (b_header (p_block p)) h (sh_hash parent) = inr tt;
  follows_valid : validate_header spec (b_header (p_block p)) = inr tt;
  follows_state : client_state_by_block_hash client (sh_hash parent) = state_by_block_hash (sh_hash parent);
}.

(** After Jovian, the peer can read the footprint scalar in the state that the block leaves. *)
Definition scalar_readable (spec : OpChainSpec) (parent : SealedHeader) (p : OpBuiltPayload)
    (client : Client) : Prop :=
  jovian_at spec (h_timestamp (b_header (p_block p))) = true ->
  forall d d0 (ctx : FbCtx) rs d' gas,
    client_state_by_block_hash client (sh_hash parent) = inr d ->
    apply_pre_execution_changes d parent (header_env (b_header (p_block p))) = inr d0 ->
    next_evm_env parent (header_env (b_header (p_block p))) = inr (evm_env ctx) ->
    replay ctx (zip_with mkRecovered (b_transactions (p_block p)) (p_senders p)) d0 0
      = Some (rs, d', gas) ->
    is_Some (fetch_da_footprint_gas_scalar d').

(** A peer on the same chain: it runs the same rules and, if it has the parent of the block at all, has
    the same parent and the same state for it. *)
Record on_chain (spec : OpChainSpec) (parent : SealedHeader) (sctx : OpPayloadSyncerCtx)
    (client : Client) : Prop := {
  chain_rules : sy_chain_spec sctx = spec /\ client_chain_spec client = spec;
  chain_parent : forall h, header_by_id client (sh_hash parent) = inr (Some h) ->
    seal_header h (sh_hash parent) = parent;
  chain_state : client_state_by_block_hash client (sh_hash parent) = state_by_block_hash (sh_hash parent);
}.

(** A peer that has the parent block and its state and accepts the header. *)
Record peer_of (spec : OpChainSpec) (ctx : FbCtx) (d0 : db) (p : OpBuiltPayload)
    (sctx : OpPayloadSyncerCtx) (client : Client) : Prop := {
  peer_spec : sy_chain_spec sctx = spec /\ client_chain_spec client = spec;
  peer_parent : exists h, header_by_id client (parent_hash ctx) = inr (Some h) /\
    seal_header h (parent_hash ctx) = parent ctx /\
    validate_header_against_parent spec (b_header (p_block p)) h (parent_hash ctx) = inr tt;
  peer_valid : validate_header spec (b_header (p_block p)) = inr tt;
  peer_state : exists d, client_state_by_block_hash client (parent_hash ctx) = inr d /\
    apply_pre_execution_changes d (parent ctx) (block_env_attributes ctx) = inr d0;
}.

(** The context of a job, field by field. *)
Lemma job_ctx_fields config spec pc ctx :
  job_of config spec pc ctx ->
  chain_spec ctx = spec /\ parent ctx = pc_parent pc /\ attributes ctx = pc_attributes pc /\
  next_evm_env (parent ctx) (block_env_attributes ctx) = inr (evm_env ctx) /\
  env_beneficiary (evm_env ctx) = suggested_fee_recipient (attributes ctx) /\
  env_gas_limit (evm_env ctx) = nb_gas_limit (block_env_attributes ctx) /\
  block_gas_limit ctx = nb_gas_limit (block_env_attributes ctx) /\
  exists extra, extra_data ctx = Ok extra /\
    block_env_attributes ctx =
      mkNextBlockEnv (timestamp ctx) (suggested_fee_recipient (attributes ctx))
        (prev_randao (attributes ctx)) (block_gas_limit ctx)
        (parent_beacon_block_root (attributes ctx)) extra.
Proof using EL.
  intros [[Hgl _] (interop & token & x & Hc)]. unfold get_op_payload_builder_ctx in Hc.
  apply bind_Ok in Hc as (extra & Hx & Hc). apply bind_Ok in Hc as (env & He%of_sum_Ok & [= <-]).
  destruct (next_env _ _ _ He) as [Hb Hl]. simpl in *.
  assert (Hg : block_gas_limit (mkCtx (cfg_max_da_tx_size config) (cfg_max_da_block_size config)
       (cfg_gas_limit config) spec (pc_parent pc) (pc_attributes pc) env
       (mkNextBlockEnv (attributes_timestamp (pc_attributes pc))
          (suggested_fee_recipient (pc_attributes pc)) (prev_randao (pc_attributes pc))
          (unwrap_or (attr_gas_limit (pc_attributes pc)) (sh_gas_limit (pc_parent pc)))
          (parent_beacon_block_root (pc_attributes pc)) extra) token (cfg_builder_signer config) x
       (cfg_max_gas_per_txn config) interop)
     = unwrap_or (attr_gas_limit (pc_attributes pc)) (sh_gas_limit (pc_parent pc))).
  { unfold block_gas_limit. simpl. destruct (cfg_gas_limit config); [by apply Hgl|].
    rewrite Hl. by destruct (attr_gas_limit (pc_attributes pc)). }
  split_and!; try done. exists extra. split; [exact Hx|]. unfold timestamp. simpl. f_equal. done.
Qed.

(** The extra data of a header of the builder is decoded to parameters that encode to it. *)
Lemma parse_built_extra config spec pc ctx b :
  job_of config spec pc ctx -> chain_spec ctx = spec -> attributes ctx = pc_attributes pc ->
  extra_data ctx = Ok b ->
  exists params, parse_extra_data spec (timestamp ctx) b = Ok params /\
    forall sctx, sy_chain_spec sctx = spec -> forall p ph env token,
    h_timestamp (b_header (p_block p)) = timestamp ctx ->
    extra_data (sync_ctx p sctx ph env params token) = Ok b.
Proof using XL.
  intros [[_ (eip & mbf & Hj & Hh)] _] Hspec Hattr. subst spec. unfold extra_data, parse_extra_data.
  unfold is_jovian_active, is_holocene_active. rewrite Hattr, Hj, Hh.
  destruct (jovian_at _ _) eqn:Ej; [|destruct (holocene_at _ _) eqn:Eh].
  - intros Hb%of_sum_Ok. apply jovian_law in Hb as [Hl Hb]. rewrite Hl. simpl. eexists. split; [done|].
    intros sctx Hs p ph env token Ht. unfold sync_ctx, timestamp in *. simpl. rewrite Hs, Ht, Ej. simpl.
    unfold try_into_8, slice. rewrite length_take, length_drop, Hl. simpl.
    unfold slice in Hb. simpl in Hb. by rewrite Hb.
  - intros Hb%of_sum_Ok. apply holocene_law in Hb as [Hl Hb]. rewrite Hl. simpl. eexists. split; [done|].
    intros sctx Hs p ph env token Ht. unfold sync_ctx, timestamp in *. simpl. rewrite Hs, Ht, Ej, Eh. simpl.
    unfold try_into_8, slice. rewrite length_take, length_drop, Hl. simpl.
    unfold slice in Hb. simpl in Hb. by rewrite Hb.
  - intros [= <-]. eexists. split; [done|]. intros sctx Hs p ph env token Ht.
    unfold sync_ctx, timestamp in *. simpl. by rewrite Hs, Ht, Ej, Eh.
Qed.

(** A block is sealed from the info the handler ends with as it was by the builder. *)
Lemma peer_seals config spec pc ctx (info info' : FbInfo) d r d1 p fb sctx ph params token :
  job_of config spec pc ctx -> sy_chain_spec sctx = spec ->
  build_block ctx info d true = (Ok (p, fb), r, d1) ->
  seal_header ph (parent_hash ctx) = parent ctx ->
  (forall b, extra_data ctx = Ok b ->
     extra_data (sync_ctx (from_wire (to_wire p)) sctx ph (evm_env ctx) params token) = Ok b) ->
  executed_transactions info' = executed_transactions info -> receipts info' = receipts info ->
  cumulative_gas_used info' = cumulative_gas_used info ->
  optional_blob_fields info' =
    Some (h_excess_blob_gas (b_header (p_block p)), h_blob_gas_used (b_header (p_block p))) ->
  last_flashblock_index (extra info') = 0%nat ->
  exists built fb',
    (build_block (sync_ctx (from_wire (to_wire p)) sctx ph (evm_env ctx) params token) info' d true).1.1
      = Ok (built, fb') /\
    p_block built = p_block p /\ p_hash built = p_hash p /\ p_receipts built = p_receipts p.
Proof using EL.
  intros Hj Hs Hb Hph Hx Ht Hr Hg Hbl Hi.
  destruct (job_ctx_fields _ _ _ _ Hj) as (Hspec & _ & _ & _ & Hben & Hgl & Hbgl & _). rewrite <- Hspec in Hs.
  unfold build_block in Hb. destruct (seal_block ctx info _ true) as [p0| |] eqn:E; [|done..].
  destruct (new_since info) as [[txs rs]| |]; [|done..].
  destruct (make_flashblock _ _ _ _ _ _) as [fb0| |] eqn:Hf; [|done..]. injection Hb as -> _ _ _.
  apply make_flashblock_Ok in Hf as (beacon & _ & _ & Hbeacon & _).
  apply seal_block_parts in E as (rr & lb & sr & wr & rq & eb & bg & ex & Hr1 & Hw1 & _ & He1 & Hp).
  specialize (Hx _ He1). set (c := sync_ctx _ _ _ _ _ _) in *.
  assert (Hpar : parent c = parent ctx) by (subst c p; exact Hph).
  assert (Hsp : chain_spec c = chain_spec ctx) by exact Hs.
  assert (Hts : timestamp c = timestamp ctx) by (subst c p; done).
  set (header := make_header ctx info rr lb sr wr rq bg eb ex) in *.
  assert (Hhd : make_header c info' rr lb sr wr rq bg eb ex = header).
  { assert (He : evm_env c = evm_env ctx) by done.
    assert (Hm : prev_randao (attributes c) = prev_randao (attributes ctx)) by (by subst c p).
    assert (Hbr : parent_beacon_block_root (attributes c) = parent_beacon_block_root (attributes ctx))
      by (by subst c p).
    assert (Hgc : block_gas_limit c = block_gas_limit ctx).
    { rewrite Hbgl, <- Hgl. by subst c p. }
    unfold make_header, header, parent_hash, base_fee. by rewrite Ht, Hg, Hpar, Hts, He, Hm, Hbr, Hgc. }
  assert (Hwd : withdrawals c = withdrawals ctx).
  { unfold withdrawals. rewrite Hsp, Hts. subst c p. unfold sync_ctx. simpl. unfold withdrawals.
    by destruct (shanghai_at _ _). }
  assert (Hseal : seal_block c info' (merge_transitions d) true = Ok (make_payload c info' header)).
  { apply seal_block_parts. exists rr, lb, sr, wr, rq, eb, bg, ex. rewrite Hhd. split_and!; try done.
    - rewrite <- Hr1. unfold block_roots. by rewrite Hpar, Hr.
    - rewrite <- Hw1. unfold withdrawals_fields, is_isthmus_active, is_canyon_active. by rewrite Hsp, Hts.
    - unfold blob_fields. rewrite Hbl. by subst p. }
  assert (Hbe : parent_beacon_block_root (attributes c) = Some beacon) by (by subst c p).
  clearbody c header. unfold build_block. rewrite Hseal. unfold new_since, slice_from. rewrite Hi. simpl.
  unfold make_flashblock, blob_fields. simpl. rewrite Hbl. simpl. rewrite Hbe. simpl. rewrite Hx. simpl.
  do 2 eexists. split; [done|]. subst p. simpl. by rewrite Ht, Hwd, Hr.
Qed.

(** The header of a built block gives the environment it was built in. *)
Lemma built_header_env config spec pc ctx (info : FbInfo) d c p fb r d1 :
  job_of config spec pc ctx -> build_block ctx info d c = (Ok (p, fb), r, d1) ->
  header_env (b_header (p_block p)) = block_env_attributes ctx /\
  extra_data ctx = Ok (h_extra_data (b_header (p_block p))).
Proof using EL.
  intros Hj Hb. destruct (job_ctx_fields _ _ _ _ Hj) as (_ & _ & _ & _ & Hben & _ & _ & ex & Hx & Hnb).
  unfold build_block in Hb. destruct (seal_block ctx info _ c) as [p0| |] eqn:E; [|done..].
  destruct (new_since info) as [[txs rs]| |]; [|done..].
  destruct (make_flashblock _ _ _ _ _ _) as [fb0| |]; [|done..]. injection Hb as -> _ _ _.
  apply seal_block_parts in E as (rr & lb & sr & wr & rq & eb & bg & ex' & _ & _ & _ & He1 & ->).
  rewrite Hx in He1. injection He1 as <-. rewrite Hnb. unfold header_env. simpl. by rewrite Hben, Hx.
Qed.

(** A peer finds what it needs to execute a block of the builder. *)
Lemma peer_prepared config spec pc ctx (info : FbInfo) d c p fb r d1 d0 sctx client :
  job_of config spec pc ctx -> build_block ctx info d c = (Ok (p, fb), r, d1) ->
  peer_of spec ctx d0 p sctx client ->
  exists ph params, prepared client (from_wire (to_wire p)) ph (evm_env ctx) d0 params /\
    seal_header ph (parent_hash ctx) = parent ctx /\
    forall token b, extra_data ctx = Ok b ->
      extra_data (sync_ctx (from_wire (to_wire p)) sctx ph (evm_env ctx) params token) = Ok b.
Proof using EL XL.
  intros Hj Hb [[Hs1 Hs2] (ph & Hp1 & Hp2 & Hp3) Hv (d2 & Hd2 & Hd0)].
  destruct (built_header_env _ _ _ _ _ _ _ _ _ _ _ Hj Hb) as (Henv & Hx).
  destruct (job_ctx_fields _ _ _ _ Hj) as (Hspec & _ & Hat & Hne & _).
  destruct (parse_built_extra _ _ _ _ _ Hj Hspec Hat Hx) as (params & Hpx & Hsx).
  apply build_block_Ok in Hb as ([Hseal _] & _).
  pose proof (seal_parent _ _ _ Hseal) as Hpar. pose proof (seal_timestamp _ _ _ Hseal) as Hts.
  exists ph, params. split_and!; [|done|].
  - split; simpl; rewrite ?Hpar, ?Hs2, ?Henv, ?Hts, ?Hp2; try done. by exists d2.
  - intros token b Hb'. rewrite Hx in Hb'. injection Hb' as <-. by apply Hsx.
Qed.

Lemma from_unique (txs : list OpTransactionSigned) l k :
  Forall2 (fun t a => tx_from t = Some a) txs l -> Forall2 (fun t a => tx_from t = Some a) txs k -> l = k.
Proof.
  intros H. revert k. induction H as [|t a txs l Ha H IH]; intros k Hk.
  - by apply Forall2_nil_inv_l in Hk.
  - apply Forall2_cons_inv_l in Hk as (b & k' & Hb & Hk & ->). f_equal; [congruence|auto].
Qed.

(** A block of the builder executes at a peer, if no transaction is above the peer's limit. *)
Lemma peer_executes config spec pc ctx (info : FbInfo) d c p fb r d1 d0 sctx info' d' :
  job_of config spec pc ctx -> build_block ctx info d c = (Ok (p, fb), r, d1) ->
  sy_chain_spec sctx = spec -> executes ctx d0 info d ->
  Forall2 (fun t a => tx_from t = Some a) (executed_transactions info) (executed_senders info) ->
  ascending 0 (receipt_gas <$> receipts info) (cumulative_gas_used info) ->
  Forall (fun t => in_u64 (tx_gas_limit t)) (executed_transactions info) ->
  execute_transactions sctx (initial_info (b_header (p_block p))) d0 (b_transactions (p_block p))
    (h_gas_used (b_header (p_block p))) (h_timestamp (b_header (p_block p))) (evm_env ctx) spec
    = Ok (info', d') <->
  below (sy_max_gas_per_txn sctx) (gas_steps 0 (receipt_gas <$> receipts info)) /\
  (is_jovian_active ctx = true -> is_Some (fetch_da_footprint_gas_scalar d)) /\ d' = d /\
  info' = set_da_footprint_scalar
    (push_all (initial_info (b_header (p_block p))) (executed_transactions info) (executed_senders info)
       (receipts info) (cumulative_gas_used info)) (footprint_scalar spec (timestamp ctx) d).
Proof using EL G RL.
  intros Hj Hb Hs [Hr _] Hfr Has Hu. destruct (job_ctx_fields _ _ _ _ Hj) as (Hspec & _).
  apply build_block_Ok in Hb as ([Hseal _] & _).
  rewrite (seal_timestamp _ _ _ Hseal), (seal_txs _ _ _ Hseal).
  assert (Ha : agrees sctx (timestamp ctx) (evm_env ctx) ctx).
  { unfold agrees, sync_is_regolith_active, sync_is_canyon_active. by rewrite Hs, <- Hspec. }
  rewrite (execute_transactions_Ok ctx); [|done| |done].
  2: { rewrite (seal_gas_used _ _ _ Hseal). by eapply ascending_le. }
  unfold is_jovian_active. rewrite Hspec. split.
  - intros (senders & rs & gas & Hf & Hr' & _ & Hm & Hj' & ->).
    rewrite (from_unique _ _ _ Hf Hfr) in *. rewrite Hr in Hr'. by injection Hr' as <- <- <-.
  - intros (Hm & Hj' & -> & ->). exists (executed_senders info), (receipts info), (cumulative_gas_used info).
    rewrite (seal_gas_used _ _ _ Hseal). by split_and!.
Qed.

(** The gas of a replay ascends when the gas limits add up to a [u64]. *)
Lemma replay_ascending {E} (ctx : OpPayloadBuilderCtx E) ts d gas rs d' gas' :
  replay ctx ts d gas = Some (rs, d', gas') -> 0 <= gas ->
  Forall (fun t => 0 <= tx_gas_limit (inner t)) ts ->
  gas + sum_Z (tx_gas_limit ∘ inner <$> ts) < U64_MOD ->
  ascending gas (receipt_gas <$> rs) gas'.
Proof using G RL.
  revert d gas rs. induction ts as [|t ts IH]; intros d gas rs; simpl; [intros [= <- _ <-]; simpl; lia|].
  destruct (replay_tx ctx t d gas) as [[[r d1] g1]|] eqn:Hr; [|done].
  destruct (replay ctx ts d1 g1) as [[[rs1 d2] g2]|] eqn:Hrs; [|done].
  intros [= <- <- <-] Hg [Ht Hts]%Forall_cons_1 Hsum.
  change (gas + (tx_gas_limit (inner t) + sum_Z (tx_gas_limit ∘ inner <$> ts)) < U64_MOD) in Hsum.
  pose proof (replay_tx_receipt ctx _ _ _ _ _ _ Hr) as [Hrg _].
  assert (Hs : 0 <= sum_Z (tx_gas_limit ∘ inner <$> ts)).
  { apply sum_Z_nonneg, Forall_fmap. exact Hts. }
  assert (Hg1 : gas <= g1 <= gas + tx_gas_limit (inner t)).
  { unfold replay_tx in Hr. destruct (depositor_nonce ctx d t); [done|].
    destruct (transact _ _ _) as [|[res st]] eqn:Htr; [done|]. injection Hr as _ _ <-.
    apply transact_gas in Htr. rewrite add64_exact; lia. }
  simpl. rewrite Hrg. split; [lia|]. eapply IH; [done|lia|done|lia].
Qed.

Lemma zip_inner {A} (f : OpTransactionSigned -> A) txs (senders : list Address) :
  length senders = length txs -> f ∘ inner <$> zip_with mkRecovered txs senders = f <$> txs.
Proof.
  revert senders. induction txs as [|t txs IH]; intros [|a senders]; try done.
  intros [= Hl]. simpl. f_equal. by apply IH.
Qed.

(** What is known of the info of a portable block. *)
Lemma portable_info (ctx : FbCtx) (info : FbInfo) d d0 p :
  seals ctx info p -> executes ctx d0 info d -> portable p ->
  Forall2 (fun t a => tx_from t = Some a) (executed_transactions info) (executed_senders info) /\
  ascending 0 (receipt_gas <$> receipts info) (cumulative_gas_used info) /\
  Forall (fun t => in_u64 (tx_gas_limit t)) (executed_transactions info).
Proof using G RL.
  intros Hseal He [Hfr Hlim Hsum]. rewrite (seal_txs _ _ _ Hseal), (seal_senders _ _ _ Hseal) in *.
  split_and!; [done| |].
  - destruct He as [Hr Hl]. eapply replay_ascending; [done..| |].
    + rewrite <- (Forall_fmap (tx_gas_limit ∘ inner) (fun g => 0 <= g)), zip_inner by done. by rewrite Forall_fmap.
    + by rewrite zip_inner.
  - rewrite <- (Forall_fmap tx_gas_limit in_u64). by apply sum_Z_bounds; [rewrite Forall_fmap|].
Qed.

(** A block the builder seals with its state root comes out unchanged when a peer accepts it, and then no
    transaction of the block is above the peer's limit. *)
Lemma built_block_agrees config spec pc ctx (info : FbInfo) d d0 p fb info' d' sctx client token p' fb' :
  job_of config spec pc ctx -> build_block ctx info d true = (Ok (p, fb), info', d') ->
  executes ctx d0 info d -> portable p -> peer_of spec ctx d0 p sctx client ->
  execute_flashblock (from_wire (to_wire p)) sctx client token = Ok (p', fb') ->
  below (sy_max_gas_per_txn sctx) (gas_steps 0 (receipt_gas <$> p_receipts p)) /\
  p_block p' = p_block p /\ p_hash p' = p_hash p /\ p_receipts p' = p_receipts p.
Proof using EL XL G RL.
  intros Hj Hb He Hport Hpeer. pose proof (peer_spec _ _ _ _ _ _ Hpeer) as [Hs1 Hs2].
  destruct (peer_prepared _ _ _ _ _ _ _ _ _ _ _ _ _ _ Hj Hb Hpeer) as (ph & params & Hprep & Hpar & Hx).
  pose proof Hb as Hseal. apply build_block_Ok in Hseal as ([Hseal _] & _).
  destruct (portable_info _ _ _ _ _ Hseal He Hport) as (Hfr & Has & Hu).
  rewrite (seal_receipts _ _ _ Hseal).
  intros (ph' & env & d0' & prm & i & d2 & Hp' & Ht & Hbb & _)%execute_flashblock_Ok.
  destruct Hprep as [P1 _ _ (d3 & P2 & P3) P4 P5], Hp' as [Q1 _ _ (d4 & Q2 & Q3) Q4 Q5].
  assert (ph' = ph) as -> by congruence. assert (env = evm_env ctx) as -> by congruence.
  assert (d0' = d0) as -> by congruence. assert (prm = params) as -> by congruence. rewrite Hs2 in Ht.
  apply (peer_executes _ _ _ _ _ _ _ _ _ _ _ _ _ _ _ Hj Hb Hs1 He Hfr Has Hu) in Ht as (Hm & _ & -> & ->).
  split; [done|].
  destruct (peer_seals _ _ _ _ info (set_da_footprint_scalar
      (push_all (initial_info (b_header (p_block p))) (executed_transactions info) (executed_senders info)
         (receipts info) (cumulative_gas_used info)) (footprint_scalar spec (timestamp ctx) d))
    d _ _ _ _ sctx ph params token Hj Hs1 Hb Hpar (Hx token)) as (q & fb'' & Hq & Hblk & Hhash & Hrc); [done..|].
  rewrite Hq in Hbb. injection Hbb as <- _. by rewrite (seal_receipts _ _ _ Hseal) in Hrc.
Qed.

(** Such a block is accepted when no transaction is above the limit. *)
Lemma built_block_accepted config spec pc ctx (info : FbInfo) d d0 p fb info' d' sctx client token :
  job_of config spec pc ctx -> build_block ctx info d true = (Ok (p, fb), info', d') ->
  executes ctx d0 info d -> portable p -> peer_of spec ctx d0 p sctx client ->
  scalar_readable spec (parent ctx) p client ->
  below (sy_max_gas_per_txn sctx) (gas_steps 0 (receipt_gas <$> p_receipts p)) ->
  peer_accepts p sctx client token.
Proof using EL XL G RL.
  intros Hj Hb He Hport Hpeer Hsc. pose proof (peer_spec _ _ _ _ _ _ Hpeer) as [Hs1 Hs2].
  destruct (peer_prepared _ _ _ _ _ _ _ _ _ _ _ _ _ _ Hj Hb Hpeer) as (ph & params & Hprep & Hpar & Hx).
  pose proof Hb as Hseal. apply build_block_Ok in Hseal as ([Hseal _] & _).
  destruct (portable_info _ _ _ _ _ Hseal He Hport) as (Hfr & Has & Hu).
  rewrite (seal_receipts _ _ _ Hseal). intros Hm. set (i := set_da_footprint_scalar
    (push_all (initial_info (b_header (p_block p))) (executed_transactions info) (executed_senders info)
       (receipts info) (cumulative_gas_used info)) (footprint_scalar spec (timestamp ctx) d)).
  destruct (peer_seals _ _ _ _ info i d _ _ _ _ sctx ph params token Hj Hs1 Hb Hpar (Hx token))
    as (p' & fb' & Hbb & Hblk & Hhash & Hrc); [done..|].
  exists p', fb'. split; [|done]. apply execute_flashblock_Ok.
  exists ph, (evm_env ctx), d0, params, i, d. split_and!; [done| |done|done]. rewrite Hs2.
  apply (peer_executes _ _ _ _ _ _ _ _ _ _ _ _ _ _ _ Hj Hb Hs1 He Hfr Has Hu). split_and!; try done.
  destruct (job_ctx_fields _ _ _ _ Hj) as (Hspec & _ & _ & Hne & _).
  destruct (built_header_env _ _ _ _ _ _ _ _ _ _ _ Hj Hb) as (Henv & _).
  unfold is_jovian_active. rewrite Hspec. intros Hjov. destruct He as [Hr _].
  destruct (peer_state _ _ _ _ _ _ Hpeer) as (d3 & Hd3 & Hd0).
  eapply (Hsc ltac:(by rewrite (seal_timestamp _ _ _ Hseal)) d3 d0 ctx); rewrite ?Henv; try done.
  by rewrite (seal_txs _ _ _ Hseal), (seal_senders _ _ _ Hseal).
Qed.

(** A peer that follows the chain is a peer of a context of the job. *)
Lemma follows_peer spec ctx d d0 p sctx client :
  state_by_block_hash (parent_hash ctx) = inr d ->
  apply_pre_execution_changes d (parent ctx) (block_env_attributes ctx) = inr d0 ->
  follows spec (parent ctx) p sctx client -> peer_of spec ctx d0 p sctx client.
Proof. intros Hd Hd0 [Hs Hp Hv Hst]. split; try done. exists d. unfold parent_hash in *. by rewrite Hst. Qed.

(** A peer on the chain that accepts a block of the builder has what it needs for it. *)
Lemma accepting_peer config spec pc ctx (info : FbInfo) d1 p fb r d2 d d0 sctx client token p' fb' c :
  job_of config spec pc ctx -> build_block ctx info d1 c = (Ok (p, fb), r, d2) ->
  state_by_block_hash (parent_hash ctx) = inr d ->
  apply_pre_execution_changes d (parent ctx) (block_env_attributes ctx) = inr d0 ->
  on_chain spec (parent ctx) sctx client ->
  execute_flashblock (from_wire (to_wire p)) sctx client token = Ok (p', fb') ->
  peer_of spec ctx d0 p sctx client.
Proof using EL.
  intros Hj Hb Hd Hd0 [[Hs1 Hs2] Hpar Hst] (ph & env & d0' & prm & i & d3 & Hp & _)%execute_flashblock_Ok.
  apply build_block_Ok in Hb as ([Hseal _] & _).
  destruct Hp as [P1 P2 P3 _ _ _]. simpl in *. rewrite (seal_parent _ _ _ Hseal), ?Hs2 in *.
  split; [done| |done|].
  - exists ph. split_and!; [done| |done]. by apply Hpar.
  - exists d. unfold parent_hash in *. by rewrite Hst.
Qed.

End Peers.

(** ** The payloads a job sends *)
Section Sent.
Context `{X : Externals} `{B : !BuilderExternals X} `{S : !StateExternals X}.
Context `{J : !JobExternals X} `{Y : !SyncExternals X} `{!EvmGas X} `{!ReceiptLaws X} `{!FeeLaws X}.
Context `{!FlzLaws X} `{SL : !StateLaws X} `{!JobLaws X} `{!EnvLaws X} `{!ExtraDataLaws X}.
Context {It Self : Type} `{PT : PayloadTransactions It} `{!PayloadTransactionsLaws It}.
Context `{BT : !BuilderTransactions Self FlashblocksExtraCtx FlashblocksExecutionInfo}.
Context `{BL : !BuilderTransactionsLaws Self FlashblocksExtraCtx FlashblocksExecutionInfo}.

(** Every payload that is sent is sealed, with its state root, from a replay of its transactions in the
    state of the parent. *)
Lemma sent_built config spec interop (w : World It) pc clock fc signals (self : Self) limiter now r s p :
  build_payload config spec interop w pc clock fc signals self limiter now = Some (r, Some s) ->
  wf_config config -> self_ok self -> job_fits config pc ->
  disable_state_root (cfg_specific config) = false \/ no_tx_pool (pc_attributes pc) = true ->
  p ∈ fs_sent s ->
  exists ctx (info info' : FbInfo) d d0 d1 d2 fb,
    job_of config spec pc ctx /\ parent ctx = pc_parent pc /\
    state_by_block_hash (parent_hash ctx) = inr d /\
    apply_pre_execution_changes d (parent ctx) (block_env_attributes ctx) = inr d0 /\
    executes ctx d0 info d1 /\ build_block ctx info d1 true = (Ok (p, fb), info', d2).
Proof using All.
  intros H Hwf Hok Hfit Hroot Hp.
  eapply build_payload_trace in H as (x & ctx & d & d0 & Hx & Hc & Hd & Hd0 & Hv & _); [|done..].
  rewrite Forall_forall in Hv. destruct (Hv p Hp) as (t & x' & info & info' & d1 & d2 & fb & Hdis & He & Hb).
  assert (Hj : job_of config spec pc (with_extra_ctx (with_cancel ctx t) x')).
  { split; [done|]. exists interop, t, x'. by eapply get_ctx_with. }
  destruct (job_ctx_fields _ _ _ _ Hj) as (_ & Hpar & _).
  assert (Hr : calculates_root ctx = true).
  { rewrite (calculates_root_job _ _ _ _ _ _ _ Hx Hc). destruct Hroot as [-> | ->]; [done|apply orb_true_r]. }
  rewrite Hr in Hb. exists (with_extra_ctx (with_cancel ctx t) x'), info, info', d, d0, d1, d2, fb.
  split_and!; try done. destruct He as [He Hl]. split; [|done]. by rewrite (replay_ext _ ctx).
Qed.

(** A payload that is sent comes out unchanged at a peer on the chain that accepts it. *)
Lemma sent_agrees config spec interop (w : World It) pc clock fc signals (self : Self) limiter now r s p
    sctx client token p' fb' :
  build_payload config spec interop w pc clock fc signals self limiter now = Some (r, Some s) ->
  wf_config config -> self_ok self -> job_fits config pc ->
  disable_state_root (cfg_specific config) = false \/ no_tx_pool (pc_attributes pc) = true ->
  p ∈ fs_sent s -> portable p -> on_chain spec (pc_parent pc) sctx client ->
  execute_flashblock (from_wire (to_wire p)) sctx client token = Ok (p', fb') ->
  p_block p' = p_block p /\ p_receipts p' = p_receipts p.
Proof using All.
  intros H Hwf Hok Hfit Hroot Hp Hport Hon Hex.
  destruct (sent_built _ _ _ _ _ _ _ _ _ _ _ _ _ p H Hwf Hok Hfit Hroot Hp)
    as (ctx & info & info' & d & d0 & d1 & d2 & fb & Hj & Hpar & Hd & Hd0 & He & Hb).
  rewrite <- Hpar in Hon.
  pose proof (accepting_peer _ _ _ _ _ _ _ _ _ _ _ _ _ _ _ _ _ _ Hj Hb Hd Hd0 Hon Hex) as Hpeer.
  by destruct (built_block_agrees _ _ _ _ _ _ _ _ _ _ _ _ _ _ _ _ Hj Hb He Hport Hpeer Hex)
    as (_ & Hblk & _ & Hrc).
Qed.

End Sent.

Import TestChain TestPool TestSigner TestState TestJob TestPayload TestSync.

(** ** Peers on the small chain *)
Module TestPeers.

#[export] Instance test_extra : ExtraDataLaws TestChain.chain.
Proof.
  split.
  - intros [b|] [m|] defaults x; cbn [jovian_extra_data test_sync test_jovian]; try done.
    destruct (_ && _) eqn:E; [|done].
    rewrite !andb_true_iff, Nat.eqb_eq, Z.leb_le, Z.ltb_lt in E. destruct E as [[Hb H0] Hm]. intros Hx.
    assert (x = 1 :: b ++ to_be_bytes 8 m) as -> by congruence. clear Hx.
    assert (H1 : slice (1 :: b ++ to_be_bytes 8 m) 1 9 = b).
    { unfold slice. change (9 - 1)%nat with 8%nat. rewrite <- Hb. simpl. apply take_app_length. }
    assert (H2 : slice (1 :: b ++ to_be_bytes 8 m) 9 17 = to_be_bytes 8 m).
    { unfold slice. change (17 - 9)%nat with 8%nat. rewrite <- Hb at 2. cbn [drop].
      rewrite drop_app_length, firstn_all2; [done|]. by rewrite length_to_be_bytes. }
    rewrite H1, H2, from_to_be_bytes by done. split.
    + cbn [length]. rewrite length_app, Hb, length_to_be_bytes. done.
    + rewrite Hb. cbn [Nat.eqb andb]. by rewrite (proj2 (Z.leb_le 0 m) H0), (proj2 (Z.ltb_lt m _) Hm).
  - intros [b|] defaults x; simpl; try done. destruct (Nat.eqb_spec (length b) 8); [|done].
    intros [= <-].
    assert (H1 : slice (0 :: b) 1 9 = b) by (apply (firstn_all2 b); lia).
    rewrite H1, e. simpl. by rewrite e.
Qed.

#[export] Instance test_env : EnvLaws TestChain.chain.
Proof. by intros parent a env [= <-]. Qed.

Lemma sync_fits : job_fits (X := TestChain.chain) (sample_config 0) sync_pc.
Proof. split; [done|]. by exists sync_params, (Some 7). Qed.

(** A job that publishes a fallback block and one flashblock. *)
Definition sync_run :=
  build_payload (X := TestChain.chain) (sample_config 0) (sample_spec true) false (TestJob.job_world true)
    sync_pc (from_secs 1000 + from_millis 100) never_cancelled [never_cancelled]
    TestSigner.sample_builder_txs (new_limiter (mkGasLimiterArgs false 0 0 0)) 0.
Definition sync_sent : list OpBuiltPayload :=
  match sync_run with Some (_, Some s) => fs_sent s | _ => [] end.
(** The payload of the flashblock: seven transactions. *)
Definition sync_last : OpBuiltPayload := unwrap_or (last sync_sent) sync_built.

Lemma sync_last_sent : sync_last ∈ sync_sent.
Proof.
  assert (H : last sync_sent = Some sync_last).
  { assert (Hl : bool_decide (is_Some (last sync_sent)) = true) by (vm_compute; reflexivity).
    apply bool_decide_eq_true in Hl as [q Hq]. unfold sync_last. by rewrite Hq. }
  by apply last_Some_elem_of.
Qed.

Definition sync_payloads : list OpBuiltPayload := Eval vm_compute in sync_sent.
Lemma sync_sent_eq : sync_sent = sync_payloads.
Proof. vm_compute. reflexivity. Qed.

Lemma sync_sent_portable : Forall portable sync_sent.
Proof. rewrite sync_sent_eq. repeat (constructor; [split; vm_compute; repeat constructor; discriminate|]). constructor. Qed.

Lemma sync_sent_follows :
  Forall (fun p => follows (X := TestChain.chain) (sample_spec true) (pc_parent sync_pc) p
    (sync_syncer (Some 21000)) sync_client) sync_sent.
Proof.
  rewrite sync_sent_eq.
  repeat (constructor; [split; [done|eexists; split; [reflexivity|]; split; vm_compute; reflexivity|done|done]|]).
  constructor.
Qed.

End TestPeers.

Import TestPeers.

(** ** Properties *)

(** C10: a block travels to a peer unchanged.  Take a job whose gas limit override, if the operator has
    configured one, is the gas limit of the request, whose attributes encode EIP-1559 parameters, and
    which calculates state roots (or takes nothing from the pool); a payload it hands to the payload
    handler, whose recorded senders are the signers of its transactions and whose transactions' gas
    limits add up to a [u64]; and a peer of the same chain rules that has the parent and its state,
    finds the header valid and, after Jovian, can read the footprint scalar in the state the block
    leaves.  Sent over the wire, the payload is accepted and announced by this peer with the same block,
    hash and receipts exactly when no transaction of it, a deposit or a builder transaction included,
    used more gas than the peer's limit per transaction. *)
Theorem sent_payload_accepted `{X : Externals} `{B : !BuilderExternals X} `{S : !StateExternals X}
    `{J : !JobExternals X} `{Y : !SyncExternals X} `{!EvmGas X} `{!ReceiptLaws X} `{!FeeLaws X}
    `{!FlzLaws X} `{SL : !StateLaws X} `{!JobLaws X} `{!EnvLaws X} `{!ExtraDataLaws X}
    {It Self} `{PT : PayloadTransactions It} `{!PayloadTransactionsLaws It}
    `{BT : !BuilderTransactions Self FlashblocksExtraCtx FlashblocksExecutionInfo}
    `{BL : !BuilderTransactionsLaws Self FlashblocksExtraCtx FlashblocksExecutionInfo}
    config spec interop (w : World It) pc clock fc signals (self : Self) limiter now r s p sctx client token :
  build_payload config spec interop w pc clock fc signals self limiter now = Some (r, Some s) ->
  wf_config config -> self_ok self -> job_fits config pc ->
  disable_state_root (cfg_specific config) = false \/ no_tx_pool (pc_attributes pc) = true ->
  p ∈ fs_sent s -> portable p -> follows spec (pc_parent pc) p sctx client ->
  scalar_readable spec (pc_parent pc) p client ->
  peer_accepts p sctx client token <->
  below (sy_max_gas_per_txn sctx) (gas_steps 0 (receipt_gas <$> p_receipts p)).
Proof.
  intros H Hwf Hok Hfit Hroot Hp Hport Hfol Hsc.
  destruct (sent_built _ _ _ _ _ _ _ _ _ _ _ _ _ p H Hwf Hok Hfit Hroot Hp)
    as (ctx & info & info' & d & d0 & d1 & d2 & fb & Hj & Hpar & Hd & Hd0 & He & Hb).
  rewrite <- Hpar in Hfol, Hsc. pose proof (follows_peer _ _ _ _ _ _ _ Hd Hd0 Hfol) as Hpeer. split.
  - intros (p' & fb' & Hex & _).
    by destruct (built_block_agrees _ _ _ _ _ _ _ _ _ _ _ _ _ _ _ _ Hj Hb He Hport Hpeer Hex) as [Hm _].
  - exact (built_block_accepted _ _ _ _ _ _ _ _ _ _ _ _ _ token Hj Hb He Hport Hpeer Hsc).
Qed.

Lemma sent_payload_accepted_witness :
  peer_accepts (X := chain) sync_last (sync_syncer (Some 21000)) sync_client never_cancelled /\
  length (b_transactions (p_block sync_last)) = 7%nat.
Proof.
  split; [|vm_compute; reflexivity].
  pose proof sync_sent_portable as Hp. pose proof sync_sent_follows as Hf. pose proof sync_last_sent as Hin.
  unfold sync_sent in Hin, Hp, Hf.
  destruct sync_run as [[r [s|]]|] eqn:E; [|exact (False_ind _ (proj1 (elem_of_nil _) Hin))..].
  apply (sent_payload_accepted (X := chain) _ _ _ _ _ _ _ _ _ _ _ _ _ sync_last
    (sync_syncer (Some 21000)) sync_client never_cancelled E).
  - unfold wf_config. vm_compute. repeat split; discriminate || reflexivity.
  - exact job_self_ok.
  - exact sync_fits.
  - left. reflexivity.
  - exact Hin.
  - rewrite Forall_forall in Hp. by apply Hp.
  - rewrite Forall_forall in Hf. by apply Hf.
  - by eexists.
  - intros m [= <-]. vm_compute. repeat constructor; discriminate.
Defined.
