(* ===== verification/P2p.v ===== *)
(** * The peer-to-peer node

    Models the crate [crates/p2p]: [src/outgoing.rs] (the streams to the peers and the broadcast of a
    message), [src/lib.rs] (the event loop of a node and the reading of an incoming stream) and the
    handling of discovery events of [src/behaviour.rs]; the building and the start of a node are in
    [P2pBuild].  libp2p is outside: connections, the
    opening of streams and the sending on them are events and answers the node is given.  [serde_json]
    and [LinesCodec] are parameters with the laws the protocol relies on. *)

From S2P Require Import Prelude.

(** ** Data *)

Abbreviation PeerId := Z.
Abbreviation StreamProtocol := Z.
Abbreviation Stream := Z.

(** [Multiaddr]: its protocols in order, of which only a peer id is looked at. *)
Inductive AddrPart : Type := P2pPart (p : PeerId) | OtherPart (n : Z).
Definition Multiaddr : Type := list AddrPart.

#[export] Instance AddrPart_eq_dec : EqDecision AddrPart.
Proof. solve_decision. Defined.

(** [StreamsHandler]: the open outgoing stream of each peer and protocol. *)
Abbreviation StreamsHandler := (gmap PeerId (gmap StreamProtocol Stream)).

Inductive P2pError : Type :=
| SerializeFailed (e : Z)
| DecodeFailed (e : Z)
| ReadFailed (e : Z)
| NoPeerId
| ListenFailed (e : Z)
| DialFailed (e : Z)
| AgentVersionMissing
| HexFailed
| KeypairFailed (e : Z)
| TransportFailed (e : Z)
| MdnsFailed (e : Z)
| AlreadyRegistered.

(** The trait [Message]; its string is the list of the bytes. *)
Class Message (M : Type) : Type := {
  msg_protocol : M -> StreamProtocol;
  msg_to_string : M -> Z + list Z;
  msg_from_str : list Z -> Z + M;
}.

(** [LinesCodec]: the frame of a line, and the lines of what was read, up to its end; a number is an
    error of the reader. *)
Class LinesCodec : Type := {
  frame : list Z -> list Z;
  read_lines : list Z -> list (Z + list Z);
}.

Definition NEWLINE : Z := 10.
Definition CARRIAGE_RETURN : Z := 13.
Definition one_line (l : list Z) : Prop := (NEWLINE ∉ l) /\ (CARRIAGE_RETURN ∉ l).

(** JSON without line breaks reads back as the message; lines read back as they were framed. *)
Class MessageLaws (M : Type) `{!Message M} : Prop :=
  json_roundtrip m s : msg_to_string m = inr s -> one_line s /\ msg_from_str s = inr m.
Class LinesLaws `{!LinesCodec} : Prop :=
  lines_roundtrip ls : Forall one_line ls -> read_lines (mjoin (frame <$> ls)) = map inr ls.

(** ** [outgoing.rs] *)

Definition has_peer (h : StreamsHandler) (peer : PeerId) : bool := bool_decide (is_Some (h !! peer)).

Definition insert_peer_and_stream (peer : PeerId) (protocol : StreamProtocol) (stream : Stream)
    (h : StreamsHandler) : StreamsHandler :=
  <[peer := <[protocol := stream]> (unwrap_or (h !! peer) ∅)]> h.

Definition remove_peer (peer : PeerId) (h : StreamsHandler) : StreamsHandler := delete peer h.

(** The first loop of [broadcast_message]: every stream of the protocol is taken out of the maps. *)
Fixpoint take_streams (protocol : StreamProtocol) (peers : list PeerId) (h : StreamsHandler)
    : outcome P2pError (StreamsHandler * list (PeerId * Stream)) :=
  match peers with
  | [] => Ok (h, [])
  | peer :: peers' =>
      let? protocol_to_stream := expect (h !! peer) in
      match protocol_to_stream !! protocol with
      | None => take_streams protocol peers' h
      | Some stream =>
          let? (h', futures) :=
            take_streams protocol peers' (<[peer := delete protocol protocol_to_stream]> h) in
          Ok (h', (peer, stream) :: futures)
      end
  end.

(** The second: a stream on which the message was sent is put back; a future that failed dropped
    its stream. *)
Fixpoint put_streams (protocol : StreamProtocol) (results : list (PeerId * Stream * bool))
    (h : StreamsHandler) : outcome P2pError StreamsHandler :=
  match results with
  | [] => Ok h
  | (peer, stream, true) :: results' =>
      let? protocol_to_stream := expect (h !! peer) in
      put_streams protocol results' (<[peer := <[protocol := stream]> protocol_to_stream]> h)
  | (_, _, false) :: results' => put_streams protocol results' h
  end.

(** [broadcast_message]; [send_ok] says to which peers the send succeeds and [completed] in which order
    the futures complete.  The third component is what was sent. *)
Definition broadcast_message {M} `{!Message M} `{!LinesCodec} (m : M) (send_ok : PeerId -> bool)
    (completed : list (PeerId * Stream) -> list (PeerId * Stream)) (h : StreamsHandler)
    : outcome P2pError unit * StreamsHandler * list (PeerId * Stream * list Z) :=
  let protocol := msg_protocol m in
  match msg_to_string m with
  | inl e => (Err (SerializeFailed e), h, [])
  | inr payload =>
      match take_streams protocol (elements (dom h)) h with
      | Ok (h1, futures) =>
          let results := (fun '(peer, stream) => (peer, stream, send_ok peer)) <$> completed futures in
          let sent :=
            (fun '(peer, stream) => (peer, stream, frame payload)) <$>
              filter (fun ps => send_ok ps.1 = true) (completed futures) in
          match put_streams protocol results h1 with
          | Ok h2 => (Ok tt, h2, sent)
          | Err e => (Err e, h1, sent)
          | Panic => (Panic, h1, sent)
          end
      | Err e => (Err e, h, [])
      | Panic => (Panic, h, [])
      end
  end.

(** ** Specification of the broadcast *)

Definition stream_of (h : StreamsHandler) (peer : PeerId) (protocol : StreamProtocol) : option Stream :=
  h !! peer ≫= (.!! protocol).

(** Every stream of the protocol to a peer the send failed for is gone, the others are as they were. *)
Definition after_broadcast (protocol : StreamProtocol) (send_ok : PeerId -> bool) (h : StreamsHandler)
    : StreamsHandler :=
  map_imap (fun peer m => Some (if send_ok peer then m else delete protocol m)) h.

(** The open streams of a protocol, one per peer. *)
Definition open_streams (h : StreamsHandler) (protocol : StreamProtocol) : list (PeerId * Stream) :=
  omap (fun p => (p,.) <$> stream_of h p protocol) (elements (dom h)).

Lemma elem_of_open_streams h q p s : (p, s) ∈ open_streams h q <-> stream_of h p q = Some s.
Proof.
  unfold open_streams. rewrite list_elem_of_omap. split.
  - intros (p' & _ & Hp'). destruct (stream_of h p' q) eqn:E; simplify_eq/=. done.
  - intros Hs. exists p. rewrite Hs. split; [|done]. apply elem_of_elements, elem_of_dom.
    unfold stream_of in Hs. destruct (h !! p); [by eexists|done].
Qed.

Lemma NoDup_open_streams h q : NoDup (fst <$> open_streams h q).
Proof.
  apply (sublist_NoDup _ (elements (dom h))); [apply NoDup_elements|]. unfold open_streams.
  induction (elements (dom h)) as [|p l IH]; [done|]. simpl.
  destruct (stream_of h p q); simpl; [by apply sublist_skip|by apply sublist_cons].
Qed.

Lemma take_streams_spec protocol peers h :
  NoDup peers -> (forall p, p ∈ peers -> is_Some (h !! p)) ->
  exists h' futures, take_streams protocol peers h = Ok (h', futures) /\
    futures = omap (fun p => (p,.) <$> stream_of h p protocol) peers /\
    forall p, h' !! p = if decide (p ∈ peers) then delete protocol <$> h !! p else h !! p.
Proof.
  intros Hnd. revert h. induction Hnd as [|p peers Hp Hnd IH]; intros h Hin; simpl.
  { exists h, []. split_and!; [done..|]. intros q. by destruct (decide (q ∈ [])). }
  destruct (Hin p) as [m Hm]; [set_solver|]. unfold stream_of at 1. rewrite Hm. simpl.
  destruct (m !! protocol) as [s|] eqn:Hs; simpl.
  - destruct (IH (<[p := delete protocol m]> h)) as (h' & futs & Ht & -> & Hl).
    { intros q Hq. rewrite lookup_insert_ne by set_solver. set_solver. }
    exists h', ((p, s) :: omap (fun p => (p,.) <$> stream_of h p protocol) peers). rewrite Ht. simpl.
    split_and!; [|done|].
    + do 3 f_equal. apply omap_ext_in. intros q Hq. unfold stream_of.
      by rewrite lookup_insert_ne by set_solver.
    + intros q. rewrite Hl. destruct (decide (q = p)) as [->|].
      * rewrite decide_False, lookup_insert_eq, decide_True, Hm by set_solver. done.
      * rewrite lookup_insert_ne by done. by repeat destruct (decide _); set_solver.
  - destruct (IH h) as (h' & futs & Ht & -> & Hl); [set_solver|]. eexists _, _.
    split_and!; [exact Ht|done|].
    intros q. rewrite Hl. destruct (decide (q = p)) as [->|].
    + rewrite decide_False, decide_True, Hm by set_solver. simpl. by rewrite delete_id.
    + by repeat destruct (decide _); set_solver.
Qed.

Lemma put_streams_spec protocol results h :
  NoDup (fst ∘ fst <$> results) -> (forall r, r ∈ results -> is_Some (h !! r.1.1)) ->
  exists h', put_streams protocol results h = Ok h' /\
    (forall p s, (p, s, true) ∈ results -> h' !! p = <[protocol := s]> <$> h !! p) /\
    (forall p, (forall s, (p, s, true) ∉ results) -> h' !! p = h !! p).
Proof.
  revert h. induction results as [|[[p s] b] results IH]; intros h Hnd Hin.
  { exists h. split_and!; [done| |done]. set_solver. }
  apply NoDup_cons in Hnd as [Hp Hnd].
  assert (Hne : forall q s' b', (q, s', b') ∈ results -> q <> p).
  { intros q s' b' Hq ->. apply Hp, list_elem_of_fmap. by exists (p, s', b'). }
  destruct b.
  - destruct (Hin (p, s, true)) as [m Hm]; [set_solver|]. simpl in Hm. simpl. rewrite Hm. simpl.
    destruct (IH (<[p := <[protocol := s]> m]> h)) as (h' & Hput & Hyes & Hno); [done| |].
    { intros [[q s'] b'] Hq. simpl. rewrite lookup_insert_ne by (symmetry; eauto).
      apply (Hin (q, s', b')). set_solver. }
    exists h'. split; [done|]. split.
    + intros q s' [[= -> ->]|Hq]%elem_of_cons.
      * rewrite Hno, lookup_insert_eq, Hm; [done|]. intros s' Hs'. by apply (Hne _ _ _ Hs').
      * rewrite (Hyes _ _ Hq), lookup_insert_ne by (symmetry; eauto). done.
    + intros q Hq. rewrite Hno by set_solver. apply lookup_insert_ne. set_solver.
  - destruct (IH h) as (h' & Hput & Hyes & Hno); [done|set_solver|]. simpl. exists h'. split; [done|].
    split; [set_solver|]. intros q Hq. apply Hno. set_solver.
Qed.

(** A broadcast never panics, sends the frame of the message once on every open stream of its protocol
    on which the send succeeds, and leaves the streams of [after_broadcast], in whatever order the
    sends complete. *)
Lemma broadcast_message_Ok {M} `{!Message M} `{!LinesCodec} (m : M) send_ok completed h payload :
  msg_to_string m = inr payload -> (forall l, completed l ≡ₚ l) ->
  exists sent, broadcast_message m send_ok completed h
      = (Ok tt, after_broadcast (msg_protocol m) send_ok h, sent) /\
    NoDup sent /\
    (forall p s b, (p, s, b) ∈ sent <->
       stream_of h p (msg_protocol m) = Some s /\ send_ok p = true /\ b = frame payload).
Proof.
  intros Hm Hc. unfold broadcast_message. rewrite Hm. set (q := msg_protocol m).
  destruct (take_streams_spec q (elements (dom h)) h) as (h1 & futures & Ht & Hf & Hl).
  { apply NoDup_elements. }
  { intros p Hp. by rewrite elem_of_elements, elem_of_dom in Hp. }
  rewrite Ht.
  fold (open_streams h q) in Hf. subst futures. pose proof (elem_of_open_streams h q) as Hin.
  set (results := (fun '(peer, stream) => (peer, stream, send_ok peer)) <$> completed (open_streams h q)).
  assert (Hres : forall p s b, (p, s, b) ∈ results <-> stream_of h p q = Some s /\ b = send_ok p).
  { intros p s b. unfold results. rewrite list_elem_of_fmap. split.
    - intros ([p' s'] & [= -> -> ->] & Hp). by rewrite Hc, Hin in Hp.
    - intros [Hs ->]. exists (p, s). by rewrite Hc, Hin. }
  destruct (put_streams_spec q results h1) as (h2 & Hput & Hyes & Hno).
  { assert (Heq : fst ∘ fst <$> results = fst <$> completed (open_streams h q)).
    { unfold results. rewrite <- list_fmap_compose. by apply list_fmap_ext; intros ? [] _. }
    by rewrite Heq, Hc; apply NoDup_open_streams. }
  { intros [[p s] b] [Hs _]%Hres. simpl. rewrite Hl. unfold stream_of in Hs.
    destruct (h !! p) eqn:E; [|done]. rewrite decide_True; [by eexists|].
    by apply elem_of_elements, elem_of_dom. }
  rewrite Hput. eexists. split; [|split].
  - f_equal. f_equal. apply map_eq. intros p. unfold after_broadcast. rewrite map_lookup_imap.
    assert (Hh1 : h1 !! p = delete q <$> h !! p).
    { rewrite Hl. case_decide as Hd; [done|]. rewrite elem_of_elements, elem_of_dom in Hd.
      by destruct (h !! p); [destruct Hd|]. }
    destruct (stream_of h p q) as [s|] eqn:Hs; [destruct (send_ok p) eqn:Hk|].
    + rewrite (Hyes p s), Hh1 by (apply Hres; done). unfold stream_of in Hs.
      destruct (h !! p) as [mp|]; [|done]. simpl in *. by rewrite insert_delete_id.
    + rewrite Hno, Hh1; [by destruct (h !! p)|]. intros s' [_ ?]%Hres. congruence.
    + rewrite Hno, Hh1; [|intros s' [? _]%Hres; congruence]. unfold stream_of in Hs.
      destruct (h !! p) as [mp|]; [|done]. simpl in *. rewrite delete_id by done. by destruct (send_ok p).
  - apply NoDup_fmap_2; [by intros [] [] [= -> ->]|]. apply NoDup_filter. rewrite Hc.
    by apply (NoDup_fmap_1 fst), NoDup_open_streams.
  - intros p s b. rewrite list_elem_of_fmap. split.
    + intros ([p' s'] & [= -> -> ->] & [Hk Hp]%list_elem_of_filter). by rewrite Hc, Hin in Hp.
    + intros (Hs & Hk & ->). exists (p, s). split; [done|]. rewrite list_elem_of_filter. by rewrite Hc, Hin.
Qed.

(** ** [lib.rs]: reading an incoming stream *)

(** [handle_incoming_stream]: what it returns and the messages it hands on, from what the reader
    yields.  A line that is not a message ends the stream. *)
Fixpoint handle_incoming_stream {M} `{!Message M} (reads : list (Z + list Z))
    : outcome P2pError unit * list M :=
  match reads with
  | [] => (Ok tt, [])
  | inl e :: _ => (Err (ReadFailed e), [])
  | inr str :: reads' =>
      match msg_from_str str with
      | inl e => (Err (DecodeFailed e), [])
      | inr payload =>
          let '(r, payloads) := handle_incoming_stream reads' in (r, payload :: payloads)
      end
  end.

(** ** [lib.rs]: the event loop *)

(** The node while it runs: its streams, the connections of the swarm (a peer may have several), what
    it has dialled and what it has sent. *)
Record Node : Type := mkNode {
  nd_streams : StreamsHandler;
  nd_connections : list PeerId;
  nd_dialed : list (PeerId * Multiaddr);
  nd_sent : list (PeerId * Stream * list Z);
  nd_running : bool;
}.

Definition new_node : Node := mkNode ∅ [] [] [] true.

(** What the loop is woken by, with the answers of libp2p: to which peers a send succeeds and in which
    order the sends complete, and what opening a stream gives. *)
Inductive NodeEvent (M : Type) : Type :=
| CancelEvent
| RetryTick
| Outgoing (m : M) (send_ok : PeerId -> bool)
    (completed : list (PeerId * Stream) -> list (PeerId * Stream))
| ConnectionEstablished (peer : PeerId) (open_stream : StreamProtocol -> Z + Stream)
| ConnectionClosed (peer : PeerId)
| MdnsDiscovered (found : list (PeerId * Multiaddr))
| OtherEvent.
Arguments CancelEvent {M}.
Arguments RetryTick {M}.
Arguments Outgoing {M} m send_ok completed.
Arguments ConnectionEstablished {M} peer open_stream.
Arguments ConnectionClosed {M} peer.
Arguments MdnsDiscovered {M} found.
Arguments OtherEvent {M}.

(** The swarm forgets one connection. *)
Fixpoint remove_one (peer : PeerId) (l : list PeerId) : list PeerId :=
  match l with
  | [] => []
  | p :: l' => if decide (p = peer) then l' else p :: remove_one peer l'
  end.

(** The branch [ConnectionEstablished]: streams are opened unless the peer is there already. *)
Definition open_peer_streams (protocols : list StreamProtocol) (peer : PeerId)
    (open_stream : StreamProtocol -> Z + Stream) (h : StreamsHandler) : StreamsHandler :=
  if negb (has_peer h peer) then
    fold_left (fun h protocol =>
      match open_stream protocol with
      | inr stream => insert_peer_and_stream peer protocol stream h
      | inl _ => h
      end) protocols h
  else h.

(** The tick: the known peers that are not connected are dialled. *)
Definition to_dial (connections : list PeerId) (known_peers_info : list (PeerId * Multiaddr))
    : list (PeerId * Multiaddr) := filter (fun pa => pa.1 ∉ connections) known_peers_info.

(** [BehaviourEvent::handle]: so are the peers that mDNS discovers. *)
Fixpoint mdns_discovered (connections : list PeerId) (found : list (PeerId * Multiaddr))
    : list (PeerId * Multiaddr) :=
  match found with
  | [] => []
  | (peer_id, multiaddr) :: found' =>
      if bool_decide (peer_id ∈ connections) then mdns_discovered connections found'
      else (peer_id, multiaddr) :: mdns_discovered connections found'
  end.

Definition node_step {M} `{!Message M} `{!LinesCodec} (protocols : list StreamProtocol)
    (known_peers_info : list (PeerId * Multiaddr)) (n : Node) (event : NodeEvent M) : Node :=
  if negb (nd_running n) then n
  else
    match event with
    | CancelEvent => mkNode (nd_streams n) (nd_connections n) (nd_dialed n) (nd_sent n) false
    | RetryTick =>
        mkNode (nd_streams n) (nd_connections n)
          (nd_dialed n ++ to_dial (nd_connections n) known_peers_info) (nd_sent n) true
    | Outgoing m send_ok completed =>
        let '(_, h, sent) := broadcast_message m send_ok completed (nd_streams n) in
        mkNode h (nd_connections n) (nd_dialed n) (nd_sent n ++ sent) true
    | ConnectionEstablished peer open_stream =>
        mkNode (open_peer_streams protocols peer open_stream (nd_streams n))
          (peer :: nd_connections n) (nd_dialed n) (nd_sent n) true
    | ConnectionClosed peer =>
        mkNode (remove_peer peer (nd_streams n)) (remove_one peer (nd_connections n)) (nd_dialed n)
          (nd_sent n) true
    | MdnsDiscovered found =>
        mkNode (nd_streams n) (nd_connections n)
          (nd_dialed n ++ mdns_discovered (nd_connections n) found) (nd_sent n) true
    | OtherEvent => n
    end.

Definition run_events {M} `{!Message M} `{!LinesCodec} (protocols : list StreamProtocol)
    (known_peers_info : list (PeerId * Multiaddr)) (n : Node) (events : list (NodeEvent M)) : Node :=
  fold_left (node_step protocols known_peers_info) events n.

(** ** Lemmas *)

Lemma after_broadcast_lookup protocol send_ok h p :
  after_broadcast protocol send_ok h !! p
    = (fun m => if send_ok p then m else delete protocol m) <$> h !! p.
Proof. unfold after_broadcast. rewrite map_lookup_imap. by destruct (h !! p). Qed.

(** A broadcast opens no stream. *)
Lemma after_broadcast_stream protocol send_ok h p q s :
  stream_of (after_broadcast protocol send_ok h) p q = Some s -> stream_of h p q = Some s.
Proof.
  unfold stream_of. rewrite after_broadcast_lookup. destruct (h !! p) as [m|]; [simpl|done].
  destruct (send_ok p); [done|]. rewrite lookup_delete_Some. by intros [_ ?].
Qed.

Lemma insert_stream_of h p q s p' q' :
  stream_of (insert_peer_and_stream p q s h) p' q' =
    if decide (p = p' /\ q = q') then Some s else stream_of h p' q'.
Proof.
  unfold stream_of, insert_peer_and_stream. destruct (decide (p = p')) as [<-|].
  - rewrite lookup_insert_eq. simpl. destruct (decide (q = q')) as [<-|].
    + rewrite lookup_insert_eq, decide_True; done.
    + rewrite lookup_insert_ne, decide_False by naive_solver. by destruct (h !! p).
  - rewrite lookup_insert_ne, decide_False by naive_solver. done.
Qed.

(** What the streams are after the streams of a new connection were opened. *)
Lemma open_peer_streams_spec protocols peer open_stream h :
  (has_peer h peer = true -> open_peer_streams protocols peer open_stream h = h) /\
  (forall p, p <> peer -> open_peer_streams protocols peer open_stream h !! p = h !! p) /\
  (forall p q s, stream_of (open_peer_streams protocols peer open_stream h) p q = Some s ->
     stream_of h p q = Some s \/ p = peer /\ q ∈ protocols).
Proof.
  unfold open_peer_streams. destruct (has_peer h peer); simpl; [split_and!; auto|].
  split; [done|].
  apply (fold_left_invariant _ (fun h' => (forall p, p <> peer -> h' !! p = h !! p) /\
    (forall p q s, stream_of h' p q = Some s -> stream_of h p q = Some s \/ p = peer /\ q ∈ protocols))
    (fun q => q ∈ protocols)).
  - intros h' q Hq [H1 H2]. destruct (open_stream q) as [|s]; [done|]. split.
    + intros p Hp. unfold insert_peer_and_stream. rewrite lookup_insert_ne by done. auto.
    + intros p q' s'. rewrite insert_stream_of. case_decide as Hd; [|auto]. destruct Hd as [<- <-]. by right.
  - by apply Forall_forall.
  - split; auto.
Qed.

Lemma remove_one_keeps p q l : p <> q -> p ∈ l -> p ∈ remove_one q l.
Proof.
  intros Hne. induction l as [|x l IH]; simpl; [done|]. case_decide; set_solver.
Qed.

Section Loop.
Context {M : Type} `{!Message M} `{!LinesCodec}.
Context (protocols : list StreamProtocol) (known : list (PeerId * Multiaddr)).

(** Sends complete in some order. *)
Definition fair (e : NodeEvent M) : Prop :=
  match e with Outgoing _ _ completed => forall l, completed l ≡ₚ l | _ => True end.

(** Streams are to connected peers and of the node's protocols. *)
Record node_inv (n : Node) : Prop := {
  ni_connected : forall p, is_Some (nd_streams n !! p) -> p ∈ nd_connections n;
  ni_protocols : forall p q s, stream_of (nd_streams n) p q = Some s -> q ∈ protocols;
}.

(** A broadcast on the node, whether or not the message can be serialised. *)
Lemma broadcast_cases (m : M) send_ok completed h :
  (forall l, completed l ≡ₚ l) ->
  exists r h' sent, broadcast_message m send_ok completed h = (r, h', sent) /\
    (h' = h \/ h' = after_broadcast (msg_protocol m) send_ok h) /\ r <> Panic /\
    (forall p s b, (p, s, b) ∈ sent -> stream_of h p (msg_protocol m) = Some s).
Proof.
  intros Hc. destruct (msg_to_string m) as [e|payload] eqn:E.
  - eexists _, _, _. unfold broadcast_message. rewrite E. split_and!; [done|by left|done|set_solver].
  - destruct (broadcast_message_Ok m send_ok completed h payload E Hc) as (sent & Hb & _ & Hs).
    eexists _, _, _. split_and!; [exact Hb|by right|done|]. intros p s b Hp. by apply Hs in Hp as [? _].
Qed.

Lemma node_step_inv n e : fair e -> node_inv n -> node_inv (node_step protocols known n e).
Proof.
  intros Hf Hinv. unfold node_step. destruct (nd_running n); [simpl|done].
  pose proof Hinv as [Hc Hp]. destruct e as [| |m send_ok completed|peer op|peer|found|]; try by split.
  - destruct (broadcast_cases m send_ok completed (nd_streams n) Hf) as (r & h' & sent & -> & Hh & _).
    destruct Hh as [->| ->]; split; simpl; try done.
    + intros p. rewrite after_broadcast_lookup, fmap_is_Some. apply Hc.
    + intros p q s Hs%after_broadcast_stream. by eapply Hp.
  - destruct (open_peer_streams_spec protocols peer op (nd_streams n)) as (_ & Hne & Hst). split; simpl.
    + intros p. destruct (decide (p = peer)) as [->|Hd]; [set_solver|]. rewrite Hne by done.
      intros ?%Hc. set_solver.
    + intros p q s [Hs|[_ ?]]%Hst; [by eapply Hp|done].
  - unfold remove_peer. split; simpl.
    + intros p [m [Hne Hm]%lookup_delete_Some]. apply remove_one_keeps; [done|]. apply Hc. by eexists.
    + intros p q s. unfold stream_of. destruct (decide (peer = p)) as [<-|].
      * by rewrite lookup_delete_eq.
      * rewrite lookup_delete_ne by done. apply Hp.
Qed.

Lemma run_events_inv events n :
  Forall fair events -> node_inv n -> node_inv (run_events protocols known n events).
Proof. intros Hf Hn. by apply (fold_left_invariant _ node_inv fair); [apply node_step_inv| |]. Qed.

(** A peer without a stream of a protocol: what is left after a send to it failed. *)
Definition deaf (p : PeerId) (q : StreamProtocol) (n : Node) : Prop :=
  exists m, nd_streams n !! p = Some m /\ m !! q = None.

Lemma node_step_deaf p q n e :
  fair e /\ e <> ConnectionClosed p -> deaf p q n -> deaf p q (node_step protocols known n e).
Proof.
  intros [Hf Hne] (m & Hm & Hq). unfold node_step. destruct (nd_running n); [simpl|by exists m].
  destruct e as [| |msg send_ok completed|peer op|peer|found|]; try by exists m.
  - destruct (broadcast_cases msg send_ok completed (nd_streams n) Hf) as (r & h' & sent & -> & Hh & _).
    destruct Hh as [->| ->]; [by exists m|]. unfold deaf. simpl. rewrite after_broadcast_lookup, Hm. simpl.
    eexists. split; [done|]. destruct (send_ok p); [done|]. rewrite lookup_delete. by case_decide.
  - destruct (open_peer_streams_spec protocols peer op (nd_streams n)) as (Hsame & Hother & _).
    exists m. simpl. destruct (decide (p = peer)) as [->|]; [|by rewrite Hother].
    rewrite Hsame; [done|]. unfold has_peer. apply bool_decide_true. by eexists.
  - exists m. simpl. unfold remove_peer. rewrite lookup_delete_ne; [done|]. by intros ->.
Qed.

Lemma run_events_deaf p q events n :
  Forall (fun e => fair e /\ e <> ConnectionClosed p) events -> deaf p q n ->
  deaf p q (run_events protocols known n events).
Proof. intros Hf Hn. by eapply (fold_left_invariant _ (deaf p q)); [apply node_step_deaf| |]. Qed.

End Loop.

(** ** What a peer reads *)

(** The bytes written on a stream. *)
Definition on_stream (p : PeerId) (s : Stream) (sent : list (PeerId * Stream * list Z)) : list Z :=
  mjoin (snd <$> filter (fun x => x.1 = (p, s)) sent).

Section Reading.
Context {M : Type} `{!Message M} `{!LinesCodec}.
Context (protocols : list StreamProtocol) (known : list (PeerId * Multiaddr)).

(** The messages of a protocol among what the node is told to send, as they are and on the wire. *)
Definition outgoing_on (q : StreamProtocol) (e : NodeEvent M) : option M :=
  match e with
  | Outgoing m _ _ => if decide (msg_protocol m = q) then Some m else None
  | _ => None
  end.
Definition wire_on (q : StreamProtocol) (e : NodeEvent M) : option (list Z) :=
  outgoing_on q e ≫= fun m => match msg_to_string m with inr s => Some s | inl _ => None end.

(** The connection to a peer stays up: sends to it succeed, it is not closed, the node goes on. *)
Definition reaches (p : PeerId) (e : NodeEvent M) : Prop :=
  fair e /\
  match e with
  | Outgoing m send_ok _ => send_ok p = true /\ exists s, msg_to_string m = inr s
  | ConnectionClosed p' => p' <> p
  | CancelEvent => False
  | _ => True
  end.

(** The streams of a peer, one of which is the stream of the protocol. *)
Definition connected (p : PeerId) (q : StreamProtocol) (s : Stream) (m : gmap StreamProtocol Stream)
    (n : Node) : Prop :=
  nd_running n = true /\ nd_streams n !! p = Some m /\ m !! q = Some s /\
  forall q', m !! q' = Some s -> q' = q.

(** A broadcast writes one frame on the stream of its protocol and nothing on another. *)
Lemma broadcast_on_stream (msg : M) send_ok completed h p q s m payload r h' sent :
  (forall l, completed l ≡ₚ l) -> send_ok p = true -> msg_to_string msg = inr payload ->
  h !! p = Some m -> m !! q = Some s -> (forall q', m !! q' = Some s -> q' = q) ->
  broadcast_message msg send_ok completed h = (r, h', sent) ->
  h' !! p = Some m /\
  on_stream p s sent = if decide (msg_protocol msg = q) then frame payload else [].
Proof.
  intros Hc Hok Hs Hm Hq Hinj Hb.
  destruct (broadcast_message_Ok msg send_ok completed h payload Hs Hc) as (sent' & Hb' & Hnd & Hsent).
  rewrite Hb in Hb'. injection Hb' as -> -> ->. split.
  { by rewrite after_broadcast_lookup, Hm; simpl; rewrite Hok. }
  assert (Hst : forall q', stream_of h p q' = m !! q') by (intros; unfold stream_of; by rewrite Hm).
  unfold on_stream. case_decide as Hd.
  - rewrite (filter_unique _ sent' (p, s, frame payload)); [simpl; apply app_nil_r|done| |done|].
    + apply Hsent. by rewrite Hst, Hd.
    + intros [[p' s'] b] (_ & _ & ->)%Hsent [= -> ->]. done.
  - assert (Hnil : filter (fun x => x.1 = (p, s)) sent' = []); [|by rewrite Hnil].
    apply elem_of_nil_inv. intros [[p' s'] b] [[= -> ->] Hx]%list_elem_of_filter.
    apply Hsent in Hx as (Hx & _). rewrite Hst in Hx. apply Hinj in Hx. done.
Qed.

Lemma on_stream_app p s l k : on_stream p s (l ++ k) = on_stream p s l ++ on_stream p s k.
Proof. unfold on_stream. by rewrite filter_app, fmap_app, join_app. Qed.

Lemma step_connected p q s m n e :
  reaches p e -> connected p q s m n ->
  connected p q s m (node_step protocols known n e) /\
  on_stream p s (nd_sent (node_step protocols known n e))
    = on_stream p s (nd_sent n) ++ from_option frame [] (wire_on q e).
Proof.
  intros [Hf He] (Hr & Hm & Hq & Hinj). unfold node_step. rewrite Hr. simpl.
  destruct e as [| |msg send_ok completed|peer op|peer|found|]; simpl; try rewrite app_nil_r;
    try by (split; [split_and!|]).
  - destruct (broadcast_message msg send_ok completed (nd_streams n)) as [[r h'] sent] eqn:E.
    destruct He as [Hok [payload Hs]].
    destruct (broadcast_on_stream _ _ _ _ _ _ _ _ _ _ _ _ Hf Hok Hs Hm Hq Hinj E) as [Hh Hon].
    split; [by split_and!|]. simpl. rewrite on_stream_app, Hon. unfold wire_on, outgoing_on.
    case_decide; simpl; [by rewrite Hs|done].
  - split; [|done]. split_and!; try done. simpl.
    destruct (open_peer_streams_spec protocols peer op (nd_streams n)) as (Hsame & Hother & _).
    destruct (decide (p = peer)) as [->|]; [|by rewrite Hother]. rewrite Hsame; [done|].
    unfold has_peer. apply bool_decide_true. by eexists.
  - split; [|done]. split_and!; try done. simpl. unfold remove_peer. by rewrite lookup_delete_ne.
Qed.

Lemma run_connected p q s m events n :
  Forall (reaches p) events -> connected p q s m n ->
  connected p q s m (run_events protocols known n events) /\
  on_stream p s (nd_sent (run_events protocols known n events))
    = on_stream p s (nd_sent n) ++ mjoin (frame <$> omap (wire_on q) events).
Proof.
  intros He. revert n. induction He as [|e events He _ IH]; intros n Hn; simpl.
  { by rewrite app_nil_r. }
  destruct (step_connected _ _ _ _ _ _ He Hn) as [Hn1 Hs1].
  destruct (IH _ Hn1) as [Hn2 Hs2]. split; [done|].
  change (run_events protocols known n (e :: events))
    with (run_events protocols known (node_step protocols known n e) events).
  rewrite Hs2, Hs1, <- app_assoc. f_equal.
  destruct (wire_on q e); simpl; done.
Qed.

Context `{!MessageLaws M} `{!LinesLaws}.

(** The lines of the messages read back as the messages. *)
Lemma handle_wire p q events :
  Forall (reaches p) events ->
  handle_incoming_stream (map inr (omap (wire_on q) events)) = (Ok tt, omap (outgoing_on q) events) /\
  Forall one_line (omap (wire_on q) events).
Proof.
  induction 1 as [|e events [_ He] _ [IH1 IH2]]; [done|]. rewrite !omap_cons_eq.
  destruct e as [| |msg send_ok completed|peer op|peer|found|]; try by split.
  destruct He as [_ [s Hs]]. 
  assert (Hw : wire_on q (Outgoing msg send_ok completed) = if decide (msg_protocol msg = q) then Some s else None).
  { unfold wire_on. simpl. case_decide; simpl; [by rewrite Hs|done]. }
  rewrite Hw. simpl. case_decide; [|done]. simpl.
  destruct (json_roundtrip _ _ Hs) as [Hl Hd]. rewrite Hd, IH1. split; [done|by constructor].
Qed.

Lemma connected_reads p q s m n events :
  connected p q s m n -> Forall (reaches p) events -> on_stream p s (nd_sent n) = [] ->
  handle_incoming_stream (read_lines (on_stream p s (nd_sent (run_events protocols known n events))))
    = (Ok tt, omap (outgoing_on q) events).
Proof.
  intros Hn He Hz. destruct (run_connected p q s m events n He Hn) as [_ Hs].
  destruct (handle_wire p q events He) as [Hw Hl]. by rewrite Hs, Hz, app_nil_l, lines_roundtrip.
Qed.

End Reading.

(** ** A node in a test network *)
Module TestNet.

(** Messages are booleans, written as one digit; lines end with a newline, and a carriage return at the
    end of a line is dropped. *)
#[export] Instance test_message : Message bool := {|
  msg_protocol (_ : bool) := 7;
  msg_to_string (b : bool) := inr [if b then 49 else 48];
  msg_from_str s := match s with [49] => inr true | [48] => inr false | _ => inl 0 end;
|}.

Definition strip_cr (l : list Z) : list Z :=
  match last l with
  | Some c => if c =? CARRIAGE_RETURN then removelast l else l
  | None => l
  end.

Fixpoint split_lines (cur b : list Z) : list (Z + list Z) :=
  match b with
  | [] => match cur with [] => [] | _ => [inr (strip_cr cur)] end
  | c :: b' => if c =? NEWLINE then inr (strip_cr cur) :: split_lines [] b' else split_lines (cur ++ [c]) b'
  end.

#[export] Instance test_lines : LinesCodec := {| frame l := l ++ [NEWLINE]; read_lines := split_lines [] |}.

#[export] Instance test_message_laws : MessageLaws bool.
Proof.
  intros [] s [= <-]; (split; [split; unfold NEWLINE, CARRIAGE_RETURN|done]);
    intros [H|H]%elem_of_cons; [done|set_solver|done|set_solver|done|set_solver|done|set_solver].
Qed.

Lemma split_line l cur rest :
  NEWLINE ∉ l -> split_lines cur (l ++ NEWLINE :: rest) = inr (strip_cr (cur ++ l)) :: split_lines [] rest.
Proof.
  revert cur. induction l as [|c l IH]; intros cur Hl; simpl; [by rewrite app_nil_r|].
  destruct (Z.eqb_spec c NEWLINE) as [->|]; [set_solver|].
  rewrite IH by set_solver. by rewrite <- app_assoc.
Qed.

#[export] Instance test_lines_laws : LinesLaws.
Proof.
  intros ls. induction 1 as [|l ls [Hn Hc] _ IH]; [done|]. simpl.
  rewrite <- app_assoc. simpl. rewrite split_line by done. f_equal; [|exact IH].
  f_equal. unfold strip_cr. simpl. destruct (last l) as [c|] eqn:E; [|done].
  destruct (Z.eqb_spec c CARRIAGE_RETURN) as [->|]; [|done].
  apply last_Some_elem_of in E. done.
Qed.

(** The node connects to two peers, and the send to the second one fails. *)
Definition opened (q : StreamProtocol) : Z + Stream := inr (q + 100).
Definition sends (failing : list PeerId) (b : bool) : NodeEvent bool :=
  Outgoing b (fun p => negb (bool_decide (p ∈ failing))) (fun l => l).
Definition net_events : list (NodeEvent bool) :=
  [ConnectionEstablished 1 opened; ConnectionEstablished 2 opened; sends [2] true].
Definition net_node : Node := run_events [7] [] new_node net_events.

End TestNet.

Import TestNet.

(** ** Properties *)

(** A broadcast reaches every open stream.  When the message can be serialised, its frame is sent
    exactly once on the stream of its protocol to every peer that has one, except where the send
    fails; these streams are dropped, every other stream stays as it was, in whatever order the sends
    complete, and nothing panics.  When it cannot, nothing is sent and nothing changes. *)
Theorem broadcast_message_spec {M} `{!Message M} `{!LinesCodec} (m : M) send_ok completed h r h' sent :
  broadcast_message m send_ok completed h = (r, h', sent) -> (forall l, completed l ≡ₚ l) ->
  match msg_to_string m with
  | inl e => r = Err (SerializeFailed e) /\ h' = h /\ sent = []
  | inr payload =>
      r = Ok tt /\ NoDup sent /\
      (forall p s b, (p, s, b) ∈ sent <->
         stream_of h p (msg_protocol m) = Some s /\ send_ok p = true /\ b = frame payload) /\
      (forall p q, stream_of h' p q =
         if decide (q = msg_protocol m /\ send_ok p = false) then None else stream_of h p q) /\
      dom h' = dom h
  end.
Proof.
  intros Hr Hc. destruct (msg_to_string m) as [e|payload] eqn:E.
  - unfold broadcast_message in Hr. rewrite E in Hr. by injection Hr as <- <- <-.
  - destruct (broadcast_message_Ok m send_ok completed h payload E Hc) as (sent' & Hb & Hnd & Hs).
    rewrite Hb in Hr. injection Hr as <- <- <-. split_and!; try done.
    + intros p q. unfold stream_of. rewrite after_broadcast_lookup.
      destruct (h !! p) as [mp|]; simpl; [|by case_decide].
      destruct (send_ok p); [by rewrite decide_False by naive_solver|].
      rewrite lookup_delete. repeat case_decide; naive_solver.
    + apply set_eq. intros p. by rewrite !elem_of_dom, after_broadcast_lookup, fmap_is_Some.
Qed.

Lemma broadcast_message_spec_witness :
  exists h' sent, broadcast_message true (fun p => p =? 1) reverse {[1 := {[7 := 101]}; 2 := {[7 := 102]}]}
      = (Ok tt, h', sent) /\
    stream_of h' 1 7 = Some 101 /\ stream_of h' 2 7 = None.
Proof.
  destruct (broadcast_message true (fun p => p =? 1) reverse {[1 := {[7 := 101]}; 2 := {[7 := 102]}]})
    as [[r h'] sent] eqn:E.
  destruct (broadcast_message_spec true (fun p => p =? 1) reverse {[1 := {[7 := 101]}; 2 := {[7 := 102]}]}
    r h' sent E) as (-> & _ & _ & Hst & _); [intros l; apply reverse_Permutation|].
  exists h', sent. split; [reflexivity|]. rewrite !Hst. split; reflexivity.
Defined.

(** C28: what is sent is what the peer reads.  While the connection to a peer stays up, whatever else
    happens on the node, the bytes written on the stream of a protocol to that peer are read by its
    [handle_incoming_stream] as exactly the messages the node was told to send on that protocol, in
    order. *)
Theorem peer_reads_messages {M} `{!Message M} `{LC : !LinesCodec} `{!MessageLaws M} `{!LinesLaws}
    protocols known p q s m n (events : list (NodeEvent M)) :
  connected p q s m n -> Forall (reaches p) events -> on_stream p s (nd_sent n) = [] ->
  handle_incoming_stream (read_lines (on_stream p s (nd_sent (run_events protocols known n events))))
    = (Ok tt, omap (outgoing_on q) events).
Proof. intros. by eapply connected_reads. Qed.

Lemma peer_reads_messages_witness :
  handle_incoming_stream (read_lines (on_stream 1 107 (nd_sent (run_events [7] []
    (run_events [7] [] new_node [@ConnectionEstablished bool 1 opened])
    [sends [2] true; ConnectionEstablished 2 opened; sends [2] false; RetryTick; sends [] true]))))
    = (Ok tt, [true; false; true]).
Proof.
  etrans; [apply (peer_reads_messages [7] [] 1 7 107 {[7 := 107]}
    (run_events [7] [] new_node [@ConnectionEstablished bool 1 opened])
    [sends [2] true; ConnectionEstablished 2 opened; sends [2] false; RetryTick; sends [] true])|reflexivity].
  - split_and!; [reflexivity..|]. intros q' Hq. by apply lookup_singleton_Some in Hq as [-> _].
  - repeat constructor; simpl; try done; by eexists.
  - reflexivity.
Defined.

(** C29: the streams of the node follow its connections.  After any events, with the sends of
    a broadcast completing in any order, a peer with a stream is connected and the stream is of one of the
    node's protocols, and a broadcast sends only to peers that are connected at that moment. *)
Theorem node_streams_connected {M} `{!Message M} `{LC : !LinesCodec} protocols known
    (events : list (NodeEvent M)) :
  Forall fair events ->
  let n := run_events protocols known new_node events in
  (forall p, has_peer (nd_streams n) p = true -> p ∈ nd_connections n) /\
  (forall p q s, stream_of (nd_streams n) p q = Some s -> p ∈ nd_connections n /\ q ∈ protocols) /\
  (forall (m : M) send_ok completed p s b, (forall l, completed l ≡ₚ l) ->
     (p, s, b) ∈ nd_sent (node_step protocols known n (Outgoing m send_ok completed)) ->
     (p, s, b) ∈ nd_sent n \/ p ∈ nd_connections n).
Proof.
  intros He n. assert (Hi : node_inv protocols n).
  { apply run_events_inv; [done|]. split; unfold stream_of; simpl; intros p.
    - rewrite lookup_empty. by intros [].
    - by rewrite lookup_empty. }
  destruct Hi as [Hc Hp].
  assert (Hs : forall p q s, stream_of (nd_streams n) p q = Some s -> p ∈ nd_connections n).
  { intros p q s Hs. apply Hc. unfold stream_of in Hs. by destruct (nd_streams n !! p). }
  split_and!; [|eauto|].
  - intros p Hh. apply Hc. by apply bool_decide_eq_true in Hh.
  - intros m send_ok completed p s b Hf. unfold node_step.
    destruct (nd_running n); [simpl|by left].
    destruct (broadcast_cases m send_ok completed (nd_streams n) Hf) as (r & h' & sent & -> & _ & _ & Hsent).
    simpl. intros [?|Hin]%elem_of_app; [by left|right]. by eapply Hs, Hsent.
Qed.

Lemma node_streams_connected_witness :
  has_peer (nd_streams net_node) 2 = true /\ 2 ∈ nd_connections net_node.
Proof.
  destruct (node_streams_connected [7] [] net_events) as [H _].
  - repeat (apply Forall_cons; split; [by try intros l|]). by apply Forall_nil.
  - split; [reflexivity|]. apply H. reflexivity.
Defined.

(** A stream that was lost is not opened again.  After a send to a peer failed, the peer is kept
    without the stream, so that a further connection does not open it, and no message of the protocol
    reaches the peer until a connection to it is closed. *)
Theorem lost_stream_not_reopened {M} `{!Message M} `{LC : !LinesCodec} protocols known n
    (m : M) send_ok completed p s (events : list (NodeEvent M)) payload :
  nd_running n = true -> stream_of (nd_streams n) p (msg_protocol m) = Some s ->
  msg_to_string m = inr payload -> (forall l, completed l ≡ₚ l) -> send_ok p = false ->
  Forall (fun e => fair e /\ e <> ConnectionClosed p) events ->
  let n' := run_events protocols known n (Outgoing m send_ok completed :: events) in
  has_peer (nd_streams n') p = true /\ stream_of (nd_streams n') p (msg_protocol m) = None.
Proof.
  intros Hr Hs Hm Hc Hok He n'.
  assert (Hd : deaf p (msg_protocol m) (node_step protocols known n (Outgoing m send_ok completed))).
  { unfold node_step. rewrite Hr. simpl.
    destruct (broadcast_message_Ok m send_ok completed (nd_streams n) payload Hm Hc) as (sent & -> & _).
    unfold deaf. simpl. rewrite after_broadcast_lookup. unfold stream_of in Hs.
    destruct (nd_streams n !! p) as [mp|]; [|done]. simpl. rewrite Hok. eexists. split; [done|].
    apply lookup_delete_eq. }
  destruct (run_events_deaf protocols known p (msg_protocol m) events _ He Hd) as (mp & Hp & Hq).
  change n' with (run_events protocols known (node_step protocols known n (Outgoing m send_ok completed)) events).
  unfold has_peer, stream_of. rewrite Hp. done.
Qed.

Lemma lost_stream_not_reopened_witness :
  stream_of (nd_streams (run_events [7] []
    (run_events [7] [] new_node [@ConnectionEstablished bool 2 opened])
    [sends [2] true; ConnectionEstablished 2 opened; sends [] false])) 2 7 = None.
Proof.
  destruct (lost_stream_not_reopened [7] []
    (run_events [7] [] new_node [@ConnectionEstablished bool 2 opened])
    true (fun p => negb (bool_decide (p ∈ [2]))) (fun l => l) 2 107
    [ConnectionEstablished 2 opened; sends [] false] [49]) as [_ H]; [reflexivity..| |exact H].
  repeat (apply Forall_cons; split; [split; [by try intros l|done]|]). by apply Forall_nil.
Defined.
