(* ===== verification/P2pBuild.v ===== *)
(** * Building and starting a peer-to-peer node

    Models the builder of [crates/p2p/src/lib.rs] ([NodeBuilder], [try_build], [create_transport]), the
    behaviour it configures ([Behaviour::new] of [src/behaviour.rs]), the addresses of a node and the
    part of [Node::run] before its event loop, which is in [P2p].  libp2p is outside: what it creates
    may fail, and the numbers are its errors. *)

From S2P Require Import Prelude External Timing P2p.

(** ** libp2p *)

(** A key pair is known by its peer id. *)
Class Libp2p : Type := {
  hex_bytes : Text -> option Bytes;
  keypair_try_from_bytes : Bytes -> Z + PeerId;
  dns_transport : Z + unit;
  noise_config : PeerId -> Z + unit;
  mdns_behaviour : PeerId -> Z + unit;
  listen_on : Multiaddr -> Z + unit;
  dial_address : Multiaddr -> Z + unit;
}.

(** ** The builder *)

(** [NodeBuilder]; a key is the hexadecimal string that was given, a token a number. *)
Record NodeBuilder : Type := mkNodeBuilder {
  nb_port : option Z;
  nb_listen_addrs : list Multiaddr;
  nb_keypair_hex : option Text;
  nb_known_peers : list Multiaddr;
  nb_agent_version : option string;
  nb_protocols : list StreamProtocol;
  nb_max_peer_count : option Z;
  nb_cancellation_token : option nat;
}.

Definition new_node_builder : NodeBuilder := mkNodeBuilder None [] None [] None [] None None.

Definition with_port (port : Z) (b : NodeBuilder) : NodeBuilder :=
  mkNodeBuilder (Some port) (nb_listen_addrs b) (nb_keypair_hex b) (nb_known_peers b)
    (nb_agent_version b) (nb_protocols b) (nb_max_peer_count b) (nb_cancellation_token b).
Definition with_listen_addr (addr : Multiaddr) (b : NodeBuilder) : NodeBuilder :=
  mkNodeBuilder (nb_port b) (nb_listen_addrs b ++ [addr]) (nb_keypair_hex b) (nb_known_peers b)
    (nb_agent_version b) (nb_protocols b) (nb_max_peer_count b) (nb_cancellation_token b).
Definition with_keypair_hex_string (keypair_hex : Text) (b : NodeBuilder) : NodeBuilder :=
  mkNodeBuilder (nb_port b) (nb_listen_addrs b) (Some keypair_hex) (nb_known_peers b)
    (nb_agent_version b) (nb_protocols b) (nb_max_peer_count b) (nb_cancellation_token b).
Definition with_agent_version (agent_version : string) (b : NodeBuilder) : NodeBuilder :=
  mkNodeBuilder (nb_port b) (nb_listen_addrs b) (nb_keypair_hex b) (nb_known_peers b)
    (Some agent_version) (nb_protocols b) (nb_max_peer_count b) (nb_cancellation_token b).
Definition with_protocol (protocol : StreamProtocol) (b : NodeBuilder) : NodeBuilder :=
  mkNodeBuilder (nb_port b) (nb_listen_addrs b) (nb_keypair_hex b) (nb_known_peers b)
    (nb_agent_version b) (nb_protocols b ++ [protocol]) (nb_max_peer_count b) (nb_cancellation_token b).
Definition with_cancellation_token (token : nat) (b : NodeBuilder) : NodeBuilder :=
  mkNodeBuilder (nb_port b) (nb_listen_addrs b) (nb_keypair_hex b) (nb_known_peers b)
    (nb_agent_version b) (nb_protocols b) (nb_max_peer_count b) (Some token).
Definition with_max_peer_count (max_peer_count : Z) (b : NodeBuilder) : NodeBuilder :=
  mkNodeBuilder (nb_port b) (nb_listen_addrs b) (nb_keypair_hex b) (nb_known_peers b)
    (nb_agent_version b) (nb_protocols b) (Some max_peer_count) (nb_cancellation_token b).
Definition with_known_peers (addresses : list Multiaddr) (b : NodeBuilder) : NodeBuilder :=
  fold_left (fun b address =>
    mkNodeBuilder (nb_port b) (nb_listen_addrs b) (nb_keypair_hex b) (nb_known_peers b ++ [address])
      (nb_agent_version b) (nb_protocols b) (nb_max_peer_count b) (nb_cancellation_token b)) addresses b.

(** ** What it builds *)

Definition DEFAULT_MAX_PEER_COUNT : Z := 50.
Definition PROTOCOL_VERSION : string := "1.0.0".
Definition CHANNEL_SIZE : nat := 100.

(** [Behaviour]: what its parts are configured with, and the protocols on which its control accepts
    streams. *)
Record Behaviour : Type := mkBehaviour {
  bh_identity : PeerId;
  bh_max_established : Z;
  bh_protocol_version : string;
  bh_agent_version : string;
  bh_ping_interval : Duration;
  bh_accepting : list StreamProtocol;
}.

(** The transport: authenticated as the peer, with a timeout. *)
Record Transport : Type := mkTransport { tr_identity : PeerId; tr_timeout : Duration }.

(** [IncomingStreamsHandler::new]: the handler of a protocol, which holds the sender of a channel; the
    receivers are the handlers' positions. *)
Record HandlerConfig : Type := mkHandlerConfig {
  hc_protocol : StreamProtocol;
  hc_channel_size : nat;
  hc_cancellation_token : nat;
}.

(** [NodeBuildResult] with its node. *)
Record BuiltNode : Type := mkBuiltNode {
  bn_peer_id : PeerId;
  bn_listen_addrs : list Multiaddr;
  bn_known_peers : list Multiaddr;
  bn_protocols : list StreamProtocol;
  bn_transport : Transport;
  bn_behaviour : Behaviour;
  bn_incoming : list HandlerConfig;
  bn_cancellation_token : nat;
  bn_outgoing_channel : nat;
  bn_incoming_rxs : gmap StreamProtocol nat;
}.

(** [Multiaddr::with_p2p]: appends the peer id unless the address ends with it; fails when it ends
    with another. *)
Definition with_p2p (addr : Multiaddr) (peer : PeerId) : option Multiaddr :=
  match last addr with
  | Some (P2pPart p) => if decide (p = peer) then Some addr else None
  | _ => Some (addr ++ [P2pPart peer])
  end.

(** The default address [/ip4/0.0.0.0/tcp/port]. *)
Definition default_listen_addr (port : Z) : Multiaddr := [OtherPart 0; OtherPart port].

Definition build_listen_addrs (b : NodeBuilder) (peer_id : PeerId) : list Multiaddr :=
  match filter (fun addr => P2pPart peer_id ∉ addr) (nb_listen_addrs b) with
  | [] => [default_listen_addr (unwrap_or (nb_port b) 0)]
  | addrs => addrs
  end.

(** [libp2p_stream::Control::accept]: a protocol is accepted once. *)
Definition accept (protocol : StreamProtocol) (b : Behaviour) : outcome P2pError Behaviour :=
  if bool_decide (protocol ∈ bh_accepting b) then Err AlreadyRegistered
  else Ok (mkBehaviour (bh_identity b) (bh_max_established b) (bh_protocol_version b)
             (bh_agent_version b) (bh_ping_interval b) (bh_accepting b ++ [protocol])).

(** The loop of [try_build] over the protocols. *)
Fixpoint accept_protocols (token : nat) (protocols : list StreamProtocol) (b : Behaviour)
    (handlers : list HandlerConfig) (rxs : gmap StreamProtocol nat)
    : outcome P2pError (Behaviour * list HandlerConfig * gmap StreamProtocol nat) :=
  match protocols with
  | [] => Ok (b, handlers, rxs)
  | protocol :: protocols' =>
      let? b := accept protocol b in
      accept_protocols token protocols' b (handlers ++ [mkHandlerConfig protocol CHANNEL_SIZE token])
        (<[protocol := length handlers]> rxs)
  end.

Section Build.
Context `{L : Libp2p}.

(** [create_transport] *)
Definition create_transport (keypair : PeerId) : outcome P2pError Transport :=
  let? _ := of_sum TransportFailed dns_transport in
  let? _ := of_sum TransportFailed (noise_config keypair) in
  Ok (mkTransport keypair (from_secs 20)).

(** [Behaviour::new] *)
Definition new_behaviour (keypair : PeerId) (agent_version : string) (max_peer_count : Z)
    : outcome P2pError Behaviour :=
  let? _ := of_sum MdnsFailed (mdns_behaviour keypair) in
  Ok (mkBehaviour keypair max_peer_count PROTOCOL_VERSION agent_version (from_secs 10) []).

(** The key pair: the given one, or a fresh one. *)
Definition build_keypair (keypair_hex : option Text) (generated : PeerId) : outcome P2pError PeerId :=
  match keypair_hex with
  | Some hex =>
      let? bytes := ok_or (hex_bytes hex) HexFailed in
      of_sum KeypairFailed (keypair_try_from_bytes bytes)
  | None => Ok generated
  end.

(** [try_build]; [generated] is the peer id of a fresh key pair and [fresh] a new token. *)
Definition try_build (generated : PeerId) (fresh : nat) (b : NodeBuilder) : outcome P2pError BuiltNode :=
  let cancellation_token := unwrap_or (nb_cancellation_token b) fresh in
  let? agent_version := ok_or (nb_agent_version b) AgentVersionMissing in
  let? keypair := build_keypair (nb_keypair_hex b) generated in
  let? transport := create_transport keypair in
  let max_peer_count := unwrap_or (nb_max_peer_count b) DEFAULT_MAX_PEER_COUNT in
  let? behaviour := new_behaviour keypair agent_version max_peer_count in
  let? (behaviour, incoming_streams_handlers, incoming_message_rxs) :=
    accept_protocols cancellation_token (nb_protocols b) behaviour [] ∅ in
  Ok (mkBuiltNode keypair (build_listen_addrs b keypair) (nb_known_peers b) (nb_protocols b) transport
        behaviour incoming_streams_handlers cancellation_token 100 incoming_message_rxs).

(** [Node::multiaddrs], with its [expect]. *)
Fixpoint multiaddrs (peer_id : PeerId) (addrs : list Multiaddr) : outcome P2pError (list Multiaddr) :=
  match addrs with
  | [] => Ok []
  | addr :: addrs' =>
      let? a := expect (with_p2p addr peer_id) in
      let? l := multiaddrs peer_id addrs' in
      Ok (a :: l)
  end.

(** ** [Node::run] before its loop *)

Fixpoint listen_all (addrs : list Multiaddr) : outcome P2pError unit :=
  match addrs with
  | [] => Ok tt
  | addr :: addrs' => let? _ := of_sum ListenFailed (listen_on addr) in listen_all addrs'
  end.

(** The known peers: each address must end with a peer id, and is dialled without it. *)
Fixpoint dial_known_peers (known : list Multiaddr) : outcome P2pError (list (PeerId * Multiaddr)) :=
  match known with
  | [] => Ok []
  | address :: known' =>
      match last address with
      | Some (P2pPart peer_id) =>
          let address := removelast address in
          let? _ := of_sum DialFailed (dial_address address) in
          let? known_peers_info := dial_known_peers known' in
          Ok ((peer_id, address) :: known_peers_info)
      | _ => Err NoPeerId
      end
  end.

(** [Node::run]: the node after the [events] of its loop, with the handlers of incoming streams it has
    spawned. *)
Definition run_node {M} `{!Message M} `{!LinesCodec} (node : BuiltNode) (events : list (NodeEvent M))
    : outcome P2pError (Node * list HandlerConfig) :=
  let? _ := listen_all (bn_listen_addrs node) in
  let? known_peers_info := dial_known_peers (bn_known_peers node) in
  Ok (run_events (bn_protocols node) known_peers_info (mkNode ∅ [] known_peers_info [] true) events,
      bn_incoming node).

End Build.

(** ** Lemmas *)

Lemma Forall2_elem_of_l {A B} (P : A -> B -> Prop) l k a :
  Forall2 P l k -> a ∈ l -> exists b, b ∈ k /\ P a b.
Proof.
  intros Hf [i Hi]%list_elem_of_lookup. destruct (Forall2_lookup_l _ _ _ _ _ Hf Hi) as (b & Hb & Hp).
  exists b. split; [by eapply list_elem_of_lookup_2|done].
Qed.

Lemma with_known_peers_eq addresses b :
  with_known_peers addresses b =
  mkNodeBuilder (nb_port b) (nb_listen_addrs b) (nb_keypair_hex b) (nb_known_peers b ++ addresses)
    (nb_agent_version b) (nb_protocols b) (nb_max_peer_count b) (nb_cancellation_token b).
Proof.
  unfold with_known_peers. revert b. induction addresses as [|a l IH]; intros b; simpl.
  - rewrite app_nil_r. by destruct b.
  - rewrite IH. simpl. by rewrite <- app_assoc.
Qed.

(** The loop accepts each protocol once and leaves one handler and one receiver for it; it fails when
    a protocol comes a second time. *)
Lemma accept_protocols_spec token protocols b handlers rxs :
  (NoDup (bh_accepting b ++ protocols) ->
   exists rxs', accept_protocols token protocols b handlers rxs =
     Ok (mkBehaviour (bh_identity b) (bh_max_established b) (bh_protocol_version b)
           (bh_agent_version b) (bh_ping_interval b) (bh_accepting b ++ protocols),
         handlers ++ ((fun p => mkHandlerConfig p CHANNEL_SIZE token) <$> protocols), rxs') /\
     (forall p, p ∉ protocols -> rxs' !! p = rxs !! p) /\
     (forall i p, protocols !! i = Some p -> rxs' !! p = Some (length handlers + i)%nat)) /\
  (NoDup (bh_accepting b) -> ~ NoDup (bh_accepting b ++ protocols) ->
   accept_protocols token protocols b handlers rxs = Err AlreadyRegistered).
Proof.
  revert b handlers rxs. induction protocols as [|q protocols IH]; intros b handlers rxs; simpl.
  { rewrite !app_nil_r. split; [|done]. intros _. exists rxs. destruct b. by split_and!. }
  unfold accept. destruct (decide (q ∈ bh_accepting b)) as [Hq|Hq];
    [rewrite bool_decide_true by done|rewrite bool_decide_false by done]; simpl.
  { split; [|done]. intros Hnd%NoDup_app. destruct Hnd as (_ & Hd & _). destruct (Hd q Hq). set_solver. }
  match goal with |- context [accept_protocols _ _ ?b1 ?h1 ?r1] => destruct (IH b1 h1 r1) as [Hok Herr] end.
  cbn [bh_accepting bh_identity bh_max_established bh_protocol_version bh_agent_version bh_ping_interval]
    in Hok, Herr. rewrite <- app_assoc in Hok, Herr. cbn [app] in Hok, Herr. split.
  - intros Hnd. destruct (Hok Hnd) as (rxs' & -> & Hout & Hin). exists rxs'. split; [|split].
    + by rewrite <- app_assoc.
    + intros p Hp. rewrite Hout by set_solver. apply lookup_insert_ne. set_solver.
    + apply NoDup_app in Hnd as (_ & _ & [Hnq _]%NoDup_cons).
      intros [|i] p Hi; simpl in Hi.
      * injection Hi as ->. rewrite Hout by done. by rewrite lookup_insert_eq, Nat.add_0_r.
      * rewrite (Hin i p Hi), length_app. simpl. f_equal. lia.
  - intros Hnd Hnot. apply Herr; [|done]. apply NoDup_app. split_and!; [done|set_solver|apply NoDup_singleton].
Qed.

Lemma with_p2p_None a peer : with_p2p a peer = None <-> exists p, last a = Some (P2pPart p) /\ p <> peer.
Proof.
  unfold with_p2p. destruct (last a) as [[p|z]|]; [case_decide as Hd|..]; (split; [|naive_solver]).
  - done.
  - intros _. by exists p.
  - done.
  - done.
Qed.

(** The node cannot report its addresses when it was given a listen address that ends with the id of
    another peer: only addresses with its own id are removed. *)
Lemma multiaddrs_panics peer_id addrs :
  multiaddrs peer_id addrs = Panic <-> Exists (fun a => exists p, last a = Some (P2pPart p) /\ p <> peer_id) addrs.
Proof.
  induction addrs as [|a addrs IH]; simpl; [by rewrite Exists_nil|].
  rewrite Exists_cons, <- with_p2p_None, <- IH.
  destruct (with_p2p a peer_id); simpl; [|naive_solver].
  destruct (multiaddrs peer_id addrs); simpl; naive_solver.
Qed.

Lemma listen_all_Ok `{Libp2p} addrs : listen_all addrs = Ok tt <-> Forall (fun a => listen_on a = inr tt) addrs.
Proof.
  induction addrs as [|a addrs IH]; simpl; [by split|]. rewrite Forall_cons, <- IH.
  destruct (listen_on a) as [e|[]]; simpl; naive_solver.
Qed.

(** The known peers are dialled when each address ends with a peer id and can be dialled. *)
Lemma dial_known_peers_Ok `{Libp2p} known info :
  dial_known_peers known = Ok info <->
  Forall2 (fun a pa => last a = Some (P2pPart pa.1) /\ pa.2 = removelast a /\
             dial_address pa.2 = inr tt) known info.
Proof.
  revert info. induction known as [|a known IH]; intros info; simpl.
  { split; [intros [= <-]; constructor|intros Hf; by inversion Hf]. }
  split.
  - destruct (last a) as [[p|z]|] eqn:Hl; [|done..]. intros Hd.
    destruct (dial_address (removelast a)) as [e|[]] eqn:Ha; [done|]. simpl in Hd.
    apply bind_Ok in Hd as (l & Hk & [= <-]). constructor; [done|by apply IH].
  - intros (pa & l & (Hl & Hp & Ha) & Hk%IH & ->)%Forall2_cons_inv_l. rewrite Hl, <- Hp, Ha. simpl. rewrite Hk. simpl.
    by destruct pa.
Qed.

(** ** Properties *)

(** What is known of a node that was built. *)
Record built `{Libp2p} (generated : PeerId) (fresh : nat) (b : NodeBuilder) (node : BuiltNode) : Prop := {
  built_identity : build_keypair (nb_keypair_hex b) generated = Ok (bn_peer_id node) /\
    tr_identity (bn_transport node) = bn_peer_id node /\
    bh_identity (bn_behaviour node) = bn_peer_id node;
  built_listen : bn_listen_addrs node = build_listen_addrs b (bn_peer_id node);
  built_known : bn_known_peers node = nb_known_peers b;
  built_limit : bh_max_established (bn_behaviour node) = unwrap_or (nb_max_peer_count b) 50;
  built_agent : nb_agent_version b = Some (bh_agent_version (bn_behaviour node));
  built_protocols : bn_protocols node = nb_protocols b /\ NoDup (nb_protocols b) /\
    bh_accepting (bn_behaviour node) = nb_protocols b;
  built_handlers : bn_incoming node =
    (fun p => mkHandlerConfig p CHANNEL_SIZE (bn_cancellation_token node)) <$> nb_protocols b;
  built_receivers : forall i p, bn_incoming_rxs node !! p = Some i <-> nb_protocols b !! i = Some p;
}.

Lemma accept_protocols_total token protocols b handlers rxs :
  accept_protocols token protocols b handlers rxs <> Panic.
Proof.
  revert b handlers rxs. induction protocols as [|q protocols IH]; intros b handlers rxs; simpl; [done|].
  unfold accept. case_bool_decide; simpl; [done|apply IH].
Qed.

Lemma try_build_total `{Libp2p} generated fresh b : try_build generated fresh b <> Panic.
Proof.
  unfold try_build. apply bind_not_Panic; [by destruct (nb_agent_version b)|intros agent _].
  apply bind_not_Panic; [|intros keypair _].
  { unfold build_keypair. destruct (nb_keypair_hex b) as [h|]; [|done].
    destruct (hex_bytes h) as [l|]; [|done]. simpl. by destruct (keypair_try_from_bytes l). }
  apply bind_not_Panic; [|intros transport _].
  { unfold create_transport. destruct dns_transport; [done|]. simpl. by destruct (noise_config keypair). }
  apply bind_not_Panic; [unfold new_behaviour; by destruct (mdns_behaviour _)|intros bh _].
  apply bind_not_Panic; [apply accept_protocols_total|by intros [[]] _].
Qed.

Lemma try_build_Ok `{Libp2p} generated fresh b node :
  try_build generated fresh b = Ok node -> built generated fresh b node.
Proof.
  unfold try_build. intros (agent & Ha & Hb)%bind_Ok. apply bind_Ok in Hb as (keypair & Hk & Hb).
  apply bind_Ok in Hb as (transport & Ht & Hb). apply bind_Ok in Hb as (behaviour & Hbh & Hb).
  apply bind_Ok in Hb as ([[bh hs] rxs] & Hacc & [= <-]).
  assert (Ht' : transport = mkTransport keypair (from_secs 20)).
  { unfold create_transport in Ht. apply bind_Ok in Ht as (_ & _ & Ht).
    by apply bind_Ok in Ht as (_ & _ & [= <-]). }
  unfold new_behaviour in Hbh. apply bind_Ok in Hbh as (_ & _ & [= <-]). subst transport.
  destruct (accept_protocols_spec (unwrap_or (nb_cancellation_token b) fresh) (nb_protocols b)
    (mkBehaviour keypair (unwrap_or (nb_max_peer_count b) DEFAULT_MAX_PEER_COUNT) PROTOCOL_VERSION agent
       (from_secs 10) []) [] ∅) as [Hok Herr]. simpl in Hok, Herr.
  destruct (decide (NoDup (nb_protocols b))) as [Hnd|Hnd];
    [|rewrite Herr in Hacc by (done || apply NoDup_nil_2); done].
  destruct (Hok Hnd) as (rxs' & Hacc' & Hout & Hin). rewrite Hacc in Hacc'. injection Hacc' as -> -> ->.
  split; simpl; try done.
  - destruct (nb_agent_version b); naive_solver.
  - intros i p. split; [|apply Hin]. intros Hp.
    destruct (decide (p ∈ nb_protocols b)) as [[j Hj]%list_elem_of_lookup|Hnp].
    + rewrite (Hin j p Hj) in Hp. by injection Hp as ->.
    + rewrite (Hout p Hnp) in Hp. by rewrite lookup_empty in Hp.
Qed.

(** A node that was built answers as its peer id everywhere, accepts streams on each of its protocols,
    which are distinct, and has exactly one receiver for each; it listens on at least one address, none
    of which has its own id. *)
Theorem built_node_spec `{Libp2p} generated fresh b node :
  try_build generated fresh b = Ok node ->
  built generated fresh b node /\ bn_listen_addrs node <> [] /\
  Forall (fun a => P2pPart (bn_peer_id node) ∉ a) (bn_listen_addrs node).
Proof.
  intros Hb%try_build_Ok. split; [done|]. destruct Hb as [_ -> _ _ _ _ _ _]. unfold build_listen_addrs.
  assert (Hf : Forall (fun a => P2pPart (bn_peer_id node) ∉ a)
    (filter (fun addr => P2pPart (bn_peer_id node) ∉ addr) (nb_listen_addrs b))).
  { apply Forall_forall. by intros a [? _]%list_elem_of_filter. }
  destruct (filter _ (nb_listen_addrs b)) as [|a l]; split; [done| |done|done].
  constructor; [set_solver|constructor].
Qed.

(** Whether a node starts: [run] goes on to its loop exactly when it can listen on all its addresses
    and every known peer's address ends with a peer id and can be dialled; otherwise it returns, and
    the node is gone.  At every retry it dials the known peers that are not connected. *)
Theorem run_node_starts `{Libp2p} {M} `{!Message M} `{!LinesCodec} node (events : list (NodeEvent M)) :
  ((exists r, run_node node events = Ok r) <->
   Forall (fun a => listen_on a = inr tt) (bn_listen_addrs node) /\
   Forall (fun a => exists p, last a = Some (P2pPart p) /\ dial_address (removelast a) = inr tt)
     (bn_known_peers node)) /\
  (forall n hs, run_node node events = Ok (n, hs) -> hs = bn_incoming node) /\
  (forall n hs n' hs', run_node node events = Ok (n, hs) -> nd_running n = true ->
     run_node node (events ++ [RetryTick]) = Ok (n', hs') ->
     forall a p, a ∈ bn_known_peers node -> last a = Some (P2pPart p) -> p ∉ nd_connections n ->
     exists dialed, nd_dialed n' = nd_dialed n ++ dialed /\ (p, removelast a) ∈ dialed).
Proof.
  unfold run_node. split_and!.
  - split.
    + intros (r & (u & Hu & Hr)%bind_Ok). destruct u. apply listen_all_Ok in Hu.
      apply bind_Ok in Hr as (info & Hd%dial_known_peers_Ok & _). split; [done|].
      apply Forall_forall. intros a Ha. destruct (Forall2_elem_of_l _ _ _ _ Hd Ha) as (pa & _ & Hl & Hp & Hd').
      exists pa.1. by rewrite <- Hp.
    + intros [Hl Hk]. apply listen_all_Ok in Hl. rewrite Hl. simpl.
      assert (exists info, dial_known_peers (bn_known_peers node) = Ok info) as [info ->]; [|by eexists].
      induction Hk as [|a l (p & Ha & Hd) _ [info IH]]; [by eexists|]. simpl. rewrite Ha, Hd, IH. by eexists.
  - intros n hs (u & _ & Hr)%bind_Ok. by apply bind_Ok in Hr as (info & _ & [= _ <-]).
  - intros n hs n' hs' (u & Hu & Hr)%bind_Ok Hrun Hr' a p Ha Hl Hp. rewrite Hu in Hr'. simpl in Hr'.
    apply bind_Ok in Hr as (info & Hd & [= <- _]). rewrite Hd in Hr'. simpl in Hr'. injection Hr' as <- _.
    unfold run_events at 1. rewrite fold_left_app. fold (run_events (bn_protocols node) info (mkNode ∅ [] info [] true) events).
    set (n := run_events _ _ _ events) in *. simpl. unfold node_step. rewrite Hrun.
    simpl. eexists. split; [done|]. apply dial_known_peers_Ok in Hd. unfold to_dial.
    destruct (Forall2_elem_of_l _ _ _ _ Hd Ha) as (pa & Hin & Hl' & Hp' & _).
    apply list_elem_of_filter. rewrite Hl in Hl'. injection Hl' as ->. rewrite <- Hp'. by destruct pa.
Qed.
