(* ===== verification/Incoming.v ===== *)
(** * Incoming streams

    Models [IncomingStreamsHandler] of [crates/p2p/src/lib.rs]: the task of a protocol that accepts the
    streams of the peers and spawns a task for each, which reads the stream ([handle_incoming_stream],
    in [P2p]) into the channel of the protocol.  All tasks run concurrently; a step of the relation is
    one line read, one stream accepted or one task joined. *)

From S2P Require Import Prelude External Timing P2p P2pBuild.

(** ** Data *)

(** A task that reads a stream: what the reader has yielded so far, and the result once it is over. *)
Record StreamTask : Type := mkStreamTask {
  sk_from : PeerId;
  sk_reads : list (Z + list Z);
  sk_result : option (outcome P2pError unit);
}.

(** The handler with its tasks, the futures it waits for, and the channel: whether there is still a
    receiver, and what was sent, with the task that sent it. *)
Record IncomingStreamsHandler (M : Type) : Type := mkIncoming {
  ih_protocol : StreamProtocol;
  ih_running : bool;
  ih_tasks : list StreamTask;
  ih_futures : list nat;
  ih_open : bool;
  ih_sent : list (nat * M);
}.
Arguments mkIncoming {M}.
Arguments ih_protocol {M} _.
Arguments ih_running {M} _.
Arguments ih_tasks {M} _.
Arguments ih_futures {M} _.
Arguments ih_open {M} _.
Arguments ih_sent {M} _.

Section Handler.
Context {M : Type} `{!Message M}.
Implicit Type s : IncomingStreamsHandler M.

(** ** Operations *)

(** [IncomingStreamsHandler::new] *)
Definition new_incoming (c : HandlerConfig) : IncomingStreamsHandler M :=
  mkIncoming (hc_protocol c) true [] [] true [].

(** The branch [incoming.next()]: a task is spawned and its future kept. *)
Definition incoming_stream (from : PeerId) s : IncomingStreamsHandler M :=
  mkIncoming (ih_protocol s) (ih_running s) (ih_tasks s ++ [mkStreamTask from [] None])
    (ih_futures s ++ [length (ih_tasks s)]) (ih_open s) (ih_sent s).

(** The branch [handle_stream_futures.next()]: the result is logged. *)
Definition stream_joined (before after : list nat) s : IncomingStreamsHandler M :=
  mkIncoming (ih_protocol s) (ih_running s) (ih_tasks s) (before ++ after) (ih_open s) (ih_sent s).

(** The branch [cancelled()]: the handler returns and drops the futures; the tasks are not aborted. *)
Definition incoming_cancelled s : IncomingStreamsHandler M :=
  mkIncoming (ih_protocol s) false (ih_tasks s) [] (ih_open s) (ih_sent s).

Definition set_stream_task (i : nat) (t : StreamTask) (sent : list (nat * M)) s : IncomingStreamsHandler M :=
  mkIncoming (ih_protocol s) (ih_running s) (<[i := t]> (ih_tasks s)) (ih_futures s) (ih_open s)
    (ih_sent s ++ sent).

(** One turn of the loop of [handle_incoming_stream] in the task [i]: a line that is a message is sent,
    unless nobody receives any more; any other line, and an error, ends the task. *)
Definition stream_read (i : nat) (t : StreamTask) (item : Z + list Z) s : IncomingStreamsHandler M :=
  let reads := sk_reads t ++ [item] in
  match item with
  | inl e => set_stream_task i (mkStreamTask (sk_from t) reads (Some (Err (ReadFailed e)))) [] s
  | inr str =>
      match msg_from_str str with
      | inl e => set_stream_task i (mkStreamTask (sk_from t) reads (Some (Err (DecodeFailed e)))) [] s
      | inr payload =>
          set_stream_task i (mkStreamTask (sk_from t) reads None)
            (if ih_open s then [(i, payload)] else []) s
      end
  end.

(** The end of the stream. *)
Definition stream_end (i : nat) (t : StreamTask) s : IncomingStreamsHandler M :=
  set_stream_task i (mkStreamTask (sk_from t) (sk_reads t) (Some (Ok tt))) [] s.

(** The consumer drops the receiver. *)
Definition drop_receiver s : IncomingStreamsHandler M :=
  mkIncoming (ih_protocol s) (ih_running s) (ih_tasks s) (ih_futures s) false (ih_sent s).

Inductive incoming_step : IncomingStreamsHandler M -> IncomingStreamsHandler M -> Prop :=
| istep_stream s from : ih_running s = true -> incoming_step s (incoming_stream from s)
| istep_joined s before i after t r :
    ih_running s = true -> ih_futures s = before ++ i :: after -> ih_tasks s !! i = Some t ->
    sk_result t = Some r -> incoming_step s (stream_joined before after s)
| istep_cancelled s : ih_running s = true -> incoming_step s (incoming_cancelled s)
| istep_read s i t item :
    ih_tasks s !! i = Some t -> sk_result t = None -> incoming_step s (stream_read i t item s)
| istep_end s i t :
    ih_tasks s !! i = Some t -> sk_result t = None -> incoming_step s (stream_end i t s)
| istep_drop s : incoming_step s (drop_receiver s).

(** ** Specification *)

(** What a task has sent. *)
Definition sent_by (i : nat) (l : list (nat * M)) : list M := snd <$> filter (fun x => x.1 = i) l.

(** A task is as far as reading its stream alone would be, and what it has sent is what that hands on,
    as long as somebody receives it. *)
Definition faithful_task (opened : bool) (l : list (nat * M)) (i : nat) (t : StreamTask) : Prop :=
  match sk_result t with
  | Some r => r = (handle_incoming_stream (M := M) (sk_reads t)).1
  | None => (handle_incoming_stream (M := M) (sk_reads t)).1 = Ok tt
  end /\
  sent_by i l `prefix_of` (handle_incoming_stream (sk_reads t)).2 /\
  (opened = true -> sent_by i l = (handle_incoming_stream (sk_reads t)).2).

Record incoming_inv s : Prop := {
  iinv_tasks : forall i t, ih_tasks s !! i = Some t -> faithful_task (ih_open s) (ih_sent s) i t;
  iinv_sent : Forall (fun x => (x.1 < length (ih_tasks s))%nat) (ih_sent s);
  iinv_futures : NoDup (ih_futures s) /\ Forall (fun i => (i < length (ih_tasks s))%nat) (ih_futures s) /\
    (ih_running s = true ->
     forall i t, ih_tasks s !! i = Some t -> sk_result t = None -> i ∈ ih_futures s);
}.

(** ** Lemmas *)

(** Reading one more item, when everything before it was read. *)
Lemma handle_incoming_snoc (reads : list (Z + list Z)) item (l : list M) :
  handle_incoming_stream reads = (Ok tt, l) ->
  handle_incoming_stream (M := M) (reads ++ [item]) =
  match item with
  | inl e => (Err (ReadFailed e), l)
  | inr str =>
      match msg_from_str str with
      | inl e => (Err (DecodeFailed e), l)
      | inr payload => (Ok tt, l ++ [payload])
      end
  end.
Proof.
  revert l. induction reads as [|[e|str] reads IH]; intros l; simpl.
  - intros [= <-]. destruct item as [e|str]; [done|]. by destruct (msg_from_str str).
  - done.
  - destruct (msg_from_str str) as [e|m]; [done|].
    destruct (handle_incoming_stream reads) as [r ms]. intros [= -> <-]. rewrite (IH ms) by done.
    destruct item as [e|str']; [done|]. by destruct (msg_from_str str').
Qed.

Lemma sent_by_app i l k : sent_by i (l ++ k) = sent_by i l ++ sent_by i k.
Proof. unfold sent_by. by rewrite filter_app, fmap_app. Qed.

Lemma sent_by_other i j (m : M) : i <> j -> sent_by i [(j, m)] = [].
Proof. intros Hne. unfold sent_by. rewrite filter_cons_False by (simpl; congruence). done. Qed.

Lemma sent_by_same i (m : M) : sent_by i [(i, m)] = [m].
Proof. unfold sent_by. by rewrite filter_cons_True. Qed.

Lemma sent_by_none i (l : list (nat * M)) n :
  Forall (fun x => (x.1 < n)%nat) l -> (n <= i)%nat -> sent_by i l = [].
Proof.
  intros Hl Hi. unfold sent_by. induction Hl as [|[j m] l Hj _ IH]; [done|].
  simpl in Hj. by rewrite filter_cons_False by (simpl; lia).
Qed.

(** Setting a task that was not over, with what it sends. *)
Lemma set_task_incoming i t t' sent s :
  incoming_inv s -> ih_tasks s !! i = Some t -> sk_result t = None ->
  Forall (fun x => x.1 = i) sent -> faithful_task (ih_open s) (ih_sent s ++ sent) i t' ->
  incoming_inv (set_stream_task i t' sent s).
Proof.
  intros [Ht Hs (Hn & Hf & Hw)] Hi Hr Hsent Hnew. pose proof (lookup_lt_Some _ _ _ Hi) as Hlt.
  split; simpl; rewrite ?length_insert.
  - intros j u. destruct (decide (j = i)) as [->|Hne].
    + rewrite list_lookup_insert_eq by done. by intros [= <-].
    + rewrite list_lookup_insert_ne by done. intros Hu. apply Ht in Hu. unfold faithful_task in *.
      rewrite sent_by_app. replace (sent_by j sent) with (@nil M); [by rewrite app_nil_r|].
      clear -Hsent Hne. induction Hsent as [|[k m] l Hk _ IH]; [done|].
      simpl in Hk. subst k. change ((i, m) :: l) with ([(i, m)] ++ l).
      by rewrite sent_by_app, sent_by_other, <- IH.
  - apply Forall_app. split; [done|]. eapply Forall_impl; [exact Hsent|]. by intros x ->.
  - split_and!; [done..|]. intros Hrun j u. destruct (decide (j = i)) as [->|Hne].
    + intros _ _. by apply (Hw Hrun i t).
    + rewrite list_lookup_insert_ne by done. by apply Hw.
Qed.

Lemma stream_read_inv i t item s :
  incoming_inv s -> ih_tasks s !! i = Some t -> sk_result t = None -> incoming_inv (stream_read i t item s).
Proof.
  intros Hinv Hi Hr. pose proof (iinv_tasks s Hinv i t Hi) as (Hok & Hpre & Heq). rewrite Hr in Hok.
  destruct (handle_incoming_stream (sk_reads t)) as [r l] eqn:E. simpl in Hok, Hpre, Heq. subst r.
  pose proof (handle_incoming_snoc (sk_reads t) item l E) as Hs.
  unfold stream_read. destruct item as [e|str]; [|destruct (msg_from_str str) as [e|m] eqn:Hm].
  - apply (set_task_incoming i t); [done..|constructor|].
    unfold faithful_task. cbn [sk_result sk_reads]. rewrite Hs, app_nil_r. by split_and!.
  - apply (set_task_incoming i t); [done..|constructor|].
    unfold faithful_task. cbn [sk_result sk_reads]. rewrite Hs, app_nil_r. by split_and!.
  - apply (set_task_incoming i t); [done..| |].
    + destruct (ih_open s); repeat constructor.
    + unfold faithful_task. cbn [sk_result sk_reads]. rewrite Hs. cbn [fst snd]. rewrite sent_by_app.
      destruct (ih_open s).
      * rewrite sent_by_same, (Heq eq_refl). by split_and!.
      * rewrite app_nil_r. split_and!; [done| |done]. by apply prefix_app_r.
Qed.

Lemma incoming_step_inv s s' : incoming_inv s -> incoming_step s s' -> incoming_inv s'.
Proof.
  intros Hinv Hstep. pose proof Hinv as [Ht Hs (Hn & Hf & Hw)]. destruct Hstep as [s from Hr|s before i after t r Hr Hfut Hi Hres|s Hr|s i t item Hi Hres|s i t Hi Hres|s].
  - split; simpl; rewrite ?length_app; simpl.
    + intros i t. destruct (decide (i < length (ih_tasks s))%nat) as [Hlt|Hge].
      * rewrite lookup_app_l by done. apply Ht.
      * rewrite lookup_app_r by lia. intros [_ <-]%list_lookup_singleton_Some.
        unfold faithful_task. simpl. rewrite (sent_by_none i _ (length (ih_tasks s))) by (done || lia).
        by split_and!.
    + eapply Forall_impl; [exact Hs|]. simpl. lia.
    + split_and!.
      * apply NoDup_app. split_and!; [done| |apply NoDup_singleton].
        intros x Hx%(proj1 (Forall_forall _ _) Hf) Heq%list_elem_of_singleton. simpl in Hx. lia.
      * apply Forall_app. split; [eapply Forall_impl; [exact Hf|]; simpl; lia|]. repeat constructor. lia.
      * intros _ i t. destruct (decide (i < length (ih_tasks s))%nat) as [Hlt|Hge].
        -- rewrite lookup_app_l by done. intros Hi Hres. apply elem_of_app. left. by apply (Hw Hr i t).
        -- rewrite lookup_app_r by lia. intros [Hi _]%list_lookup_singleton_Some _.
           apply elem_of_app. right. apply list_elem_of_singleton. lia.
  - rewrite Hfut in Hn, Hf. split; simpl; [done..|]. split_and!.
    + apply NoDup_app in Hn as (H1 & H2 & [_ H3]%NoDup_cons). apply NoDup_app. set_solver.
    + apply Forall_app in Hf as [H1 [_ H2]%Forall_cons]. by apply Forall_app.
    + intros _ j u Hj Hu. specialize (Hw Hr j u Hj Hu). rewrite Hfut in Hw.
      assert (j <> i) by congruence. set_solver.
  - split; simpl; [done..|]. by split_and!; [apply NoDup_nil_2|constructor|].
  - by apply stream_read_inv.
  - apply (set_task_incoming i t); [done..|constructor|]. specialize (Ht i t Hi) as (Hok & Hp & He).
    unfold faithful_task. simpl. rewrite Hres in Hok. rewrite app_nil_r. by split_and!.
  - split; simpl; [|done..]. intros i t Hi. destruct (Ht i t Hi) as (Hok & Hp & _). by split_and!.
Qed.

Lemma incoming_reachable c s : star incoming_step (new_incoming c) s -> incoming_inv s.
Proof.
  intros H. eapply (star_invariant _ _ incoming_step_inv); [exact H|].
  split; simpl; [done|constructor|]. split_and!; [apply NoDup_nil_2|constructor|done].
Qed.

End Handler.

(** ** Properties *)

(** The streams of a protocol are independent: whatever the interleaving of the tasks, each has read its
    stream as [handle_incoming_stream] does alone, and what the channel has of it are the messages that
    function hands on, in order, and all of them while the channel is received.  So an error of one
    stream ends that stream only, and messages of a peer are neither reordered nor lost because of
    others; a running handler waits for every task that is not over. *)
Theorem incoming_streams_independent {M} `{!Message M} c (s : IncomingStreamsHandler M) :
  star incoming_step (new_incoming c) s ->
  (forall i t, ih_tasks s !! i = Some t ->
     sent_by i (ih_sent s) `prefix_of` (handle_incoming_stream (sk_reads t)).2 /\
     (ih_open s = true -> sent_by i (ih_sent s) = (handle_incoming_stream (sk_reads t)).2) /\
     (forall r, sk_result t = Some r -> r = (handle_incoming_stream (M := M) (sk_reads t)).1) /\
     (ih_running s = true -> sk_result t = None -> i ∈ ih_futures s)) /\
  (forall i m, (i, m) ∈ ih_sent s -> exists t, ih_tasks s !! i = Some t).
Proof.
  intros [Ht Hs (_ & _ & Hw)]%incoming_reachable. split.
  - intros i t Hi. destruct (Ht i t Hi) as (Hok & Hp & He). split_and!; [done..| |by intros; eapply Hw].
    intros r Hr. by rewrite Hr in Hok.
  - intros i m Hin. rewrite Forall_forall in Hs. apply Hs in Hin. by apply lookup_lt_is_Some_2 in Hin.
Qed.
