(* ===== verification/Network.v ===== *)
(** * Two builders

    The whole way of a block from one builder to another: a flashblocks job ([BuildPayload]) hands its
    payloads to the payload handler ([PayloadHandler]), which hands them to the peer-to-peer node
    ([P2p]); the node of the other builder reads them, and its handler executes and announces them. *)

From S2P Require Import Prelude External ExecInfo GasLimiter PoolTx BestTxs Sidecar Context Replay Sequencer BestExec SidecarExec BuilderTx FlashblocksCtx Timing BuildBlock Flashblocks BuildPayload PayloadHandler Peers P2p.

(** The way from the handler [a] of one builder to the handler [b] of another: what [a] sends goes, over
    the stream of a node whose connection to the peer [p] stays up, to the reader at the other end,
    which passes the messages on to [b].  Either may be behind. *)
Record linked `{!Message P2pMessage} `{!LinesCodec} (a b : HandlerState) : Prop := {
  link_stream : exists protocols known p q s m n (events : list (NodeEvent P2pMessage)),
    connected p q s m n /\ on_stream p s (nd_sent n) = [] /\ Forall (reaches p) events /\
    omap (outgoing_on q) events `prefix_of` hs_p2p_tx a /\
    hs_received b `prefix_of`
      (handle_incoming_stream (read_lines (on_stream p s (nd_sent (run_events protocols known n events))))).2;
}.

Section Network.
Context `{X : Externals} `{S : !StateExternals X} `{J : !JobExternals X} `{Y : !SyncExternals X}.
Context `{!Message P2pMessage} `{!LinesCodec} `{ML : !MessageLaws P2pMessage} `{LL : !LinesLaws}.

(** What arrives was built at the other end. *)
Lemma received_built sctx known a b :
  star (handler_step sctx known) new_handler a -> linked a b ->
  forall w, OpBuiltPayloadMessage w ∈ hs_received b -> exists x, x ∈ hs_built a /\ w = to_wire x.
Proof using ML LL.
  intros Ha [(protocols & peers & p & q & s & m & n & events & Hc & Hz & He & Htx & Hrx)] w Hw.
  rewrite (connected_reads protocols peers p q s m n events Hc He Hz) in Hrx. simpl in Hrx.
  assert (Hm : OpBuiltPayloadMessage w ∈ hs_p2p_tx a).
  { eapply elem_of_prefix; [|exact Htx]. by eapply elem_of_prefix. }
  destruct (handler_reachable _ _ _ Ha) as [_ Hs _ _ _ _].
  assert (Hb : OpBuiltPayloadMessage w ∈ to_message <$> hs_built a).
  { eapply elem_of_submseteq; [|by apply sublist_submseteq, Hs]. apply elem_of_app. by left. }
  apply list_elem_of_fmap in Hb as (x & [= ->] & Hx). by exists x.
Qed.

End Network.

(** ** Two builders on the small chain *)
Module TestNetwork.
Import TestChain TestPool TestSigner TestState TestJob TestPayload TestSync TestPeers TestNet.

#[export] Instance tx_eq_dec : EqDecision OpTransactionSigned.
Proof. solve_decision. Defined.
#[export] Instance header_eq_dec : EqDecision Header.
Proof. solve_decision. Defined.
#[export] Instance block_eq_dec : EqDecision Block.
Proof. solve_decision. Defined.
#[export] Instance wire_eq_dec : EqDecision WirePayload.
Proof. solve_decision. Defined.
#[export] Instance p2p_message_eq_dec : EqDecision P2pMessage.
Proof. solve_decision. Defined.

(** One message can be written; it is the digit one. *)
Definition the_message : P2pMessage := to_message sync_last.
#[export] Instance payload_message : Message P2pMessage := {|
  msg_protocol _ := 7;
  msg_to_string m := if decide (m = the_message) then inr [49] else inl 0;
  msg_from_str s := match s with [49] => inr the_message | _ => inl 0 end;
|}.

#[export] Instance payload_message_laws : MessageLaws P2pMessage.
Proof.
  intros m s. cbn [msg_to_string msg_from_str payload_message]. destruct (decide _) as [->|]; [|done].
  intros [= <-]. split; [|done]. split; unfold NEWLINE, CARRIAGE_RETURN; set_solver.
Qed.

(** The builder has sent the payload of its flashblock, and the peer has executed it. *)
Definition handler_a : HandlerState := on_built true true sync_last [] (send_built sync_last new_handler).
Definition handler_b : HandlerState :=
  on_executed true (execute_flashblock (X := TestChain.chain) (from_wire (to_wire sync_last))
    (sync_syncer (Some 21000)) sync_client never_cancelled) []
    (on_message the_message [] (send_p2p the_message new_handler)).

Lemma handler_a_reached sctx known :
  star (handler_step (X := TestChain.chain) sctx known) new_handler handler_a.
Proof.
  eapply star_step; [by apply step_send_built|]. eapply star_step; [by apply step_built|apply star_refl].
Qed.

Lemma handler_b_reached :
  star (handler_step (X := TestChain.chain) (sync_syncer (Some 21000)) (fun c => c = sync_client)) new_handler
    handler_b.
Proof.
  eapply star_step; [by apply step_send_p2p|]. eapply star_step; [by apply step_message|].
  eapply star_step; [|apply star_refl]. by apply (step_executed _ _ _ [] _ []).
Qed.

Lemma sync_on_chain :
  on_chain (X := TestChain.chain) (sample_spec true) (pc_parent sync_pc) (sync_syncer (Some 21000)) sync_client.
Proof.
  split; [by split| |reflexivity]. intros h H. cbn in H. injection H as <-. vm_compute. reflexivity.
Qed.

Definition payload_events : list (NodeEvent P2pMessage) :=
  [Outgoing the_message (fun _ => true) (fun l => l)].

Lemma builders_linked : linked handler_a handler_b.
Proof.
  split. exists [7], [], 1, 7, 107, {[7 := 107]},
    (run_events [7] [] new_node [@ConnectionEstablished P2pMessage 1 opened]), payload_events.
  assert (Hc : connected 1 7 107 {[7 := 107]}
    (run_events [7] [] new_node [@ConnectionEstablished P2pMessage 1 opened])).
  { split_and!; [reflexivity..|]. intros q' Hq. by apply lookup_singleton_Some in Hq as [-> _]. }
  assert (He : Forall (reaches 1) payload_events).
  { repeat constructor; simpl; try done. exists [49]. by rewrite decide_True. }
  split_and!; [done|reflexivity|done|by exists []|].
  rewrite (connected_reads [7] [] 1 7 107 _ _ payload_events Hc He eq_refl). by exists [].
Qed.

End TestNetwork.

Import TestChain TestPool TestSigner TestState TestJob TestPayload TestSync TestPeers TestNet TestNetwork.

(** ** Properties *)

(** C11: the network does not change a block.  Take a builder that has built nothing itself and receives
    its messages from a builder that runs a flashblocks job.  At every moment, however the handlers, the
    node and the reader interleave, whatever it announces has the hash of a payload [x] of this job.  It
    announces the very block of [x] with its receipts if: the job's gas limit override, if one is
    configured, is the gas limit of the request and the attributes encode EIP-1559 parameters
    ([job_fits]); the job calculates state roots or takes nothing from the pool; the senders recorded in
    [x] are the signers of its transactions, whose gas limits add up to a [u64] ([portable]); and the
    receiving builder follows the same rules and has, if it has the parent of the block at all, the same
    parent and parent state ([on_chain]). *)
Theorem network_agreement `{X : Externals} `{B : !BuilderExternals X} `{S : !StateExternals X}
    `{J : !JobExternals X} `{Y : !SyncExternals X} `{!EvmGas X} `{!ReceiptLaws X} `{!FeeLaws X}
    `{!FlzLaws X} `{SL : !StateLaws X} `{!JobLaws X} `{!EnvLaws X} `{!ExtraDataLaws X}
    {It Self} `{PT : PayloadTransactions It} `{!PayloadTransactionsLaws It}
    `{BT : !BuilderTransactions Self FlashblocksExtraCtx FlashblocksExecutionInfo}
    `{BL : !BuilderTransactionsLaws Self FlashblocksExtraCtx FlashblocksExecutionInfo}
    `{!Message P2pMessage} `{!LinesCodec} `{!MessageLaws P2pMessage} `{!LinesLaws}
    config spec interop (w : World It) pc clock fc signals (self : Self) limiter now r s
    actx aknown a bctx bknown b :
  build_payload config spec interop w pc clock fc signals self limiter now = Some (r, Some s) ->
  wf_config config -> self_ok self ->
  star (handler_step actx aknown) new_handler a -> hs_built a ⊆ fs_sent s ->
  linked a b ->
  star (handler_step bctx bknown) new_handler b -> hs_built b = [] ->
  Forall (fun y => exists x, x ∈ fs_sent s /\ p_hash y = p_hash x /\
    (job_fits config pc ->
     disable_state_root (cfg_specific config) = false \/ no_tx_pool (pc_attributes pc) = true ->
     portable x -> (forall client, bknown client -> on_chain spec (pc_parent pc) bctx client) ->
     p_block y = p_block x /\ p_receipts y = p_receipts x)) (hs_events b).
Proof.
  intros Hrun Hwf Hok Ha Hsub Hlink Hb Hnone.
  destruct (handler_reachable _ _ _ Hb) as [He _ _ _ _ _]. rewrite Hnone in He.
  eapply Forall_impl; [exact He|]. intros y [Hy|(wp & client & token & fb & Hw & Hk & Hex)].
  { by apply not_elem_of_nil in Hy. }
  destruct (received_built _ _ _ _ Ha Hlink _ Hw) as (x & Hx & ->). apply Hsub in Hx.
  exists x. split_and!; [done| |].
  - by apply execute_flashblock_Ok in Hex as (? & ? & ? & ? & ? & ? & _ & _ & _ & ->).
  - intros Hfit Hroot Hport Hon.
    exact (sent_agrees _ _ _ _ _ _ _ _ _ _ _ _ _ _ _ _ _ _ _ Hrun Hwf Hok Hfit Hroot Hx Hport (Hon _ Hk) Hex).
Qed.

Lemma network_agreement_witness :
  length (hs_events handler_b) = 1%nat /\
  Forall (fun y => exists x, x ∈ sync_sent /\ p_hash y = p_hash x /\ p_block y = p_block x /\
    p_receipts y = p_receipts x) (hs_events handler_b).
Proof.
  split; [vm_compute; reflexivity|].
  pose proof sync_sent_portable as Hp. pose proof sync_last_sent as Hin.
  unfold sync_sent in *. destruct sync_run as [[r [s|]]|] eqn:E; [|exact (False_ind _ (proj1 (elem_of_nil _) Hin))..].
  rewrite Forall_forall in Hp.
  assert (H := network_agreement (X := chain) _ _ _ _ _ _ _ _ _ _ _ _ s (sync_syncer None) (fun _ => True) handler_a
    (sync_syncer (Some 21000)) (fun c => c = sync_client) handler_b E
    ltac:(unfold wf_config; vm_compute; repeat split; discriminate || reflexivity) job_self_ok
    (handler_a_reached _ _)
    ltac:(intros x Hx; apply list_elem_of_singleton in Hx as ->; exact Hin)
    builders_linked handler_b_reached eq_refl).
  refine (Forall_impl _ _ _ H _). intros y (x & Hx & Hh & Hy). exists x. split; [done|]. split; [done|].
  apply Hy; [exact sync_fits|by left|by apply Hp|].
  intros client ->. exact sync_on_chain.
Defined.
