(* ===== verification/WsPub.v ===== *)
(** * The flashblock publisher

    Models [builders/flashblocks/wspub.rs]: the publisher's broadcast channel, the listener that accepts
    subscribers, and the task of each subscriber, which checks the subscriber limit, counts itself in,
    forwards what is published, and counts itself out.  The tasks run concurrently on shared atomic
    counters: each step of the relation is one atomic access or one message.  Sockets, the WebSocket
    handshake and the broadcast channel are tokio's; the channel keeps the last [capacity] messages, and
    a receiver that falls behind skips to the oldest one kept. *)

From S2P Require Import Prelude.

(** ** Data *)

(** A subscriber's task: spawned, past the check of the limit, serving (with the position in the channel
    at which it subscribed, its position now, what it has forwarded, and whether it has skipped
    messages), past the loop, and over. *)
Inductive Task (M : Type) : Type :=
| Spawned (start : nat)
| Cleared (start : nat)
| Serving (start pos : nat) (got : list M) (lagged : bool)
| Leaving (start : nat) (got : list M) (lagged : bool)
| Rejected
| Ended.
Arguments Spawned {M} start.
Arguments Cleared {M} start.
Arguments Serving {M} start pos got lagged.
Arguments Leaving {M} start got lagged.
Arguments Rejected {M}.
Arguments Ended {M}.

(** The publisher with everything it shares with its tasks: the counters [sent] and [subs], the
    messages published so far, the termination flag, whether the listener runs, the connection whose
    handshake it waits for (with the position of its receiver), and the tasks. *)
Record WebSocketPublisher (M : Type) : Type := mkPublisher {
  ws_sent : Z;
  ws_subs : Z;
  ws_pipe : list M;
  ws_term : bool;
  ws_listening : bool;
  ws_handshake : option nat;
  ws_subscriber_limit : option Z;
  ws_tasks : list (Task M);
}.
Arguments mkPublisher {M}.
Arguments ws_sent {M} _.
Arguments ws_subs {M} _.
Arguments ws_pipe {M} _.
Arguments ws_term {M} _.
Arguments ws_listening {M} _.
Arguments ws_handshake {M} _.
Arguments ws_subscriber_limit {M} _.
Arguments ws_tasks {M} _.

Inductive IoError : Type := InvalidData (e : Z) | ConnectionAborted.

Section Publisher.
Context {M : Type} (capacity : nat).
Implicit Type s : WebSocketPublisher M.

(** ** Operations *)

(** [WebSocketPublisher::new], when the spawned listener has set up its socket; binding the address may
    fail before. *)
Definition ws_new (subscriber_limit : option Z) : WebSocketPublisher M :=
  mkPublisher 0 0 [] false true None subscriber_limit [].

(** A task holds its receiver until it is over. *)
Definition receives (t : Task M) : bool :=
  match t with Rejected | Ended => false | _ => true end.

(** The receivers of the channel: the listener's, that of a connection in the handshake, the tasks'. *)
Definition has_receiver s : bool :=
  ws_listening s || existsb receives (ws_tasks s).

(** [publish]: serialises once and sends; [serialize] gives the message and its size. *)
Definition publish {P} (serialize : P -> Z + M * Z) (payload : P) s
    : outcome IoError Z * WebSocketPublisher M :=
  match serialize payload with
  | inl e => (Err (InvalidData e), s)
  | inr (msg, size) =>
      if has_receiver s then
        (Ok size, mkPublisher (ws_sent s) (ws_subs s) (ws_pipe s ++ [msg]) (ws_term s) (ws_listening s)
                    (ws_handshake s) (ws_subscriber_limit s) (ws_tasks s))
      else (Err ConnectionAborted, s)
  end.

(** [Drop]: the tasks are told to end. *)
Definition ws_drop s : WebSocketPublisher M :=
  mkPublisher (ws_sent s) (ws_subs s) (ws_pipe s) true (ws_listening s) (ws_handshake s)
    (ws_subscriber_limit s) (ws_tasks s).

(** The start of [listener_loop]: three [expect]s on the socket.  A panic ends the task, and the receiver
    it was given is dropped with it. *)
Definition listener_setup (set_nonblocking from_std local_addr : bool) s : WebSocketPublisher M :=
  mkPublisher (ws_sent s) (ws_subs s) (ws_pipe s) (ws_term s)
    (ws_listening s && set_nonblocking && from_std && local_addr) (ws_handshake s) (ws_subscriber_limit s)
    (ws_tasks s).

(** The loop of [listener_loop]: a connection is accepted and subscribed, then the loop waits for its handshake;
    when that succeeds a task is spawned; when the publisher is gone the loop returns. *)
Definition listener_accept s : WebSocketPublisher M :=
  mkPublisher (ws_sent s) (ws_subs s) (ws_pipe s) (ws_term s) (ws_listening s)
    (Some (length (ws_pipe s))) (ws_subscriber_limit s) (ws_tasks s).
Definition listener_handshake (start : nat) (ok : bool) s : WebSocketPublisher M :=
  mkPublisher (ws_sent s) (ws_subs s) (ws_pipe s) (ws_term s) (ws_listening s) None
    (ws_subscriber_limit s) (if ok then ws_tasks s ++ [Spawned start] else ws_tasks s).
Definition listener_return s : WebSocketPublisher M :=
  mkPublisher (ws_sent s) (ws_subs s) (ws_pipe s) (ws_term s) false None (ws_subscriber_limit s)
    (ws_tasks s).

Definition set_task (i : nat) (t : Task M) (sent subs : Z) s : WebSocketPublisher M :=
  mkPublisher sent subs (ws_pipe s) (ws_term s) (ws_listening s) (ws_handshake s)
    (ws_subscriber_limit s) (<[i := t]> (ws_tasks s)).

(** The check of the limit: a load of the counter. *)
Definition check_limit (i start : nat) s : WebSocketPublisher M :=
  if is_some_and (ws_subscriber_limit s) (fun limit => limit <=? ws_subs s) then
    set_task i Rejected (ws_sent s) (ws_subs s) s
  else set_task i (Cleared start) (ws_sent s) (ws_subs s) s.

(** [subs.fetch_add(1)], and the start of the broadcast loop. *)
Definition subscribe (i start : nat) s : WebSocketPublisher M :=
  set_task i (Serving start start [] false) (ws_sent s) (add64 (ws_subs s) 1) s.

(** One message of [broadcast_loop]: skipping when the receiver is too far behind, otherwise counting
    and sending; a failed send leaves the loop. *)
Definition broadcast_recv (i start pos : nat) (got : list M) (lagged send_ok : bool) s
    : WebSocketPublisher M :=
  if (capacity <? length (ws_pipe s) - pos)%nat then
    set_task i (Serving start (length (ws_pipe s) - capacity) got true) (ws_sent s) (ws_subs s) s
  else
    match ws_pipe s !! pos with
    | None => s
    | Some m =>
        let sent := add64 (ws_sent s) 1 in
        if send_ok then set_task i (Serving start (S pos) (got ++ [m]) lagged) sent (ws_subs s) s
        else set_task i (Leaving start got lagged) sent (ws_subs s) s
    end.

(** The other ways out of the loop: the publisher is gone, the client closes, the socket fails. *)
Definition broadcast_break (i start : nat) (got : list M) (lagged : bool) s : WebSocketPublisher M :=
  set_task i (Leaving start got lagged) (ws_sent s) (ws_subs s) s.

(** [subs.fetch_sub(1)] *)
Definition unsubscribe (i : nat) s : WebSocketPublisher M :=
  set_task i Ended (ws_sent s) (sub64 (ws_subs s) 1) s.

(** ** The interleavings *)

Inductive ws_step : WebSocketPublisher M -> WebSocketPublisher M -> Prop :=
| wstep_publish {P} s (serialize : P -> Z + M * Z) payload r s' :
    ws_term s = false -> publish serialize payload s = (r, s') -> ws_step s s'
| wstep_drop s : ws_step s (ws_drop s)
| wstep_accept s : ws_listening s = true -> ws_handshake s = None -> ws_step s (listener_accept s)
| wstep_handshake s start ok :
    ws_listening s = true -> ws_handshake s = Some start -> ws_step s (listener_handshake start ok s)
| wstep_return s :
    ws_listening s = true -> ws_handshake s = None -> ws_term s = true -> ws_step s (listener_return s)
| wstep_check s i start : ws_tasks s !! i = Some (Spawned start) -> ws_step s (check_limit i start s)
| wstep_subscribe s i start : ws_tasks s !! i = Some (Cleared start) -> ws_step s (subscribe i start s)
| wstep_recv s i start pos got lagged send_ok :
    ws_tasks s !! i = Some (Serving start pos got lagged) ->
    ws_step s (broadcast_recv i start pos got lagged send_ok s)
| wstep_break s i start pos got lagged :
    ws_tasks s !! i = Some (Serving start pos got lagged) ->
    ws_step s (broadcast_break i start got lagged s)
| wstep_unsubscribe s i start got lagged :
    ws_tasks s !! i = Some (Leaving start got lagged) -> ws_step s (unsubscribe i s).

(** ** Specification *)

(** A connection that is counted. *)
Definition counted (t : Task M) : bool :=
  match t with Serving _ _ _ _ | Leaving _ _ _ => true | _ => false end.

Definition served s : nat := length (filter (fun t => counted t = true) (ws_tasks s)).

(** What a task has forwarded: messages published since it subscribed, in order, and all of them up to
    its position unless it fell behind. *)
Definition faithful (pipe : list M) (t : Task M) : Prop :=
  match t with
  | Spawned start | Cleared start => (start <= length pipe)%nat
  | Serving start pos got lagged =>
      (start <= pos <= length pipe)%nat /\
      got `sublist_of` drop start (take pos pipe) /\
      (lagged = false -> got = drop start (take pos pipe))
  | Leaving start got lagged =>
      (start <= length pipe)%nat /\ got `sublist_of` drop start pipe /\
      (lagged = false -> got `prefix_of` drop start pipe)
  | Rejected | Ended => True
  end.

Record ws_inv s : Prop := {
  wi_subs : ws_subs s = wrap64 (Z.of_nat (served s));
  wi_tasks : Forall (faithful (ws_pipe s)) (ws_tasks s);
  wi_handshake : forall start, ws_handshake s = Some start -> (start <= length (ws_pipe s))%nat;
  wi_listening : ws_term s = false -> ws_listening s = true;
}.

(** ** Lemmas *)

Lemma served_insert (l : list (Task M)) i t t' :
  l !! i = Some t ->
  (length (filter (fun t => counted t = true) (<[i := t']> l)) + Nat.b2n (counted t)
    = length (filter (fun t => counted t = true) l) + Nat.b2n (counted t'))%nat.
Proof.
  intros Ht. rewrite <- (take_drop_middle l i t Ht) at 2.
  rewrite insert_take_drop by (by eapply lookup_lt_Some).
  rewrite !filter_app, !filter_cons, !length_app.
  destruct (counted t), (counted t'); simpl; lia.
Qed.

Lemma faithful_publish pipe m t : faithful pipe t -> faithful (pipe ++ [m]) t.
Proof.
  destruct t as [start|start|start pos got lagged|start got lagged| |]; simpl; rewrite ?length_app; simpl;
    try lia; try done.
  - intros (Hp & Hg & Hl). rewrite take_app_le by lia. split; [lia|done].
  - intros (Hp & Hg & Hl). rewrite drop_app_le by lia. split_and!; [lia| |].
    + etrans; [exact Hg|]. by apply sublist_inserts_r.
    + intros H. etrans; [by apply Hl|]. by apply prefix_app_r.
Qed.

(** Leaving the loop keeps what was forwarded. *)
Lemma faithful_leave pipe start pos got lagged :
  faithful pipe (Serving start pos got lagged) -> faithful pipe (Leaving start got lagged).
Proof.
  simpl. intros (Hp & Hg & Hl).
  assert (Hpre : drop start (take pos pipe) `prefix_of` drop start pipe).
  { rewrite <- (take_drop pos pipe) at 2. rewrite drop_app_le by (rewrite length_take; lia).
    by apply prefix_app_r. }
  split_and!; [lia| |].
  - etrans; [exact Hg|]. destruct Hpre as [k ->]. by apply sublist_inserts_r.
  - intros H. by rewrite (Hl H).
Qed.

(** Forwarding one message, and skipping. *)
Lemma faithful_recv pipe start pos got lagged m :
  faithful pipe (Serving start pos got lagged) -> pipe !! pos = Some m ->
  faithful pipe (Serving start (S pos) (got ++ [m]) lagged).
Proof.
  simpl. intros (Hp & Hg & Hl) Hm. pose proof (lookup_lt_Some _ _ _ Hm).
  rewrite (take_S_r _ _ _ Hm), drop_app_le by (rewrite length_take; lia). split_and!; [lia..| |].
  - by apply sublist_app.
  - intros H'. by rewrite (Hl H').
Qed.

Lemma faithful_skip pipe start pos got lagged :
  faithful pipe (Serving start pos got lagged) -> (capacity < length pipe - pos)%nat ->
  faithful pipe (Serving start (length pipe - capacity) got true).
Proof.
  simpl. intros (Hp & Hg & Hl) Hlag. split_and!; [lia..| |done].
  etrans; [exact Hg|].
  assert (Hpre : take pos pipe `prefix_of` take (length pipe - capacity) pipe).
  { replace (length pipe - capacity)%nat with (pos + (length pipe - capacity - pos))%nat by lia.
    rewrite <- take_take_drop. by apply prefix_app_r. }
  destruct Hpre as [k ->]. rewrite drop_app_le by (rewrite length_take; lia). by apply sublist_inserts_r.
Qed.

(** A task that moves without changing whether it is counted. *)
Lemma set_task_inv i t t' sent s :
  ws_inv s -> ws_tasks s !! i = Some t -> counted t' = counted t -> faithful (ws_pipe s) t' ->
  ws_inv (set_task i t' sent (ws_subs s) s).
Proof.
  intros [Hs Ht Hh Hl] Hi Hc Hf. split; simpl; try done.
  - rewrite Hs. do 2 f_equal. unfold served. simpl. pose proof (served_insert _ _ _ t' Hi) as H.
    rewrite Hc in H. lia.
  - by apply Forall_insert.
Qed.

Lemma add_wrap a b : add64 (wrap64 a) b = wrap64 (a + b).
Proof. unfold add64, wrap64. apply Zplus_mod_idemp_l. Qed.
Lemma sub_wrap a b : sub64 (wrap64 a) b = wrap64 (a - b).
Proof. unfold sub64, wrap64. apply Zminus_mod_idemp_l. Qed.

Lemma subscribe_inv i start s :
  ws_inv s -> ws_tasks s !! i = Some (Cleared start) -> ws_inv (subscribe i start s).
Proof.
  intros [Hs Ht Hh Hl] Hi. pose proof (served_insert _ _ _ (Serving start start [] false) Hi) as H.
  pose proof (Forall_lookup_1 _ _ _ _ Ht Hi) as Hf. simpl in H, Hf. split; simpl; try done.
  - rewrite Hs, add_wrap. f_equal. unfold served in *. simpl. lia.
  - apply Forall_insert; [done|]. simpl. split; [lia|].
    rewrite drop_ge by (rewrite length_take; lia). done.
Qed.

Lemma unsubscribe_inv i start got lagged s :
  ws_inv s -> ws_tasks s !! i = Some (Leaving start got lagged) -> ws_inv (unsubscribe i s).
Proof.
  intros [Hs Ht Hh Hl] Hi. pose proof (served_insert _ _ _ Ended Hi) as H. simpl in H.
  split; simpl; try done.
  - rewrite Hs, sub_wrap. f_equal. unfold served in *. simpl. lia.
  - by apply Forall_insert.
Qed.

Lemma publish_inv {P} (serialize : P -> Z + M * Z) payload s r s' :
  publish serialize payload s = (r, s') -> ws_inv s -> ws_inv s'.
Proof.
  unfold publish. destruct (serialize payload) as [|[m size]]; [by intros [= _ <-]|].
  destruct (has_receiver s); [|by intros [= _ <-]]. intros [= _ <-] [Hs Ht Hh Hl]. split; simpl; try done.
  - eapply Forall_impl; [exact Ht|]. intros t. apply faithful_publish.
  - intros start Hst. apply Hh in Hst. rewrite length_app. lia.
Qed.

Lemma recv_inv i start pos got lagged send_ok s :
  ws_inv s -> ws_tasks s !! i = Some (Serving start pos got lagged) ->
  ws_inv (broadcast_recv i start pos got lagged send_ok s).
Proof.
  intros Hinv Hi. pose proof (Forall_lookup_1 _ _ _ _ (wi_tasks _ Hinv) Hi) as Hf. unfold broadcast_recv.
  destruct (Nat.ltb_spec capacity (length (ws_pipe s) - pos)).
  { eapply set_task_inv; [done..|]. by eapply faithful_skip. }
  destruct (ws_pipe s !! pos) as [m|] eqn:Hm; [|done].
  destruct send_ok; (eapply set_task_inv; [done..|]).
  - by apply faithful_recv.
  - by eapply faithful_leave.
Qed.

Lemma ws_step_inv s s' : ws_inv s -> ws_step s s' -> ws_inv s'.
Proof.
  intros Hinv H. destruct H as [P s serialize payload r s' _ Hp|s|s _ _|s start ok _ Hh|s _ _ Ht|s i start Hi
    |s i start Hi|s i start pos got lagged send_ok Hi|s i start pos got lagged Hi|s i start got lagged Hi].
  - by eapply publish_inv.
  - destruct Hinv. by split.
  - destruct Hinv. split; simpl; try done. by intros start [= <-].
  - destruct Hinv as [Hs Htk Hhs Hl]. split; simpl; try done.
    + rewrite Hs. do 2 f_equal. unfold served. simpl. destruct ok; [|done].
      rewrite filter_app, length_app. simpl. lia.
    + destruct ok; [|done]. apply Forall_app. split; [done|]. constructor; [|done]. simpl. by apply Hhs.
  - destruct Hinv. split; simpl; try done. congruence.
  - pose proof (Forall_lookup_1 _ _ _ _ (wi_tasks _ Hinv) Hi) as Hf.
    unfold check_limit. destruct (is_some_and _ _); by eapply set_task_inv.
  - by apply subscribe_inv.
  - by apply recv_inv.
  - eapply set_task_inv; [done..|]. eapply faithful_leave, (Forall_lookup_1 _ _ _ _ (wi_tasks _ Hinv) Hi).
  - by eapply unsubscribe_inv.
Qed.

Lemma ws_reachable limit s : star ws_step (ws_new limit) s -> ws_inv s.
Proof. intros H. eapply (star_invariant _ _ ws_step_inv); [exact H|]. by split. Qed.

End Publisher.

(** ** The subscriber limit *)

Section Limit.
Context {M : Type} (capacity : nat).
Implicit Type s : WebSocketPublisher M.

Definition is_cleared (t : Task M) : bool := match t with Cleared _ => true | _ => false end.

(** The tasks between the check of the limit and counting themselves in. *)
Definition cleared s : nat := length (filter (fun t => is_cleared t = true) (ws_tasks s)).

(** Steps of executions in which at most one task is there. *)
Definition serial_step s s' : Prop := ws_step capacity s s' /\ (cleared s' <= 1)%nat.

Lemma cleared_insert (l : list (Task M)) i t t' :
  l !! i = Some t ->
  (length (filter (fun t => is_cleared t = true) (<[i := t']> l)) + Nat.b2n (is_cleared t)
    = length (filter (fun t => is_cleared t = true) l) + Nat.b2n (is_cleared t'))%nat.
Proof.
  intros Ht. rewrite <- (take_drop_middle l i t Ht) at 2.
  rewrite insert_take_drop by (by eapply lookup_lt_Some).
  rewrite !filter_app, !filter_cons, !length_app.
  destruct (is_cleared t), (is_cleared t'); simpl; lia.
Qed.

Definition within (limit : Z) s : Prop :=
  ws_inv s /\ ws_subscriber_limit s = Some limit /\ Z.of_nat (served s + cleared s) <= limit.

(** A task that moves, and whether it counts before and after. *)
Lemma set_task_within limit i t t' sent subs s :
  ws_inv (set_task i t' sent subs s) -> ws_tasks s !! i = Some t ->
  ws_subscriber_limit s = Some limit ->
  Z.of_nat (served s + cleared s) + Z.b2z (counted t' || is_cleared t')
    <= limit + Z.b2z (counted t || is_cleared t) ->
  within limit (set_task i t' sent subs s).
Proof.
  intros Hinv Hi Hl Hle. split_and!; [done..|].
  pose proof (served_insert _ _ _ t' Hi). pose proof (cleared_insert _ _ _ t' Hi).
  unfold served, cleared in *. simpl. destruct t, t'; simpl in *; lia.
Qed.

Lemma serial_step_within limit s s' :
  0 <= limit < U64_MOD -> within limit s -> serial_step s s' -> within limit s'.
Proof.
  intros Hlim (Hinv & Hl & Hle) [H Hone]. pose proof (ws_step_inv _ _ _ Hinv H) as Hinv'.
  destruct H as [P s serialize payload r s' _ Hp|s|s _ _|s start ok _ Hh|s _ _ Ht|s i start Hi
    |s i start Hi|s i start pos got lagged send_ok Hi|s i start pos got lagged Hi|s i start got lagged Hi];
    try by split_and!.
  - unfold publish in Hp. destruct (serialize payload) as [|[m size]]; [by injection Hp as _ <-|].
    destruct (has_receiver s); injection Hp as _ <-; by split_and!.
  - split_and!; [done..|]. unfold served, cleared in *. simpl.
    destruct ok; [|lia]. rewrite !filter_app, !length_app. simpl. lia.
  - unfold check_limit in *. rewrite Hl in *. simpl in *.
    destruct (Z.leb_spec limit (ws_subs s)) as [|Hlt]; (eapply set_task_within; [done..|]); [simpl; lia|].
    simpl. pose proof (cleared_insert _ _ _ (Cleared start) Hi) as Ha. unfold cleared in *. simpl in *.
    rewrite (wi_subs _ Hinv), wrap64_small in Hlt by (unfold in_u64; lia). lia.
  - eapply set_task_within; [done..|]. simpl. lia.
  - unfold broadcast_recv in *. destruct (_ <? _)%nat; [|destruct (ws_pipe s !! pos); [destruct send_ok|]];
      try (by split_and!); (eapply set_task_within; [done..|]); simpl; lia.
  - eapply set_task_within; [done..|]. simpl. lia.
  - eapply set_task_within; [done..|]. simpl. lia.
Qed.

(** Two connections, both checked before either is counted. *)
Lemma limit_race :
  exists s, star (ws_step capacity) (ws_new (Some 1)) s /\ served s = 2%nat.
Proof.
  eexists. split.
  - do 2 (eapply star_step; [by apply wstep_accept|]; eapply star_step; [by apply (wstep_handshake _ _ 0 true)|]).
    eapply star_step; [by apply (wstep_check _ _ 0 0)|]. eapply star_step; [by apply (wstep_check _ _ 1 0)|].
    eapply star_step; [by apply (wstep_subscribe _ _ 0 0)|].
    eapply star_step; [by apply (wstep_subscribe _ _ 1 0)|]. apply star_refl.
  - reflexivity.
Qed.

End Limit.

(** A publisher whose listener has panicked: nobody is ever served. *)
Definition deserted {M} (s : WebSocketPublisher M) : Prop :=
  ws_listening s = false /\ ws_tasks s = [] /\ ws_pipe s = [].

Lemma ws_step_deserted {M} capacity (s s' : WebSocketPublisher M) :
  deserted s -> ws_step capacity s s' -> deserted s'.
Proof.
  unfold deserted. intros (Hl & Ht & Hp) H. destruct H; try (rewrite Ht in *; done); try congruence.
  - match goal with E : publish _ _ _ = _ |- _ => revert E end.
    unfold publish, has_receiver. rewrite Hl, Ht. simpl. destruct (serialize payload) as [|[m size]]; by intros [= _ <-].
  - done.
Qed.

(** ** Properties *)

(** A listener that cannot set up its socket is not noticed by [new]: it leaves a publisher for which, in
    every interleaving, each publication fails, and with it the job that makes it. *)
Theorem failed_setup_publishes_nothing {M} capacity limit a b c (s : WebSocketPublisher M) :
  a && b && c = false -> star (ws_step capacity) (listener_setup a b c (ws_new limit)) s ->
  forall P (serialize : P -> Z + M * Z) payload m size, serialize payload = inr (m, size) ->
    publish serialize payload s = (Err ConnectionAborted, s).
Proof.
  intros Hf H P serialize payload m size Hser.
  assert (Hd : deserted s).
  { eapply (star_invariant _ _ (ws_step_deserted capacity)); [exact H|]. unfold deserted. simpl.
    by rewrite Hf. }
  destruct Hd as (Hl & Ht & _). unfold publish, has_receiver. by rewrite Hser, Hl, Ht.
Qed.

Lemma failed_setup_publishes_nothing_witness :
  publish (M := nat) (fun x : nat => inr (x, 4)) 5%nat (ws_drop (listener_setup true false true (ws_new None)))
    = (Err ConnectionAborted, ws_drop (listener_setup true false true (ws_new None))).
Proof.
  apply (failed_setup_publishes_nothing 16 None true false true) with (m := 5%nat) (size := 4);
    [reflexivity| |reflexivity].
  eapply star_step; [apply wstep_drop|apply star_refl].
Defined.

(** C30: subscribers get what is published.  In every interleaving of the listener, the subscribers and
    the publisher, the subscription count is the number of connections served, and a subscriber has
    been sent messages published since its connection was accepted, in order, and without a gap unless
    it fell behind more than the channel holds.  While the publisher exists a message that can be
    serialised is always published. *)
Theorem subscribers_served {M} capacity limit (s : WebSocketPublisher M) :
  star (ws_step capacity) (ws_new limit) s ->
  ws_subs s = wrap64 (Z.of_nat (served s)) /\
  Forall (faithful (ws_pipe s)) (ws_tasks s) /\
  (ws_term s = false ->
   forall P (serialize : P -> Z + M * Z) payload m size, serialize payload = inr (m, size) ->
     exists s', publish serialize payload s = (Ok size, s') /\ ws_pipe s' = ws_pipe s ++ [m]).
Proof.
  intros H. destruct (ws_reachable _ _ _ H) as [Hs Ht _ Hl]. split_and!; try done.
  intros Hterm P serialize payload m size Hser. unfold publish, has_receiver.
  rewrite Hser, (Hl Hterm). simpl. by eexists.
Qed.

Lemma subscribers_served_witness :
  exists s : WebSocketPublisher Z, star (ws_step 100) (ws_new (Some 5)) s /\
    ws_subs s = 1 /\ ws_tasks s = [Serving 0 1 [42] false].
Proof.
  eexists.
  assert (H : star (ws_step 100) (ws_new (Some 5))
    (broadcast_recv 100 0 0 0 [] false true (snd (publish (fun p : Z => inr (p, 1)) 42
       (subscribe 0 0 (check_limit 0 0 (listener_handshake 0 true (listener_accept (ws_new (Some 5)))))))))).
  { eapply star_step; [by apply wstep_accept|]. eapply star_step; [by apply (wstep_handshake _ _ 0 true)|].
    eapply star_step; [by apply (wstep_check _ _ 0 0)|]. eapply star_step; [by apply (wstep_subscribe _ _ 0 0)|].
    eapply star_step; [eapply (wstep_publish _ _ (fun p : Z => inr (p, 1)) 42); reflexivity|].
    eapply star_step; [by apply (wstep_recv _ _ 0 0 0 [] false true)|]. apply star_refl. }
  split; [exact H|]. destruct (subscribers_served 100 (Some 5) _ H) as (Hs & _).
  split; [exact Hs|reflexivity].
Defined.

(** The subscriber limit holds only for connections that come one after the other.  When at most one
    task at a time is between the check of the limit and counting itself in, there are never more
    connections than the limit; without that, two connections can pass the check before either is
    counted, and both are served with a limit of one. *)
Theorem subscriber_limit_spec {M} capacity :
  (forall limit (s : WebSocketPublisher M), 0 <= limit < U64_MOD ->
     star (serial_step capacity) (ws_new (Some limit)) s -> Z.of_nat (served s) <= limit) /\
  (exists s : WebSocketPublisher M, star (ws_step capacity) (ws_new (Some 1)) s /\ served s = 2%nat).
Proof.
  split; [|apply limit_race]. intros limit s Hlim H.
  assert (Hw : within limit s).
  { eapply (star_invariant _ (within limit)); [|exact H|].
    - intros s1 s2 Hs Hstep. by eapply serial_step_within.
    - split_and!; [by split|done|]. unfold served, cleared. simpl. lia. }
  destruct Hw as (_ & _ & Hle). lia.
Qed.
