(* ===== verification/Subscriber.v ===== *)
(** * What a subscriber can assemble

    The flashblocks job ([BuildPayload]) and the publisher ([WsPub]) together, from the other end of the
    websocket.  A client puts the blocks together from the messages it reads: the base of the first, the
    transactions of all, and the roots, the gas and the hash of the last.  Whatever it has read of a job,
    this is a block the builder has sealed.  Serialisation is serde's: a parameter. *)

From S2P Require Import Prelude External ExecInfo GasLimiter PoolTx BestTxs Sidecar Context Replay Sequencer BestExec SidecarExec BuilderTx FlashblocksCtx Timing BuildBlock Flashblocks BuildPayload WsPub.

(** ** The assembled block *)

(** The fields of the header that the base of a block gives. *)
Record base_matches (base : OpFlashblockPayloadBase) (p : OpBuiltPayload) : Prop := {
  bm_parent : base_parent_hash base = h_parent_hash (b_header (p_block p));
  bm_number : base_block_number base = h_number (b_header (p_block p));
  bm_timestamp : base_timestamp base = h_timestamp (b_header (p_block p));
  bm_gas_limit : base_gas_limit base = h_gas_limit (b_header (p_block p));
  bm_randao : base_prev_randao base = h_mix_hash (b_header (p_block p));
  bm_base_fee : Some (base_base_fee_per_gas base) = h_base_fee_per_gas (b_header (p_block p));
  bm_extra_data : base_extra_data base = h_extra_data (b_header (p_block p));
  bm_beacon : Some (base_parent_beacon_block_root base)
    = h_parent_beacon_block_root (b_header (p_block p));
}.

(** Those the last difference gives. *)
Record diff_matches (diff : OpFlashblockPayloadDelta) (p : OpBuiltPayload) : Prop := {
  dm_hash : diff_block_hash diff = p_hash p;
  dm_state_root : diff_state_root diff = h_state_root (b_header (p_block p));
  dm_receipts_root : diff_receipts_root diff = h_receipts_root (b_header (p_block p));
  dm_logs_bloom : diff_logs_bloom diff = h_logs_bloom (b_header (p_block p));
  dm_gas_used : diff_gas_used diff = h_gas_used (b_header (p_block p));
  dm_blob_gas : diff_blob_gas_used diff = h_blob_gas_used (b_header (p_block p));
  dm_withdrawals : diff_withdrawals diff = unwrap_or (b_withdrawals (p_block p)) [];
  dm_withdrawals_root : diff_withdrawals_root diff
    = unwrap_or (h_withdrawals_root (b_header (p_block p))) 0;
}.

(** The messages describe the payload. *)
Definition assembles `{X : Externals} (fbs : list OpFlashblockPayload) (p : OpBuiltPayload) : Prop :=
  mbind (diff_transactions ∘ fb_diff) fbs = tx_encoded_2718 <$> b_transactions (p_block p) /\
  (exists fb base, head fbs = Some fb /\ fb_base fb = Some base /\ base_matches base p) /\
  (exists fb, last fbs = Some fb /\ diff_matches (fb_diff fb) p).

(** ** The messages of a job *)

Section Job.
Context `{X : Externals} `{B : !BuilderExternals X} `{S : !StateExternals X} `{J : !JobExternals X}.
Context `{G : !EvmGas X} `{RL : !ReceiptLaws X} `{FL : !FeeLaws X} `{F : !FlzLaws X}.
Context `{SL : !StateLaws X} `{JL : !JobLaws X}.
Context {It Self : Type} `{PT : PayloadTransactions It} `{PL : !PayloadTransactionsLaws It}.
Context `{BT : !BuilderTransactions Self FlashblocksExtraCtx FlashblocksExecutionInfo}.
Context `{BL : !BuilderTransactionsLaws Self FlashblocksExtraCtx FlashblocksExecutionInfo}.
Context (config : FbConfig) (spec : OpChainSpec) (interop : bool) (w : World It).
Implicit Type ctx : FbCtx.
Implicit Type s : FbState It Self.

(** The base of the blocks of a job. *)
Definition base_of ctx (base : OpFlashblockPayloadBase) : Prop :=
  exists beacon ex, parent_beacon_block_root (attributes ctx) = Some beacon /\
    extra_data ctx = Ok ex /\ base = make_base ctx beacon ex.

Lemma build_block_parts ctx (info info' : FbInfo) d d' c p fb :
  build_block ctx info d c = (Ok (p, fb), info', d') ->
  diff_matches (fb_diff fb) p /\ (exists base, fb_base fb = Some base /\ base_of ctx base) /\
  (forall base, base_of ctx base -> base_matches base p).
Proof using.
  unfold build_block. destruct (seal_block ctx info _ c) as [p1| |] eqn:Hs; [|done..].
  apply seal_block_parts in Hs as (rr & lb & sr & wr & rq & eb & bg & ex & _ & _ & Hbl & Hex & ->).
  destruct (new_since info) as [[txs rs]| |]; [|done..].
  assert (Hbl' : blob_fields ctx (advance_index info) = (Ok (eb, bg) : outcome PayloadBuilderError _))
    by exact Hbl.
  unfold make_flashblock. rewrite Hbl', Hex. simpl. destruct (parent_beacon_block_root (attributes ctx)) as [beacon|] eqn:Hbe; [|done].
  simpl. intros [= <- <- _ _]. split_and!.
  - by split.
  - eexists. split; [done|]. by exists beacon, ex.
  - intros base (beacon' & ex' & Hb' & He' & ->). split; simpl; try congruence.
Qed.

(** Every number of messages describes a payload that was sent, and all of them the last one. *)
Definition snapshots ctx s : Prop :=
  (exists fb base, head (fs_published s) = Some fb /\ fb_base fb = Some base /\ base_of ctx base) /\
  (forall k, (0 < k <= length (fs_published s))%nat ->
     exists p, p ∈ fs_sent s /\ assembles (take k (fs_published s)) p) /\
  (exists p, last (fs_sent s) = Some p /\ assembles (fs_published s) p).

(** One more message, with the payload it describes. *)
Lemma snapshots_snoc ctx ctx' s s' fb p :
  snapshots ctx s -> (forall base, base_of ctx base -> base_of ctx' base) ->
  fs_published s' = fs_published s ++ [fb] -> fs_sent s' = fs_sent s ++ [p] ->
  sealed_with ctx' p (fb_diff fb) ->
  mbind (diff_transactions ∘ fb_diff) (fs_published s')
    = tx_encoded_2718 <$> b_transactions (p_block p) ->
  snapshots ctx' s'.
Proof using.
  intros [(fb0 & base & Hh & Hb & Hbase) [Hk _]] Hctx Hp Hs (info & info' & d & d' & c & fb1 & Hbb & Hd) Htx.
  apply build_block_parts in Hbb as (Hdm & _ & Hbm). rewrite <- Hd in Hdm.
  assert (Hh' : head (fs_published s') = Some fb0) by (rewrite Hp; by destruct (fs_published s)).
  assert (Ha : assembles (fs_published s') p).
  { split_and!; [done|exists fb0, base; auto|]. exists fb. by rewrite Hp, last_snoc. }
  split_and!; [exists fb0, base; auto| |exists p; by rewrite Hs, last_snoc].
  intros k Hle. rewrite Hp, length_app in Hle. simpl in Hle.
  destruct (decide (k <= length (fs_published s))%nat) as [Hlt|Hgt].
  - destruct (Hk k) as (q & Hq & Haq); [lia|]. exists q. rewrite Hs, Hp, take_app_le by lia.
    split; [apply elem_of_app; by left|done].
  - exists p. rewrite Hs, take_ge by (rewrite Hp, length_app; simpl; lia).
    split; [apply elem_of_app; right; by apply list_elem_of_singleton|done].
Qed.

Lemma flashblock_loop_snapshots p0 d0 signals ctx s s' :
  loop_inv ctx d0 s -> snapshots ctx s -> self_ok (fs_self s) -> no_bundle d0 ->
  target_flashblock_count ctx < U64_MAX ->
  flashblock_loop w p0 ctx signals s = Some (Ok tt, s') -> snapshots ctx s'.
Proof using G RL FL PL BL SL.
  intros Hinv Hsn Hok Hnb. revert ctx s Hinv Hsn Hok.
  induction signals as [|tok signals IH]; intros ctx s Hinv Hsn Hok Hmax; cbn [flashblock_loop].
  { by intros [= <-]. }
  pose proof (loop_inv_ext ctx tok d0 s Hinv) as Hinv1. set (ctx1 := with_cancel ctx tok) in *.
  destruct (Z.ltb_spec (target_flashblock_count ctx1) (flashblock_index ctx1)) as [|Hle].
  { by intros [= <-]. }
  intros [(next & s1 & H1 & H)|[(? & _ & [=])|[_ [=]]]]%mbind'_Some.
  pose proof (build_next_flashblock_trace w p0 ctx1 d0 s _ s1 (li_coherent _ _ _ Hinv1) Hnb Hok H1) as Hpub.
  destruct next as [next|].
  - destruct (publishes_loop_inv w ctx1 d0 s s1 next Hinv1 Hle Hmax Hpub) as (Hinv2 & Hok2 & Ht & _).
    destruct Hpub as (Hco & _ & (fb & p & Hp & _ & _ & Hs & Hc & _ & Hw) & _).
    apply (IH (with_extra_ctx ctx1 next) s1 Hinv2); [|done|by rewrite Ht|done].
    apply (snapshots_snoc ctx ctx1 s s1 fb p); [done..|].
    destruct (coh_cell _ _ _ Hco) as (q & Hq & Htx & _). congruence.
  - injection H as <-. destruct Hpub as [(_ & Hs & Hp) _]. unfold snapshots. by rewrite Hs, Hp.
Qed.

(** The first message. *)
Lemma fallback_phase_snapshots p0 ctx s s' :
  no_tx_pool (attributes ctx) = false -> self_ok (fs_self s) -> fs_published s = [] ->
  fallback_phase w p0 ctx s = Some (Ok tt, s') ->
  (exists p, last (fs_sent s') = Some p /\ mbind (diff_transactions ∘ fb_diff) (fs_published s')
     = tx_encoded_2718 <$> b_transactions (p_block p)) -> snapshots ctx s'.
Proof using G RL BL.
  intros Hpool Hok Hp0 H (q & Hq & Htx). unfold fallback_phase in H. rewrite Hpool in H. simpl in H.
  apply mbind'_Some in H as [(l & s1 & H1 & H)|[(? & _ & [=])|[_ [=]]]].
  apply builder_phase_spec in H1 as [[_ _ _ _ _ _ _ Hp1 _] _]; [|done]. rewrite Hp0 in Hp1.
  unfold seal_phase in H. unfold mbind' at 1 in H.
  destruct (build_block ctx (fs_info s1) (fs_db s1) _) as [[[[p fb]|e|] info'] d'] eqn:Hb; [|done..].
  apply build_block_parts in Hb as (Hdm & (base & Hbase & Hof) & Hbm).
  unfold mbind', payload_try_send, set_best_payload, ws_publish in H. simpl in H.
  destruct (w_try_send w _ p); [|done]. destruct (w_publish w _ fb); simplify_eq/=.
  rewrite last_snoc in Hq. injection Hq as <-. rewrite Hp1 in *. simpl in *.
  assert (Ha : assembles [fb] p) by (split_and!; [done|exists fb, base; auto|by exists fb]).
  unfold snapshots. simpl. rewrite Hp1. split_and!; [by exists fb, base| |exists p; by rewrite last_snoc].
  intros k Hk. exists p. split; [apply elem_of_app; right; by apply list_elem_of_singleton|].
  by rewrite take_ge by (simpl in *; lia).
Qed.

(** All of them. *)
Lemma build_payload_snapshots pc clock fc signals self limiter now s :
  wf_config config -> self_ok self -> no_tx_pool (pc_attributes pc) = false ->
  build_payload config spec interop w pc clock fc signals self limiter now = Some (Ok tt, Some s) ->
  exists x ctx d d0,
    get_op_payload_builder_ctx config spec interop pc (w_block_cancel w) x = Ok ctx /\
    state_by_block_hash (parent_hash ctx) = inr d /\
    apply_pre_execution_changes d (parent ctx) (block_env_attributes ctx) = inr d0 /\
    Forall (valid_payload ctx d0) (fs_sent s) /\ cell_matches s /\ snapshots ctx s.
Proof using G RL FL F PL BL SL JL.
  intros Hwf Hok Hpool H.
  apply build_payload_trace in H as (x & ctx & d & d0 & _ & Hctx & Hd & Hd0 & Hv & Hr & Hnb & Hrun); [|done..].
  destruct (Hr eq_refl) as (p & _ & _ & Hm). rewrite Hpool in Hm. destruct Hm as [Hcm _].
  destruct (Hrun eq_refl Hpool) as (s0 & s1 & _ & <- & _ & Hp0 & Hfall & Hran).
  destruct Hran as (tm & t & x2 & s2 & _ & Hn & Ht & _ & Hinv & Hok2 & _ & (_ & Hp & _ & Hs & _) & Hloop).
  exists x, ctx, d, d0. split_and!; [done..| |done|].
  { eapply Forall_impl; [exact Hv|]. intros q. apply sealed_valid. }
  assert (Hattr : attributes ctx = pc_attributes pc).
  { unfold get_op_payload_builder_ctx in Hctx. apply bind_Ok in Hctx as (? & _ & Hc).
    by apply bind_Ok in Hc as (? & _ & [= <-]). }
  apply (flashblock_loop_snapshots _ _ _ _ _ _ Hinv) in Hloop; [done| |done|done|rewrite Ht; lia].
  assert (Hsn : snapshots ctx s1).
  { apply (fallback_phase_snapshots d ctx s0); [by rewrite Hattr|done|done|exact Hfall|]. rewrite <- Hp, <- Hs.
    destruct (coh_cell _ _ _ (li_coherent _ _ _ Hinv)) as (q & _ & Htx & _ & Hl). by exists q. }
  unfold snapshots in *. rewrite Hp, Hs. exact Hsn.
Qed.

End Job.

(** ** The publisher *)

Section Stream.
Context {M P : Type} (capacity : nat).
Context (serialize : P -> Z + M * Z) (deserialize : M -> option P).
Implicit Type s : WebSocketPublisher M.

(** Executions of the publisher in which exactly the given payloads are published, in order; the
    listener and the subscribers interleave with them. *)
Inductive publishing : list P -> WebSocketPublisher M -> WebSocketPublisher M -> Prop :=
| publishing_nil s : publishing [] s s
| publishing_other l s s1 s2 :
    ws_step capacity s s1 -> ws_pipe s1 = ws_pipe s -> publishing l s1 s2 -> publishing l s s2
| publishing_publish l payload size s s1 s2 :
    ws_term s = false -> publish serialize payload s = (Ok size, s1) -> publishing l s1 s2 ->
    publishing (payload :: l) s s2.

(** What is in the channel afterwards, as the clients read it. *)
Lemma publishing_pipe l s s' :
  (forall payload m size, serialize payload = inr (m, size) -> deserialize m = Some payload) ->
  publishing l s s' ->
  star (ws_step capacity) s s' /\
  exists msgs, ws_pipe s' = ws_pipe s ++ msgs /\ deserialize <$> msgs = Some <$> l.
Proof.
  intros Hrt. induction 1 as [s|l s s1 s2 Hs Hp _ (IH1 & msgs & IH2 & IH3)
    |l payload size s s1 s2 Ht Hpub _ (IH1 & msgs & IH2 & IH3)].
  - split; [apply star_refl|]. exists []. by rewrite app_nil_r.
  - split; [by eapply star_step|]. exists msgs. by rewrite IH2, Hp.
  - split; [eapply star_step; [by eapply wstep_publish|done]|].
    unfold publish in Hpub. destruct (serialize payload) as [|[m sz]] eqn:Hm; [done|].
    destruct (has_receiver s); [|done]. injection Hpub as <- <-. simpl in IH2.
    exists (m :: msgs). rewrite IH2, <- app_assoc. split; [done|].
    by rewrite !fmap_cons, (Hrt _ _ _ Hm), IH3.
Qed.

(** What a subscriber that has not fallen behind has read of them. *)
Definition read_since (n start : nat) (got : list M) : list P := omap deserialize (drop (n - start) got).

Lemma subscriber_reads limit s s' l i start pos got :
  (forall payload m size, serialize payload = inr (m, size) -> deserialize m = Some payload) ->
  star (ws_step capacity) (ws_new limit) s -> publishing l s s' ->
  ws_tasks s' !! i = Some (Serving start pos got false) -> (start <= length (ws_pipe s))%nat ->
  read_since (length (ws_pipe s)) start got = take (pos - length (ws_pipe s)) l /\
  (pos = length (ws_pipe s') -> read_since (length (ws_pipe s)) start got = l).
Proof.
  intros Hrt Hs (Hs' & msgs & Hpipe & Hd)%publishing_pipe Hi Hst; [|done].
  pose proof (ws_reachable _ _ _ (star_trans _ _ _ _ Hs Hs')) as Hinv.
  pose proof (Forall_lookup_1 _ _ _ _ (wi_tasks _ Hinv) Hi) as (Hpos & _ & Hgot).
  rewrite (Hgot eq_refl), Hpipe in *. unfold read_since. rewrite drop_drop.
  replace (start + (length (ws_pipe s) - start))%nat with (length (ws_pipe s)) by lia.
  assert (Htake : drop (length (ws_pipe s)) (take pos (ws_pipe s ++ msgs))
    = take (pos - length (ws_pipe s)) msgs).
  { by rewrite skipn_firstn_comm, skipn_app, Nat.sub_diag, skipn_all. }
  assert (Homap : forall k, omap deserialize (take k msgs) = take k l).
  { clear -Hd. revert l Hd. induction msgs as [|m msgs IH]; intros [|x l] Hd k; simplify_eq/=;
      [by destruct k|]. destruct k; [done|]. simpl.
    match goal with H : deserialize m = _ |- _ => rewrite H end. by rewrite (IH l). }
  rewrite Htake, Homap. split; [done|]. intros ->. apply take_ge. rewrite length_app.
  apply (f_equal length) in Hd. rewrite !length_fmap in Hd. lia.
Qed.

End Stream.

Import TestChain TestPool TestSigner TestState TestJob TestPayload.

(** ** A subscriber

    It connects before the job starts and reads every message as it is published.  The messages are the
    payloads themselves. *)
Module TestSubscriber.

Definition plain (fb : OpFlashblockPayload) : Z + OpFlashblockPayload * Z := inr (fb, 0).

Definition connected : WebSocketPublisher OpFlashblockPayload :=
  subscribe 0 0 (check_limit 0 0 (listener_handshake 0 true (listener_accept (ws_new None)))).

Lemma connected_reachable : star (ws_step 16) (ws_new None) connected.
Proof.
  eapply star_step; [by apply wstep_accept|]. eapply star_step; [by apply (wstep_handshake _ _ 0 true)|].
  eapply star_step; [by apply (wstep_check _ _ 0 0)|].
  eapply star_step; [by apply (wstep_subscribe _ _ 0 0)|]. apply star_refl.
Qed.

(** Two messages, each read when it is published. *)
Definition published_one (a : OpFlashblockPayload) : WebSocketPublisher OpFlashblockPayload :=
  broadcast_recv 16 0 0 0 [] false true (snd (publish plain a connected)).
Definition published_two (a b : OpFlashblockPayload) : WebSocketPublisher OpFlashblockPayload :=
  broadcast_recv 16 0 0 1 [a] false true (snd (publish plain b (published_one a))).

Lemma published_two_run a b : publishing 16 plain [a; b] connected (published_two a b).
Proof.
  eapply publishing_publish; [done|reflexivity|].
  eapply publishing_other; [by apply (wstep_recv _ _ 0 0 0 [] false true)|reflexivity|].
  eapply (publishing_publish _ _ _ _ _ (published_one a)); [done|reflexivity|].
  eapply publishing_other; [by apply (wstep_recv _ _ 0 0 1 [a] false true)|reflexivity|].
  apply publishing_nil.
Qed.

End TestSubscriber.

Import TestSubscriber.

(** ** Properties *)

(** C9: what a subscriber assembles is a valid block.  A client whose connection was accepted before the
    job started and that has not fallen behind has read the first messages of the job, in order.  If it
    has read any, they put together (the base of the first, the transactions of all, the roots, the gas
    and the hash of the last) describe a payload the builder has sealed, which replays from the state of
    the parent to its own receipts and gas; and when it has read everything, that is the payload the job
    returns. *)
Theorem subscriber_assembles_block `{X : Externals} `{B : !BuilderExternals X} `{S : !StateExternals X}
    `{J : !JobExternals X} `{!EvmGas X} `{!ReceiptLaws X} `{!FeeLaws X} `{!FlzLaws X}
    `{SL : !StateLaws X} `{!JobLaws X} {It Self} `{PT : PayloadTransactions It}
    `{!PayloadTransactionsLaws It}
    `{BT : !BuilderTransactions Self FlashblocksExtraCtx FlashblocksExecutionInfo}
    `{BL : !BuilderTransactionsLaws Self FlashblocksExtraCtx FlashblocksExecutionInfo}
    config spec interop (w : World It) pc clock fc signals (self : Self) limiter now s
    {M} (serialize : OpFlashblockPayload -> Z + M * Z) (deserialize : M -> option OpFlashblockPayload)
    capacity limit before after i start pos got :
  build_payload config spec interop w pc clock fc signals self limiter now = Some (Ok tt, Some s) ->
  wf_config config -> self_ok self -> no_tx_pool (pc_attributes pc) = false ->
  (forall fb m size, serialize fb = inr (m, size) -> deserialize m = Some fb) ->
  star (ws_step capacity) (ws_new limit) before ->
  publishing capacity serialize (fs_published s) before after ->
  ws_tasks after !! i = Some (Serving start pos got false) -> (start <= length (ws_pipe before))%nat ->
  let read := read_since deserialize (length (ws_pipe before)) start got in
  read `prefix_of` fs_published s /\
  (read <> [] -> exists x ctx d d0 p,
     get_op_payload_builder_ctx config spec interop pc (w_block_cancel w) x = Ok ctx /\
     state_by_block_hash (parent_hash ctx) = inr d /\
     apply_pre_execution_changes d (parent ctx) (block_env_attributes ctx) = inr d0 /\
     p ∈ fs_sent s /\ valid_payload ctx d0 p /\ assembles read p) /\
  (pos = length (ws_pipe after) -> read = fs_published s /\
     exists p, fs_cell s = Some p /\ assembles read p).
Proof.
  intros H Hwf Hok Hpool Hrt Hs Hpub Hi Hst.
  destruct (subscriber_reads _ _ _ _ _ _ _ _ _ _ _ Hrt Hs Hpub Hi Hst) as [Hread Hall].
  destruct (build_payload_snapshots _ _ _ _ _ _ _ _ _ _ _ _ Hwf Hok Hpool H)
    as (x & ctx & d & d0 & Hctx & Hd & Hd0 & Hv & Hcm & Hsn). simpl.
  split; [rewrite Hread; by apply prefix_take|]. split.
  - rewrite Hread. intros Hne. set (n := (pos - length (ws_pipe before))%nat) in *.
    assert (Hmin : take n (fs_published s) = take (n `min` length (fs_published s)) (fs_published s)).
    { destruct (decide (n <= length (fs_published s))%nat); [by rewrite Nat.min_l|].
      by rewrite Nat.min_r, !take_ge by lia. }
    destruct (proj1 (proj2 Hsn) (n `min` length (fs_published s))%nat) as (p & Hp & Ha).
    { rewrite Hmin in Hne. destruct (n `min` _)%nat eqn:E; [done|lia]. }
    exists x, ctx, d, d0, p. rewrite Hmin. do 4 (split; [done|]). split; [|done].
    by eapply Forall_forall in Hv.
  - intros Hpos. rewrite (Hall Hpos). split; [done|].
    destruct (proj2 (proj2 Hsn)) as (p & Hp & Ha). destruct Hcm as (q & Hq & _ & _ & Hl).
    rewrite Hp in Hl. injection Hl as <-. by exists p.
Qed.

Lemma subscriber_assembles_block_witness :
  exists s a b p, build_payload (X := chain) (sample_config 0) (sample_spec false) false (job_world true)
      (mkPayloadConfig sample_parent (sample_attributes sample_sequencer_txs))
      (from_secs 1000 + from_millis 100) never_cancelled [never_cancelled]
      sample_builder_txs (new_limiter (mkGasLimiterArgs false 0 0 0)) 0 = Some (Ok tt, Some s) /\
    ws_tasks (published_two a b) !! 0%nat = Some (Serving 0 2 [a; b] false) /\
    fs_cell s = Some p /\ assembles [a; b] p.
Proof.
  destruct sample_job_runs as (s & E & Hlen).
  destruct (fs_published s) as [|a [|b [|]]] eqn:Hfb; try discriminate Hlen.
  pose proof (published_two_run a b) as Hrun. rewrite <- Hfb in Hrun.
  destruct (subscriber_assembles_block (X := chain) _ _ _ _ _ _ _ _ _ _ _ _ plain Some 16 None connected
    (published_two a b) 0 0 2 [a; b] E) as (_ & _ & Hall).
  - unfold wf_config. vm_compute. repeat split; discriminate || reflexivity.
  - exact job_self_ok.
  - reflexivity.
  - intros fb m size [= <- _]. reflexivity.
  - exact connected_reachable.
  - exact Hrun.
  - reflexivity.
  - apply Nat.le_refl.
  - destruct (Hall eq_refl) as (_ & p & Hp & Ha). exists s, a, b, p.
    split; [exact E|]. split; [reflexivity|]. split; [exact Hp|exact Ha].
Defined.
