(* ===== verification/Quote.v ===== *)
(** * TDX quotes

    Models [flashtestations/attestation.rs] from the parsing of a raw quote to the workload id, and the
    part of [metrics.rs] that can refuse a quote.  The layout of the report body is stated
    independently, field by field, and the parser is proved to invert it. *)

From S2P Require Import Prelude External ExecInfo PoolTx Sidecar Context Replay BuilderTx FlashblocksCtx BuilderTxImpls.

(** ** Data *)

Definition HEADER_LENGTH : nat := 48.
Definition TD_REPORT10_LENGTH : nat := 584.
Definition OFFSET_TD_ATTRIBUTES : nat := 120.
Definition OFFSET_XFAM : nat := 128.
Definition OFFSET_MR_TD : nat := 136.
Definition OFFSET_MR_CONFIG_ID : nat := 184.
Definition OFFSET_MR_OWNER : nat := 232.
Definition OFFSET_MR_OWNER_CONFIG : nat := 280.
Definition OFFSET_RT_MR0 : nat := 328.
Definition OFFSET_RT_MR1 : nat := 376.
Definition OFFSET_RT_MR2 : nat := 424.
Definition OFFSET_RT_MR3 : nat := 472.
Definition MEASUREMENT_REGISTER_LENGTH : nat := 48.
Definition ATTRIBUTE_LENGTH : nat := 8.

Record ParsedQuote : Type := mkParsedQuote {
  mr_td : Bytes;
  rt_mr0 : Bytes;
  rt_mr1 : Bytes;
  rt_mr2 : Bytes;
  rt_mr3 : Bytes;
  mr_config_id : Bytes;
  mr_owner : Bytes;
  mr_owner_config : Bytes;
  xfam : Z;
  td_attributes : Z;
}.

Inductive QuoteError : Type :=
| InvalidQuoteLength (got expected : nat)
| FailedToExtract (field : string).

(** ** Definitions *)

(** [report_body[offset..offset + len].try_into()] with its error. *)
Definition extract (report_body : Bytes) (offset len : nat) (field : string) : outcome QuoteError Bytes :=
  let? b := slice_range report_body offset (offset + len) in
  ok_or (try_into_array len b) (FailedToExtract field).

Definition parse_report_body (raw_quote : Bytes) : outcome QuoteError ParsedQuote :=
  if (length raw_quote <? HEADER_LENGTH + TD_REPORT10_LENGTH)%nat then
    Err (InvalidQuoteLength (length raw_quote) (HEADER_LENGTH + TD_REPORT10_LENGTH))
  else
    let? report_body := slice_range raw_quote HEADER_LENGTH (length raw_quote) in
    let? mr_td := extract report_body OFFSET_MR_TD MEASUREMENT_REGISTER_LENGTH "mr_td" in
    let? rt_mr0 := extract report_body OFFSET_RT_MR0 MEASUREMENT_REGISTER_LENGTH "rt_mr0" in
    let? rt_mr1 := extract report_body OFFSET_RT_MR1 MEASUREMENT_REGISTER_LENGTH "rt_mr1" in
    let? rt_mr2 := extract report_body OFFSET_RT_MR2 MEASUREMENT_REGISTER_LENGTH "rt_mr2" in
    let? rt_mr3 := extract report_body OFFSET_RT_MR3 MEASUREMENT_REGISTER_LENGTH "rt_mr3" in
    let? mr_config_id :=
      extract report_body OFFSET_MR_CONFIG_ID MEASUREMENT_REGISTER_LENGTH "mr_config_id" in
    let? mr_owner := extract report_body OFFSET_MR_OWNER MEASUREMENT_REGISTER_LENGTH "mr_owner" in
    let? mr_owner_config :=
      extract report_body OFFSET_MR_OWNER_CONFIG MEASUREMENT_REGISTER_LENGTH "mr_owner_config" in
    let? xfam := extract report_body OFFSET_XFAM ATTRIBUTE_LENGTH "xfam" in
    let? td_attributes := extract report_body OFFSET_TD_ATTRIBUTES ATTRIBUTE_LENGTH "td_attributes" in
    Ok (mkParsedQuote mr_td rt_mr0 rt_mr1 rt_mr2 rt_mr3 mr_config_id mr_owner mr_owner_config
          (from_be_bytes xfam) (from_be_bytes td_attributes)).

(** The bytes that are hashed. *)
Definition workload_preimage (parsed : ParsedQuote) : Bytes :=
  mr_td parsed ++ rt_mr0 parsed ++ rt_mr1 parsed ++ rt_mr2 parsed ++ rt_mr3 parsed ++
  mr_config_id parsed ++ to_be_bytes ATTRIBUTE_LENGTH (xfam parsed) ++
  to_be_bytes ATTRIBUTE_LENGTH (td_attributes parsed).

Section Workload.
Context `{A : Abi}.

Definition compute_workload_id_from_parsed (parsed : ParsedQuote) : B256 :=
  keccak256 (workload_preimage parsed).

Definition compute_workload_id (raw_quote : Bytes) : outcome QuoteError B256 :=
  let? parsed := parse_report_body raw_quote in
  Ok (compute_workload_id_from_parsed parsed).

(** What [record_tee_metrics] records: the address, the workload id and two registers. *)
Definition record_tee_metrics (raw_quote : Bytes) (tee_address : Address)
    : outcome QuoteError (Address * B256 * Bytes * Bytes) :=
  let? parsed_quote := parse_report_body raw_quote in
  let workload_id := compute_workload_id_from_parsed parsed_quote in
  Ok (tee_address, workload_id, mr_td parsed_quote, rt_mr0 parsed_quote).

End Workload.

(** ** The report body of a TDX 1.0 quote, in the order of its fields *)

Record TD10ReportBody : Type := mkReportBody {
  td_tee_tcb_svn : Bytes;
  td_mr_seam : Bytes;
  td_mr_signer_seam : Bytes;
  td_seam_attributes : Bytes;
  td_td_attributes : Bytes;
  td_xfam : Bytes;
  td_mr_td : Bytes;
  td_mr_config_id : Bytes;
  td_mr_owner : Bytes;
  td_mr_owner_config : Bytes;
  td_rt_mr0 : Bytes;
  td_rt_mr1 : Bytes;
  td_rt_mr2 : Bytes;
  td_rt_mr3 : Bytes;
  td_report_data : Bytes;
}.

(** The fields with their lengths. *)
Definition td_fields (b : TD10ReportBody) : list (nat * Bytes) :=
  [(16, td_tee_tcb_svn b); (48, td_mr_seam b); (48, td_mr_signer_seam b); (8, td_seam_attributes b);
   (8, td_td_attributes b); (8, td_xfam b); (48, td_mr_td b); (48, td_mr_config_id b);
   (48, td_mr_owner b); (48, td_mr_owner_config b); (48, td_rt_mr0 b); (48, td_rt_mr1 b);
   (48, td_rt_mr2 b); (48, td_rt_mr3 b); (64, td_report_data b)]%nat.
Definition wf_report_body (b : TD10ReportBody) : Prop :=
  Forall (fun f => length (snd f) = fst f /\ Forall is_byte (snd f)) (td_fields b).
Definition encode_report_body (b : TD10ReportBody) : Bytes := concat (snd <$> td_fields b).

(** What the parser keeps of it. *)
Definition parsed_of (b : TD10ReportBody) : ParsedQuote :=
  mkParsedQuote (td_mr_td b) (td_rt_mr0 b) (td_rt_mr1 b) (td_rt_mr2 b) (td_rt_mr3 b)
    (td_mr_config_id b) (td_mr_owner b) (td_mr_owner_config b) (from_be_bytes (td_xfam b))
    (from_be_bytes (td_td_attributes b)).

(** The measurements that identify a workload. *)
Definition same_workload (b b' : TD10ReportBody) : Prop :=
  td_mr_td b = td_mr_td b' /\ td_rt_mr0 b = td_rt_mr0 b' /\ td_rt_mr1 b = td_rt_mr1 b' /\
  td_rt_mr2 b = td_rt_mr2 b' /\ td_rt_mr3 b = td_rt_mr3 b' /\ td_mr_config_id b = td_mr_config_id b' /\
  td_xfam b = td_xfam b' /\ td_td_attributes b = td_td_attributes b'.

(** ** Lemmas *)

Lemma extract_Ok body offset len field :
  (offset + len <= length body)%nat ->
  extract body offset len field = Ok (slice body offset (offset + len)).
Proof.
  intros H. unfold extract. rewrite slice_range_Ok by lia. simpl. unfold try_into_array.
  rewrite length_slice by lia. by rewrite (proj2 (Nat.eqb_eq _ _)) by lia.
Qed.

(** The parser as the slices it takes. *)
Definition sliced (body : Bytes) : ParsedQuote :=
  mkParsedQuote (slice body 136 184) (slice body 328 376) (slice body 376 424) (slice body 424 472)
    (slice body 472 520) (slice body 184 232) (slice body 232 280) (slice body 280 328)
    (from_be_bytes (slice body 128 136)) (from_be_bytes (slice body 120 128)).

Lemma parse_report_body_slices raw :
  parse_report_body raw =
  if (length raw <? 632)%nat then Err (InvalidQuoteLength (length raw) 632)
  else Ok (sliced (drop 48 raw)).
Proof.
  unfold parse_report_body. change (HEADER_LENGTH + TD_REPORT10_LENGTH)%nat with 632%nat.
  destruct (Nat.ltb_spec (length raw) 632) as [|Hl]; [done|].
  rewrite slice_range_Ok by (unfold HEADER_LENGTH; lia). cbn [bind].
  assert (Hb : slice raw HEADER_LENGTH (length raw) = drop 48 raw).
  { unfold slice, HEADER_LENGTH. apply firstn_all2. rewrite length_drop. lia. }
  rewrite Hb. assert (Hd : (584 <= length (drop 48 raw))%nat) by (rewrite length_drop; lia).
  revert Hd. generalize (drop 48 raw). clear. intros body Hd.
  rewrite !extract_Ok by (cbv -[length]; lia). done.
Qed.

(** A field lies behind the fields before it. *)
Lemma td_field b rest k n x :
  wf_report_body b -> td_fields b !! k = Some (n, x) ->
  let i := sum_list (take k (fst <$> td_fields b)) in
  slice (encode_report_body b ++ rest) i (i + n) = x.
Proof.
  unfold wf_report_body, encode_report_body. generalize (td_fields b). intros fs Hwf Hk.
  assert (Hlen : forall l : list (nat * Bytes), Forall (fun f => length (snd f) = fst f /\ Forall is_byte (snd f)) l ->
    length (concat (snd <$> l)) = sum_list (fst <$> l)).
  { induction 1 as [|f l [Hf _] _ IH]; [done|]. cbn. by rewrite length_app, Hf, IH. }
  pose proof (take_drop_middle _ _ _ Hk) as Hfs. rewrite <- fmap_take. set (pre := take k fs) in *.
  set (post := drop (S k) fs) in *. clearbody pre post. subst fs.
  apply Forall_app in Hwf as [Hpre [[Hx _] _]%Forall_cons_1]. rewrite <- (Hlen _ Hpre).
  rewrite fmap_app, concat_app, <- app_assoc, slice_app_skip by lia.
  rewrite Nat.sub_diag, Nat.add_comm, Nat.add_sub. cbn. rewrite <- app_assoc. by apply slice_app_front.
Qed.

Lemma encode_length b : wf_report_body b -> length (encode_report_body b) = 584%nat.
Proof.
  intros H. unfold wf_report_body, td_fields in H.
  repeat (apply Forall_cons_1 in H; destruct H as [[? _] H]). cbn [fst snd] in *. clear H.
  unfold encode_report_body, td_fields. cbn. rewrite !length_app. cbn. lia.
Qed.

Lemma encode_slices b rest :
  wf_report_body b -> sliced (encode_report_body b ++ rest) = parsed_of b.
Proof.
  intros H. unfold sliced, parsed_of. f_equal; [| | | | | | | |f_equal|f_equal].
  - exact (td_field b rest 6 _ _ H eq_refl).
  - exact (td_field b rest 10 _ _ H eq_refl).
  - exact (td_field b rest 11 _ _ H eq_refl).
  - exact (td_field b rest 12 _ _ H eq_refl).
  - exact (td_field b rest 13 _ _ H eq_refl).
  - exact (td_field b rest 7 _ _ H eq_refl).
  - exact (td_field b rest 8 _ _ H eq_refl).
  - exact (td_field b rest 9 _ _ H eq_refl).
  - exact (td_field b rest 5 _ _ H eq_refl).
  - exact (td_field b rest 4 _ _ H eq_refl).
Qed.

Lemma parse_encoded header b rest :
  length header = 48%nat -> wf_report_body b ->
  parse_report_body (header ++ encode_report_body b ++ rest) = Ok (parsed_of b).
Proof.
  intros Hh Hb. rewrite parse_report_body_slices, !length_app, Hh, (encode_length _ Hb).
  destruct (Nat.ltb_spec (48 + (584 + length rest)) 632); [lia|].
  rewrite drop_app_length' by done. by rewrite encode_slices.
Qed.

(** What identifies a workload is what is hashed. *)
Lemma workload_preimage_inj b b' :
  wf_report_body b -> wf_report_body b' ->
  workload_preimage (parsed_of b) = workload_preimage (parsed_of b') <-> same_workload b b'.
Proof.
  intros H H'. split; [|by intros (H1 & H2 & H3 & H4 & H5 & H6 & H7 & H8);
    unfold workload_preimage; cbn; rewrite H1, H2, H3, H4, H5, H6, H7, H8].
  unfold wf_report_body, td_fields in H, H'.
  repeat (apply Forall_cons_1 in H; destruct H as [[? ?] H]).
  repeat (apply Forall_cons_1 in H'; destruct H' as [[? ?] H']). cbn [fst snd] in *. clear H H'.
  unfold workload_preimage, parsed_of, same_workload, ATTRIBUTE_LENGTH. cbn [mr_td rt_mr0 rt_mr1 rt_mr2 rt_mr3 mr_config_id xfam td_attributes].
  assert (Hn : forall l, length l = 8%nat -> Forall is_byte l -> to_be_bytes 8 (from_be_bytes l) = l).
  { intros l Hl Hb. rewrite <- Hl at 1. by apply to_from_be_bytes. }
  rewrite !Hn by done. clear Hn. intros E.
  repeat (apply app_inj_1 in E; [destruct E as [? E]|congruence]). by split_and!.
Qed.

(** ** Quotes for the examples *)
Module TestQuote.

(** A body whose fields are filled with one byte each. *)
Definition sample_body (report_data : Bytes) (owner : Z) : TD10ReportBody :=
  mkReportBody (repeat 1 16) (repeat 2 48) (repeat 3 48) (repeat 4 8) (repeat 5 8) (repeat 6 8)
    (repeat 7 48) (repeat 8 48) (repeat owner 48) (repeat 10 48) (repeat 11 48) (repeat 12 48)
    (repeat 13 48) (repeat 14 48) report_data.
Definition sample_quote (report_data : Bytes) : Bytes :=
  repeat 0 48 ++ encode_report_body (sample_body report_data 9) ++ [1; 2; 3].

Lemma repeat_byte x n : is_byte x -> length (repeat x n) = n /\ Forall is_byte (repeat x n).
Proof. intros H. split; [apply repeat_length|]. by induction n; constructor. Qed.

Lemma sample_body_wf report_data owner :
  length report_data = 64%nat -> Forall is_byte report_data -> is_byte owner ->
  wf_report_body (sample_body report_data owner).
Proof.
  intros H1 H2 H3. unfold wf_report_body, td_fields. cbn [sample_body td_tee_tcb_svn td_mr_seam
    td_mr_signer_seam td_seam_attributes td_td_attributes td_xfam td_mr_td td_mr_config_id td_mr_owner
    td_mr_owner_config td_rt_mr0 td_rt_mr1 td_rt_mr2 td_rt_mr3 td_report_data].
  repeat (apply Forall_cons; split; [cbn [fst snd]; first [by split|apply repeat_byte; unfold is_byte in *; lia]|]).
  apply Forall_nil_2.
Qed.

End TestQuote.

Import TestAbi TestQuote.

(** ** Properties *)

(** C33: parsing inverts the layout of a TDX quote.  A raw quote that is a 48-byte header, a report body
    in the documented layout and anything after it parses to exactly the measurement registers and
    attributes of the body; the parser never panics, and refuses exactly the quotes that are too
    short. *)
Theorem parse_report_body_roundtrip :
  (forall header b rest, length header = HEADER_LENGTH -> wf_report_body b ->
     parse_report_body (header ++ encode_report_body b ++ rest) = Ok (parsed_of b)) /\
  (forall raw, (length raw < HEADER_LENGTH + TD_REPORT10_LENGTH)%nat ->
     parse_report_body raw = Err (InvalidQuoteLength (length raw) (HEADER_LENGTH + TD_REPORT10_LENGTH))) /\
  (forall raw, (HEADER_LENGTH + TD_REPORT10_LENGTH <= length raw)%nat ->
     exists parsed, parse_report_body raw = Ok parsed).
Proof.
  split_and!.
  - exact parse_encoded.
  - intros raw H. rewrite parse_report_body_slices. destruct (Nat.ltb_spec (length raw) 632); [done|unfold HEADER_LENGTH, TD_REPORT10_LENGTH in H; lia].
  - intros raw H. rewrite parse_report_body_slices.
    destruct (Nat.ltb_spec (length raw) 632); [unfold HEADER_LENGTH, TD_REPORT10_LENGTH in H; lia|by eexists].
Qed.

Lemma parse_report_body_roundtrip_witness :
  parse_report_body (sample_quote (repeat 15 64)) = Ok (parsed_of (sample_body (repeat 15 64) 9)) /\
  parse_report_body (repeat 0 631) = Err (InvalidQuoteLength 631 632).
Proof.
  split.
  - apply (proj1 parse_report_body_roundtrip); [reflexivity|].
    apply sample_body_wf; [reflexivity|apply repeat_byte|]; unfold is_byte; lia.
  - apply (proj1 (proj2 parse_report_body_roundtrip)). rewrite repeat_length. vm_compute. lia.
Defined.

(** C34: the workload id identifies the measurements.  Two quotes have the same workload id exactly when
    their measurement registers, configuration, extended features and attributes agree: the header, the
    report data, the owner and the signature do not count.  This takes that the hash has no
    collision on the two preimages. *)
Theorem workload_id_identifies `{A : Abi} header header' b b' rest rest' id id' :
  compute_workload_id (header ++ encode_report_body b ++ rest) = Ok id ->
  compute_workload_id (header' ++ encode_report_body b' ++ rest') = Ok id' ->
  length header = HEADER_LENGTH -> length header' = HEADER_LENGTH ->
  wf_report_body b -> wf_report_body b' ->
  (keccak256 (workload_preimage (parsed_of b)) = keccak256 (workload_preimage (parsed_of b')) ->
   workload_preimage (parsed_of b) = workload_preimage (parsed_of b')) ->
  id = id' <-> same_workload b b'.
Proof.
  intros H H' Hh Hh' Hb Hb' Hinj. unfold compute_workload_id in *.
  rewrite parse_encoded in H, H' by done. injection H as <-. injection H' as <-.
  rewrite <- workload_preimage_inj by done. unfold compute_workload_id_from_parsed. split; [done|congruence].
Qed.

Lemma workload_id_identifies_witness :
  compute_workload_id (sample_quote (repeat 15 64)) = compute_workload_id (sample_quote (repeat 16 64)).
Proof.
  destruct (compute_workload_id (sample_quote (repeat 15 64))) as [id| |] eqn:E; [|discriminate..].
  destruct (compute_workload_id (sample_quote (repeat 16 64))) as [id'| |] eqn:E'; [|discriminate..].
  f_equal. unfold sample_quote in E, E'.
  assert (Hw : forall n, is_byte n -> wf_report_body (sample_body (repeat n 64) 9)).
  { intros n Hn. apply sample_body_wf; [apply repeat_length|by apply repeat_byte|unfold is_byte; lia]. }
  apply (workload_id_identifies _ _ _ _ _ _ id id' E E');
    [reflexivity..|apply Hw; unfold is_byte; lia|apply Hw; unfold is_byte; lia|done|by split_and!].
Defined.
