(* ===== verification/Attestation.v ===== *)
(** * Attestations

    Models the rest of the flashtestations bootstrap: the quote server ([crates/tdx-quote-provider]:
    [provider.rs], [server.rs]), its client ([flashtestations/attestation.rs]), the TEE key on disk and
    the bootstrap ([flashtestations/service.rs]) and the registration by RPC
    ([flashtestations/tx_manager.rs]). *)

From S2P Require Import Prelude External ExecInfo PoolTx Sidecar Context Replay BuilderTx FlashblocksCtx BuilderTxImpls Timing Quote.

(** ** Code outside the repository *)

(** The crate [hex]. *)
Class HexCodec : Type := {
  hex_encode : Bytes -> Text;
  hex_decode : Text -> option Bytes;
}.

(** The TDX device, the files of the mock provider, and the rendering of [json!({"message": ..})]. *)
Class ServerExternals : Type := {
  get_attestation_report_raw_with_options : option Bytes -> Z + (Bytes * option Bytes);
  read_mock_file : Text -> Z + Bytes;
  json_message : string -> Bytes;
}.

(** [reqwest]: a request fails, or has a status and a body, or the error of reading it. *)
Class HttpClient : Type :=
  http_get : Text -> Z + (Z * (Z + Bytes)).

(** The file system: [Path::exists], [fs::read_to_string], and opening a file to be created or
    truncated with mode 0600 and [write_all]. *)
Class FileSystem : Type := {
  fs : Type;
  path_exists : fs -> Text -> bool;
  read_to_string : fs -> Text -> Z + Text;
  create_and_write : fs -> Text -> Text -> (Z + unit) * fs;
}.

(** A transaction request of alloy, as far as it is filled in. *)
Record TransactionRequest : Type := mkTxRequest {
  tr_from : option Address;
  tr_to : Address;
  tr_input : Bytes;
}.

(** The RPC provider: [connect], the [n]-th [call], [send_transaction] with the hash and, after the
    wait, the status and the hash of the receipt; the wallet of a key; [U256::from_be_slice]. *)
Class RpcProvider : Type := {
  connect : Text -> Z + unit;
  rpc_call : nat -> TransactionRequest -> Z + Bytes;
  send_transaction : TransactionRequest -> Z + (B256 * (Z + (bool * B256)));
  private_key_signer : Bytes -> Z + unit;
  u256_from_be_slice : Bytes -> option Z;
}.

(** The hash behind the debug key. *)
Class SeedHash : Type := sha256 : Bytes -> B256.

(** ** The quote server *)

Inductive AttestationError : Type :=
| GetAttestationFailed (e : Z)
| ReadMockAttestationFailed (e : Z).

Record ServerConfig : Type := mkServerConfig {
  listen_addr : Text;
  use_mock : bool;
  mock_attestation_path : Text;
}.
Definition default_server_config : ServerConfig := mkServerConfig (text "127.0.0.1:8181") false [].

(** The implementations of the trait [AttestationProvider]. *)
Inductive QuoteProvider : Type :=
| TdxAttestationProvider
| MockAttestationProvider (path : Text).

Record Response : Type := mkResponse {
  status : Z;
  content_type : option string;
  body : Bytes;
}.
Definition BAD_REQUEST : Z := 400.
Definition INTERNAL_SERVER_ERROR : Z := 500.
Definition OK : Z := 200.

Section Server.
Context `{S : ServerExternals} `{Hx : HexCodec}.

Definition quote_provider_of (mock : bool) (path : Text) : QuoteProvider :=
  if mock then MockAttestationProvider path else TdxAttestationProvider.

(** [Server::new] *)
Definition new_server (config : ServerConfig) : QuoteProvider :=
  quote_provider_of (use_mock config) (mock_attestation_path config).

Definition provider_get_attestation (p : QuoteProvider) (report_data : Bytes)
    : outcome AttestationError Bytes :=
  match p with
  | TdxAttestationProvider =>
      match get_attestation_report_raw_with_options (Some report_data) with
      | inr (quote, _) => Ok quote
      | inl e => Err (GetAttestationFailed e)
      end
  | MockAttestationProvider path =>
      match read_mock_file path with
      | inr buffer => Ok buffer
      | inl e => Err (ReadMockAttestationFailed e)
      end
  end.

Definition healthz_handler : Response := mkResponse OK None [].

Definition attest_handler (appdata : Text) (server : QuoteProvider) : Response :=
  match hex_decode appdata with
  | None =>
      mkResponse BAD_REQUEST None (json_message "Invalid hex in report data for attestation")
  | Some appdata =>
      match try_into_array 64 appdata with
      | None =>
          mkResponse BAD_REQUEST None (json_message "Invalid report data length for attestation")
      | Some report_data =>
          match provider_get_attestation server report_data with
          | Ok attestation => mkResponse OK (Some "application/octet-stream"%string) attestation
          | _ => mkResponse INTERNAL_SERVER_ERROR None (json_message "Failed to get TDX attestation")
          end
      end
  end.

End Server.

(** ** The client *)

Inductive ClientError : Type :=
| RequestFailed (e : Z)
| ErrorStatus (status : Z)
| BodyFailed (e : Z).

Record AttestationConfig : Type := mkAttestationConfig {
  att_debug : bool;
  att_quote_provider : option Text;
}.
Record RemoteAttestationProvider : Type := mkRemote { service_url : Text }.

Definition DEBUG_QUOTE_SERVICE_URL : Text :=
  text "http://ns31695324.ip-141-94-163.eu:10080/attest".

Definition get_attestation_provider {E} (config : AttestationConfig)
    : outcome E RemoteAttestationProvider :=
  if att_debug config then Ok (mkRemote (unwrap_or (att_quote_provider config) DEBUG_QUOTE_SERVICE_URL))
  else let? url := expect (att_quote_provider config) in Ok (mkRemote url).

(** [Response::error_for_status] *)
Definition error_for_status (status : Z) : outcome ClientError unit :=
  if (400 <=? status) && (status <? 600) then Err (ErrorStatus status) else Ok tt.

Definition get_attestation `{HexCodec} `{HttpClient} (self : RemoteAttestationProvider)
    (report_data : Bytes) : outcome ClientError Bytes :=
  let url := service_url self ++ text "/" ++ hex_encode report_data in
  match http_get url with
  | inl e => Err (RequestFailed e)
  | inr (status, body) =>
      let? _ := error_for_status status in
      match body with
      | inl e => Err (BodyFailed e)
      | inr body => Ok body
      end
  end.

(** ** The TEE key *)

(** [char::is_whitespace] and [str::trim] *)
Definition is_whitespace (c : Z) : bool :=
  ((9 <=? c) && (c <=? 13)) || (c =? 32) || (c =? 0x85) || (c =? 0xA0) || (c =? 0x1680) ||
  ((0x2000 <=? c) && (c <=? 0x200A)) || (c =? 0x2028) || (c =? 0x2029) || (c =? 0x202F) ||
  (c =? 0x205F) || (c =? 0x3000).
Fixpoint trim_start (t : Text) : Text :=
  match t with
  | c :: t' => if is_whitespace c then trim_start t' else t
  | [] => []
  end.
Definition trim (t : Text) : Text := reverse (trim_start (reverse (trim_start t))).

Section Key.
Context `{X : Externals} `{B : !BuilderExternals X} `{Hx : HexCodec} `{F : FileSystem} `{SeedHash}.

(** [generate_signer], with the number the generator gives, and [generate_key_from_seed]. *)
Definition generate_signer (random : Z) : Signer := mkSigner (public_address random) random.
Definition generate_key_from_seed {E} (seed : Bytes) : outcome E Signer :=
  match try_from_secret (sha256 seed) with Ok signer => Ok signer | _ => Panic end.

Definition secret_bytes (signer : Signer) : Bytes := to_be_bytes 32 (signer_secret signer).

Definition load_tee_key (d : fs) (path : Text) : option Signer :=
  if negb (path_exists d path) then None
  else
    match read_to_string d path with
    | inl _ => None
    | inr key_hex =>
        match hex_decode (trim key_hex) with
        | None => None
        | Some bytes =>
            match try_into_array 32 bytes with
            | None => None
            | Some secret =>
                match try_from_secret (from_be_bytes secret) with
                | Ok signer => Some signer
                | _ => None
                end
            end
        end
    end.

(** The new key is used whether or not it could be written. *)
Definition load_or_generate_tee_key {E} (key_path : Text) (debug : bool) (debug_seed : Bytes)
    (random : Z) (d : fs) : outcome E Signer * fs :=
  if debug then (generate_key_from_seed debug_seed, d)
  else
    match load_tee_key d key_path with
    | Some signer => (Ok signer, d)
    | None =>
        let signer := generate_signer random in
        (Ok signer, snd (create_and_write d key_path (hex_encode (secret_bytes signer))))
    end.

(** The keys of a sequence of starts outside the debug mode; each has its seed and its random number. *)
Fixpoint starts (path : Text) (runs : list (Bytes * Z)) (d : fs) : list Signer * fs :=
  match runs with
  | [] => ([], d)
  | (seed, random) :: runs =>
      let '(r, d) := load_or_generate_tee_key (E := unit) path false seed random d in
      let '(keys, d) := starts path runs d in
      (match r with Ok key => key :: keys | _ => keys end, d)
  end.

(** A disk without a usable key on which every write fails, and stays so. *)
Definition unwritable (path : Text) (stuck : fs -> Prop) (d : fs) : Prop :=
  load_tee_key d path = None /\
  forall t, exists e d', create_and_write d path t = (inl e, d') /\ stuck d'.

End Key.

(** ** Registration by RPC *)

Inductive TxManagerError : Type :=
| RpcError (e : Z)
| TxReverted (hash : B256)
| TxConfirmationError (e : Z)
| TxRpcError (e : Z)
| SignerError (e : Z)
| SignatureError (e : BTE).

Record TxManager : Type := mkTxManager {
  tm_tee_service_signer : Signer;
  tm_builder_signer : Signer;
  tm_rpc_url : Text;
  tm_registry_address : Address;
}.

(** [B256::from_slice], which panics on any other length. *)
Definition b256_from_slice {E} (l : Bytes) : outcome E B256 :=
  if (length l =? 32)%nat then Ok (from_be_bytes l) else Panic.

Section Register.
Context `{X : Externals} `{B : !BuilderExternals X} `{A : Abi} `{R : RpcProvider}.

Definition call_of (to : Address) (c : ContractCall) : TransactionRequest :=
  mkTxRequest None to (abi_encode c).

Definition process_pending_tx (pending : Z + (B256 * (Z + (bool * B256)))) : outcome TxManagerError B256 :=
  match pending with
  | inr (tx_hash, receipt) =>
      match receipt with
      | inr (status, transaction_hash) => if status then Ok transaction_hash else Err (TxReverted tx_hash)
      | inl e => Err (TxConfirmationError e)
      end
  | inl e => Err (TxRpcError e)
  end.

(** The transaction that registers the service with a permit. *)
Definition permit_request (self : TxManager) (quote data : Bytes) (nonce deadline : Z) (sig : Signature)
    : TransactionRequest :=
  mkTxRequest (Some (signer_address (tm_tee_service_signer self))) (tm_registry_address self)
    (abi_encode (permitRegisterTEEServiceCall quote data nonce deadline (signature_bytes sig))).

(** [now] is the time since the epoch in seconds, [None] when the clock is before it. *)
Definition register_tee_service (self : TxManager) (now : option Z) (attestation extra_data : Bytes)
    : outcome TxManagerError unit :=
  let? _ := of_sum SignerError (private_key_signer (secret_bytes (tm_builder_signer self))) in
  let? _ := of_sum RpcError (connect (tm_rpc_url self)) in
  let owner := signer_address (tm_tee_service_signer self) in
  let? r := of_sum RpcError (rpc_call 0 (call_of (tm_registry_address self) (noncesCall owner))) in
  let? nonce := expect (u256_from_be_slice r) in
  let? secs := expect now in
  let deadline := add64 secs 3600 in
  let? r := of_sum RpcError (rpc_call 1 (call_of (tm_registry_address self)
    (registryComputeStructHashCall attestation extra_data nonce deadline))) in
  let? struct_hash := b256_from_slice r in
  let? r := of_sum RpcError (rpc_call 2 (call_of (tm_registry_address self)
    (registryHashTypedDataV4Call struct_hash))) in
  let? message_hash := b256_from_slice r in
  let? signature := map_err SignatureError (sign_message (tm_tee_service_signer self) message_hash) in
  let? _ := process_pending_tx
    (send_transaction (permit_request self attestation extra_data nonce deadline signature)) in
  Ok tt.

End Register.

(** ** The bootstrap *)

Inductive BootstrapError : Type :=
| AttestationFailed (e : ClientError)
| QuoteRefused (e : QuoteError).

Section Bootstrap.
Context `{X : Externals} `{B : !BuilderExternals X} `{A : Abi} `{Hx : HexCodec} `{C : HttpClient}.
Context `{F : FileSystem} `{H : SeedHash} `{R : RpcProvider}.

(** [report_data[i..i + n].copy_from_slice(src)] *)
Definition copy_at (l : Bytes) (i : nat) (src : Bytes) : Bytes :=
  take i l ++ src ++ drop (i + length src) l.

Definition report_data_of (tee_address : Address) (ext_data_hash : B256) : Bytes :=
  let report_data := repeat 0 64 in
  let report_data := copy_at report_data 0 (to_be_bytes 20 tee_address) in
  copy_at report_data 20 (to_be_bytes 32 ext_data_hash).

(** [FlashtestationsBuilderTx::new] with the fields of its arguments. *)
Definition new_flashtestations (attestation ext_data : Bytes) (tee_signer : Signer)
    (registry policy : Address) (version : Z) (block_proofs registered : bool) (builder_key : Signer)
    : FlashtestationsBuilderTx :=
  mkFlashtestations attestation ext_data tee_signer registry policy version registered block_proofs
    builder_key.

(** Registering over an external RPC, when there is one; a failure is only logged, a panic is not
    caught. *)
Definition try_register (args : FlashtestationsArgs) (tee_signer builder_key : Signer) (registry : Address)
    (now : option Z) (attestation ext_data : Bytes) : outcome BootstrapError bool :=
  match fa_rpc_url args with
  | None => Ok false
  | Some rpc_url =>
      match register_tee_service (mkTxManager tee_signer builder_key rpc_url registry) now attestation
              ext_data with
      | Ok _ => Ok true
      | Err _ => Ok false
      | Panic => Panic
      end
  end.

Definition bootstrap_flashtestations (args : FlashtestationsArgs) (builder_key : Signer) (random : Z)
    (now : option Z) (d : fs) : outcome BootstrapError FlashtestationsBuilderTx * fs :=
  let (key, d) :=
    load_or_generate_tee_key (fa_key_path args) (fa_debug args) (fa_debug_tee_key_seed args) random d in
  (let? tee_service_signer := key in
   let? registry_address := expect (fa_registry_address args) in
   let? builder_policy_address := expect (fa_builder_policy_address args) in
   let? attestation_provider :=
     get_attestation_provider (mkAttestationConfig (fa_debug args) (fa_quote_provider args)) in
   let ext_data := [] in
   let report_data := report_data_of (signer_address tee_service_signer) (keccak256 ext_data) in
   let? attestation := map_err AttestationFailed (get_attestation attestation_provider report_data) in
   let? _ := map_err QuoteRefused
               (record_tee_metrics attestation (signer_address tee_service_signer)) in
   let? registered :=
     try_register args tee_service_signer builder_key registry_address now attestation ext_data in
   Ok (new_flashtestations attestation ext_data tee_service_signer registry_address
         builder_policy_address (fa_builder_proof_version args) (fa_enable_block_proofs args)
         registered builder_key), d).

End Bootstrap.

(** ** The laws *)

Definition is_hex_digit (c : Z) : Prop := 48 <= c <= 57 \/ 97 <= c <= 102.

(** Encoding in hexadecimal can be undone, and gives lower-case digits, two for a byte. *)
Class HexLaws `{HexCodec} : Prop := {
  hex_roundtrip b : Forall is_byte b -> hex_decode (hex_encode b) = Some b;
  hex_digits b : Forall is_byte b -> Forall is_hex_digit (hex_encode b);
  hex_length b : length (hex_encode b) = (2 * length b)%nat;
}.

(** What was written is there to be read. *)
Class FileLaws `{FileSystem} : Prop :=
  written_read d path t d' :
    create_and_write d path t = (inr tt, d') ->
    path_exists d' path = true /\ read_to_string d' path = inr t.

(** A quote of the device is a TDX quote over the report data it was asked for. *)
Class TdxLaws `{ServerExternals} : Prop :=
  tdx_quote r q v :
    get_attestation_report_raw_with_options (Some r) = inr (q, v) ->
    exists header b rest, q = header ++ encode_report_body b ++ rest /\
      length header = HEADER_LENGTH /\ wf_report_body b /\ td_report_data b = r.

(** The service at [url] answers requests for report data as the quote server with this provider. *)
Definition serves `{ServerExternals} `{HexCodec} `{HttpClient} (url : Text) (p : QuoteProvider) : Prop :=
  forall r, length r = 64%nat -> Forall is_byte r ->
    http_get (url ++ text "/" ++ hex_encode r)
      = inr (status (attest_handler (hex_encode r) p), inr (body (attest_handler (hex_encode r) p))).

(** ** Lemmas *)

Lemma trim_start_id t : Forall (fun c => is_whitespace c = false) t -> trim_start t = t.
Proof. destruct 1 as [|c t Hc _]; simpl; [done|]. by rewrite Hc. Qed.

Lemma trim_id t : Forall (fun c => is_whitespace c = false) t -> trim t = t.
Proof.
  intros H. unfold trim. rewrite (trim_start_id t) by done.
  rewrite trim_start_id by (by apply Forall_reverse). apply reverse_involutive.
Qed.

Lemma hex_digit_no_space c : is_hex_digit c -> is_whitespace c = false.
Proof.
  intros Hn. unfold is_whitespace, is_hex_digit in *. repeat apply orb_false_iff, conj;
    try apply andb_false_iff; rewrite ?Z.leb_gt, ?Z.eqb_neq; lia.
Qed.

Lemma hex_no_space `{HexLaws} b :
  Forall is_byte b -> Forall (fun c => is_whitespace c = false) (hex_encode b).
Proof. intros Hb%hex_digits. eapply Forall_impl; [exact Hb|]. apply hex_digit_no_space. Qed.

Section Lemmas.
Context `{X : Externals} `{B : !BuilderExternals X} `{A : Abi} `{Hx : HexCodec} `{C : HttpClient}.
Context `{F : FileSystem} `{H : SeedHash} `{R : RpcProvider} `{S : ServerExternals}.
Context `{HL : !HexLaws} `{FLs : !FileLaws}.

(** A secret key: 32 bytes that are a valid scalar. *)
Definition valid_secret (z : Z) : Prop := 0 <= z < 256 ^ 32 /\ secret_key_error z = None.

(** A key that was written is the one that is loaded. *)
Lemma written_key_loads d path random d' :
  valid_secret random ->
  create_and_write d path (hex_encode (secret_bytes (generate_signer random))) = (inr tt, d') ->
  load_tee_key d' path = Some (generate_signer random).
Proof using HL FLs.
  intros [Hr Hv] Hw. apply written_read in Hw as [He Hrd]. unfold load_tee_key. rewrite He, Hrd. simpl.
  rewrite trim_id by apply hex_no_space, to_be_bytes_byte. unfold secret_bytes. simpl.
  rewrite hex_roundtrip by apply to_be_bytes_byte. unfold try_into_array.
  rewrite length_to_be_bytes. simpl. rewrite from_to_be_bytes by exact Hr.
  unfold try_from_secret. by rewrite Hv.
Qed.

(** The handler, branch by branch. *)
Lemma attest_handler_ok r p :
  length r = 64%nat -> Forall is_byte r ->
  attest_handler (hex_encode r) p =
  match provider_get_attestation p r with
  | Ok q => mkResponse OK (Some "application/octet-stream"%string) q
  | _ => mkResponse INTERNAL_SERVER_ERROR None (json_message "Failed to get TDX attestation")
  end.
Proof using HL.
  intros Hl Hb. unfold attest_handler. rewrite hex_roundtrip by done. unfold try_into_array.
  rewrite Hl. simpl. by destruct (provider_get_attestation p r).
Qed.

Lemma served_attestation url p r :
  serves url p -> length r = 64%nat -> Forall is_byte r ->
  get_attestation (mkRemote url) r =
  match provider_get_attestation p r with
  | Ok q => Ok q
  | _ => Err (ErrorStatus INTERNAL_SERVER_ERROR)
  end.
Proof using HL.
  intros Hs Hl Hb. unfold get_attestation. simpl service_url.
  rewrite Hs, attest_handler_ok by done.
  by destruct (provider_get_attestation p r).
Qed.

(** The report data: the address of the key, the hash of the registration data, and zeros. *)
Lemma report_data_parts a h :
  report_data_of a h = to_be_bytes 20 a ++ to_be_bytes 32 h ++ repeat 0 12.
Proof.
  unfold report_data_of, copy_at. rewrite !length_to_be_bytes. rewrite take_0. cbn [app Nat.add].
  assert (Hl : length (to_be_bytes 20 a) = 20%nat) by apply length_to_be_bytes.
  by rewrite take_app_length', drop_app_ge, Hl by lia.
Qed.

Lemma report_data_wf a h : length (report_data_of a h) = 64%nat /\ Forall is_byte (report_data_of a h).
Proof.
  rewrite report_data_parts. split.
  - by rewrite !length_app, !length_to_be_bytes.
  - rewrite !Forall_app. split_and!; [apply to_be_bytes_byte..|]. by repeat constructor.
Qed.

(** They are in the quote the device makes for them. *)
Lemma report_data_in_quote header b rest a h :
  length header = HEADER_LENGTH -> wf_report_body b -> td_report_data b = report_data_of a h ->
  slice (header ++ encode_report_body b ++ rest) 568 588 = to_be_bytes 20 a /\
  slice (header ++ encode_report_body b ++ rest) 588 620 = to_be_bytes 32 h.
Proof.
  intros Hh Hwf Hrd. pose proof (td_field b rest 14 _ _ Hwf eq_refl) as Hf. rewrite Hrd in Hf.
  change (slice (encode_report_body b ++ rest) 520 584 = report_data_of a h) in Hf.
  unfold HEADER_LENGTH in Hh.
  rewrite !(slice_app_skip header) by lia. rewrite Hh. change (568 - 48)%nat with 520%nat.
  change (588 - 48)%nat with 540%nat. change (620 - 48)%nat with 572%nat.
  rewrite report_data_parts in Hf.
  split.
  - rewrite (slice_sub _ 520 584 520 540), Hf by lia. apply slice_app_front, length_to_be_bytes.
  - rewrite (slice_sub _ 520 584 540 572), Hf by lia.
    rewrite slice_app_skip; rewrite length_to_be_bytes; [|lia]. apply slice_app_front, length_to_be_bytes.
Qed.

(** What was done on the chain when a registration succeeded. *)
Record registered_by (self : TxManager) (now : option Z) (att data : Bytes) : Prop := {
  reg_sent : exists secs nonce struct_hash hash sig h h', now = Some secs /\
    (exists r, rpc_call 0 (call_of (tm_registry_address self)
       (noncesCall (signer_address (tm_tee_service_signer self)))) = inr r /\ u256_from_be_slice r = Some nonce) /\
    rpc_call 1 (call_of (tm_registry_address self)
      (registryComputeStructHashCall att data nonce (add64 secs 3600))) = inr struct_hash /\
    rpc_call 2 (call_of (tm_registry_address self)
      (registryHashTypedDataV4Call (from_be_bytes struct_hash))) = inr hash /\
    sign_message (tm_tee_service_signer self) (from_be_bytes hash) = Ok sig /\
    send_transaction (permit_request self att data nonce (add64 secs 3600) sig) = inr (h, inr (true, h'));
}.

Lemma register_tee_service_Ok self now att data :
  register_tee_service self now att data = Ok tt -> registered_by self now att data.
Proof.
  unfold register_tee_service. intros (u1 & _ & E)%bind_Ok. apply bind_Ok in E as (u2 & _ & E).
  apply bind_Ok in E as (r & Hn & E). apply bind_Ok in E as (nonce & Hnn & E).
  apply bind_Ok in E as (secs & Hs & E). apply bind_Ok in E as (sh & H1 & E).
  apply bind_Ok in E as (sh' & Hb1 & E). apply bind_Ok in E as (mh & H2 & E).
  apply bind_Ok in E as (mh' & Hb2 & E). apply bind_Ok in E as (sig & Hsig & E).
  apply bind_Ok in E as (h & Hp & _).
  unfold b256_from_slice in *. split. exists secs, nonce, sh, mh, sig.
  destruct (rpc_call 0 _) as [|r0]; simplify_eq/=. destruct (u256_from_be_slice r) eqn:Hu; simplify_eq/=.
  destruct now as [now|]; simplify_eq/=.
  destruct (rpc_call 1 _) as [|r1] eqn:E1; simplify_eq/=. destruct (length sh =? 32)%nat; simplify_eq/=.
  destruct (rpc_call 2 _) as [|r2] eqn:E2; simplify_eq/=. destruct (length mh =? 32)%nat; simplify_eq/=.
  destruct (sign_message _ _) eqn:E3; simplify_eq/=.
  destruct (send_transaction _) as [|[h0 [|[[] h1]]]] eqn:E4; simplify_eq/=.
  exists h0, h. split_and!; try done. by exists r.
Qed.

End Lemmas.

(** ** A quote server, a disk and a registry *)
Module TestAttestation.
Import TestQuote.

Definition digit (n : Z) : Z := if n <? 10 then 48 + n else 87 + n.
Definition undigit (c : Z) : option Z :=
  if (48 <=? c) && (c <=? 57) then Some (c - 48)
  else if (97 <=? c) && (c <=? 102) then Some (c - 87)
  else if (65 <=? c) && (c <=? 70) then Some (c - 55)
  else None.
Definition test_encode (b : Bytes) : Text := b ≫= (fun x => [digit (x / 16); digit (x mod 16)]).
Fixpoint test_decode (t : Text) : option Bytes :=
  match t with
  | [] => Some []
  | [_] => None
  | a :: b :: t' =>
      match undigit a, undigit b, test_decode t' with
      | Some x, Some y, Some l => Some (x * 16 + y :: l)
      | _, _, _ => None
      end
  end.
#[export] Instance test_hex : HexCodec := {| hex_encode := test_encode; hex_decode := test_decode |}.

Lemma undigit_digit n : 0 <= n < 16 -> undigit (digit n) = Some n.
Proof.
  intros Hn. unfold digit. destruct (Z.ltb_spec n 10); unfold undigit.
  - rewrite (proj2 (Z.leb_le _ _)), (proj2 (Z.leb_le _ _)) by lia. simpl. f_equal. lia.
  - rewrite (proj2 (Z.leb_gt (87 + n) 57)), andb_false_r by lia.
    rewrite (proj2 (Z.leb_le _ _)), (proj2 (Z.leb_le _ _)) by lia. simpl. f_equal. lia.
Qed.

Lemma digit_range n : 0 <= n < 16 -> 48 <= digit n <= 57 \/ 97 <= digit n <= 102.
Proof. intros Hn. unfold digit. destruct (Z.ltb_spec n 10); lia. Qed.

Lemma byte_digits b : is_byte b -> 0 <= b / 16 < 16 /\ 0 <= b mod 16 < 16.
Proof.
  intros [H0 H1]. split; [|by apply Z.mod_pos_bound].
  split; [apply Z.div_pos; lia|apply Z.div_lt_upper_bound; lia].
Qed.

#[export] Instance test_hex_laws : HexLaws.
Proof.
  split; [intros b Hb..|intros b]; cbn [hex_encode hex_decode test_hex].
  - induction Hb as [|x l Hx Hl IH]; [done|]. destruct (byte_digits _ Hx).
    change (test_encode (x :: l)) with (digit (x / 16) :: digit (x mod 16) :: test_encode l).
    cbn [test_decode]. rewrite !undigit_digit, IH by done. do 2 f_equal.
    rewrite Z.mul_comm. symmetry. by apply Z.div_mod.
  - induction Hb as [|x l Hx Hl IH]; [constructor|]. destruct (byte_digits _ Hx).
    change (test_encode (x :: l)) with (digit (x / 16) :: digit (x mod 16) :: test_encode l).
    apply Forall_cons; split; [by apply digit_range|]. apply Forall_cons; split; [by apply digit_range|done].
  - induction b as [|x b IH]; [done|].
    change (test_encode (x :: b)) with (digit (x / 16) :: digit (x mod 16) :: test_encode b).
    simpl in *. lia.
Qed.

(** A device that signs the sample measurements. *)
Definition test_device (r : option Bytes) : Z + (Bytes * option Bytes) :=
  match r with
  | Some r =>
      if (length r =? 64)%nat && forallb (fun b => (0 <=? b) && (b <? 256)) r
      then inr (sample_quote r, None) else inl 1
  | None => inl 2
  end.
#[export] Instance test_server : ServerExternals := {|
  get_attestation_report_raw_with_options := test_device;
  read_mock_file _ := inl 3;
  json_message _ := [];
|}.

#[export] Instance test_tdx_laws : TdxLaws.
Proof.
  intros r q v. cbn. destruct (length r =? 64)%nat eqn:Hl; [|done].
  destruct (forallb _ r) eqn:Hb; [|done]. intros [= <- <-]. apply Nat.eqb_eq in Hl.
  exists (repeat 0 48), (sample_body r 9), [1; 2; 3]. split_and!; try done.
  apply sample_body_wf; [done| |unfold is_byte; lia].
  apply Forall_forall. intros x Hx. rewrite forallb_forall in Hb.
  apply list_elem_of_In in Hx. specialize (Hb x Hx). reflect_bools. by split.
Qed.

Definition test_url : Text := text "http://quotes/attest".
#[export] Instance test_http : HttpClient := fun url =>
  let prefix := test_url ++ text "/" in
  let r := attest_handler (drop (length prefix) url) TdxAttestationProvider in
  if decide (take (length prefix) url = prefix) then inr (status r, inr (body r)) else inl 0.

Lemma test_serves : serves test_url TdxAttestationProvider.
Proof.
  intros r _ _. unfold http_get, test_http. rewrite app_assoc, take_app_length, drop_app_length.
  by rewrite decide_True.
Qed.

(** A disk: the contents of the files, the last one written first; [true] means it is read-only. *)
#[export] Instance test_disk : FileSystem := {|
  fs := bool * list (Text * Text);
  path_exists d p := existsb (fun f => bool_decide (fst f = p)) (snd d);
  read_to_string d p :=
    match find (fun f => bool_decide (fst f = p)) (snd d) with Some (_, t) => inr t | None => inl 0 end;
  create_and_write d p t := if fst d then (inl 0, d) else (inr tt, (false, (p, t) :: snd d));
|}.

#[export] Instance test_file_laws : FileLaws.
Proof.
  intros [[] l] p t d'; cbn; [done|]. intros [= <-]. cbn. by rewrite bool_decide_true.
Qed.

#[export] Instance test_seed : SeedHash := fun _ => 5.
#[export] Instance test_rpc : RpcProvider := {|
  connect _ := inr tt;
  rpc_call n _ := inr (to_be_bytes 32 (Z.of_nat n));
  send_transaction _ := inr (7, inr (true, 7));
  private_key_signer _ := inr tt;
  u256_from_be_slice b := Some (from_be_bytes b);
|}.

Definition disk_of (read_only : bool) (files : list (Text * Text)) : fs := (read_only, files).

Definition test_args (rpc : option Text) : FlashtestationsArgs :=
  mkFlashtestationsArgs true false [] (text "/run/flashtestation.key") (Some test_url) rpc false
    (Some 800) (Some 801) 1.

End TestAttestation.

Import TestChain TestSigner TestAbi TestQuote TestAttestation.

(** ** Properties *)

(** C35: the TEE key survives restarts.  Outside the debug mode, take any sequence of starts, each with its
    own random numbers.  If the disk holds a usable key, every start has this key, and the disk is not
    touched.  If it holds none and the key that the first start generates can be written, every start has
    this key, and only the first writes.  But on a disk that holds no usable key and to which no key can
    be written, every start has the key it generates anew. *)
Theorem tee_key_persists `{X : Externals} `{B : !BuilderExternals X} `{HexCodec} `{!HexLaws}
    `{F : FileSystem} `{!FileLaws} `{SeedHash} path :
  (forall (d : fs) signer runs, load_tee_key d path = Some signer ->
     starts path runs d = (repeat signer (length runs), d)) /\
  (forall (d d' : fs) seed random runs,
     load_tee_key d path = None -> valid_secret random ->
     create_and_write d path (hex_encode (secret_bytes (generate_signer random))) = (inr tt, d') ->
     starts path ((seed, random) :: runs) d = (repeat (generate_signer random) (S (length runs)), d')) /\
  (forall (stuck : fs -> Prop), (forall d, stuck d -> unwritable path stuck d) ->
     forall d runs, stuck d -> (starts path runs d).1 = (fun '(_, random) => generate_signer random) <$> runs).
Proof.
  assert (Hload : forall (d : fs) signer runs, load_tee_key d path = Some signer ->
    starts path runs d = (repeat signer (length runs), d)).
  { intros d signer runs Hl. induction runs as [|[seed random] runs IH]; [done|]. simpl.
    unfold load_or_generate_tee_key. rewrite Hl. simpl. by rewrite IH. }
  split_and!; [done| |].
  - intros d d' seed random runs Hn Hv Hw. simpl. unfold load_or_generate_tee_key. rewrite Hn, Hw. simpl.
    by rewrite (Hload _ _ _ (written_key_loads _ _ _ _ Hv Hw)).
  - intros stuck Hs d runs. revert d. induction runs as [|[seed random] runs IH]; intros d Hd; [done|].
    destruct (Hs _ Hd) as [Hn Hw]. simpl. unfold load_or_generate_tee_key. rewrite Hn.
    destruct (Hw (hex_encode (secret_bytes (generate_signer random)))) as (e & d2 & Hc & Hd2). rewrite Hc. simpl.
    specialize (IH _ Hd2). by destruct (starts path runs d2) as [keys d3]; simpl in *; rewrite IH.
Qed.

(** Three starts on a disk that can be written, and on one that cannot. *)
Lemma tee_key_persists_witness :
  (starts (X := chain) (text "key") [([], 7); ([], 9); ([], 11)] (disk_of false [])).1
    = repeat (generate_signer (X := chain) 7) 3 /\
  (starts (X := chain) (text "key") [([], 7); ([], 9)] (disk_of true [])).1
    = [generate_signer (X := chain) 7; generate_signer (X := chain) 9].
Proof.
  destruct (tee_key_persists (X := chain) (text "key")) as (_ & H2 & H3). split.
  - rewrite (H2 (disk_of false [])
      (disk_of false [(text "key", hex_encode (secret_bytes (generate_signer (X := chain) 7)))]));
      [reflexivity|reflexivity|split; [lia|reflexivity]|reflexivity].
  - apply (H3 (fun d => d = disk_of true [])); [|reflexivity]. intros d ->. split; [reflexivity|].
    intros t. by do 2 eexists.
Defined.

(** A key file that is there but of no use is overwritten. *)
Lemma unusable_key_overwritten `{X : Externals} `{B : !BuilderExternals X} `{HexCodec} `{F : FileSystem}
    `{!FileLaws} `{SeedHash} {E} path seed random (d d' : fs) old :
  path_exists d path = true -> read_to_string d path = inr old -> hex_decode (trim old) = None ->
  create_and_write d path (hex_encode (secret_bytes (generate_signer random))) = (inr tt, d') ->
  load_or_generate_tee_key (E := E) path false seed random d = (Ok (generate_signer random), d') /\
  read_to_string d' path = inr (hex_encode (secret_bytes (generate_signer random))).
Proof.
  intros He Hr Hh Hw. unfold load_or_generate_tee_key, load_tee_key. rewrite He, Hr. cbn. rewrite Hh, Hw.
  split; [done|]. by apply written_read in Hw as [_ ?].
Qed.

(** The quote server and its client fit.  Asked over the wire for any 64 bytes of report data, the
    client gets exactly what the provider behind the server returns, and an error exactly when the
    provider fails; the server answers 400 exactly to requests that are not 64 bytes in hexadecimal. *)
Theorem served_attestation_spec `{ServerExternals} `{HexCodec} `{!HexLaws} `{HttpClient} url p :
  serves url p ->
  (forall r, length r = 64%nat -> Forall is_byte r ->
     get_attestation (mkRemote url) r =
     match provider_get_attestation p r with
     | Ok q => Ok q
     | _ => Err (ErrorStatus INTERNAL_SERVER_ERROR)
     end) /\
  (forall appdata, status (attest_handler appdata p) = BAD_REQUEST <->
     ~ exists r, hex_decode appdata = Some r /\ length r = 64%nat).
Proof.
  intros Hs. split; [intros r Hl Hb; by apply served_attestation|].
  intros a. unfold attest_handler, try_into_array. destruct (hex_decode a) as [r|]; simpl.
  - destruct (Nat.eqb_spec (length r) 64) as [Hl|Hl].
    + split; [|naive_solver]. by destruct (provider_get_attestation p r).
    + split; [|done]. intros _ (r' & [= <-] & Hr). done.
  - split; [|done]. intros _ (r & Hr & _). discriminate.
Qed.

Lemma served_attestation_spec_witness :
  get_attestation (mkRemote test_url) (repeat 15 64) = Ok (sample_quote (repeat 15 64)) /\
  status (attest_handler (text "00ff") TdxAttestationProvider) = BAD_REQUEST.
Proof.
  destruct (served_attestation_spec test_url TdxAttestationProvider test_serves) as [H1 H2]. split.
  - rewrite H1; [reflexivity|reflexivity|]. apply repeat_byte. unfold is_byte. lia.
  - apply H2. intros (r & [= <-] & Hr). discriminate.
Defined.

(** C31: a builder that starts with flashtestations is attested for its own key, when the quote provider
    that is configured serves the repository's TDX provider.  The quote it holds was made by the device
    for report data that begin with the address of its TEE key, followed by the hash of the registration
    data it will register with; the quote can be parsed; and it counts as registered only if the registry
    confirmed a transaction with this quote and a permit that this key signed.  (The code does not compare
    the report data in the quote with its key: another provider may serve another quote.) *)
Theorem bootstrap_attested `{X : Externals} `{B : !BuilderExternals X} `{A : Abi} `{HexCodec} `{!HexLaws}
    `{HttpClient} `{F : FileSystem} `{SeedHash} `{R : RpcProvider} `{ServerExternals} `{!TdxLaws}
    args builder_key random now d ft d' url :
  bootstrap_flashtestations args builder_key random now d = (Ok ft, d') ->
  fa_quote_provider args = Some url -> serves url TdxAttestationProvider ->
  slice (ft_attestation ft) 568 588 = to_be_bytes 20 (signer_address (ft_tee_service_signer ft)) /\
  slice (ft_attestation ft) 588 620 = to_be_bytes 32 (keccak256 (ft_extra_registration_data ft)) /\
  is_ok (compute_workload_id (ft_attestation ft)) = true /\
  (ft_registered ft = true -> exists rpc_url, fa_rpc_url args = Some rpc_url /\
     registered_by (mkTxManager (ft_tee_service_signer ft) builder_key rpc_url (ft_registry_address ft)) now
       (ft_attestation ft) (ft_extra_registration_data ft)) /\
  ft_builder_signer ft = builder_key.
Proof.
  unfold bootstrap_flashtestations. destruct (load_or_generate_tee_key _ _ _ _ _) as [key d1].
  intros [= E <-] Hurl Hs. apply bind_Ok in E as (signer & _ & E). apply bind_Ok in E as (registry & _ & E).
  apply bind_Ok in E as (policy & _ & E). apply bind_Ok in E as (prov & Hp & E).
  apply bind_Ok in E as (att & Ha & E). apply bind_Ok in E as (m & Hm & E).
  apply bind_Ok in E as (reg & Hr & [= <-]).
  cbn [new_flashtestations ft_attestation ft_extra_registration_data ft_tee_service_signer ft_registered
    ft_registry_address ft_builder_signer].
  assert (prov = mkRemote url) as ->.
  { unfold get_attestation_provider in Hp. rewrite Hurl in Hp. cbn in Hp. destruct (fa_debug args); congruence. }
  destruct (report_data_wf (signer_address signer) (keccak256 [])) as [Hl Hb].
  rewrite (served_attestation url TdxAttestationProvider _ Hs Hl Hb) in Ha.
  cbn [provider_get_attestation] in Ha.
  destruct (get_attestation_report_raw_with_options _) as [|[q v]] eqn:Hq; [discriminate|].
  cbn [map_err] in Ha. injection Ha as <-.
  apply tdx_quote in Hq as (header & b & rest & -> & Hh & Hwf & Hrd).
  destruct (report_data_in_quote _ _ rest _ _ Hh Hwf Hrd) as [Hs1 Hs2].
  split; [exact Hs1|]. split; [exact Hs2|]. split_and!.
  - unfold compute_workload_id. by rewrite parse_encoded.
  - intros ->. unfold try_register in Hr. destruct (fa_rpc_url args) as [rpc|]; [|done].
    destruct (register_tee_service _ _ _ _) as [[]| |] eqn:Hreg; simplify_eq/=.
    exists rpc. split; [done|]. by apply register_tee_service_Ok in Hreg.
  - done.
Qed.

Lemma bootstrap_attested_witness :
  exists ft d', bootstrap_flashtestations (X := chain) (test_args (Some (text "http://rpc")))
      (mkSigner 50 1) 7 (Some 1000) (disk_of false []) = (Ok ft, d') /\
    ft_registered ft = true /\
    slice (ft_attestation ft) 568 588 = to_be_bytes 20 (signer_address (ft_tee_service_signer ft)).
Proof.
  destruct (bootstrap_flashtestations (X := chain) (test_args (Some (text "http://rpc")))
    (mkSigner 50 1) 7 (Some 1000) (disk_of false [])) as [[ft| |] d'] eqn:E; [|vm_compute in E; discriminate..].
  exists ft, d'. split; [reflexivity|]. split; [by vm_compute in E; injection E as <- _|].
  apply (bootstrap_attested (X := chain) (test_args (Some (text "http://rpc"))) (mkSigner 50 1) 7 (Some 1000)
    (disk_of false []) ft d' test_url E); [reflexivity|exact test_serves].
Defined.
