(* ===== verification/Config.v ===== *)
(** * Configuration and start-up

    Models the command line arguments ([args/op.rs], [args/mod.rs], [flashtestations/args.rs]), their
    conversion to the configuration ([builders/mod.rs], [builders/flashblocks/config.rs]), the
    decisions of the launcher ([launcher.rs]) and of the two service builders
    ([builders/flashblocks/service.rs], [builders/standard/service.rs]). *)

From S2P Require Import Prelude External ExecInfo GasLimiter Bundle PoolTx RevertProtection Sidecar Context Replay BuilderTx FlashblocksCtx BuilderTxImpls Timing BuildBlock Flashblocks BuildPayload P2p P2pBuild Quote Attestation.

(** ** The arguments *)

Record FlashblocksP2pArgs : Type := mkP2pArgs {
  pa_p2p_enabled : bool;
  pa_p2p_port : Z;
  pa_p2p_private_key_file : option Text;
  pa_p2p_known_peers : option Text;
  pa_p2p_max_peer_count : Z;
}.

Record SidecarArgs : Type := mkSidecarArgs {
  sa_endpoint : option string;
  sa_poll_timeout_ms : Z;
  sa_max_retries : Z;
}.

Record TelemetryArgs : Type := mkTelemetryArgs {
  ta_otlp_endpoint : option string;
  ta_otlp_headers : option string;
  ta_sampling_ratio : Z;
}.

Record FlashblocksArgs : Type := mkFlashblocksArgs {
  fba_enabled : bool;
  fba_port : Z;
  fba_addr : string;
  fba_block_time : Z;
  fba_fixed : bool;
  fba_leeway_time : Z;
  fba_disable_state_root : bool;
  fba_number_contract_address : option Address;
  fba_number_contract_use_permit : bool;
  fba_build_at_interval_end : bool;
  fba_send_offset_ms : Z;
  fba_end_buffer_ms : Z;
  fba_p2p : FlashblocksP2pArgs;
  fba_ws_subscriber_limit : option Z;
  fba_sidecar : SidecarArgs;
}.

(** Of the rollup arguments of reth the launcher decides with one flag. *)
Record OpRbuilderArgs : Type := mkArgs {
  a_enable_tx_conditional : bool;
  a_builder_signer : option Signer;
  a_chain_block_time : Z;
  a_max_gas_per_txn : option Z;
  a_log_pool_transactions : bool;
  a_extra_block_deadline_secs : Z;
  a_enable_revert_protection : bool;
  a_playground : option Text;
  a_flashblocks : FlashblocksArgs;
  a_telemetry : TelemetryArgs;
  a_flashtestations : FlashtestationsArgs;
  a_gas_limiter : GasLimiterArgs;
}.

(** What the command line parser fills in when no flag and no environment variable is set. *)
Definition default_p2p_args : FlashblocksP2pArgs := mkP2pArgs false 9009 None None 50.
Definition default_sidecar_args : SidecarArgs := mkSidecarArgs None 200 5.
Definition default_telemetry_args : TelemetryArgs := mkTelemetryArgs None None 100.
Definition default_flashblocks_args : FlashblocksArgs :=
  mkFlashblocksArgs false 1111 "127.0.0.1" 250 false 0 false None false false 0 0 default_p2p_args
    (Some 256) default_sidecar_args.
Definition default_args : OpRbuilderArgs :=
  mkArgs false None 1000 None false 20 false None default_flashblocks_args default_telemetry_args
    default_flashtestations_args (mkGasLimiterArgs false 10000000 1000000 100).

(** ** The configuration *)

(** [TryFrom<OpRbuilderArgs>] *)
Class TryFromArgs (S : Type) : Type := try_from_args : OpRbuilderArgs -> outcome Z S.
(** [str::parse::<IpAddr>] *)
Class IpParser : Type := parse_ip : string -> Z + string.

#[export] Instance unit_try_from : TryFromArgs unit := fun _ => Ok tt.

Definition sidecar_config_from (a : SidecarArgs) : SidecarConfig :=
  mkSidecarConfig (unwrap_or (sa_endpoint a) ""%string) (sa_poll_timeout_ms a) (sa_max_retries a).

Definition flashblocks_config_from `{IpParser} (args : OpRbuilderArgs) : outcome Z FlashblocksConfig :=
  let f := a_flashblocks args in
  let interval := from_millis (fba_block_time f) in
  let? addr := of_sum (fun e => e) (parse_ip (fba_addr f)) in
  let leeway_time := from_millis (fba_leeway_time f) in
  Ok (mkFlashblocksConfig addr (fba_port f) interval leeway_time (fba_fixed f)
        (fba_disable_state_root f) (fba_number_contract_address f)
        (fba_number_contract_use_permit f) (fba_build_at_interval_end f) (fba_send_offset_ms f)
        (fba_end_buffer_ms f) (pa_p2p_enabled (fba_p2p f)) (pa_p2p_port (fba_p2p f))
        (pa_p2p_private_key_file (fba_p2p f)) (pa_p2p_known_peers (fba_p2p f))
        (pa_p2p_max_peer_count (fba_p2p f)) (fba_ws_subscriber_limit f)
        (sidecar_config_from (fba_sidecar f))).
#[export] Instance flashblocks_try_from `{IpParser} : TryFromArgs FlashblocksConfig :=
  flashblocks_config_from.

Definition default_builder_config {S} (specific : S) : BuilderConfig S :=
  mkBuilderConfig None false default_flashtestations_args (from_secs 2) None None None
    (from_millis 500) 100 specific None (mkGasLimiterArgs false 0 0 0).

(** The limits of the default [OpDAConfig] and [OpGasLimitConfig] are unset. *)
Definition builder_config_from {S} `{!TryFromArgs S} (args : OpRbuilderArgs) : outcome Z (BuilderConfig S) :=
  let? specific := try_from_args args in
  Ok (mkBuilderConfig (a_builder_signer args) (a_enable_revert_protection args) (a_flashtestations args)
        (from_millis (a_chain_block_time args)) None None None
        (from_secs (a_extra_block_deadline_secs args)) (ta_sampling_ratio (a_telemetry args)) specific
        (a_max_gas_per_txn args) (a_gas_limiter args)).

(** ** The launcher *)

Inductive BuilderMode : Type := StandardMode | FlashblocksMode.
(** The subcommands: [node] with its arguments, and the others. *)
Inductive Commands : Type := NodeCommand (args : OpRbuilderArgs) | OtherCommand.

Definition builder_mode (command : Commands) : BuilderMode :=
  match command with
  | NodeCommand args => if fba_enabled (a_flashblocks args) then FlashblocksMode else StandardMode
  | OtherCommand => StandardMode
  end.

(** What a node is assembled from: the configuration of its payload service, whether the pool and the
    RPC handle conditional transactions, whether the revert protection RPC is added, and whether the
    events of the pool are monitored. *)
Record NodeSetup (S : Type) : Type := mkNodeSetup {
  ns_config : BuilderConfig S;
  ns_pool_tx_conditional : bool;
  ns_rpc_tx_conditional : bool;
  ns_revert_protection_rpc : bool;
  ns_monitor_tx_pool : bool;
}.
Arguments mkNodeSetup {S}.
Arguments ns_config {S} _.
Arguments ns_pool_tx_conditional {S} _.
Arguments ns_rpc_tx_conditional {S} _.
Arguments ns_revert_protection_rpc {S} _.
Arguments ns_monitor_tx_pool {S} _.

(** Revert protection uses the pool's handling of conditional transactions. *)
Definition pool_tx_conditional (args : OpRbuilderArgs) : bool :=
  a_enable_tx_conditional args || a_enable_revert_protection args.
Definition adds_revert_protection_rpc (args : OpRbuilderArgs) : bool := a_enable_revert_protection args.
Definition monitors_tx_pool (args : OpRbuilderArgs) : bool := a_log_pool_transactions args.

(** [entrypoint]: a configuration that cannot be converted panics. *)
Definition entrypoint {S} `{!TryFromArgs S} {E} (args : OpRbuilderArgs) : outcome E (NodeSetup S) :=
  match builder_config_from args with
  | Ok config =>
      Ok (mkNodeSetup config (pool_tx_conditional args) (a_enable_tx_conditional args)
            (adds_revert_protection_rpc args) (monitors_tx_pool args))
  | _ => Panic
  end.

(** The cache of dropped transactions of a node after the pool's [events]: only the monitor fills
    it. *)
Definition reverted_cache {S} (setup : NodeSetup S) (events : list FullTransactionEvent)
    (evict : nat -> gset B256 -> gset B256) : gset B256 :=
  if ns_monitor_tx_pool setup then monitor_tx_pool events evict ∅ else ∅.

(** ** The service builders *)

Inductive ServiceError : Type :=
| KeyFileUnreadable (e : Z)
| P2pFailed (e : P2pError).

(** [s.split(c)] *)
Fixpoint split_on (c : Z) (t : Text) : list Text :=
  match t with
  | [] => [[]]
  | x :: t' =>
      if x =? c then [] :: split_on c t'
      else match split_on c t' with
           | piece :: pieces => (x :: piece) :: pieces
           | [] => [[x]]
           end
  end.

Inductive FlashblocksServiceTx : Type :=
| NumberTx (t : FlashblocksNumberBuilderTx)
| PlainTx (t : FlashblocksBuilderTx).

Section Services.
Context `{X : Externals} `{B : !BuilderExternals X} `{A : Abi} `{Hx : HexCodec} `{C : HttpClient}.
Context `{F : FileSystem} `{H : SeedHash} `{R : RpcProvider}.

(** Flashtestations are bootstrapped when there is a builder key and they are enabled; a failure
    is logged, and the builder starts without them. *)
Definition start_flashtestations {S E} (config : BuilderConfig S) (random : Z) (now : option Z) (d : fs)
    : outcome E (option FlashtestationsBuilderTx) * fs :=
  match cfg_builder_signer config with
  | Some builder_key =>
      if fa_enabled (cfg_flashtestations_config config) then
        let (r, d) :=
          bootstrap_flashtestations (cfg_flashtestations_config config) builder_key random now d in
        (match r with Ok ft => Ok (Some ft) | Err _ => Ok None | Panic => Panic end, d)
      else (Ok None, d)
  | None => (Ok None, d)
  end.

(** The builder transactions of the standard service. *)
Definition standard_service_tx {E} (config : BuilderConfig unit) (random : Z) (now : option Z) (d : fs)
    : outcome E StandardBuilderTx * fs :=
  let (r, d) := start_flashtestations config random now d in
  (let? ft := r in Ok (mkStandard (cfg_builder_signer config) ft), d).

(** Those of the flashblocks service: with the number contract, when there is one and a key. *)
Definition flashblocks_service_tx {E} (config : FbConfig) (random : Z) (now : option Z) (d : fs)
    : outcome E FlashblocksServiceTx * fs :=
  let (r, d) := start_flashtestations config random now d in
  (let? ft := r in
   match cfg_builder_signer config, number_contract_address (cfg_specific config) with
   | Some builder_signer, Some address =>
       Ok (NumberTx (new_number_builder builder_signer address
             (number_contract_use_permit (cfg_specific config)) ft))
   | signer, _ => Ok (PlainTx (mkFlashblocksBuilder (mkStandard signer ft)))
   end, d).

(** The key of the node, from its file. *)
Definition p2p_key (d : fs) (file : option Text) : outcome ServiceError (option Text) :=
  match file with
  | Some private_key_file =>
      if (length private_key_file =? 0)%nat then Ok None
      else
        let? contents := of_sum KeyFileUnreadable (read_to_string d private_key_file) in
        Ok (Some (trim contents))
  | None => Ok None
  end.

(** The known peers: what does not parse is dropped. *)
Definition known_peers (parse_multiaddr : Text -> option Multiaddr) (peers : option Text) : list Multiaddr :=
  match peers with
  | Some peers => omap parse_multiaddr (split_on 44 peers)
  | None => []
  end.

Definition AGENT_VERSION : string := "op-rbuilder/1.0.0".

(** The builder of the node; [protocol] is [FLASHBLOCKS_STREAM_PROTOCOL]. *)
Definition p2p_builder (parse_multiaddr : Text -> option Multiaddr) (protocol : StreamProtocol)
    (cancel : nat) (config : FlashblocksConfig) (key : option Text) : NodeBuilder :=
  let builder := new_node_builder in
  let builder := match key with Some k => with_keypair_hex_string k builder | None => builder end in
  let builder := with_agent_version AGENT_VERSION builder in
  let builder := with_protocol protocol builder in
  let builder := with_known_peers (known_peers parse_multiaddr (p2p_known_peers config)) builder in
  let builder := with_port (p2p_port config) builder in
  let builder := with_cancellation_token cancel builder in
  with_max_peer_count (p2p_max_peer_count config) builder.

(** The node, when there is to be one, with the addresses that are logged and the receiver of the
    protocol. *)
Definition start_p2p `{Libp2p} (parse_multiaddr : Text -> option Multiaddr) (generated : PeerId)
    (protocol : StreamProtocol) (cancel : nat) (config : FlashblocksConfig) (d : fs)
    : outcome ServiceError (option (BuiltNode * list Multiaddr * nat)) :=
  if p2p_enabled config then
    let? key := p2p_key d (p2p_private_key_file config) in
    let builder := p2p_builder parse_multiaddr protocol cancel config key in
    let? node := map_err P2pFailed (try_build generated 0 builder) in
    let? addrs := map_err P2pFailed (multiaddrs (bn_peer_id node) (bn_listen_addrs node)) in
    let? incoming_message_rx := expect (bn_incoming_rxs node !! protocol) in
    Ok (Some (node, addrs, incoming_message_rx))
  else Ok None.

End Services.

(** ** Lemmas *)

(** The times a job computes before its first flashblock after the fallback block. *)
Definition job_times (config : FbConfig) (clock : SystemTime) (timestamp : Z) (ctx : FbCtx) (info : FbInfo)
    : outcome PayloadBuilderError FlashblocksExtraCtx :=
  let? _ := fallback_extra_ctx config in
  let? timing := derive_timing config clock timestamp in
  batch_extra_ctx config ctx info (tm_flashblocks_per_block timing).

(** The arguments with which they never panic: a flashblock takes at least a millisecond and at most
    a block, and with a fixed number of flashblocks the leeway is at most an interval. *)
Definition safe_times (args : OpRbuilderArgs) : Prop :=
  1 <= fba_block_time (a_flashblocks args) <= a_chain_block_time args /\
  (fba_fixed (a_flashblocks args) = true -> fba_build_at_interval_end (a_flashblocks args) = false ->
   fba_leeway_time (a_flashblocks args) <= fba_block_time (a_flashblocks args)).

(** The times on the command line are [u64]s. *)
Definition u64_times (args : OpRbuilderArgs) : Prop :=
  in_u64 (a_chain_block_time args) /\ in_u64 (fba_block_time (a_flashblocks args)) /\
  in_u64 (fba_leeway_time (a_flashblocks args)).

Lemma batch_extra_ctx_Panic config ctx info n :
  batch_extra_ctx config ctx info n = Panic <-> n = 0.
Proof. unfold batch_extra_ctx, div_panic. destruct (Z.eqb_spec n 0); naive_solver. Qed.

Lemma divide_time_positive {E} left int :
  0 < left < U64_MOD -> 0 < int -> exists n o, divide_time left int = (Ok (n, o) : outcome E _) /\ n <> 0.
Proof.
  intros Hl Hi. unfold divide_time. destruct (Z.eqb_spec int 0); [lia|].
  pose proof (Z.div_mod left int ltac:(lia)) as Hd. pose proof (Z.mod_pos_bound left int Hi) as Hm.
  destruct (Z.eqb_spec (left mod int) 0); (do 2 eexists; split; [done|]); [nia|].
  assert (0 <= left / int) by (apply Z.div_pos; lia).
  rewrite add64_exact by (unfold U64_MOD in *; nia). lia.
Qed.

Section Times.
Context `{IP : IpParser} (args : OpRbuilderArgs) (config : FbConfig).
Context (Hc : builder_config_from args = Ok config) (Hu : u64_times args).

Lemma config_times :
  cfg_block_time config = from_millis (a_chain_block_time args) /\
  interval (cfg_specific config) = from_millis (fba_block_time (a_flashblocks args)) /\
  leeway_time (cfg_specific config) = from_millis (fba_leeway_time (a_flashblocks args)) /\
  fixed (cfg_specific config) = fba_fixed (a_flashblocks args) /\
  build_at_interval_end (cfg_specific config) = fba_build_at_interval_end (a_flashblocks args).
Proof using Hc.
  unfold builder_config_from, try_from_args, flashblocks_try_from, flashblocks_config_from in Hc.
  apply bind_Ok in Hc as (c & Hs & [= <-]). apply bind_Ok in Hs as (a & _ & [= <-]). done.
Qed.

Lemma per_block_value {E} :
  flashblocks_per_block config =
  (if a_chain_block_time args =? 0 then Ok 0
   else if fba_block_time (a_flashblocks args) =? 0 then Panic
   else Ok (a_chain_block_time args / fba_block_time (a_flashblocks args)) : outcome E Z).
Proof using Hc Hu.
  destruct config_times as (Hb & Hi & _). destruct Hu as ([? ?] & [? ?] & _).
  unfold flashblocks_per_block. rewrite Hb, Hi, !as_millis_from_millis.
  destruct (Z.eqb_spec (a_chain_block_time args) 0); [done|].
  destruct (Z.eqb_spec (fba_block_time (a_flashblocks args)) 0); [done|]. f_equal.
  apply wrap64_small. split; [apply Z.div_pos; lia|].
  apply Z.div_lt_upper_bound; [lia|]. unfold in_u64 in *. nia.
Qed.

(** A request that comes when the block is already due gets the configured number of flashblocks. *)
Lemma late_left t : t <= 0 -> time_left t 0 = None.
Proof.
  intros Ht. unfold time_left, duration_since. destruct (Z.ltb_spec t 0); [done|].
  by replace t with 0 by lia.
Qed.

Lemma system_time_leeway {E} ts :
  0 <= ts < 2 ^ 63 ->
  system_time (from_secs ts) = (Ok (from_secs ts) : outcome E _) /\
  system_time (from_secs ts - leeway_time (cfg_specific config))
    = (Ok (from_secs ts - leeway_time (cfg_specific config)) : outcome E _).
Proof using Hc Hu.
  intros Hts. destruct config_times as (_ & _ & Hl & _). destruct Hu as (_ & _ & [H5 H6]).
  rewrite Hl. unfold system_time, from_secs, from_millis, SECOND, MILLI, U64_MOD in *. split.
  - rewrite Z.div_mul by done. by rewrite (proj2 (Z.leb_le _ _)), (proj2 (Z.ltb_lt _ _)) by lia.
  - set (t := ts * 1000000000 - _).
    assert (- 2 ^ 63 <= t / 1000000000) by (apply Z.div_le_lower_bound; lia).
    assert (t / 1000000000 < 2 ^ 63) by (apply Z.div_lt_upper_bound; lia).
    by rewrite (proj2 (Z.leb_le _ _)), (proj2 (Z.ltb_lt _ _)) by lia.
Qed.

Lemma late_times_safe ctx info : job_times config 0 0 ctx info <> Panic -> safe_times args.
Proof using Hc Hu.
  intros Hnp. destruct config_times as (Hb & Hi & Hl & Hf & Hend).
  destruct (system_time_leeway (E := PayloadBuilderError) 0 ltac:(lia)) as [Hs0 Hs1].
  unfold job_times, fallback_extra_ctx in Hnp.
  assert (Hlate : derive_timing config 0 0 <> Panic -> exists tm, derive_timing config 0 0 = Ok tm /\
    flashblocks_per_block config = (Ok (tm_flashblocks_per_block tm) : outcome PayloadBuilderError Z) /\
    (fixed (cfg_specific config) = true -> build_at_interval_end (cfg_specific config) = false ->
     leeway_time (cfg_specific config) <= interval (cfg_specific config))).
  { unfold derive_timing, calculate_flashblocks_timing, calculate_flashblocks, dur_sub.
    rewrite Hs0. cbn [bind]. rewrite Hs1. cbn [bind]. rewrite !late_left
      by (rewrite ?Hl; destruct Hu as (_ & _ & [? _]); unfold from_secs, from_millis, MILLI; lia).
    destruct (flashblocks_per_block config) as [n|e|] eqn:Hn; [| |by repeat case_match].
    - repeat case_match; simplify_eq/=; intros; try done; (eexists; split_and!; [done..|]); try done.
      intros _ _. reflect_bools. lia.
    - unfold flashblocks_per_block in Hn. by repeat case_match. }
  pose proof (per_block_value (E := PayloadBuilderError)) as Hper.
  destruct Hu as ([H1 H2] & [H3 H4] & [H5 H6]).
  assert (Hd : derive_timing config 0 0 <> Panic).
  { intros E. rewrite E in Hnp. rewrite Hper in Hnp. repeat case_match; by apply Hnp. }
  destruct (Hlate Hd) as (tm & Htm & Hn & Hfix). rewrite Hn, Htm in Hnp. cbn [bind] in Hnp.
  rewrite batch_extra_ctx_Panic in Hnp. rewrite Hn in Hper.
  destruct (Z.eqb_spec (a_chain_block_time args) 0); [congruence|].
  destruct (Z.eqb_spec (fba_block_time (a_flashblocks args)) 0); [done|]. injection Hper as Hper.
  split.
  - split; [lia|]. destruct (Z.lt_ge_cases (a_chain_block_time args) (fba_block_time (a_flashblocks args))); [|done].
    rewrite Z.div_small in Hper by lia. done.
  - rewrite <- Hf, <- Hend. intros E1 E2. specialize (Hfix E1 E2). rewrite Hl, Hi in Hfix.
    unfold from_millis, MILLI in Hfix. lia.
Qed.

Lemma safe_per_block {E} :
  safe_times args -> exists n, flashblocks_per_block config = (Ok n : outcome E Z) /\ n <> 0.
Proof using Hc Hu.
  intros [[H1 H2] _]. rewrite per_block_value. destruct (Z.eqb_spec (a_chain_block_time args) 0); [lia|].
  destruct (Z.eqb_spec (fba_block_time (a_flashblocks args)) 0); [lia|]. eexists. split; [done|].
  assert (1 <= a_chain_block_time args / fba_block_time (a_flashblocks args))
    by (apply Z.div_le_lower_bound; lia). lia.
Qed.

(** What is left of the block is divided into at least one flashblock. *)
Lemma safe_divide {E} target now d :
  safe_times args -> time_left target now = Some d ->
  exists n o, divide_time (wrap64 (as_millis (Z.min d (cfg_block_time config))))
    (wrap64 (as_millis (interval (cfg_specific config)))) = (Ok (n, o) : outcome E _) /\ n <> 0.
Proof using Hc Hu.
  intros [[H1 H2] _] [-> Hd]%time_left_Some. destruct config_times as (Hb & Hi & _). rewrite Hi, Hb.
  destruct Hu as ([? ?] & [? ?] & _).
  rewrite as_millis_from_millis, (wrap64_small (fba_block_time _)) by (by split).
  assert (1 <= as_millis (Z.min (target - now) (from_millis (a_chain_block_time args)))).
  { apply as_millis_pos. unfold from_millis, MILLI in *. lia. }
  assert (as_millis (Z.min (target - now) (from_millis (a_chain_block_time args))) <= a_chain_block_time args).
  { rewrite <- (as_millis_from_millis (a_chain_block_time args)) at 2. apply as_millis_mono. lia. }
  rewrite wrap64_small by (split; lia). apply divide_time_positive; lia.
Qed.

Lemma safe_times_run clock ts ctx info :
  safe_times args -> 0 <= ts < 2 ^ 63 -> job_times config clock ts ctx info <> Panic.
Proof using Hc Hu.
  intros Hsafe Hts. destruct (system_time_leeway (E := PayloadBuilderError) ts Hts) as [Hs0 Hs1].
  destruct (safe_per_block (E := PayloadBuilderError) Hsafe) as (n & Hn & Hn0).
  destruct config_times as (_ & Hi & Hl & Hf & Hend).
  unfold job_times, fallback_extra_ctx. rewrite Hn. cbn [bind].
  apply bind_not_Panic.
  - unfold derive_timing, calculate_flashblocks_timing, calculate_flashblocks, dur_sub.
    rewrite Hs0, Hn. cbn [bind]. rewrite Hs1. cbn [bind].
    repeat case_match; try done; try (destruct (safe_divide (E := PayloadBuilderError) _ _ _ Hsafe ltac:(eassumption)) as (m & o & -> & _); cbn [bind]; by repeat case_match).
    exfalso. destruct Hsafe as [_ Hfix]. rewrite <- Hf, <- Hend in Hfix. reflect_bools.
    rewrite Hi, Hl in *. unfold from_millis, MILLI in *. lia.
  - intros tm Htm. rewrite batch_extra_ctx_Panic.
    revert Htm. unfold derive_timing, calculate_flashblocks_timing, calculate_flashblocks, dur_sub.
    rewrite Hs0, Hn. cbn [bind]. rewrite Hs1. cbn [bind].
    repeat case_match; intros; simplify_eq/=; try done;
      destruct (safe_divide (E := PayloadBuilderError) _ _ _ Hsafe ltac:(eassumption)) as (m & o & Hm & ?);
      rewrite Hm in *; simplify_eq/=; by repeat case_match; simplify_eq/=.
Qed.

(** Safe arguments give a configuration the theorems about jobs apply to. *)
Lemma safe_config_wf :
  safe_times args -> a_chain_block_time args < U64_MAX -> 0 <= fba_end_buffer_ms (a_flashblocks args) ->
  wf_config config.
Proof using Hc Hu.
  intros [[H1 H2] _] Hmax Hend. destruct config_times as (Hb & Hi & Hl & _).
  destruct Hu as ([? ?] & [? ?] & [? ?]).
  assert (He : end_buffer_ms (cfg_specific config) = fba_end_buffer_ms (a_flashblocks args)).
  { unfold builder_config_from, try_from_args, flashblocks_try_from, flashblocks_config_from in Hc.
    apply bind_Ok in Hc as (c & Hs & [= <-]). by apply bind_Ok in Hs as (a & _ & [= <-]). }
  unfold wf_config. rewrite Hb, Hi, Hl, He, !as_millis_from_millis. unfold from_millis, MILLI. lia.
Qed.

End Times.

(** The node the service builds is one it can report, and it has the receiver of the protocol: it
    listens on its default address only and has a single protocol. *)
Lemma start_p2p_node `{Libp2p} parse_multiaddr generated protocol cancel config `{FileSystem} (d : fs) :
  start_p2p parse_multiaddr generated protocol cancel config d <> Panic.
Proof.
  unfold start_p2p. destruct (p2p_enabled config); [|done].
  apply bind_not_Panic; [|intros key _].
  { unfold p2p_key. destruct (p2p_private_key_file config) as [f|]; [|done].
    case_match; [done|]. by destruct (read_to_string d f). }
  unfold p2p_builder. rewrite with_known_peers_eq. set (b := with_max_peer_count _ _).
  assert (Hb : nb_protocols b = [protocol] /\ nb_listen_addrs b = [] /\ nb_agent_version b = Some AGENT_VERSION).
  { unfold b. by destruct key. }
  destruct Hb as (Hp & Hl & Ha). clearbody b. apply bind_not_Panic.
  - intros Hn. destruct (try_build generated 0 b) eqn:E; try done. by apply try_build_total in E.
  - intros node Hn. destruct (try_build generated 0 b) as [n| |] eqn:E; simplify_eq/=.
    apply try_build_Ok in E as [_ Hlisten _ _ _ _ _ Hrx].
    rewrite Hlisten. unfold build_listen_addrs. rewrite Hl. simpl.
    by rewrite (proj2 (Hrx 0%nat protocol)) by (by rewrite Hp).
Qed.

(** ** The default node *)
Module TestConfig.

#[export] Instance test_ip : IpParser := fun s => if String.eqb s "" then inl 0 else inr s.

Definition timed_args (block_time interval leeway : Z) (fix_number : bool) : OpRbuilderArgs :=
  mkArgs false None block_time None false 20 true None
    (mkFlashblocksArgs true 1111 "127.0.0.1" interval fix_number leeway false None false false 0 0
       default_p2p_args (Some 256) default_sidecar_args)
    default_telemetry_args default_flashtestations_args (mkGasLimiterArgs false 0 0 0).

End TestConfig.

Import TestChain TestConfig TestAttestation.

(** ** Properties *)

(** C32: which arguments are safe.  The times on the command line being [u64]s: the times of a job never
    panic, whatever the clock and for every timestamp of the block below 2^63 seconds, exactly when a
    flashblock takes at least one millisecond and at most a block and, with a fixed number of flashblocks
    that are not built at the end of the interval, the leeway is at most an interval. *)
Theorem job_times_no_panic `{IpParser} args (config : FbConfig) ctx info :
  builder_config_from args = Ok config -> u64_times args ->
  (forall clock timestamp, 0 <= timestamp < 2 ^ 63 -> job_times config clock timestamp ctx info <> Panic)
  <-> safe_times args.
Proof.
  intros Hc Hu. split.
  - intros Hnp. eapply (late_times_safe args config Hc Hu ctx info). apply Hnp. lia.
  - intros Hs clock ts Hts. by apply (safe_times_run args).
Qed.

(** The default arguments are safe; flashblocks of no time are not. *)
Lemma job_times_no_panic_witness :
  (forall config : FbConfig, builder_config_from (timed_args 1000 250 0 false) = Ok config ->
   forall clock timestamp ctx info, 0 <= timestamp < 2 ^ 63 ->
     job_times config clock timestamp ctx info <> Panic) /\
  (forall (config : FbConfig) ctx info, builder_config_from (timed_args 1000 0 0 false) = Ok config ->
   ~ (forall clock timestamp, 0 <= timestamp < 2 ^ 63 ->
        job_times config clock timestamp ctx info <> Panic)).
Proof.
  split.
  - intros config Hc clock ts ctx info Hts.
    apply (job_times_no_panic (timed_args 1000 250 0 false) config ctx info Hc); [|split; [cbn; lia|done]|done].
    unfold u64_times, in_u64, U64_MOD. cbn. lia.
  - intros config ctx info Hc Hnp.
    apply (job_times_no_panic (timed_args 1000 0 0 false) config ctx info Hc) in Hnp as [[H1 _] _].
    + cbn in H1. lia.
    + unfold u64_times, in_u64, U64_MOD. cbn. lia.
Defined.

(** A node that protects bundles from reverts but does not log the events of its pool never
    reports a dropped bundle: nothing fills the cache its receipts are looked up in, although the
    pool keeps the bundles and the RPC is there. *)
Theorem dropped_needs_logging {S} `{!TryFromArgs S} {ReceiptT} (lookup : B256 -> option (option ReceiptT))
    args (setup : NodeSetup S) events evict hash :
  entrypoint (E := Z) args = Ok setup ->
  a_enable_revert_protection args = true -> a_log_pool_transactions args = false ->
  ns_revert_protection_rpc setup = true /\ ns_pool_tx_conditional setup = true /\
  transaction_receipt lookup (reverted_cache setup events evict) hash <> Err TransactionDropped.
Proof.
  unfold entrypoint. destruct (builder_config_from args) as [c| |]; [|done..]. intros [= <-] Hr Hl.
  unfold pool_tx_conditional, adds_revert_protection_rpc. cbn. rewrite Hr, orb_true_r. split_and!; [done..|].
  unfold reverted_cache, transaction_receipt, monitors_tx_pool. cbn. rewrite Hl.
  destruct (lookup hash) as [[r|]|]; [done| |done]. by rewrite bool_decide_false by set_solver.
Qed.

Lemma dropped_needs_logging_witness :
  exists setup : NodeSetup unit, entrypoint (E := Z) (timed_args 1000 250 0 false) = Ok setup /\
    transaction_receipt (fun _ => Some (@None unit)) (reverted_cache setup [EvDiscarded 5] (fun _ s => s)) 5
      <> Err TransactionDropped.
Proof.
  destruct (entrypoint (S := unit) (E := Z) (timed_args 1000 250 0 false)) as [setup| |] eqn:E; [|discriminate..].
  exists setup. split; [reflexivity|].
  apply (dropped_needs_logging (fun _ => Some (@None unit)) (timed_args 1000 250 0 false) setup [EvDiscarded 5]
    (fun _ s => s) 5 E eq_refl eq_refl).
Defined.

(** A node that is to use a key file and cannot read it does not start, although the documentation of
    the argument says that a new key is generated when the file does not exist. *)
Lemma missing_key_file `{Libp2p} parse_multiaddr generated protocol cancel config `{FileSystem} (d : fs) f e :
  p2p_enabled config = true -> p2p_private_key_file config = Some f -> f <> [] ->
  read_to_string d f = inl e ->
  start_p2p parse_multiaddr generated protocol cancel config d = Err (KeyFileUnreadable e).
Proof.
  intros Hp Hf Hne Hr. unfold start_p2p, p2p_key. rewrite Hp, Hf. destruct f; [done|]. cbn. by rewrite Hr.
Qed.
