(* ===== verification/Playground.v ===== *)
(** * The playground

    Models [args/playground.rs] and the part of [args/mod.rs] that uses it: the options of a node that
    runs against a local playground are read from the playground's files, and fill in what the user has
    not set on the command line. *)

From S2P Require Import Prelude External ExecInfo GasLimiter PoolTx Sidecar Context Replay BuilderTx FlashblocksCtx BuilderTxImpls Timing P2p Quote Attestation Config.

(** ** Data *)

(** Documents, as far as the sources look into them. *)
Inductive Yaml : Type :=
| YNull
| YString (s : Text)
| YSequence (l : list Yaml)
| YMapping (m : list (Text * Yaml))
| YOther.
Inductive Json : Type :=
| JU64 (n : Z)
| JObject (m : list (Text * Json))
| JOther.

Record TrustedPeer : Type := mkTrustedPeer { tp_port : Z; tp_key : Z }.
#[export] Instance trusted_peer_eq_dec : EqDecision TrustedPeer.
Proof. solve_decision. Defined.

Record PlaygroundOptions : Type := mkOptions {
  po_chain : Z;
  po_http_port : Z;
  po_authrpc_addr : Text;
  po_authrpc_port : Z;
  po_authrpc_jwtsecret : Text;
  po_port : Z;
  po_trusted_peer : TrustedPeer;
  po_chain_block_time : Duration;
}.

Inductive PlaygroundError : Type :=
| DirectoryMissing
| FileMissing (name : Text)
| ReadFailed (e : Z)
| ChainInvalid (e : Z)
| JsonInvalid (e : Z)
| BlockTimeMissing
| YamlInvalid (e : Z)
| CommandMissing
| ArgumentNotString
| FlagNotFound
| FlagValueNotFound
| UrlInvalid (e : Z)
| UrlPortMissing
| KeyInvalid
| PortInvalid
| PortsMissing
| MappingNotFound
| MappingInvalid.

(** The parsers of the libraries, and the operating system's answer to binding a local port. *)
Class PlaygroundExternals : Type := {
  parse_chain_spec : Text -> Z + Z;
  json_from_str : Text -> Z + Json;
  yaml_from_str : Text -> Z + Yaml;
  url_parse_port : Text -> Z + option Z;
  secret_key_from_slice : Bytes -> option Z;
  is_port_free : Z -> bool;
}.

(** ** Text of the standard library *)

Definition COLON : Z := 58.

(** The digits of a [u16], and [str::parse::<u16>]. *)
Fixpoint digits (fuel : nat) (n : Z) : Text :=
  match fuel with
  | O => []
  | S fuel' => if n <? 10 then [48 + n] else digits fuel' (n / 10) ++ [48 + n mod 10]
  end.
Definition decimal (n : Z) : Text := digits 5 n.

Fixpoint parse_digits (t : Text) (acc : Z) : option Z :=
  match t with
  | [] => Some acc
  | c :: t' =>
      if (48 <=? c) && (c <=? 57) then
        let acc := acc * 10 + (c - 48) in
        if 65535 <? acc then None else parse_digits t' acc
      else None
  end.
Definition parse_u16 (t : Text) : option Z :=
  match t with
  | [] => None
  | c :: t' =>
      if c =? 43 then (if (length t' =? 0)%nat then None else parse_digits t' 0) else parse_digits t 0
  end.

(** [str::contains] *)
Fixpoint is_prefix (needle hay : Text) : bool :=
  match needle, hay with
  | [], _ => true
  | x :: needle', y :: hay' => (x =? y) && is_prefix needle' hay'
  | _, [] => false
  end.
Fixpoint contains (needle hay : Text) : bool :=
  is_prefix needle hay || match hay with [] => false | _ :: hay' => contains needle hay' end.

(** [str::split_whitespace] *)
Fixpoint split_spaces (t : Text) : list Text :=
  match t with
  | [] => [[]]
  | x :: t' =>
      if is_whitespace x then [] :: split_spaces t'
      else match split_spaces t' with
           | piece :: pieces => (x :: piece) :: pieces
           | [] => [[x]]
           end
  end.
Definition split_whitespace (t : Text) : list Text := filter (fun p => p <> []) (split_spaces t).

(** The value behind the first occurrence of a flag. *)
Fixpoint flag_value {E} (not_found no_value : E) (flag : Text) (args : list Text) : outcome E Text :=
  match args with
  | [] => Err not_found
  | a :: args' =>
      if decide (a = flag) then ok_or (head args') no_value
      else flag_value not_found no_value flag args'
  end.

(** [Path::join] of a relative path. *)
Definition join (base relative : Text) : Text :=
  match last base with
  | None => relative
  | Some c => if c =? 47 then base ++ relative else base ++ [47] ++ relative
  end.

(** Indexing a document: what is not there is null. *)
Definition yaml_key (y : Yaml) (key : string) : Yaml :=
  match y with
  | YMapping m => match find (fun f => bool_decide (fst f = text key)) m with Some (_, v) => v | None => YNull end
  | _ => YNull
  end.
Definition yaml_nth (y : Yaml) (i : nat) : Yaml :=
  match y with YSequence l => unwrap_or (l !! i) YNull | _ => YNull end.
Definition as_str (y : Yaml) : option Text := match y with YString s => Some s | _ => None end.
Definition as_sequence (y : Yaml) : option (list Yaml) := match y with YSequence l => Some l | _ => None end.
(** [iter().map(|s| s.as_str().ok_or_else(..)).collect()] *)
Fixpoint strings_of (l : list Yaml) : outcome PlaygroundError (list Text) :=
  match l with
  | [] => Ok []
  | y :: l' =>
      let? s := ok_or (as_str y) ArgumentNotString in
      let? rest := strings_of l' in
      Ok (s :: rest)
  end.

(** ** Reading the playground *)

Section Read.
Context `{P : PlaygroundExternals} `{F : FileSystem} `{Hx : HexCodec}.
Implicit Type d : fs.
Abbreviation result := (outcome PlaygroundError).

Definition existing_path d (base : Text) (relative : string) : result Text :=
  let path := join base (text relative) in
  if path_exists d path then Ok path else Err (FileMissing (text relative)).

Definition read_existing d (base : Text) (relative : string) : result Text :=
  let? path := existing_path d base relative in
  of_sum ReadFailed (read_to_string d path).

(** [pick_random_port] after the random numbers drawn so far; [None] when none of them is free. *)
Fixpoint pick_random_port (draws : list Z) : option Z :=
  match draws with
  | [] => None
  | port :: draws' => if is_port_free port then Some port else pick_random_port draws'
  end.
Definition pick_preferred_port (preferred : Z) (draws : list Z) : option Z :=
  if negb (is_port_free preferred) then pick_random_port draws else Some preferred.

Definition json_get (j : Json) (key : string) : option Json :=
  match j with
  | JObject m => snd <$> find (fun f => bool_decide (fst f = text key)) m
  | _ => None
  end.
Definition as_u64 (j : Json) : option Z := match j with JU64 n => Some n | _ => None end.

Definition extract_chain_block_time d (basepath : Text) : result Duration :=
  let? contents := read_existing d basepath "rollup.json" in
  let? value := of_sum JsonInvalid (json_from_str contents) in
  let? secs := ok_or (json_get value "block_time" ≫= as_u64) BlockTimeMissing in
  Ok (from_secs secs).

Definition extract_deterministic_p2p_key d (basepath : Text) : result Z :=
  let? key := read_existing d basepath "enode-key-1.txt" in
  let? bytes := ok_or (hex_decode key) KeyInvalid in
  ok_or (secret_key_from_slice bytes) KeyInvalid.

Definition read_docker_compose d (basepath : Text) : result Yaml :=
  let? docker_compose := read_existing d basepath "docker-compose.yaml" in
  of_sum YamlInvalid (yaml_from_str docker_compose).

Definition extract_service_command_flag d (basepath : Text) (service : string) (flag : string) : result Text :=
  let? docker_compose := read_docker_compose d basepath in
  let? items :=
    ok_or (as_sequence (yaml_key (yaml_key (yaml_key docker_compose "services") service) "command"))
      CommandMissing in
  let? args := strings_of items in
  flag_value FlagNotFound FlagValueNotFound (text flag) args.

Definition extract_authrpc_port d (basepath : Text) : result Z :=
  let? builder_url := extract_service_command_flag d basepath "rollup-boost" "--builder-url" in
  let? port := of_sum UrlInvalid (url_parse_port builder_url) in
  ok_or port UrlPortMissing.

(** The external port of the mapping of [port_value]. *)
Definition external_port (port_value : Z) (ports_mapping : list Text) : result Z :=
  let? port_mapping :=
    ok_or (find (fun mapping => contains (COLON :: decimal port_value) mapping) ports_mapping)
      MappingNotFound in
  let? port_mapping := ok_or (split_on COLON port_mapping !! 1%nat) MappingInvalid in
  ok_or (parse_u16 port_mapping) PortInvalid.

Definition extract_trusted_peer_port d (basepath : Text) : result Z :=
  let? docker_compose := read_docker_compose d basepath in
  let op_geth := yaml_key (yaml_key docker_compose "services") "op-geth" in
  let? opgeth_args := ok_or (as_str (yaml_nth (yaml_key op_geth "command") 1)) CommandMissing in
  let? port_value :=
    flag_value FlagNotFound FlagValueNotFound (text "--port") (split_whitespace opgeth_args) in
  let? port_value := ok_or (parse_u16 port_value) PortInvalid in
  let? opgeth_ports := ok_or (as_sequence (yaml_key op_geth "ports")) PortsMissing in
  let? ports_mapping := strings_of opgeth_ports in
  external_port port_value ports_mapping.

(** [PlaygroundOptions::new]; [None] while a random port is sought. *)
Definition new_options d (path : Text) (http_draws port_draws : list Z) : option (result PlaygroundOptions) :=
  match (if path_exists d path then
           let? genesis := existing_path d path "l2-genesis.json" in
           of_sum ChainInvalid (parse_chain_spec genesis)
         else Err DirectoryMissing) with
  | Err e => Some (Err e)
  | Panic => Some Panic
  | Ok chain =>
      match pick_preferred_port 2222 http_draws with
      | None => None
      | Some http_port =>
          match existing_path d path "jwtsecret" with
          | Err e => Some (Err e)
          | Panic => Some Panic
          | Ok authrpc_jwtsecret =>
              match pick_preferred_port 30333 port_draws with
              | None => None
              | Some port => Some (
                  let? chain_block_time := extract_chain_block_time d path in
                  let? authrpc_port := extract_authrpc_port d path in
                  let? peer_port := extract_trusted_peer_port d path in
                  let? key := extract_deterministic_p2p_key d path in
                  Ok (mkOptions chain http_port (text "0.0.0.0") authrpc_port authrpc_jwtsecret port
                        (mkTrustedPeer peer_port key) chain_block_time))
              end
          end
      end
  end.

End Read.

(** ** Applying the options *)

Inductive ValueSource : Type := DefaultValue | EnvVariable | CommandLine.
Definition is_default (s : option ValueSource) : bool :=
  match s with Some DefaultValue | None => true | _ => false end.

(** The arguments of the [node] command that the options touch. *)
Record NodeArgs : Type := mkNodeArgs {
  na_trusted_peers : list TrustedPeer;
  na_chain : Z;
  na_http : bool;
  na_http_port : Z;
  na_port : Z;
  na_auth_addr : Text;
  na_auth_port : Z;
  na_auth_jwtsecret : option Text;
  na_disable_discovery : bool;
  na_ext : OpRbuilderArgs;
}.

Definition set_chain_block_time (a : OpRbuilderArgs) (ms : Z) : OpRbuilderArgs :=
  mkArgs (a_enable_tx_conditional a) (a_builder_signer a) ms (a_max_gas_per_txn a)
    (a_log_pool_transactions a) (a_extra_block_deadline_secs a) (a_enable_revert_protection a)
    (a_playground a) (a_flashblocks a) (a_telemetry a) (a_flashtestations a) (a_gas_limiter a).

(** [source] is where the command line parser found the value of each argument. *)
Definition apply (source : string -> option ValueSource) (self : PlaygroundOptions) (node : NodeArgs)
    : NodeArgs :=
  let or_default {A} (id : string) (default current : A) : A :=
    if is_default (source id) then default else current in
  mkNodeArgs
    (if decide (po_trusted_peer self ∈ na_trusted_peers node) then na_trusted_peers node
     else na_trusted_peers node ++ [po_trusted_peer self])
    (or_default "chain"%string (po_chain self) (na_chain node))
    (or_default "http"%string true (na_http node))
    (or_default "http_port"%string (po_http_port self) (na_http_port node))
    (or_default "port"%string (po_port self) (na_port node))
    (or_default "auth_addr"%string (po_authrpc_addr self) (na_auth_addr node))
    (or_default "auth_port"%string (po_authrpc_port self) (na_auth_port node))
    (or_default "auth_jwtsecret"%string (Some (po_authrpc_jwtsecret self)) (na_auth_jwtsecret node))
    (or_default "disable_discovery"%string true (na_disable_discovery node))
    (or_default "chain_block_time"%string
       (set_chain_block_time (na_ext node) (wrap64 (as_millis (po_chain_block_time self))))
       (na_ext node)).

(** [populate_defaults] of the [node] command; [None] while a random port is sought, and an error ends
    the process. *)
Definition populate_defaults `{PlaygroundExternals} `{FileSystem} `{HexCodec}
    (source : string -> option ValueSource) (d : fs) (http_draws port_draws : list Z) (node : NodeArgs)
    : option (outcome PlaygroundError NodeArgs) :=
  match a_playground (na_ext node) with
  | None => Some (Ok node)
  | Some playground_dir =>
      match new_options d playground_dir http_draws port_draws with
      | Some r => Some (let? options := r in Ok (apply source options node))
      | None => None
      end
  end.

(** ** Lemmas *)

Definition is_digit (c : Z) : Prop := 48 <= c <= 57.
Definition no_colon (t : Text) : Prop := Forall (fun c => c <> COLON) t.

Lemma digits_digit fuel n : 0 <= n -> Forall is_digit (digits fuel n).
Proof.
  revert n. induction fuel as [|fuel IH]; intros n Hn; [constructor|]. cbn [digits].
  pose proof (Z.mod_pos_bound n 10 ltac:(lia)).
  destruct (Z.ltb_spec n 10); [repeat constructor; lia|]. apply Forall_app. split.
  - apply IH. by apply Z.div_pos.
  - repeat constructor; lia.
Qed.

Lemma decimal_no_colon n : 0 <= n -> no_colon (decimal n).
Proof.
  intros Hn. eapply Forall_impl; [by apply digits_digit|]. unfold is_digit, COLON. intros c ? ->. lia.
Qed.

Lemma parse_digits_snoc t acc m :
  0 <= m <= 9 -> parse_digits (t ++ [48 + m]) acc =
  match parse_digits t acc with
  | Some v => if 65535 <? v * 10 + m then None else Some (v * 10 + m)
  | None => None
  end.
Proof.
  intros Hm. revert acc. induction t as [|c t IH]; intros acc; cbn.
  - rewrite (proj2 (Z.leb_le 48 _)), (proj2 (Z.leb_le _ 57)) by lia. cbn.
    by replace (48 + m - 48) with m by lia.
  - case_match; [|done]. case_match; [done|]. apply IH.
Qed.

Lemma parse_digits_digits fuel n :
  0 <= n < 10 ^ Z.of_nat fuel -> n <= 65535 -> parse_digits (digits fuel n) 0 = Some n.
Proof.
  revert n. induction fuel as [|fuel IH]; intros n Hn Hmax; [cbn in *; f_equal; lia|]. cbn [digits].
  rewrite Nat2Z.inj_succ, Z.pow_succ_r in Hn by lia.
  destruct (Z.ltb_spec n 10).
  - change [48 + n] with ([] ++ [48 + n]). rewrite parse_digits_snoc by lia. cbn. rewrite (proj2 (Z.ltb_ge _ _)) by lia. done.
  - pose proof (Z.div_mod n 10 ltac:(lia)). pose proof (Z.mod_pos_bound n 10 ltac:(lia)).
    rewrite parse_digits_snoc, IH by (try split; try apply Z.div_pos; try apply Z.div_lt_upper_bound; lia).
    rewrite (proj2 (Z.ltb_ge _ _)) by lia. f_equal. lia.
Qed.

(** A [u16] is parsed from its digits. *)
Lemma parse_decimal n : 0 <= n <= 65535 -> parse_u16 (decimal n) = Some n.
Proof.
  intros Hn. assert (H := digits_digit 5 n (proj1 Hn)).
  assert (Hp : parse_digits (decimal n) 0 = Some n) by (apply parse_digits_digits; cbn; lia).
  unfold parse_u16. unfold decimal in *. destruct (digits 5 n) as [|c t] eqn:E.
  - exfalso. cbn in E. repeat case_match; try done; by destruct (app_eq_nil _ _ E).
  - apply Forall_cons_1 in H as [Hc _]. destruct (Z.eqb_spec c 43); [unfold is_digit in Hc; lia|done].
Qed.

Lemma split_on_cons c a b : Forall (fun x => x <> c) a -> split_on c (a ++ c :: b) = a :: split_on c b.
Proof.
  induction 1 as [|x a Hx Ha IH]; cbn; [by rewrite Z.eqb_refl|].
  by rewrite (proj2 (Z.eqb_neq _ _) Hx), IH.
Qed.

Lemma contains_skip p a l : no_colon a -> contains (COLON :: p) (a ++ l) = contains (COLON :: p) l.
Proof.
  induction 1 as [|x a Hx Ha IH]; [done|]. cbn [app contains is_prefix].
  destruct (Z.eqb_spec COLON x); [congruence|]. exact IH.
Qed.

Lemma is_prefix_stop p a l : no_colon p -> is_prefix p (a ++ COLON :: l) = is_prefix p a.
Proof.
  intros Hp. revert a. induction Hp as [|x p Hx Hp IH]; intros [|y a]; cbn; try done.
  - by destruct (Z.eqb_spec x COLON).
  - by rewrite IH.
Qed.

(** A mapping of the documented form [host:external:internal]. *)
Definition render (m : Text * Z * Z) : Text :=
  m.1.1 ++ COLON :: decimal m.1.2 ++ COLON :: decimal m.2.
Definition wf_mapping (m : Text * Z * Z) : Prop :=
  no_colon m.1.1 /\ 0 <= m.1.2 <= 65535 /\ 0 <= m.2 <= 65535.

(** The ports that begin with the digits of [port]. *)
Definition begins_with (port n : Z) : bool := is_prefix (decimal port) (decimal n).

Lemma contains_render port m :
  0 <= port -> wf_mapping m ->
  contains (COLON :: decimal port) (render m) = begins_with port m.1.2 || begins_with port m.2.
Proof.
  intros Hp (Hh & He & Hi). unfold render. rewrite contains_skip by done.
  cbn [contains is_prefix]. rewrite Z.eqb_refl. cbn [andb].
  rewrite is_prefix_stop by (apply decimal_no_colon; lia). fold (begins_with port m.1.2).
  rewrite contains_skip by (apply decimal_no_colon; lia).
  cbn [contains is_prefix]. rewrite Z.eqb_refl. cbn [andb]. fold (begins_with port m.2).
  pose proof (contains_skip (decimal port) (decimal m.2) [] (decimal_no_colon _ (proj1 Hi))) as Hn.
  rewrite app_nil_r in Hn. rewrite Hn. cbn. by rewrite !orb_false_r.
Qed.

Lemma find_render (f : Text -> bool) (g : Text * Z * Z -> bool) ms :
  Forall (fun m => f (render m) = g m) ms -> find f (render <$> ms) = render <$> find g ms.
Proof. induction 1 as [|m ms Hm _ IH]; cbn; [done|]. rewrite Hm, IH. by destruct (g m). Qed.

(** ** Properties *)

(** Which port the trusted peer gets.  In a list of mappings of the documented form
    [host:external:internal], the external port of the first mapping is taken in which the digits of
    the port of op-geth begin the external or the internal port; an error when there is none.  So it
    is the right one only if no mapping before it has a port that begins with the same digits. *)
Theorem external_port_spec port ms :
  0 <= port <= 65535 -> Forall wf_mapping ms ->
  external_port port (render <$> ms) =
  match find (fun m => begins_with port m.1.2 || begins_with port m.2) ms with
  | Some m => Ok m.1.2
  | None => Err MappingNotFound
  end.
Proof.
  intros Hp Hms. unfold external_port.
  rewrite (find_render _ (fun m => begins_with port m.1.2 || begins_with port m.2)).
  - destruct (find _ ms) as [m|] eqn:Hf; [|done]. cbn [fmap option_fmap option_map ok_or bind].
    apply find_some in Hf as [Hm _]. rewrite Forall_forall in Hms.
    destruct (Hms m) as (Hh & He & Hi); [by apply list_elem_of_In|].
    unfold render. rewrite split_on_cons by done. rewrite split_on_cons by (apply decimal_no_colon; lia).
    cbn [lookup list_lookup ok_or bind]. by rewrite parse_decimal.
  - eapply Forall_impl; [exact Hms|]. intros m Hm. apply contains_render; [lia|done].
Qed.

(** The port 3030 of op-geth is mapped to 5555, but the mapping of another port comes first. *)
Lemma external_port_spec_witness :
  external_port 3030 (render <$> [(text "127.0.0.1", 8080, 30303); (text "127.0.0.1", 5555, 3030)])
    = Ok 8080.
Proof.
  rewrite external_port_spec; [reflexivity|lia|].
  repeat constructor; cbn; try lia; repeat constructor; discriminate.
Defined.

(** What the user set is kept, and the playground's values are taken for the rest; doing it twice is
    doing it once. *)
Lemma apply_idempotent source self node :
  apply source self (apply source self node) = apply source self node.
Proof.
  unfold apply. cbn [na_trusted_peers na_chain na_http na_http_port na_port na_auth_addr na_auth_port
    na_auth_jwtsecret na_disable_discovery na_ext].
  f_equal; try by case_match.
  destruct (decide (po_trusted_peer self ∈ na_trusted_peers node)); rewrite decide_True by set_solver; done.
Qed.
