(* ===== verification/QuoteServer.v ===== *)
(** * The quote server as a program

    Models [crates/tdx-quote-provider/src/main.rs] and the rest of [server.rs]: the command line, the
    start of the server, its routes, and its end.  The handlers are in [Attestation].  Together with the
    network between them the server is what the client of [Attestation] relies on. *)

From S2P Require Import Prelude Quote Attestation Playground.

(** ** The command line *)

Record Args : Type := mkArgs {
  service_host : Text;
  service_port : Z;
  args_metrics : bool;
  metrics_host : Text;
  metrics_port : Z;
  args_mock : bool;
  args_mock_attestation_path : Text;
  log_level : string;
  log_format : string;
}.

Definition default_args : Args :=
  mkArgs (text "127.0.0.1") 8181 false (text "127.0.0.1") 9090 false [] "info" "text".

(** ** Code outside the repository

    The parser of socket addresses, which takes IP addresses only, so that an address begins with a
    digit or a bracket; the exporter of the metrics; binding a port; and the decoding of a path segment,
    which leaves alone what has no percent sign. *)
Class ServerRuntime : Type := {
  SocketAddr : Type;
  parse_socket_addr : Text -> option SocketAddr;
  install_prometheus : SocketAddr -> Z + unit;
  tcp_bind : SocketAddr -> Z + unit;
  percent_decode : Text -> option Text;
}.

Class RuntimeLaws `{ServerRuntime} : Prop := {
  socket_addr_start t a :
    parse_socket_addr t = Some a -> exists c t', t = c :: t' /\ (48 <= c <= 57 \/ c = 91);
  percent_plain t : Forall (fun c => c <> 37) t -> percent_decode t = Some t;
}.

(** [format!("{}:{}", host, port)] *)
Definition address_text (host : Text) (port : Z) : Text := host ++ [COLON] ++ decimal port.

(** ** Routes *)

Definition NOT_FOUND : Z := 404.
Definition SLASH : Z := 47.

Fixpoint strip_prefix (prefix t : Text) : option Text :=
  match prefix, t with
  | [], _ => Some t
  | c :: prefix, c' :: t => if c =? c' then strip_prefix prefix t else None
  | _ :: _, [] => None
  end.

(** A captured segment: not empty, and without a slash. *)
Definition is_segment (t : Text) : bool :=
  negb (bool_decide (t = [])) && forallb (fun c => negb (c =? SLASH)) t.

Section Server.
Context `{S : ServerExternals} `{Hx : HexCodec} `{R : ServerRuntime}.

(** The router of [listen], for a GET request. *)
Definition route (server : QuoteProvider) (path : Text) : Response :=
  if bool_decide (path = text "/healthz") then healthz_handler
  else
    match strip_prefix (text "/attest/") path with
    | Some appdata =>
        if is_segment appdata then
          match percent_decode appdata with
          | Some appdata => attest_handler appdata server
          | None => mkResponse BAD_REQUEST None []
          end
        else mkResponse NOT_FOUND None []
    | None => mkResponse NOT_FOUND None []
    end.

(** ** The life of the server *)

Inductive ServerError : Type := BindFailed (e : Z) | ServeFailed (e : Z).

(** Signals, and the requests that arrive. *)
Inductive ServerEvent : Type :=
| Request (path : Text)
| CtrlC
| SigTerm
| SigInt
| ServeError (e : Z).

(** [shutdown_signal] *)
Definition is_shutdown (e : ServerEvent) : bool :=
  match e with CtrlC | SigTerm | SigInt => true | _ => false end.

(** [listen]: the answers to the requests until the first signal, or until serving fails; [None] while
    neither has come.  The address that was bound, which is only logged, is known. *)
Fixpoint serve (server : QuoteProvider) (events : list ServerEvent)
    : list Response * option (outcome ServerError unit) :=
  match events with
  | [] => ([], None)
  | Request path :: events =>
      let '(answers, r) := serve server events in (route server path :: answers, r)
  | ServeError e :: _ => ([], Some (Err (ServeFailed e)))
  | _ :: _ => ([], Some (Ok tt))
  end.

Definition listen (server : QuoteProvider) (addr : SocketAddr) (events : list ServerEvent)
    : list Response * option (outcome ServerError unit) :=
  match tcp_bind addr with
  | inl e => ([], Some (Err (BindFailed e)))
  | inr _ => serve server events
  end.

(** What the process sets up before it listens. *)
Record Started : Type := mkStarted {
  st_json_logs : bool;
  st_metrics : option SocketAddr;
  st_address : SocketAddr;
  st_provider : QuoteProvider;
}.

(** [main] up to [server.listen()]; an address that cannot be parsed and an exporter that cannot be
    installed are panics. *)
Definition start_server (args : Args) : outcome ServerError Started :=
  let json := bool_decide (log_format args = "json"%string) in
  let? metrics :=
    if args_metrics args then
      let? socket_addr := expect (parse_socket_addr (address_text (metrics_host args) (metrics_port args))) in
      match install_prometheus socket_addr with
      | inr _ => Ok (Some socket_addr)
      | inl _ => Panic
      end
    else Ok None in
  let? listen_addr := expect (parse_socket_addr (address_text (service_host args) (service_port args))) in
  let server :=
    new_server (mkServerConfig (address_text (service_host args) (service_port args)) (args_mock args)
                  (args_mock_attestation_path args)) in
  Ok (mkStarted json metrics listen_addr server).

(** [main] *)
Definition quote_server_main (args : Args) (events : list ServerEvent)
    : outcome ServerError (list Response * option (outcome ServerError unit)) :=
  let? started := start_server args in
  Ok (listen (st_provider started) (st_address started) events).

(** ** Lemmas *)

Lemma strip_prefix_app prefix t : strip_prefix prefix (prefix ++ t) = Some t.
Proof. induction prefix as [|c prefix IH]; [done|]. simpl. by rewrite Z.eqb_refl. Qed.

Lemma strip_prefix_Some prefix t t' : strip_prefix prefix t = Some t' -> t = prefix ++ t'.
Proof.
  revert t. induction prefix as [|c prefix IH]; intros t; [by intros [= <-]|].
  destruct t as [|c' t]; [done|]. simpl. destruct (Z.eqb_spec c c') as [->|]; [|done].
  by intros ->%IH.
Qed.

(** Requests are answered until the first signal. *)
Lemma serve_until server paths e rest :
  is_shutdown e = true ->
  serve server ((Request <$> paths) ++ e :: rest) = (route server <$> paths, Some (Ok tt)).
Proof.
  intros He. induction paths as [|path paths IH]; [by destruct e|].
  rewrite fmap_cons. cbn [app serve]. by rewrite IH.
Qed.

Context `{HL : !HexLaws} `{RL : !RuntimeLaws}.

(** Report data in hexadecimal is a segment that needs no decoding. *)
Lemma hex_segment r :
  Forall is_byte r -> r <> [] -> is_segment (hex_encode r) = true /\
  percent_decode (hex_encode r) = Some (hex_encode r).
Proof using HL RL.
  intros Hb Hne. pose proof (hex_digits _ Hb) as Hd. split.
  - unfold is_segment. apply andb_true_iff. split.
    + apply negb_true_iff, bool_decide_eq_false. intros Hn. apply (f_equal length) in Hn.
      rewrite hex_length in Hn. destruct r; simpl in *; [done|lia].
    + apply forallb_forall. intros c Hc%list_elem_of_In. rewrite Forall_forall in Hd. apply Hd in Hc.
      unfold is_hex_digit, SLASH in *. destruct (Z.eqb_spec c 47); [lia|done].
  - apply percent_plain. eapply Forall_impl; [exact Hd|]. unfold is_hex_digit. lia.
Qed.

Lemma route_attest p r :
  length r = 64%nat -> Forall is_byte r ->
  route p (text "/attest/" ++ hex_encode r) = attest_handler (hex_encode r) p.
Proof using HL RL.
  intros Hl Hb. unfold route. rewrite bool_decide_false by discriminate. rewrite strip_prefix_app.
  destruct (hex_segment r Hb) as [-> ->]; [by intros ->|done].
Qed.

End Server.

(** ** A network

    A runtime that takes every address that begins with a digit, and a client that reaches the server at
    a base URL. *)
Module TestQuoteServer.
Import TestQuote TestAttestation.

#[export] Instance test_runtime : ServerRuntime := {|
  SocketAddr := Text;
  parse_socket_addr t :=
    match t with
    | c :: _ => if (48 <=? c) && (c <=? 57) then Some t else None
    | [] => None
    end;
  install_prometheus _ := inr tt;
  tcp_bind _ := inr tt;
  percent_decode t := if forallb (fun c => negb (c =? 37)) t then Some t else None;
|}.

#[export] Instance test_runtime_laws : RuntimeLaws.
Proof.
  split; cbn.
  - intros [|c t] a H; [done|]. exists c, t. split; [done|]. left.
    destruct (Z.leb_spec 48 c), (Z.leb_spec c 57); simplify_eq/=; lia.
  - intros t Ht. enough (H : forallb (fun c => negb (c =? 37)) t = true) by (by rewrite H).
    apply forallb_forall. intros c Hc%list_elem_of_In. rewrite Forall_forall in Ht.
    apply negb_true_iff, Z.eqb_neq. by apply Ht.
Qed.

Definition base_url : Text := text "http://quotes".
#[export] Instance routed_http : HttpClient := fun url =>
  match strip_prefix base_url url with
  | Some path => let r := route TdxAttestationProvider path in inr (status r, inr (body r))
  | None => inl 0
  end.

End TestQuoteServer.

Import TestQuote TestAttestation TestQuoteServer.

(** ** Properties *)

(** The routes serve the client: over a network that takes requests to the server's router, the URL the
    client is configured with, the server's with the path of its route, answers every request for report
    data as the handler does, and any other path is not found. *)
Theorem routed_serves `{ServerExternals} `{HexCodec} `{!HexLaws} `{ServerRuntime} `{!RuntimeLaws}
    `{HttpClient} base p :
  (forall path, http_get (base ++ path) = inr (status (route p path), inr (body (route p path)))) ->
  serves (base ++ text "/attest") p /\
  (forall path, status (route p path) = NOT_FOUND <->
     path <> text "/healthz" /\ forall appdata, path = text "/attest/" ++ appdata ->
       is_segment appdata = false).
Proof.
  intros Hnet. split.
  - intros r Hl Hb. rewrite <- app_assoc, Hnet.
    change (text "/attest" ++ text "/" ++ hex_encode r) with (text "/attest/" ++ hex_encode r).
    by rewrite route_attest.
  - intros path. unfold route. case_bool_decide as Hh; [by subst; split; [|intros []]|].
    destruct (strip_prefix _ path) as [a|] eqn:Hs.
    + apply strip_prefix_Some in Hs as ->. destruct (is_segment a) eqn:Ha.
      * split; [|intros [_ Hn]; by rewrite (Hn a eq_refl) in Ha].
        unfold attest_handler. repeat case_match; done.
      * split; [|done]. intros _. split; [done|]. by intros a' ->%app_inv_head.
    + split; [|done]. intros _. split; [done|]. intros a ->. by rewrite strip_prefix_app in Hs.
Qed.

Lemma routed_serves_witness :
  serves (base_url ++ text "/attest") TdxAttestationProvider /\
  status (route TdxAttestationProvider (text "/attest/")) = NOT_FOUND.
Proof.
  destruct (routed_serves base_url TdxAttestationProvider) as [H1 H2].
  - intros path. unfold http_get, routed_http. by rewrite strip_prefix_app.
  - split; [exact H1|reflexivity].
Defined.

(** The server starts exactly when its addresses are IP addresses it can use: with a host name, which
    begins with a letter, it panics before it listens.  When it starts, the provider is the TDX device
    unless a mock was asked for, and it answers requests until the first signal. *)
Theorem quote_server_starts `{ServerExternals} `{HexCodec} `{ServerRuntime} `{!RuntimeLaws} args events :
  (forall c host, service_host args = c :: host -> ~ (48 <= c <= 57) -> c <> 91 ->
     quote_server_main args events = Panic) /\
  (forall started, start_server args = Ok started ->
     parse_socket_addr (address_text (service_host args) (service_port args)) = Some (st_address started) /\
     st_provider started =
       (if args_mock args then MockAttestationProvider (args_mock_attestation_path args)
        else TdxAttestationProvider) /\
     (st_metrics started = None <-> args_metrics args = false) /\
     (tcp_bind (st_address started) = inr tt -> forall paths e rest,
        is_shutdown e = true -> events = (Request <$> paths) ++ e :: rest ->
        quote_server_main args events = Ok (route (st_provider started) <$> paths, Some (Ok tt)))).
Proof.
  split.
  - intros c host Hh Hc Hb. unfold quote_server_main, start_server.
    assert (Hn : parse_socket_addr (address_text (service_host args) (service_port args)) = None).
    { destruct (parse_socket_addr _) as [a|] eqn:E; [|done].
      apply socket_addr_start in E as (c' & t & Heq & Hr). rewrite Hh in Heq. injection Heq as <- _. lia. }
    rewrite Hn. destruct (args_metrics args); [|done]. simpl.
    by destruct (parse_socket_addr (address_text (metrics_host args) (metrics_port args))) as [a|]; simpl;
      [destruct (install_prometheus a)|].
  - intros started Hs. unfold quote_server_main. rewrite Hs. simpl. unfold start_server in Hs.
    apply bind_Ok in Hs as (m & Hm & Hs). apply bind_Ok in Hs as (a & Ha & [= <-]). simpl.
    assert (Hp : parse_socket_addr (address_text (service_host args) (service_port args)) = Some a).
    { clear Hm. destruct (parse_socket_addr _) as [b|]; [|done]. by injection Ha as ->. }
    split; [done|]. split; [done|]. split.
    + destruct (args_metrics args); [|by simplify_eq/=]. simpl in Hm.
      apply bind_Ok in Hm as (sa & _ & Hm). destruct (install_prometheus sa); simplify_eq/=. by split.
    + intros Hbind paths e rest He ->. unfold listen. rewrite Hbind. by rewrite serve_until.
Qed.

Lemma quote_server_starts_witness :
  quote_server_main (mkArgs (text "localhost") 8181 false [] 9090 false [] "info" "text") [] = Panic /\
  fst <$> (match quote_server_main default_args [Request (text "/healthz"); SigTerm] with
           | Ok r => Some r | _ => None end) = Some [healthz_handler].
Proof.
  split.
  - destruct (quote_server_starts (mkArgs (text "localhost") 8181 false [] 9090 false [] "info" "text") [])
      as [H _]. eapply (H 108); [reflexivity|lia|lia].
  - reflexivity.
Defined.
