(* ===== verification/Metrics.v ===== *)
(** * Metrics

    Models what the builder records about itself: [metrics.rs], [gas_limiter/metrics.rs] with the
    metered operations of the limiter, [tokio_metrics.rs], the metrics of the end of a job
    ([record_flashblocks_metrics] of [builders/flashblocks/payload.rs]) and those of [eth_sendBundle]
    ([revert_protection.rs]).  The exporter is a registry of counters ([u64]), gauges and histograms; a
    sample is a number or a duration, before its conversion to a float, which is exact for numbers
    below 2^53. *)

From S2P Require Import Prelude External ExecInfo GasLimiter Bundle PoolTx RevertProtection BestTxs Sidecar Context Replay Sequencer BestExec SidecarExec BuilderTx FlashblocksCtx Timing BuildBlock Flashblocks BuildPayload Quote Attestation Config.

(** ** The registry *)

Inductive Sample : Type := Num (n : Z) | Elapsed (d : Duration).

(** A metric is identified by its name, with its scope, and its labels. *)
Definition Key : Type := string * list (string * string).

Record Registry : Type := mkRegistry {
  counters : gmap Key Z;
  gauges : gmap Key Sample;
  histograms : gmap Key (list Sample);
}.

Definition counter (r : Registry) (k : Key) : Z := default 0 (counters r !! k).
Definition samples (r : Registry) (k : Key) : list Sample := default [] (histograms r !! k).

Definition increment (k : Key) (n : Z) (r : Registry) : Registry :=
  mkRegistry (<[k := add64 (counter r k) n]> (counters r)) (gauges r) (histograms r).
Definition set_gauge (k : Key) (v : Sample) (r : Registry) : Registry :=
  mkRegistry (counters r) (<[k := v]> (gauges r)) (histograms r).
Definition record (k : Key) (v : Sample) (r : Registry) : Registry :=
  mkRegistry (counters r) (gauges r) (<[k := samples r k ++ [v]]> (histograms r)).

(** The metrics of [OpRBuilderMetrics]. *)
Definition builder_metric (name : string) : Key := ("op_rbuilder." +:+ name, []).

(** [OpRBuilderMetrics]: its metrics, in the order of the fields. *)
Inductive MetricKind : Type := CounterKind | GaugeKind | HistogramKind.
Definition OpRBuilderMetrics : list (MetricKind * string) :=
  [(CounterKind, "block_built_success"); (CounterKind, "block_synced_success");
   (HistogramKind, "flashblock_count"); (CounterKind, "messages_sent_count");
   (HistogramKind, "total_block_built_duration"); (GaugeKind, "total_block_built_gauge");
   (HistogramKind, "flashblock_build_duration"); (HistogramKind, "flashblock_sync_duration");
   (HistogramKind, "flashblock_byte_size_histogram"); (HistogramKind, "flashblock_num_tx_histogram");
   (CounterKind, "invalid_built_blocks_count"); (CounterKind, "invalid_synced_blocks_count");
   (HistogramKind, "transaction_pool_fetch_duration"); (GaugeKind, "transaction_pool_fetch_gauge");
   (HistogramKind, "state_root_calculation_duration"); (GaugeKind, "state_root_calculation_gauge");
   (HistogramKind, "sequencer_tx_duration"); (GaugeKind, "sequencer_tx_gauge");
   (HistogramKind, "state_transition_merge_duration"); (GaugeKind, "state_transition_merge_gauge");
   (HistogramKind, "payload_transaction_simulation_duration");
   (GaugeKind, "payload_transaction_simulation_gauge"); (HistogramKind, "payload_num_tx_considered");
   (GaugeKind, "payload_num_tx_considered_gauge"); (HistogramKind, "payload_byte_size");
   (GaugeKind, "payload_byte_size_gauge"); (HistogramKind, "payload_num_tx");
   (GaugeKind, "payload_num_tx_gauge"); (HistogramKind, "payload_num_tx_simulated");
   (GaugeKind, "payload_num_tx_simulated_gauge"); (HistogramKind, "payload_num_tx_simulated_success");
   (GaugeKind, "payload_num_tx_simulated_success_gauge");
   (HistogramKind, "payload_num_tx_simulated_fail");
   (GaugeKind, "payload_num_tx_simulated_fail_gauge"); (HistogramKind, "successful_tx_gas_used");
   (HistogramKind, "reverted_tx_gas_used"); (GaugeKind, "payload_reverted_tx_gas_used");
   (HistogramKind, "tx_simulation_duration"); (HistogramKind, "tx_byte_size");
   (HistogramKind, "reduced_flashblocks_number"); (HistogramKind, "missing_flashblocks_count");
   (HistogramKind, "flashblocks_time_drift"); (HistogramKind, "first_flashblock_time_offset");
   (CounterKind, "bundle_requests"); (CounterKind, "valid_bundles"); (CounterKind, "failed_bundles");
   (HistogramKind, "bundles_reverted"); (HistogramKind, "bundle_receive_duration")].

(** ** The builder's metrics *)

(** [OpRBuilderMetrics::set_payload_builder_metrics] *)
Definition set_payload_builder_metrics (simulation_time : Duration)
    (considered simulated success fail bundles_reverted reverted_gas : Z) (r : Registry) : Registry :=
  let r := record (builder_metric "payload_transaction_simulation_duration") (Elapsed simulation_time) r in
  let r := set_gauge (builder_metric "payload_transaction_simulation_gauge") (Elapsed simulation_time) r in
  let r := record (builder_metric "payload_num_tx_considered") (Num considered) r in
  let r := set_gauge (builder_metric "payload_num_tx_considered_gauge") (Num considered) r in
  let r := record (builder_metric "payload_num_tx_simulated") (Num simulated) r in
  let r := set_gauge (builder_metric "payload_num_tx_simulated_gauge") (Num simulated) r in
  let r := record (builder_metric "payload_num_tx_simulated_success") (Num success) r in
  let r := set_gauge (builder_metric "payload_num_tx_simulated_success_gauge") (Num success) r in
  let r := record (builder_metric "payload_num_tx_simulated_fail") (Num fail) r in
  let r := set_gauge (builder_metric "payload_num_tx_simulated_fail_gauge") (Num fail) r in
  let r := record (builder_metric "bundles_reverted") (Num bundles_reverted) r in
  set_gauge (builder_metric "payload_reverted_tx_gas_used") (Num reverted_gas) r.

(** [record_flag_gauge_metrics]: [true as i32] is 1. *)
Definition record_flag_gauge_metrics (builder_args : OpRbuilderArgs) (r : Registry) : Registry :=
  let r := set_gauge ("op_rbuilder_flags_flashblocks_enabled", [])
             (Num (Z.b2z (fba_enabled (a_flashblocks builder_args)))) r in
  let r := set_gauge ("op_rbuilder_flags_flashtestations_enabled", [])
             (Num (Z.b2z (fa_enabled (a_flashtestations builder_args)))) r in
  set_gauge ("op_rbuilder_flags_enable_revert_protection", [])
    (Num (Z.b2z (a_enable_revert_protection builder_args))) r.

(** [VersionInfo] and [VersionInfo::register_version_metrics] *)
Record VersionInfo : Type := mkVersionInfo {
  vi_version : string;
  vi_build_timestamp : string;
  vi_cargo_features : string;
  vi_git_sha : string;
  vi_target_triple : string;
  vi_build_profile : string;
  vi_commit_author : string;
  vi_commit_message : string;
}.
Definition version_labels (v : VersionInfo) : list (string * string) :=
  [("builder_flavor", "op-rbuilder"); ("version", vi_version v);
   ("build_timestamp", vi_build_timestamp v); ("cargo_features", vi_cargo_features v);
   ("git_sha", vi_git_sha v); ("target_triple", vi_target_triple v);
   ("build_profile", vi_build_profile v); ("commit_author", vi_commit_author v);
   ("commit_message", vi_commit_message v)].
Definition register_version_metrics (v : VersionInfo) (r : Registry) : Registry :=
  set_gauge ("builder_info", version_labels v) (Num 1) r.

(** [record_flashblocks_metrics], when the loop ends with the context [ctx]. *)
Definition record_flashblocks_metrics (ctx : FbCtx) (info : FbInfo) (flashblocks_per_block : Z)
    (r : Registry) : Registry :=
  let txs := Num (Z.of_nat (length (executed_transactions info))) in
  let r := increment (builder_metric "block_built_success") 1 r in
  let r := record (builder_metric "flashblock_count") (Num (flashblock_index ctx)) r in
  let r := record (builder_metric "missing_flashblocks_count")
             (Num (saturating_sub flashblocks_per_block (flashblock_index ctx))) r in
  let r := record (builder_metric "payload_num_tx") txs r in
  set_gauge (builder_metric "payload_num_tx_gauge") txs r.

(** [EthApiExtServer::send_bundle]: [send_bundle_inner] with its metrics. *)
Definition send_bundle `{X : Externals} {Pool} best recover
    (add : Pool -> FBPooledTransaction -> (Z + B256) * Pool) (pool : Pool) (b : Bundle)
    (elapsed : Duration) (r : Registry) : outcome EthApiError BundleResult * Pool * Registry :=
  let r := increment (builder_metric "bundle_requests") 1 r in
  let '(result, pool') := send_bundle_inner best recover add pool b in
  let r := increment (builder_metric (if is_ok result then "valid_bundles" else "failed_bundles")) 1 r in
  (result, pool', record (builder_metric "bundle_receive_duration") (Elapsed elapsed) r).

(** ** The limiter's metrics *)

(** [GasLimiterMetrics]: the gauge holds a count, the histograms durations. *)
Record GasLimiterMetrics : Type := mkLimiterMetrics {
  rejections : Z;
  check_time : list Duration;
  active_address_count : Z;
  refresh_duration : list Duration;
}.
Definition default_limiter_metrics : GasLimiterMetrics := mkLimiterMetrics 0 [] 0 [].

Definition record_gas_check (check_result : outcome GasLimitError bool) (duration : Duration)
    (m : GasLimiterMetrics) : GasLimiterMetrics :=
  match check_result with
  | Ok created_new_bucket =>
      mkLimiterMetrics (rejections m) (check_time m ++ [duration])
        (if created_new_bucket then active_address_count m + 1 else active_address_count m)
        (refresh_duration m)
  | _ =>
      mkLimiterMetrics (add64 (rejections m) 1) (check_time m ++ [duration]) (active_address_count m)
        (refresh_duration m)
  end.

Definition record_refresh (removed_addresses : Z) (duration : Duration) (m : GasLimiterMetrics)
    : GasLimiterMetrics :=
  mkLimiterMetrics (rejections m) (check_time m) (active_address_count m - removed_addresses)
    (refresh_duration m ++ [duration]).

(** [AddressGasLimiterInner::consume_gas] and [refresh] with their metrics. *)
Abbreviation Metered := (AddressGasLimiterInner * GasLimiterMetrics)%type.

Definition consume_gas_metered (l : Metered) (address gas_requested : Z) (elapsed : Duration)
    : outcome GasLimitError unit * Metered :=
  let '(result, inner') := consume_gas_inner l.1 address gas_requested in
  (let? _ := result in Ok tt, (inner', record_gas_check result elapsed l.2)).

Definition refresh_metered (l : Metered) (block_number : Z) (elapsed : Duration) : Metered :=
  let '(removed_addresses, inner') := refresh_inner l.1 block_number in
  (inner', record_refresh removed_addresses elapsed l.2).

(** A sequence of operations with how long each took. *)
Definition metered_step (l : Metered) (o : Operations.op * Duration) : Metered :=
  match o.1 with
  | Operations.Consume a g => snd (consume_gas_metered l a g o.2)
  | Operations.Refresh n => refresh_metered l n o.2
  end.
Definition metered_run (ops : list (Operations.op * Duration)) (l : Metered) : Metered :=
  fold_left metered_step ops l.

(** The requests of a sequence and their results, in order; and the addresses whose first request was
    refused. *)
Fixpoint checks (ops : list (Operations.op * Duration)) (l : Metered)
    : list (Z * outcome GasLimitError bool) :=
  match ops with
  | [] => []
  | (Operations.Consume a g, e) :: ops' =>
      (a, fst (consume_gas_inner l.1 a g)) :: checks ops' (metered_step l (Operations.Consume a g, e))
  | o :: ops' => checks ops' (metered_step l o)
  end.

Definition is_refused (c : Z * outcome GasLimitError bool) : bool := negb (is_ok c.2).
Definition is_created (c : Z * outcome GasLimitError bool) : bool :=
  match c.2 with Ok created => created | _ => false end.

Definition valid_op (o : Operations.op * Duration) : Prop :=
  match o.1 with Operations.Consume _ g => 0 <= g | Operations.Refresh _ => True end.

(** ** The metrics of the runtime *)

(** [tokio_metrics::TaskMetrics] of one interval, as far as it is used; the means are computed by the
    library. *)
Record TaskMetrics : Type := mkTaskMetrics {
  tk_instrumented_count : Z;
  tk_dropped_count : Z;
  tk_first_poll_count : Z;
  tk_total_poll_count : Z;
  tk_total_poll_duration : Duration;
  tk_mean_poll_duration : Duration;
  tk_total_idled_count : Z;
  tk_total_idle_duration : Duration;
  tk_mean_idle_duration : Duration;
  tk_total_scheduled_count : Z;
  tk_total_scheduled_duration : Duration;
  tk_mean_scheduled_duration : Duration;
  tk_total_slow_poll_count : Z;
  tk_total_slow_poll_duration : Duration;
  tk_total_short_delay_count : Z;
  tk_total_long_delay_count : Z;
  tk_total_long_delay_duration : Duration;
}.

(** [tokio_metrics::RuntimeMetrics], as far as it is used. *)
Record RuntimeMetrics : Type := mkRuntimeMetrics {
  rt_workers_count : Z;
  rt_live_tasks_count : Z;
  rt_total_park_count : Z;
  rt_max_park_count : Z;
  rt_min_park_count : Z;
  rt_total_busy_duration : Duration;
  rt_max_busy_duration : Duration;
  rt_min_busy_duration : Duration;
  rt_global_queue_depth : Z;
  rt_elapsed : Duration;
}.

Definition runtime_metric (name : string) : Key := ("op_rbuilder.tokio_runtime." +:+ name, []).

(** [TokioRuntimeMetricsRecorder::record] *)
Definition record_runtime (m : RuntimeMetrics) (r : Registry) : Registry :=
  let r := set_gauge (runtime_metric "workers_count") (Num (rt_workers_count m)) r in
  let r := set_gauge (runtime_metric "live_tasks_count") (Num (rt_live_tasks_count m)) r in
  let r := increment (runtime_metric "total_park_count") (rt_total_park_count m) r in
  let r := record (runtime_metric "max_park_count") (Num (rt_max_park_count m)) r in
  let r := record (runtime_metric "min_park_count") (Num (rt_min_park_count m)) r in
  let r := record (runtime_metric "total_busy_duration_seconds") (Elapsed (rt_total_busy_duration m)) r in
  let r := record (runtime_metric "max_busy_duration_seconds") (Elapsed (rt_max_busy_duration m)) r in
  let r := record (runtime_metric "min_busy_duration_seconds") (Elapsed (rt_min_busy_duration m)) r in
  let r := set_gauge (runtime_metric "global_queue_depth") (Num (rt_global_queue_depth m)) r in
  record (runtime_metric "elapsed_seconds") (Elapsed (rt_elapsed m)) r.

(** The metrics of [MonitoredTask::new] for the task [task_name]. *)
Definition task_metric (task_name name : string) : Key :=
  ("op_rbuilder.tokio_task." +:+ name, [("task", task_name)]).

(** A mean is recorded only when there was something to average. *)
Definition record_mean (k : Key) (count : Z) (mean : Duration) (r : Registry) : Registry :=
  if 0 <? count then record k (Num (mean / 1000)) r else r.

(** [MonitoredTask::record_metrics] *)
Definition record_metrics (task_name : string) (m : TaskMetrics) (r : Registry) : Registry :=
  let key := task_metric task_name in
  let r := increment (key "instrumented_count") (tk_instrumented_count m) r in
  let r := increment (key "dropped_count") (tk_dropped_count m) r in
  let r := increment (key "first_poll_count") (tk_first_poll_count m) r in
  let r := increment (key "total_poll_count") (tk_total_poll_count m) r in
  let r := record (key "total_poll_duration_seconds") (Elapsed (tk_total_poll_duration m)) r in
  let r := record_mean (key "mean_poll_duration_us") (tk_total_poll_count m) (tk_mean_poll_duration m) r in
  let r := record (key "total_idle_duration_seconds") (Elapsed (tk_total_idle_duration m)) r in
  let r := record_mean (key "mean_idle_duration_us") (tk_total_idled_count m) (tk_mean_idle_duration m) r in
  let r := record (key "total_scheduled_duration_seconds") (Elapsed (tk_total_scheduled_duration m)) r in
  let r := record_mean (key "mean_scheduled_duration_us") (tk_total_scheduled_count m)
             (tk_mean_scheduled_duration m) r in
  let r := increment (key "slow_poll_count") (tk_total_slow_poll_count m) r in
  let r := record (key "slow_poll_duration_seconds") (Elapsed (tk_total_slow_poll_duration m)) r in
  let r := increment (key "short_delay_count") (tk_total_short_delay_count m) r in
  let r := increment (key "long_delay_count") (tk_total_long_delay_count m) r in
  record (key "long_delay_duration_seconds") (Elapsed (tk_total_long_delay_duration m)) r.

(** The tasks of [FlashblocksTaskMetrics], and what their monitors yield at one tick of the collector;
    an iterator of intervals that is over yields nothing. *)
Record Intervals : Type := mkIntervals {
  iv_runtime : option RuntimeMetrics;
  iv_flashblock_timer : option TaskMetrics;
  iv_payload_builder_service : option TaskMetrics;
  iv_payload_handler : option TaskMetrics;
  iv_websocket_publisher : option TaskMetrics;
}.
Definition when_some {A} (o : option A) (f : A -> Registry -> Registry) (r : Registry) : Registry :=
  match o with Some a => f a r | None => r end.

(** One round of the loop of [spawn_metrics_collector], and the rounds of a run. *)
Definition collect (iv : Intervals) (r : Registry) : Registry :=
  let r := when_some (iv_runtime iv) record_runtime r in
  let r := when_some (iv_flashblock_timer iv) (record_metrics "flashblock_timer") r in
  let r := when_some (iv_payload_builder_service iv) (record_metrics "payload_builder_service") r in
  let r := when_some (iv_payload_handler iv) (record_metrics "payload_handler") r in
  when_some (iv_websocket_publisher iv) (record_metrics "websocket_publisher") r.
Definition spawn_metrics_collector (rounds : list Intervals) (r : Registry) : Registry :=
  fold_left (fun r iv => collect iv r) rounds r.

(** ** Lemmas *)

Lemma counter_increment k n r k' :
  counter (increment k n r) k' = if bool_decide (k = k') then add64 (counter r k') n else counter r k'.
Proof.
  unfold counter, increment. simpl. case_bool_decide as H.
  - subst. by rewrite lookup_insert_eq.
  - by rewrite lookup_insert_ne.
Qed.

Lemma counter_set k v r k' : counter (set_gauge k v r) k' = counter r k'.
Proof. done. Qed.

Lemma counter_record k v r k' : counter (record k v r) k' = counter r k'.
Proof. done. Qed.

Lemma samples_record k v r k' :
  samples (record k v r) k' = samples r k' ++ (if bool_decide (k = k') then [v] else []).
Proof.
  unfold samples, record. simpl. case_bool_decide as H.
  - subst. by rewrite lookup_insert_eq.
  - by rewrite lookup_insert_ne, app_nil_r.
Qed.

(** *** The builder *)

(** What one operation changed is a declared metric of its kind. *)
Definition declared (kind : MetricKind) (k : Key) : Prop :=
  exists name, k = builder_metric name /\ (kind, name) ∈ OpRBuilderMetrics.
Record declared_change (r r' : Registry) : Prop := {
  dc_counters : forall k, counters r' !! k <> counters r !! k -> declared CounterKind k;
  dc_gauges : forall k, gauges r' !! k <> gauges r !! k -> declared GaugeKind k;
  dc_histograms : forall k, histograms r' !! k <> histograms r !! k -> declared HistogramKind k;
}.

#[export] Instance sample_eq_dec : EqDecision Sample.
Proof. unfold EqDecision, Decision, Duration. decide equality; apply Z.eq_dec. Defined.
#[export] Instance metric_kind_eq_dec : EqDecision MetricKind.
Proof. solve_decision. Defined.

Lemma declared_trans r1 r2 r3 : declared_change r1 r2 -> declared_change r2 r3 -> declared_change r1 r3.
Proof.
  intros [A1 A2 A3] [B1 B2 B3]. split; intros k Hk.
  - destruct (decide (counters r2 !! k = counters r1 !! k)) as [E|E]; [apply B1; congruence|by apply A1].
  - destruct (decide (gauges r2 !! k = gauges r1 !! k)) as [E|E]; [apply B2; congruence|by apply A2].
  - destruct (decide (histograms r2 !! k = histograms r1 !! k)) as [E|E]; [apply B3; congruence|by apply A3].
Qed.

Lemma declared_ops name v n r :
  ((CounterKind, name) ∈ OpRBuilderMetrics -> declared_change r (increment (builder_metric name) n r)) /\
  ((GaugeKind, name) ∈ OpRBuilderMetrics -> declared_change r (set_gauge (builder_metric name) v r)) /\
  ((HistogramKind, name) ∈ OpRBuilderMetrics -> declared_change r (record (builder_metric name) v r)).
Proof.
  assert (Hins : forall {V} (m : gmap Key V) k x k', <[k := x]> m !! k' <> m !! k' -> k' = k).
  { intros V m k x k' Hne. destruct (decide (k' = k)); [done|]. by rewrite lookup_insert_ne in Hne. }
  split_and!; intros Hd; split; simpl; intros k Hk; try done; apply Hins in Hk; by exists name.
Qed.

Ltac declared_step :=
  match goal with
  | |- declared_change _ (increment _ _ _) =>
      eapply declared_trans; [|apply (proj1 (declared_ops _ (Num 0) _ _)); by apply (bool_decide_unpack _)]
  | |- declared_change _ (set_gauge _ _ _) =>
      eapply declared_trans; [|apply (proj1 (proj2 (declared_ops _ _ 0 _))); by apply (bool_decide_unpack _)]
  | |- declared_change _ (record _ _ _) =>
      eapply declared_trans; [|apply (proj2 (proj2 (declared_ops _ _ 0 _))); by apply (bool_decide_unpack _)]
  end.

(** Every record of the builder goes to a metric that is declared, of its kind. *)
Lemma builder_records_declared (ctx : FbCtx) info n t c s su fa b g r :
  declared_change r (record_flashblocks_metrics ctx info n r) /\
  declared_change r (set_payload_builder_metrics t c s su fa b g r).
Proof.
  unfold record_flashblocks_metrics, set_payload_builder_metrics.
  split; repeat declared_step; by split.
Qed.

(** No two metrics have the same key. *)
Lemma builder_metrics_distinct : NoDup ((fun m => builder_metric m.2) <$> OpRBuilderMetrics).
Proof. by apply (bool_decide_unpack _); vm_compute. Qed.

(** *** The limiter *)

Lemma consume_dom i a g :
  dom (address_buckets (snd (consume_gas_inner i a g))) = {[a]} ∪ dom (address_buckets i).
Proof. unfold consume_gas_inner. case_match; simpl; by rewrite dom_insert_L. Qed.

(** A request says that it created a bucket exactly when there was none and it was granted. *)
Lemma consume_created i a g :
  is_created (a, fst (consume_gas_inner i a g)) = true -> a ∉ dom (address_buckets i).
Proof.
  unfold consume_gas_inner, is_created. destruct (address_buckets i !! a) eqn:E.
  - by destruct (available _ <? g).
  - intros _. by apply not_elem_of_dom.
Qed.

Lemma consume_wf i a g :
  wf_inner i -> 0 <= g -> wf_inner (snd (consume_gas_inner i a g)).
Proof.
  intros Hwf Hg. destruct (consume_gas_inner_spec i a g Hwf Hg) as (i' & Hi' & _ & _ & Hok & Herr).
  destruct (Z.le_gt_cases g (balance i a)) as [H|H].
  - by destruct (Hok H) as (n & -> & _).
  - by destruct (Herr H) as [-> _].
Qed.

(** One request and one refresh. *)
Lemma metered_consume l a g e :
  wf_inner l.1 -> 0 <= g ->
  let l1 := metered_step l (Operations.Consume a g, e) in
  wf_inner l1.1 ∧ l1.2 = record_gas_check (fst (consume_gas_inner l.1 a g)) e l.2 ∧
  dom (address_buckets l1.1) = {[a]} ∪ dom (address_buckets l.1).
Proof.
  intros Hwf Hg. unfold metered_step, consume_gas_metered. cbn [fst snd].
  pose proof (consume_dom l.1 a g) as Hd. pose proof (consume_wf l.1 a g Hwf Hg) as Hw.
  by destruct (consume_gas_inner l.1 a g).
Qed.

Lemma metered_refresh l n e :
  wf_inner l.1 ->
  let l1 := metered_step l (Operations.Refresh n, e) in
  wf_inner l1.1 ∧ l1.2 = record_refresh 0 e l.2 ∧
  dom (address_buckets l1.1) = dom (address_buckets l.1).
Proof.
  intros Hwf. unfold metered_step, refresh_metered. cbn [fst snd].
  destruct (refresh_inner_spec l.1 n Hwf) as (i' & Hi' & Hw' & _).
  rewrite refresh_inner_keeps in Hi' |- * by done. simpl in *. subst i'. split_and!; [done..|].
  by rewrite dom_fmap_L.
Qed.

(** What a sequence of operations does to the metrics. *)
Lemma metered_run_spec ops l :
  wf_inner l.1 -> Forall valid_op ops ->
  let l' := metered_run ops l in
  let created := (List.filter is_created (checks ops l)).*1 in
  wrap64 (rejections l'.2)
    = wrap64 (rejections l.2 + Z.of_nat (length (List.filter is_refused (checks ops l)))) ∧
  length (check_time l'.2) = (length (check_time l.2) + length (checks ops l))%nat ∧
  active_address_count l'.2 = active_address_count l.2 + Z.of_nat (length created) ∧
  dom (address_buckets l'.1) = dom (address_buckets l.1) ∪ list_to_set (checks ops l).*1 ∧
  NoDup created ∧ (forall a, a ∈ created -> a ∉ dom (address_buckets l.1)).
Proof.
  revert l. induction ops as [|[[a g|n] e] ops IH]; intros l Hwf Hops.
  { simpl. split_and!; [f_equal; lia|lia|lia|set_solver|constructor|set_solver]. }
  - apply Forall_cons in Hops as [Hg Hops]. cbn [valid_op fst] in Hg.
    destruct (metered_consume l a g e Hwf Hg) as (Hwf1 & Hm1 & Hd1).
    unfold metered_run. cbn [fold_left checks]. set (l1 := metered_step l (Operations.Consume a g, e)) in *.
    fold (metered_run ops l1). destruct (IH l1 Hwf1 Hops) as (Hr & Ht & Ha & Hd & Hn & Hnew).
    pose proof (consume_created l.1 a g) as Hc. set (res := fst (consume_gas_inner l.1 a g)) in *.
    rewrite Hd1 in Hnew, Hd. rewrite Hm1 in Hr, Ht, Ha. rewrite Hr, Ht, Ha, Hd.
    assert (Hrest : a ∉ (List.filter is_created (checks ops l1)).*1) by (intros Hin; set_solver).
    split_and!; [..|by cbn [List.filter]; destruct (is_created (a, res)); [constructor|]|].
    + destruct res; simpl; unfold add64, wrap64; rewrite ?Zplus_mod_idemp_l; f_equal; lia.
    + destruct res; simpl; rewrite length_app; simpl; lia.
    + rewrite !length_fmap. destruct res as [[]| |]; simpl; lia.
    + simpl. set_solver.
    + intros b. cbn [List.filter]. destruct (is_created (a, res)) eqn:E; simpl.
      * intros [->|Hb]%elem_of_cons; [by apply Hc|]. apply Hnew in Hb. set_solver.
      * intros Hb. apply Hnew in Hb. set_solver.
  - apply Forall_cons in Hops as [_ Hops].
    destruct (metered_refresh l n e Hwf) as (Hwf1 & Hm1 & Hd1).
    unfold metered_run. cbn [fold_left checks]. set (l1 := metered_step l (Operations.Refresh n, e)) in *.
    fold (metered_run ops l1). destruct (IH l1 Hwf1 Hops) as (Hr & Ht & Ha & Hd & Hn & Hnew).
    rewrite Hd1 in Hd, Hnew. rewrite Hm1 in Hr, Ht, Ha. simpl in Hr, Ht, Ha. rewrite Z.sub_0_r in Ha.
    by split_and!.
Qed.

(** *** The collector *)

Lemma task_metric_inj t n t' n' :
  task_metric t n = task_metric t' n' <-> t = t' ∧ n = n'.
Proof.
  split; [|by intros [-> ->]]. intros H. injection H as H1 H2. split; [done|exact H1].
Qed.

Lemma counter_record_mean k count mean r k' : counter (record_mean k count mean r) k' = counter r k'.
Proof. unfold record_mean. by case_match. Qed.

(** The counters of a task and what an interval adds to them. *)
Definition task_counts (m : TaskMetrics) : list (string * Z) :=
  [("instrumented_count", tk_instrumented_count m); ("dropped_count", tk_dropped_count m);
   ("first_poll_count", tk_first_poll_count m); ("total_poll_count", tk_total_poll_count m);
   ("slow_poll_count", tk_total_slow_poll_count m);
   ("short_delay_count", tk_total_short_delay_count m);
   ("long_delay_count", tk_total_long_delay_count m)].

Lemma record_metrics_counter task m r task' name :
  counter (record_metrics task m r) (task_metric task' name)
  = foldl (fun acc '(n, v) => if bool_decide (task = task' ∧ n = name) then add64 acc v else acc)
      (counter r (task_metric task' name)) (task_counts m).
Proof.
  unfold record_metrics, task_counts. cbn [foldl].
  repeat first [rewrite counter_record_mean | rewrite counter_record | rewrite counter_increment].
  repeat match goal with |- context [bool_decide (task_metric ?a ?b = task_metric ?c ?d)] =>
    rewrite (bool_decide_ext _ _ (task_metric_inj a b c d)) end.
  done.
Qed.

(** How much a round adds to a counter of a task. *)
Definition tasks_of (iv : Intervals) : list (string * option TaskMetrics) :=
  [("flashblock_timer", iv_flashblock_timer iv);
   ("payload_builder_service", iv_payload_builder_service iv);
   ("payload_handler", iv_payload_handler iv); ("websocket_publisher", iv_websocket_publisher iv)].
Definition polled (task : string) (iv : Intervals) : Z :=
  sum_Z ((fun '(t, m) => if String.eqb t task then
            match m with Some m => tk_total_poll_count m | None => 0 end else 0) <$> tasks_of iv).

Lemma wrap64_add_l a b c : wrap64 a = wrap64 b -> wrap64 (a + c) = wrap64 (b + c).
Proof. unfold wrap64. intros H. by rewrite <- Zplus_mod_idemp_l, H, Zplus_mod_idemp_l. Qed.

Lemma record_metrics_polls task task' m r c :
  wrap64 (counter r (task_metric task "total_poll_count")) = wrap64 c ->
  wrap64 (counter (when_some m (record_metrics task') r) (task_metric task "total_poll_count"))
  = wrap64 (c + if String.eqb task' task then
                  match m with Some m => tk_total_poll_count m | None => 0 end else 0).
Proof.
  intros Hc. destruct m as [m|]; simpl; [|destruct (String.eqb task' task); by rewrite Z.add_0_r].
  rewrite record_metrics_counter. unfold task_counts. cbn [foldl].
  destruct (String.eqb_spec task' task) as [->|Hne].
  - repeat (case_bool_decide as H;
      [destruct H as [_ H]; try discriminate H; clear H|try (destruct H; by split); clear H]).
    rewrite <- (wrap64_add_l _ _ _ Hc). unfold add64, wrap64. by rewrite Zmod_mod.
  - repeat (case_bool_decide as H; [by destruct H|clear H]). by rewrite Z.add_0_r.
Qed.

Lemma record_runtime_counter m r task name :
  counter (when_some m record_runtime r) (task_metric task name) = counter r (task_metric task name).
Proof.
  destruct m as [m|]; [|done]. simpl. unfold record_runtime.
  repeat first [rewrite counter_set | rewrite counter_record | rewrite counter_increment].
  by case_bool_decide.
Qed.

Lemma collect_polls task iv r c :
  wrap64 (counter r (task_metric task "total_poll_count")) = wrap64 c ->
  wrap64 (counter (collect iv r) (task_metric task "total_poll_count")) = wrap64 (c + polled task iv).
Proof.
  intros Hc. rewrite <- (record_runtime_counter (iv_runtime iv)) in Hc.
  unfold collect, polled, tasks_of. rewrite !fmap_cons. cbn [sum_Z fmap list_fmap].
  do 4 (eapply record_metrics_polls in Hc). rewrite Hc. f_equal. cbn. lia.
Qed.

(** ** Properties *)

(** The collector adds up: after any number of rounds the poll counter of a task is the sum of the
    polls of its intervals, modulo the width of the counter. *)
Theorem collector_sums task rounds r :
  wrap64 (counter (spawn_metrics_collector rounds r) (task_metric task "total_poll_count"))
  = wrap64 (counter r (task_metric task "total_poll_count") + sum_Z (polled task <$> rounds)).
Proof.
  unfold spawn_metrics_collector.
  cut (forall c, wrap64 (counter r (task_metric task "total_poll_count")) = wrap64 c ->
    wrap64 (counter (fold_left (fun r iv => collect iv r) rounds r) (task_metric task "total_poll_count"))
    = wrap64 (c + sum_Z (polled task <$> rounds))); [intros H; by apply H|].
  revert r. induction rounds as [|iv rounds IH]; intros r c Hc; cbn [fold_left].
  - by rewrite Z.add_0_r.
  - rewrite (IH _ (c + polled task iv)) by (by apply collect_polls). f_equal.
    rewrite fmap_cons. simpl. lia.
Qed.

(** The metrics of the gas limiter account for its decisions: after any sequence of requests and
    refreshes the rejections are the refused requests, modulo the width of the counter, every request
    was timed, and the gauge of active addresses counts the addresses whose first request was granted.
    It is never more than the number of buckets, and less as soon as some address was refused at its
    first request, for which a bucket exists all the same. *)
Theorem limiter_metrics_account config ops :
  wf_args config -> Forall valid_op ops ->
  let l0 := (mkLimiterInner config ∅, default_limiter_metrics) in
  let l := metered_run ops l0 in
  let asked : gset Z := list_to_set (checks ops l0).*1 in
  let granted_first : gset Z := list_to_set (List.filter is_created (checks ops l0)).*1 in
  wrap64 (rejections l.2) = wrap64 (Z.of_nat (length (List.filter is_refused (checks ops l0)))) /\
  length (check_time l.2) = length (checks ops l0) /\
  dom (address_buckets l.1) = asked /\
  active_address_count l.2 = Z.of_nat (size granted_first) /\
  active_address_count l.2 <= Z.of_nat (size (address_buckets l.1)) /\
  (forall a, a ∈ asked -> a ∉ granted_first ->
     active_address_count l.2 < Z.of_nat (size (address_buckets l.1))).
Proof.
  intros Hargs Hops l0 l asked granted_first.
  destruct (metered_run_spec ops l0) as (Hr & Ht & Ha & Hd & Hn & _); [by split|done|].
  fold l in Hr, Ht, Ha, Hd. cbn [l0 fst snd default_limiter_metrics] in Hr, Ht, Ha, Hd.
  simpl in Hr, Ht, Ha, Hd. rewrite dom_empty_L, (left_id_L ∅ (∪)) in Hd.
  assert (Hsize : active_address_count l.2 = Z.of_nat (size granted_first)).
  { rewrite Ha. unfold granted_first. by rewrite size_list_to_set. }
  assert (Hsub : granted_first ⊆ asked).
  { unfold granted_first, asked. intros a. rewrite !elem_of_list_to_set, !list_elem_of_fmap.
    intros (c & -> & Hc). exists c. split; [done|].
    apply list_elem_of_In. apply list_elem_of_In, List.filter_In in Hc. by destruct Hc. }
  rewrite <- (size_dom (D := gset Z)), Hd. fold asked. split_and!; [done..| |].
  - rewrite Hsize. apply Nat2Z.inj_le. by apply subseteq_size.
  - intros a Hin Hout. rewrite Hsize. apply Nat2Z.inj_lt. apply subset_size. set_solver.
Qed.

(** Address 2 asks for more than its capacity at once: it has a bucket but is not counted. *)
Lemma limiter_metrics_account_witness :
  active_address_count (metered_run ((., 5) <$> sample_ops)
    (mkLimiterInner sample_args ∅, default_limiter_metrics)).2
  < Z.of_nat (size (address_buckets (metered_run ((., 5) <$> sample_ops)
      (mkLimiterInner sample_args ∅, default_limiter_metrics)).1)).
Proof.
  destruct (limiter_metrics_account sample_args ((., 5) <$> sample_ops)) as (_ & _ & _ & _ & _ & H).
  - unfold wf_args, in_u64, U64_MOD. simpl. lia.
  - repeat (constructor; [vm_compute; try discriminate; exact I|]); constructor.
  - apply (H 2).
    + vm_compute. reflexivity.
    + vm_compute. discriminate.
Defined.

(** What the end of a job records: the number of flashblocks published, the fallback block among them,
    and as missing one less than there are, because the fallback block is counted among the published
    but not among the ones asked for. *)
Theorem missing_flashblocks_understated `{X : Externals} `{S : !StateExternals X} {It Self}
    (ctx : FbCtx) (d0 : db) (s : FbState It Self) r :
  loop_inv ctx d0 s -> 0 <= target_flashblock_count ctx ->
  let n := target_flashblock_count ctx in
  let published := Z.of_nat (length (fs_published s)) in
  let r' := record_flashblocks_metrics ctx (fs_info s) n r in
  samples r' (builder_metric "flashblock_count")
    = samples r (builder_metric "flashblock_count") ++ [Num published] /\
  exists m, samples r' (builder_metric "missing_flashblocks_count")
      = samples r (builder_metric "missing_flashblocks_count") ++ [Num m] /\
    m = Z.max 0 ((n + 1 - published) - 1).
Proof.
  intros [_ _ Hi _ Hc] Hn n published r'. unfold r', record_flashblocks_metrics.
  set (txs := Num (Z.of_nat _)).
  assert (Hs : forall k v r k', samples (set_gauge k v r) k' = samples r k') by done.
  assert (Hinc : forall k v r k', samples (increment k v r) k' = samples r k') by done.
  rewrite !Hs, !samples_record, !Hinc. split.
  - rewrite Hi. cbn. by rewrite !app_nil_r.
  - exists (saturating_sub n (flashblock_index ctx)). split; [cbn; by rewrite !app_nil_r|].
    unfold saturating_sub. rewrite Hi. fold published. lia.
Qed.

(** A job of four flashblocks that was cancelled after the fallback block: four are missing, three are
    recorded. *)
Example missing_flashblocks_sample :
  samples (record_flashblocks_metrics (TestJob.job_ctx 1) (with_capacity default_fb_info) 4 (mkRegistry ∅ ∅ ∅))
    (builder_metric "missing_flashblocks_count") = [Num 3].
Proof. vm_compute. reflexivity. Qed.
