(* ===== verification/PoolMetrics.v ===== *)
(** * The counters of the pool loop

    Models the metrics of [execute_best_transactions] of [builders/context.rs]: the counters, which are
    [i32]s, the histograms of the simulated transactions, and the record of a loop that ran to its end.
    The loop itself is in [BestExec]; here it runs with the counters beside its state. *)

From S2P Require Import Prelude External ExecInfo GasLimiter Bundle PoolTx RevertProtection BestTxs Sidecar Context Replay Sequencer BestExec SidecarExec BuilderTx FlashblocksCtx Timing BuildBlock Flashblocks BuildPayload Metrics.

(** ** Loops with ghost state *)

(** The body with a second state, which sees the first and is not seen by it. *)
Definition with_ghost {S R C} (body : S -> ctl S R) (count : S -> C -> C) (sc : S * C)
    : ctl (S * C) (R * C) :=
  match body sc.1 with
  | Next s' => Next (s', count sc.1 sc.2)
  | Stop r => Stop (r, count sc.1 sc.2)
  end.

Lemma with_ghost_erases {S R C} (body : S -> ctl S R) (count : S -> C -> C) fuel s c :
  fst <$> while_loop fuel (with_ghost body count) (s, c) = while_loop fuel body s.
Proof.
  revert s c. induction fuel as [|fuel IH]; intros s c; simpl; [done|].
  unfold with_ghost at 1. simpl. destruct (body s); [apply IH|done].
Qed.

(** ** The counters *)

(** [i32] arithmetic. *)
Definition wrap_i32 (z : Z) : Z := (z + 2 ^ 31) mod 2 ^ 32 - 2 ^ 31.

Record PoolCounters : Type := mkPoolCounters {
  num_txs_considered : Z;
  num_txs_simulated : Z;
  num_txs_simulated_success : Z;
  num_txs_simulated_fail : Z;
  num_bundles_reverted : Z;
  reverted_gas_used : Z;
}.
Definition no_counters : PoolCounters := mkPoolCounters 0 0 0 0 0 0.

Definition considered (c : PoolCounters) : PoolCounters :=
  mkPoolCounters (wrap_i32 (num_txs_considered c + 1)) (num_txs_simulated c) (num_txs_simulated_success c)
    (num_txs_simulated_fail c) (num_bundles_reverted c) (reverted_gas_used c).
Definition simulated (c : PoolCounters) : PoolCounters :=
  mkPoolCounters (num_txs_considered c) (wrap_i32 (num_txs_simulated c + 1)) (num_txs_simulated_success c)
    (num_txs_simulated_fail c) (num_bundles_reverted c) (reverted_gas_used c).
Definition succeeded (c : PoolCounters) : PoolCounters :=
  mkPoolCounters (num_txs_considered c) (num_txs_simulated c)
    (wrap_i32 (num_txs_simulated_success c + 1)) (num_txs_simulated_fail c) (num_bundles_reverted c)
    (reverted_gas_used c).
(** [reverted_gas_used += gas_used as i32] *)
Definition reverted (is_bundle_tx : bool) (gas : Z) (c : PoolCounters) : PoolCounters :=
  mkPoolCounters (num_txs_considered c) (num_txs_simulated c) (num_txs_simulated_success c)
    (wrap_i32 (num_txs_simulated_fail c + 1))
    (if is_bundle_tx then wrap_i32 (num_bundles_reverted c + 1) else num_bundles_reverted c)
    (wrap_i32 (reverted_gas_used c + wrap_i32 gas)).

Section PoolLoop.
Context `{X : Externals} {ExtraCtx E It : Type} `{PT : PayloadTransactions It}.
Context (ctx : OpPayloadBuilderCtx ExtraCtx) (lim : Limits).
(** How long the simulation after a look at the token took, and [InMemorySize::size]. *)
Context (took : nat -> Duration) (in_memory_size : OpTransactionSigned -> Z).
Implicit Type s : ExecState E It.

(** What the iteration that starts in the state [s] counts and records. *)
Definition count_tx s (m : PoolCounters * Registry) : PoolCounters * Registry :=
  let '(c, r) := m in
  match pt_next (st_best s) with
  | (None, _) => (c, r)
  | (Some ptx, _) =>
      let tx := into_consensus ptx in
      let c := considered c in
      match precheck ctx lim (st_info s) ptx with
      | Some _ => (c, r)
      | None =>
          if is_cancelled (cancel ctx) (st_now s) then (c, r)
          else
            match transact (evm_env ctx) (st_db s) tx with
            | inl _ => (c, r)
            | inr (result, _) =>
                let r := record (builder_metric "tx_simulation_duration") (Elapsed (took (st_now s))) r in
                let r := record (builder_metric "tx_byte_size") (Num (in_memory_size (inner tx))) r in
                let c := simulated c in
                if negb (is_ok (fst (consume_gas (st_limiter s) (signer tx) (gas_used result)))) then (c, r)
                else if is_success result then
                  (succeeded c, record (builder_metric "successful_tx_gas_used") (Num (gas_used result)) r)
                else
                  (reverted (bool_decide (is_Some (reverted_hashes ptx))) (gas_used result) c,
                   record (builder_metric "reverted_tx_gas_used") (Num (gas_used result)) r)
            end
      end
  end.

(** [execute_best_transactions] with its metrics: the counters are recorded when the pool is
    exhausted, and not when the loop is cancelled or fails. *)
Definition execute_best_transactions_metered (elapsed : Duration) s (r : Registry)
    : option (outcome PayloadBuilderError (option unit) * ExecState E It * Registry) :=
  match while_loop (S (remaining (st_best s))) (with_ghost (consider ctx lim) count_tx)
          (s, (no_counters, r)) with
  | Some (result, (c, r)) =>
      Some (result,
        match result.1 with
        | Ok None =>
            set_payload_builder_metrics elapsed (num_txs_considered c) (num_txs_simulated c)
              (num_txs_simulated_success c) (num_txs_simulated_fail c) (num_bundles_reverted c)
              (reverted_gas_used c) r
        | _ => r
        end)
  | None => None
  end.

(** ** Specification *)

(** What the loop logs of a transaction that was simulated and granted. *)
Definition logs_success (x : B256 * TxnExecutionResult) : bool :=
  match x.2 with SuccessResult => true | _ => false end.
Definition logs_revert (x : B256 * TxnExecutionResult) : bool :=
  match x.2 with Reverted | RevertedAndExcluded => true | _ => false end.
Definition logged (f : B256 * TxnExecutionResult -> bool) (l : list (B256 * TxnExecutionResult)) : Z :=
  Z.of_nat (length (List.filter f l)).

(** After the log [l] since the state [s0], in the state [s]. *)
Record accounted s0 s (c : PoolCounters) (l : list (B256 * TxnExecutionResult)) : Prop := {
  acc_log : st_log s = st_log s0 ++ l;
  acc_success : num_txs_simulated_success c = wrap_i32 (logged logs_success l);
  acc_fail : num_txs_simulated_fail c = wrap_i32 (logged logs_revert l);
  acc_included : Z.of_nat (length (executed_transactions (st_info s)))
    <= Z.of_nat (length (executed_transactions (st_info s0))) + logged logs_success l + logged logs_revert l;
}.

(** ** Lemmas *)

Lemma wrap_i32_add a b : wrap_i32 (wrap_i32 a + b) = wrap_i32 (a + b).
Proof.
  unfold wrap_i32. f_equal.
  replace ((a + 2 ^ 31) mod 2 ^ 32 - 2 ^ 31 + b + 2 ^ 31) with ((a + 2 ^ 31) mod 2 ^ 32 + b) by lia.
  rewrite Zplus_mod_idemp_l. f_equal. lia.
Qed.

Lemma logged_app f l k : logged f (l ++ k) = logged f l + logged f k.
Proof. unfold logged. rewrite List.filter_app, length_app. lia. Qed.

(** One more iteration, which logged [k] and, when it included a transaction, a success or a revert. *)
Lemma accounted_app s0 s s' c c' l k :
  accounted s0 s c l -> st_log s' = st_log s ++ k ->
  num_txs_simulated_success c' = wrap_i32 (num_txs_simulated_success c + logged logs_success k) ->
  num_txs_simulated_fail c' = wrap_i32 (num_txs_simulated_fail c + logged logs_revert k) ->
  Z.of_nat (length (executed_transactions (st_info s')))
    <= Z.of_nat (length (executed_transactions (st_info s))) + logged logs_success k + logged logs_revert k ->
  accounted s0 s' c' (l ++ k).
Proof.
  intros [Hl Hs Hf Hi] Hk Hs' Hf' Hi'. split.
  - by rewrite Hk, Hl, app_assoc.
  - by rewrite Hs', Hs, wrap_i32_add, logged_app.
  - by rewrite Hf', Hf, wrap_i32_add, logged_app.
  - rewrite !logged_app. lia.
Qed.

Lemma accounted_range s0 s c l :
  accounted s0 s c l ->
  wrap_i32 (num_txs_simulated_success c) = num_txs_simulated_success c /\
  wrap_i32 (num_txs_simulated_fail c) = num_txs_simulated_fail c.
Proof.
  intros [_ -> -> _]. rewrite <- (Z.add_0_r (wrap_i32 (logged logs_success l))),
    <- (Z.add_0_r (wrap_i32 (logged logs_revert l))), !wrap_i32_add, !Z.add_0_r. done.
Qed.

(** A transaction that is skipped before its simulation is logged as neither. *)
Lemma precheck_logs (info : ExecutionInfo E) ptx r h :
  precheck ctx lim info ptx = Some (Some r) -> logs_success (h, r) = false /\ logs_revert (h, r) = false.
Proof.
  unfold precheck, limit_check, is_tx_over_limits, logs_success, logs_revert.
  repeat case_match; intros; simplify_eq/=; done.
Qed.

(** The iteration leaves the accounts as they were. *)
Lemma accounted_skip s0 s s' c c' l k :
  accounted s0 s c l -> st_log s' = st_log s ++ k -> logged logs_success k = 0 ->
  logged logs_revert k = 0 -> num_txs_simulated_success c' = num_txs_simulated_success c ->
  num_txs_simulated_fail c' = num_txs_simulated_fail c -> st_info s' = st_info s ->
  accounted s0 s' c' (l ++ k).
Proof.
  intros Ha Hk H1 H2 Hs Hf Hi. destruct (accounted_range _ _ _ _ Ha) as [Hr1 Hr2].
  apply (accounted_app s0 s s' c c' l k); [done..| | |].
  - by rewrite H1, Z.add_0_r, Hr1.
  - by rewrite H2, Z.add_0_r, Hr2.
  - rewrite Hi, H1, H2. lia.
Qed.

(** A transaction that was granted: one success or one revert, whatever becomes of it. *)
Lemma settle_accounted s0 s ptx result state c c' l :
  accounted s0 s c l ->
  is_ok (fst (consume_gas (st_limiter s) (signer (into_consensus ptx)) (gas_used result))) = true ->
  num_txs_simulated_success c'
    = (if is_success result then wrap_i32 (num_txs_simulated_success c + 1) else num_txs_simulated_success c) ->
  num_txs_simulated_fail c'
    = (if is_success result then num_txs_simulated_fail c else wrap_i32 (num_txs_simulated_fail c + 1)) ->
  match settle ctx ptx result state s with
  | Next s' => exists k, accounted s0 s' c' (l ++ k)
  | Stop r => exists k, accounted s0 r.2 c' (l ++ k)
  end.
Proof.
  intros Ha Hok Hs Hf. destruct (accounted_range _ _ _ _ Ha) as [Hr1 Hr2]. unfold settle, include_tx.
  destruct (consume_gas _ _ _) as [granted limiter]. simpl in Hok. rewrite Hok. simpl.
  set (h := tx_hash (inner (into_consensus ptx))).
  assert (Hacc : forall s' k, st_log s' = st_log s ++ k ->
    logged logs_success k = Z.b2z (is_success result) -> logged logs_revert k = Z.b2z (negb (is_success result)) ->
    (length (executed_transactions (st_info s')) <= S (length (executed_transactions (st_info s))))%nat ->
    exists k, accounted s0 s' c' (l ++ k)).
  { intros s' k Hk H1 H2 Hlen. exists k. apply (accounted_app s0 s s' c c' l k); [done..| | |].
    - rewrite Hs, H1. destruct (is_success result); simpl; by rewrite ?Z.add_0_r, ?Hr1.
    - rewrite Hf, H2. destruct (is_success result); simpl; by rewrite ?Z.add_0_r, ?Hr2.
    - rewrite H1, H2. destruct (is_success result); simpl; lia. }
  destruct (is_success result) eqn:Hres; simpl.
  - destruct (is_some_and _ _); [|destruct (effective_tip_per_gas _ _)];
      [apply (Hacc _ [(h, SuccessResult); (h, MaxGasUsageExceeded)])
      |apply (Hacc _ [(h, SuccessResult)])|apply (Hacc _ [(h, SuccessResult)])];
      simpl; rewrite ?length_app, <- ?app_assoc; simpl; (done || lia).
  - destruct (revert_protected ptx); simpl; [apply (Hacc _ [(h, RevertedAndExcluded)]); simpl; (done || lia)|].
    destruct (is_some_and _ _); [|destruct (effective_tip_per_gas _ _)];
      [apply (Hacc _ [(h, Reverted); (h, MaxGasUsageExceeded)])
      |apply (Hacc _ [(h, Reverted)])|apply (Hacc _ [(h, Reverted)])];
      simpl; rewrite ?length_app, <- ?app_assoc; simpl; (done || lia).
Qed.

Lemma consider_accounted s0 s c r l :
  accounted s0 s c l ->
  let c' := fst (count_tx s (c, r)) in
  match consider ctx lim s with
  | Next s' => exists k, accounted s0 s' c' (l ++ k)
  | Stop res => exists k, accounted s0 res.2 c' (l ++ k)
  end.
Proof.
  intros Ha. unfold consider, count_tx. destruct (pt_next (st_best s)) as [[ptx|] b].
  2:{ exists []. eapply accounted_skip; [exact Ha|..]; simpl; by rewrite ?app_nil_r. }
  cbn [set_best st_info st_db st_best st_limiter st_now st_log tick].
  destruct (precheck ctx lim (st_info s) ptx) as [[x|]|] eqn:Hp.
  - destruct (precheck_logs _ _ _ (tx_hash (inner (into_consensus ptx))) Hp) as [H1 H2].
    exists [(tx_hash (inner (into_consensus ptx)), x)].
    eapply accounted_skip; [exact Ha|..]; unfold logged; simpl; by rewrite ?H1, ?H2.
  - exists []. eapply accounted_skip; [exact Ha|..]; simpl; by rewrite ?app_nil_r.
  - destruct (is_cancelled (cancel ctx) (st_now s)); simpl.
    { exists []. eapply accounted_skip; [exact Ha|..]; simpl; by rewrite ?app_nil_r. }
    destruct (transact (evm_env ctx) (st_db s) (into_consensus ptx)) as [[[] e|e]|[result state]]; simpl;
      try (eexists; eapply accounted_skip; [exact Ha|simpl; reflexivity|done..]).
    destruct (is_ok (fst (consume_gas (st_limiter s) (signer (into_consensus ptx)) (gas_used result)))) eqn:Hok;
      simpl.
    + eapply (settle_accounted s0 (tick (set_best s b)) ptx result state c); [|exact Hok|..].
      * destruct Ha. by split.
      * by destruct (is_success result).
      * by destruct (is_success result).
    + unfold settle. simpl. destruct (consume_gas _ _ _) as [granted limiter]. simpl in Hok. rewrite Hok. simpl.
      eexists. eapply accounted_skip; [exact Ha|simpl; reflexivity|done..].
Qed.

(** The metrics of a transaction are not those of the payload. *)
Definition payload_metric (name : string) : Prop :=
  name = "payload_num_tx_simulated_success"%string \/ name = "payload_num_tx_simulated_fail"%string.

Lemma count_tx_samples s c r name :
  payload_metric name ->
  samples (snd (count_tx s (c, r))) (builder_metric name) = samples r (builder_metric name).
Proof.
  intros Hn. unfold count_tx. repeat (case_match; simplify_eq/=; try done); rewrite !samples_record;
    (rewrite !bool_decide_false by (destruct Hn as [-> | ->]; done)); by rewrite !app_nil_r.
Qed.

End PoolLoop.

#[local] Arguments count_tx : simpl never.

(** ** Properties *)

(** The metrics do not interfere: with them the pool loop returns what it returns without them. *)
Theorem metrics_do_not_interfere `{X : Externals} {ExtraCtx E It} `{PT : PayloadTransactions It}
    (ctx : OpPayloadBuilderCtx ExtraCtx) lim took size elapsed (s : ExecState E It) r :
  fst <$> execute_best_transactions_metered ctx lim took size elapsed s r
  = execute_best_transactions ctx lim s.
Proof.
  unfold execute_best_transactions_metered, execute_best_transactions.
  rewrite <- (with_ghost_erases (consider ctx lim) (count_tx ctx lim took size) _ s (no_counters, r)).
  by destruct (while_loop _ _ _) as [[res [c r']]|].
Qed.

(** The counters of a loop that exhausted the pool account for its decisions: the successes and the
    failures that are recorded are those that were logged, modulo the width of the counters, and the
    block got no more transactions than these; the transactions over [max_gas_per_txn] are counted as
    well although they are not included.  A loop that was cancelled or failed records none of this. *)
Theorem pool_counters_account `{X : Externals} {ExtraCtx E It} `{PT : PayloadTransactions It}
    (ctx : OpPayloadBuilderCtx ExtraCtx) lim took size elapsed (s s' : ExecState E It) r r' res :
  execute_best_transactions_metered ctx lim took size elapsed s r = Some (res, s', r') ->
  exists l c, accounted s s' c l /\
    samples r' (builder_metric "payload_num_tx_simulated_success")
      = samples r (builder_metric "payload_num_tx_simulated_success")
        ++ (match res with Ok None => [Num (num_txs_simulated_success c)] | _ => [] end) /\
    samples r' (builder_metric "payload_num_tx_simulated_fail")
      = samples r (builder_metric "payload_num_tx_simulated_fail")
        ++ (match res with Ok None => [Num (num_txs_simulated_fail c)] | _ => [] end).
Proof.
  unfold execute_best_transactions_metered.
  destruct (while_loop _ _ _) as [[[res1 s1] [c r1]]|] eqn:Hw; [|done]. intros [= <- <- <-].
  set (kept := fun r2 : Registry => forall name, payload_metric name ->
    samples r2 (builder_metric name) = samples r (builder_metric name)).
  assert (Hq : (exists l, accounted s s1 c l) /\ kept r1).
  { apply (while_loop_invariant
      (fun sm : ExecState E It * (PoolCounters * Registry) =>
         (exists l, accounted s sm.1 sm.2.1 l) /\ kept sm.2.2)
      (fun rm => (exists l, accounted s rm.1.2 rm.2.1 l) /\ kept rm.2.2)
      (with_ghost (consider ctx lim) (count_tx ctx lim took size))) in Hw; [done|..].
    - intros [s2 [c2 r2]] s3 [[l Ha] Hk]. unfold with_ghost. simpl.
      pose proof (consider_accounted ctx lim took size s s2 c2 r2 l Ha) as Hc.
      destruct (consider ctx lim s2) as [s4|]; [|done]. intros [= <-]. destruct Hc as [k Hc].
      split; [by eexists|]. intros name Hn. simpl. by rewrite count_tx_samples, Hk.
    - intros [s2 [c2 r2]] s3 [[l Ha] Hk]. unfold with_ghost. simpl.
      pose proof (consider_accounted ctx lim took size s s2 c2 r2 l Ha) as Hc.
      destruct (consider ctx lim s2) as [|s4]; [done|]. intros [= <-]. destruct Hc as [k Hc].
      split; [by eexists|]. intros name Hn. simpl. by rewrite count_tx_samples, Hk.
    - split; [|done]. exists []. by split; simpl; rewrite ?app_nil_r; [..|unfold logged; simpl; lia]. }
  destruct Hq as [[l Ha] Hk]. exists l, c. split; [done|].
  assert (Hs := Hk _ (or_introl eq_refl)). assert (Hf := Hk _ (or_intror eq_refl)).
  destruct res1 as [[[]|]| |]; rewrite ?app_nil_r; [by split| |by split..].
  unfold set_payload_builder_metrics.
  assert (Hg : forall k v r k', samples (set_gauge k v r) k' = samples r k') by done.
  repeat first [rewrite Hg | rewrite samples_record]. rewrite Hs, Hf. by rewrite !app_nil_r.
Qed.

(** The gas of a single reverted transaction above 2^31 is recorded as a negative number. *)
Example reverted_gas_wraps : reverted_gas_used (reverted false 3000000000 no_counters) = -1294967296.
Proof. reflexivity. Qed.
