(* ===== verification/Launch.v ===== *)
(** * Launching a node

    Models [launch] of [launcher.rs] with the set-up of telemetry ([primitives/telemetry.rs]), and the
    assembly of the payload services: [builders/standard/service.rs], [builders/flashblocks/service.rs]
    and the constructor of the flashblocks payload builder ([builders/flashblocks/payload.rs]).  What
    the decisions of the launcher are is in [Config]; here are the parts it starts and in what order.
    reth's command line, the OTLP exporter and the binding of sockets are parameters. *)

From S2P Require Import Prelude External ExecInfo GasLimiter Bundle PoolTx RevertProtection BestTxs Sidecar Context Replay Sequencer BestExec SidecarExec BuilderTx FlashblocksCtx BuilderTxImpls Timing BuildBlock Flashblocks BuildPayload Generator Service PayloadHandler P2p P2pBuild WsPub Quote Attestation Config Playground.

(** ** Telemetry *)

Inductive LevelFilter : Type := WARN | INFO | DEBUG.

Inductive LaunchError : Type :=
| NoOtlpEndpoint
| OtlpFailed (e : Z)
| TracingFailed (e : Z)
| PlaygroundFailed (e : PlaygroundError)
| RunFailed (e : Z)
| ServiceFailed (e : ServiceError)
| WsFailed (e : Z).

(** The OTLP exporter: [Url::parse], [OtlpConfig::new] and [span_layer]. *)
Class Otlp : Type := {
  parse_url : string -> option Z;
  otlp_config : string -> Z -> Z + Z;
  span_layer : Z -> Z + Z;
}.

(** A layer with the levels it lets through: the default one and those of targets. *)
Record TelemetryLayer : Type := mkLayer {
  ly_layer : Z;
  ly_default : LevelFilter;
  ly_targets : list (string * LevelFilter);
}.

(** [setup_telemetry_layer], and the environment of the process after it: the exporter reads the
    headers from there. *)
Definition setup_telemetry_layer `{Otlp} (args : TelemetryArgs) (env : gmap string string)
    : outcome LaunchError TelemetryLayer * gmap string string :=
  match ta_otlp_endpoint args with
  | None => (Err NoOtlpEndpoint, env)
  | Some endpoint =>
      let env :=
        match ta_otlp_headers args with
        | Some headers => <["OTEL_EXPORTER_OTLP_HEADERS"%string := headers]> env
        | None => env
        end in
      (let? url := expect (parse_url endpoint) in
       let? config := of_sum OtlpFailed (otlp_config "op-rbuilder" url) in
       let? otlp_layer := of_sum OtlpFailed (span_layer config) in
       Ok (mkLayer otlp_layer WARN [("op_rbuilder", INFO); ("payload_builder", DEBUG)]%string), env)
  end.

(** ** [launch] *)

(** What was run: a node, with its set-up, or another command. *)
Inductive Launched : Type :=
| StandardNode (setup : NodeSetup unit)
| FlashblocksNode (setup : NodeSetup FlashblocksConfig)
| CommandRan.

(** The arguments the telemetry is set up with: those of the [node] command, or none. *)
Definition telemetry_args (command : Commands) : TelemetryArgs :=
  match command with
  | NodeCommand args => a_telemetry args
  | OtherCommand => mkTelemetryArgs None None 0
  end.

(** [cli_app.run(launcher)]: the [node] command goes to the launcher's entry point, the others to
    reth. *)
Definition run_launcher `{IpParser} (other : Z + unit) (mode : BuilderMode) (command : Commands)
    : outcome LaunchError Launched :=
  match command with
  | NodeCommand args =>
      match mode with
      | StandardMode => let? setup := entrypoint args in Ok (StandardNode setup)
      | FlashblocksMode => let? setup := entrypoint args in Ok (FlashblocksNode setup)
      end
  | OtherCommand => let? _ := of_sum RunFailed other in Ok CommandRan
  end.

(** [launch], with the [telemetry] feature or without; [tracing] is the answer of
    [access_tracing_layers]. *)
Definition launch `{IpParser} `{Otlp} (telemetry : bool) (tracing other : Z + unit) (command : Commands)
    (env : gmap string string) : outcome LaunchError Launched * gmap string string :=
  let mode := builder_mode command in
  if telemetry then
    let '(layer, env) := setup_telemetry_layer (telemetry_args command) env in
    (let? _ := layer in
     let? _ := of_sum TracingFailed tracing in
     run_launcher other mode command, env)
  else (run_launcher other mode command, env).

(** [Cli::parsed]: the command line, with the options of the playground when it names one. *)
Definition parsed `{PlaygroundExternals} `{FileSystem} `{HexCodec} (source : string -> option ValueSource)
    (d : fs) (http_draws port_draws : list Z) (cli : option NodeArgs)
    : option (outcome LaunchError Commands) :=
  match cli with
  | None => Some (Ok OtherCommand)
  | Some node =>
      match populate_defaults source d http_draws port_draws node with
      | Some r => Some (let? node := map_err PlaygroundFailed r in Ok (NodeCommand (na_ext node)))
      | None => None
      end
  end.

(** ** The payload services *)

(** [FlashblocksServiceTx] builds as what it holds. *)
#[export] Instance service_builder_transactions `{X : Externals} `{!BuilderExternals X} `{Abi} :
  BuilderTransactions FlashblocksServiceTx FlashblocksExtraCtx FlashblocksExecutionInfo :=
  fun self p info ctx d top =>
    match self with
    | NumberTx t => let '(r, t', d') := simulate_builder_txs t p info ctx d top in (r, NumberTx t', d')
    | PlainTx t => let '(r, t', d') := simulate_builder_txs t p info ctx d top in (r, PlainTx t', d')
    end.

(** [OpPayloadBuilder] and its constructor: the fields that are made here or decide what it does. *)
Record OpPayloadBuilder (BuilderTx : Type) : Type := mkOpPayloadBuilder {
  opb_config : FbConfig;
  opb_builder_tx : BuilderTx;
  opb_address_gas_limiter : AddressGasLimiter;
  opb_sidecar : SidecarConfig;
}.
Arguments mkOpPayloadBuilder {BuilderTx}.
Arguments opb_config {BuilderTx} _.
Arguments opb_builder_tx {BuilderTx} _.
Arguments opb_address_gas_limiter {BuilderTx} _.
Arguments opb_sidecar {BuilderTx} _.

Definition new_payload_builder {BuilderTx} (config : FbConfig) (builder_tx : BuilderTx)
    : OpPayloadBuilder BuilderTx :=
  mkOpPayloadBuilder config builder_tx (new_limiter (cfg_gas_limiter_config config))
    (sidecar (cfg_specific config)).

(** The tasks that are spawned. *)
Inductive SpawnedTask : Type :=
| P2pNodeTask (node : BuiltNode)
| WsListenerTask
| PayloadServiceTask
| PayloadHandlerTask
| MetricsCollectorTask.

(** The parts of a running flashblocks service. *)
Record FlashblocksService (BuilderTx M : Type) : Type := mkFlashblocksService {
  sv_builder : OpPayloadBuilder BuilderTx;
  sv_store : Store OpBuiltPayload;
  sv_publisher : WebSocketPublisher M;
  sv_handler : HandlerState;
  sv_syncer : OpPayloadSyncerCtx;
}.
Arguments mkFlashblocksService {BuilderTx M}.
Arguments sv_builder {BuilderTx M} _.
Arguments sv_store {BuilderTx M} _.
Arguments sv_publisher {BuilderTx M} _.
Arguments sv_handler {BuilderTx M} _.
Arguments sv_syncer {BuilderTx M} _.

Section Services.
Context `{X : Externals} `{B : !BuilderExternals X} `{A : Abi} `{Hx : HexCodec} `{C : HttpClient}.
Context `{F : FileSystem} `{H : SeedHash} `{R : RpcProvider} `{L : Libp2p}.
(** [Multiaddr::from_str], [TcpListener::bind], the peer id of a fresh key pair and the protocol of the
    flashblocks streams; the chain specification of the node. *)
Context (parse_multiaddr : Text -> option Multiaddr) (bind_listener : string -> Z -> Z + unit).
Context (generated : PeerId) (protocol : StreamProtocol) (spec : OpChainSpec) (interop : bool).

(** [FlashblocksServiceBuilder::spawn_payload_builder_service]: the service and the tasks that were
    spawned, the ones before an error too.  Without a node the other ends of the handler's channels
    are dropped at once. *)
Definition spawn_flashblocks {BuilderTx M} (config : FbConfig) (builder_tx : BuilderTx) (d : fs)
    : outcome LaunchError (FlashblocksService BuilderTx M) * list SpawnedTask :=
  let specific := cfg_specific config in
  match start_p2p parse_multiaddr generated protocol 0 specific d with
  | Ok p2p =>
      let '(handler, tasks) :=
        match p2p with
        | Some (node, _, _) => (new_handler, [P2pNodeTask node])
        | None => (close_channels false true new_handler, [])
        end in
      match bind_listener (ws_addr specific) (ws_port specific) with
      | inl e => (Err (WsFailed e), tasks)
      | inr _ =>
          let ws_pub := ws_new (Timing.ws_subscriber_limit specific) in
          let payload_builder := new_payload_builder config builder_tx in
          let payload_generator := with_builder true (cfg_block_time_leeway config) in
          let syncer_ctx := new_syncer_ctx spec config interop in
          (Ok (mkFlashblocksService payload_builder payload_generator ws_pub handler syncer_ctx),
           tasks ++ [WsListenerTask; PayloadServiceTask; PayloadHandlerTask; MetricsCollectorTask])
      end
  | Err e => (Err (ServiceFailed e), [])
  | Panic => (Panic, [])
  end.

(** [PayloadServiceBuilder::spawn_payload_builder_service] of the flashblocks service. *)
Definition flashblocks_service {M} (config : FbConfig) (random : Z) (now : option Z) (d : fs)
    : outcome LaunchError (FlashblocksService FlashblocksServiceTx M) * list SpawnedTask * fs :=
  let '(tx, d) := flashblocks_service_tx config random now d in
  match tx with
  | Ok builder_tx => (spawn_flashblocks config builder_tx d, d)
  | Err e => (Err e, [], d)
  | Panic => (Panic, [], d)
  end.

(** The payload jobs of the standard service: reth's generator with the times of the node's
    configuration. *)
Record StandardService : Type := mkStandardService {
  ss_config : BuilderConfig unit;
  ss_builder_tx : StandardBuilderTx;
  ss_interval : Duration;
  ss_deadline : Duration;
  ss_max_payload_tasks : Z;
}.

Definition standard_service {E} (conf : Duration * Duration * Z) (config : BuilderConfig unit)
    (random : Z) (now : option Z) (d : fs) : outcome E StandardService * list SpawnedTask * fs :=
  let '(tx, d) := standard_service_tx config random now d in
  match tx with
  | Ok builder_tx =>
      let '(interval, deadline, max_payload_tasks) := conf in
      (Ok (mkStandardService config builder_tx interval deadline max_payload_tasks),
       [PayloadServiceTask], d)
  | Err e => (Err e, [], d)
  | Panic => (Panic, [], d)
  end.

End Services.

(** ** Lemmas *)

(** The laws of the trait for the transactions of the service. *)
#[export] Instance service_laws `{X : Externals} `{B : !BuilderExternals X} `{SL : !SigningLaws X}
    `{F : !FlzLaws X} `{A : Abi} :
  BuilderTransactionsLaws FlashblocksServiceTx FlashblocksExtraCtx FlashblocksExecutionInfo.
Proof.
  refine {| self_ok := fun self => match self with
                                   | NumberTx t => self_ok t
                                   | PlainTx t => self_ok t
                                   end |}.
  intros [t|t] self' p info ctx d d' top r Hok; unfold simulate_builder_txs, service_builder_transactions;
    destruct (simulate_builder_txs t p info ctx d top) as [[r1 t1] d1] eqn:E; intros [= <- <- <-];
    by destruct (simulated_ok _ _ _ _ _ _ _ _ _ Hok E).
Defined.

Section Lemmas.
Context `{X : Externals} `{B : !BuilderExternals X} `{A : Abi} `{Hx : HexCodec} `{C : HttpClient}.
Context `{F : FileSystem} `{H : SeedHash} `{R : RpcProvider} `{L : Libp2p}.

Lemma bootstrap_signer args builder_key random now (d d' : fs) ft :
  bootstrap_flashtestations args builder_key random now d = (Ok ft, d') ->
  ft_builder_signer ft = builder_key.
Proof.
  unfold bootstrap_flashtestations. destruct (load_or_generate_tee_key _ _ _ _ _) as [key d1].
  intros [= Hb _]. apply bind_Ok in Hb as (? & _ & Hb). do 3 apply bind_Ok in Hb as (? & _ & Hb).
  apply bind_Ok in Hb as (? & _ & Hb). apply bind_Ok in Hb as (? & _ & Hb).
  by apply bind_Ok in Hb as (? & _ & [= <-]).
Qed.

(** The builder transactions of a service are valid when the builder's key is. *)
Lemma flashblocks_service_tx_ok `{SL : !SigningLaws X} `{FZ : !FlzLaws X} {E} (config : FbConfig) random now
    (d d' : fs) tx :
  (forall sg, cfg_builder_signer config = Some sg -> valid_signer sg) ->
  flashblocks_service_tx (E := E) config random now d = (Ok tx, d') -> self_ok tx.
Proof.
  intros Hsg. unfold flashblocks_service_tx.
  destruct (start_flashtestations config random now d) as [r d1] eqn:Hs. intros [= Htx _].
  apply bind_Ok in Htx as (ft & -> & Htx).
  assert (Hft : maybe_ok ft).
  { intros t ->. unfold start_flashtestations in Hs.
    destruct (cfg_builder_signer config) as [key|]; [|done].
    destruct (fa_enabled _); [|done]. destruct (bootstrap_flashtestations _ _ _ _ _) as [r2 d2] eqn:Hb.
    destruct r2 as [ft| |]; [|done..]. injection Hs as -> _.
    unfold flashtestations_ok. rewrite (bootstrap_signer _ _ _ _ _ _ _ Hb). by apply Hsg. }
  destruct (cfg_builder_signer config) as [key|];
    [destruct (number_contract_address (cfg_specific config)) as [address|]|]; injection Htx as <-; simpl.
  - split_and!; [by apply Hsg| |done]. intros sg [= <-]. by apply Hsg.
  - split; [|done]. intros sg [= <-]. by apply Hsg.
  - by split.
Qed.

End Lemmas.

(** Without p2p nothing is received, so nothing is executed. *)
Lemma closed_handler_local `{X : Externals} `{S : !StateExternals X} `{J : !JobExternals X}
    `{Y : !SyncExternals X} sctx known s s' :
  star (handler_step sctx known) s s' -> hs_p2p_open s = false -> hs_received s = [] ->
  hs_p2p_open s' = false /\ hs_received s' = [].
Proof.
  intros H. induction H as [s|s t u Hst _ IH]; intros Ho Hr; [done|]. apply IH.
  - destruct Hst; simpl in *; try done; try congruence; [by rewrite Ho|by destruct m].
  - destruct Hst; simpl in *; try done; try congruence. by destruct m.
Qed.

(** What a successful launch in flashblocks mode is made of. *)
Lemma launch_flashblocks `{IpParser} `{Otlp} telemetry tracing other args env env' setup :
  launch telemetry tracing other (NodeCommand args) env = (Ok (FlashblocksNode setup), env') ->
  fba_enabled (a_flashblocks args) = true /\ builder_config_from args = Ok (ns_config setup).
Proof.
  assert (Hrun : run_launcher other (builder_mode (NodeCommand args)) (NodeCommand args)
      = Ok (FlashblocksNode setup) ->
    fba_enabled (a_flashblocks args) = true /\ builder_config_from args = Ok (ns_config setup)).
  { simpl. destruct (fba_enabled _).
    - intros (n & Hn & [= <-])%bind_Ok. split; [done|]. unfold entrypoint in Hn.
      destruct (builder_config_from args) as [c| |]; [|done..]. by injection Hn as <-.
    - done. }
  unfold launch. destruct telemetry; [|by intros [= Hr _]; apply Hrun].
  destruct (setup_telemetry_layer _ _) as [layer env1]. intros [= Hr _].
  apply bind_Ok in Hr as (? & _ & Hr). by apply bind_Ok in Hr as (? & _ & Hr%Hrun).
Qed.

(** A service that was spawned: its parts, and its tasks. *)
Lemma flashblocks_service_parts `{X : Externals} `{B : !BuilderExternals X} `{A : Abi} `{HexCodec}
    `{HttpClient} `{FileSystem} `{SeedHash} `{RpcProvider} `{Libp2p} parse_multiaddr bind_listener generated
    protocol spec interop {M} config random now (d d' : fs) (sv : FlashblocksService FlashblocksServiceTx M)
    tasks :
  flashblocks_service parse_multiaddr bind_listener generated protocol spec interop config random now d
    = (Ok sv, tasks, d') ->
  exists tx nodes, flashblocks_service_tx (E := LaunchError) config random now d = (Ok tx, d') /\
    sv = mkFlashblocksService (new_payload_builder config tx)
           (with_builder true (cfg_block_time_leeway config))
           (ws_new (Timing.ws_subscriber_limit (cfg_specific config)))
           (if p2p_enabled (cfg_specific config) then new_handler else close_channels false true new_handler)
           (new_syncer_ctx spec config interop) /\
    tasks = nodes ++ [WsListenerTask; PayloadServiceTask; PayloadHandlerTask; MetricsCollectorTask] /\
    length nodes = (if p2p_enabled (cfg_specific config) then 1 else 0)%nat.
Proof.
  unfold flashblocks_service. destruct (flashblocks_service_tx config random now d) as [[tx| |] d1]; [|done..].
  unfold spawn_flashblocks. destruct (start_p2p _ _ _ _ _ _) as [p2p| |] eqn:Hp; [|done..].
  intros Heq. exists tx.
  assert (Hen : p2p_enabled (cfg_specific config) = bool_decide (is_Some p2p)).
  { unfold start_p2p in Hp. destruct (p2p_enabled _); [|by injection Hp as <-].
    repeat (apply bind_Ok in Hp as (? & _ & Hp)). by injection Hp as <-. }
  rewrite Hen. destruct p2p as [[[node ?] ?]|]; simpl in *;
    (destruct (bind_listener _ _); [done|]); injection Heq as <- <- <-;
    [exists [P2pNodeTask node]|exists []]; by split_and!.
Qed.

(** With the [telemetry] feature a program that was given no endpoint ends before it does anything:
    also every command but [node], for which no endpoint can be given. *)
Lemma telemetry_needs_endpoint `{IpParser} `{Otlp} tracing other command env :
  (ta_otlp_endpoint (telemetry_args command) = None ->
   launch true tracing other command env = (Err NoOtlpEndpoint, env)) /\
  launch true tracing other OtherCommand env = (Err NoOtlpEndpoint, env).
Proof. split; [|done]. intros Hn. unfold launch, setup_telemetry_layer. by rewrite Hn. Qed.

(** The listener is bound after the p2p node was spawned: when that fails the service does not start,
    and the node is left running. *)
Lemma failed_listener_leaves_node `{Libp2p} `{FileSystem} parse_multiaddr bind_listener generated protocol
    spec interop {BuilderTx M} (config : FbConfig) (tx : BuilderTx) (d : fs) node addrs rx e :
  start_p2p parse_multiaddr generated protocol 0 (cfg_specific config) d = Ok (Some (node, addrs, rx)) ->
  bind_listener (ws_addr (cfg_specific config)) (ws_port (cfg_specific config)) = inl e ->
  spawn_flashblocks (M := M) parse_multiaddr bind_listener generated protocol spec interop config tx d
    = (Err (WsFailed e), [P2pNodeTask node]).
Proof. intros Hp Hb. unfold spawn_flashblocks. by rewrite Hp, Hb. Qed.

(** ** A launch on the small chain *)
Module TestLaunch.

#[export] Instance test_libp2p : Libp2p := {|
  hex_bytes _ := None;
  keypair_try_from_bytes _ := inl 0;
  dns_transport := inr tt;
  noise_config _ := inr tt;
  mdns_behaviour _ := inr tt;
  listen_on _ := inr tt;
  dial_address _ := inr tt;
|}.
#[export] Instance test_otlp : Otlp := {|
  parse_url _ := Some 1;
  otlp_config _ u := inr u;
  span_layer c := inr c;
|}.

End TestLaunch.

(** ** Properties *)

(** C2: from the command line to the blocks.  A node that is launched in flashblocks mode with safe
    times and a valid builder key, and whose service starts, keeps the promises of its parts: whatever
    is requested and built, a payload that the future of a job returns is valid for that job; whatever
    arrives on the channels, the handler announces only payloads of this node or ones it executed
    itself, and without p2p only payloads of this node.  Its tasks are the listener, the payload
    service, the handler, the collector of metrics and, with p2p, the node. *)
Theorem launched_service_sound `{X : Externals} `{B : !BuilderExternals X} `{S : !StateExternals X}
    `{J : !JobExternals X} `{Y : !SyncExternals X} `{!EvmGas X} `{!ReceiptLaws X} `{!FeeLaws X}
    `{FZ : !FlzLaws X} `{SL : !StateLaws X} `{!JobLaws X} `{!SigningLaws X} {It} `{PT : PayloadTransactions It}
    `{!PayloadTransactionsLaws It} `{A : Abi} `{HexCodec} `{HttpClient} `{FileSystem} `{SeedHash}
    `{RpcProvider} `{Libp2p} `{IpParser} `{Otlp} {M} telemetry tracing other args env env' setup
    parse_multiaddr bind_listener generated protocol spec interop random now (d d' : fs)
    (sv : FlashblocksService FlashblocksServiceTx M) tasks :
  launch telemetry tracing other (NodeCommand args) env = (Ok (FlashblocksNode setup), env') ->
  u64_times args -> safe_times args -> a_chain_block_time args < U64_MAX ->
  0 <= fba_end_buffer_ms (a_flashblocks args) ->
  (forall sg, a_builder_signer args = Some sg -> valid_signer sg) ->
  flashblocks_service parse_multiaddr bind_listener generated protocol spec interop (ns_config setup)
    random now d = (Ok sv, tasks, d') ->
  let config := opb_config (sv_builder sv) in
  let enabled := pa_p2p_enabled (fba_p2p (a_flashblocks args)) in
  self_ok (opb_builder_tx (sv_builder sv)) /\
  (forall s j job r,
     star (step (PB := flashblocks_builds (It := It) (Self := FlashblocksServiceTx) config spec interop))
       (sv_store sv) s ->
     st_jobs s !! j = Some job -> resolve_poll j s = Ready r ->
     exists p, r = Ok p /\ p ∈ job_history job /\ valid_for config spec interop (job_config job) p) /\
  (forall known s, star (handler_step (sv_syncer sv) known) (sv_handler sv) s ->
     Forall (fun p => p ∈ hs_built s \/ enabled = true /\ synced (sv_syncer sv) known (hs_received s) p)
       (hs_events s)) /\
  (exists nodes, length nodes = (if enabled then 1 else 0)%nat /\
     tasks = nodes ++ [WsListenerTask; PayloadServiceTask; PayloadHandlerTask; MetricsCollectorTask]).
Proof.
  intros Hl Hu Hsafe Hmax Hend Hsg Hsv config enabled. apply launch_flashblocks in Hl as [_ Hc].
  pose proof (safe_config_wf _ _ Hc Hu Hsafe Hmax Hend) as Hwf.
  apply flashblocks_service_parts in Hsv as (tx & nodes & Htx & -> & -> & Hn).
  assert (Hcfg : cfg_builder_signer (ns_config setup) = a_builder_signer args /\
    p2p_enabled (cfg_specific (ns_config setup)) = enabled).
  { unfold builder_config_from, try_from_args, flashblocks_try_from, flashblocks_config_from in Hc.
    apply bind_Ok in Hc as (c & Hs & [= <-]). by apply bind_Ok in Hs as (a & _ & [= <-]). }
  destruct Hcfg as [Hsigner Hen]. simpl in *. rewrite Hen in *. split_and!.
  - eapply flashblocks_service_tx_ok; [|exact Htx]. by rewrite Hsigner.
  - intros s j job r. by apply (resolved_valid (It := It) (Self := FlashblocksServiceTx) (ns_config setup) spec interop).
  - intros known s Hs. destruct enabled.
    + apply handler_reachable in Hs as [He _ _ _ _ _]. eapply Forall_impl; [exact He|]. naive_solver.
    + destruct (closed_handler_local _ _ _ _ Hs) as [_ Hr]; [done..|].
      assert (Hs' : star (handler_step (new_syncer_ctx spec (ns_config setup) interop) known) new_handler s)
        by (eapply star_step; [apply (step_close _ _ new_handler false true)|exact Hs]).
      apply handler_reachable in Hs' as [He _ _ _ _ _]. rewrite Hr in He.
      eapply Forall_impl; [exact He|]. intros p [?|(w & c & t & fb & Hw & _)]; [by left|].
      by apply not_elem_of_nil in Hw.
  - by exists nodes.
Qed.

Import TestChain TestPool TestSigner TestState TestJob TestPayload TestSync TestAbi TestAttestation TestConfig TestLaunch.

(** The node of the default arguments, with flashblocks: a payload it built is announced. *)
Lemma launched_service_sound_witness :
  exists setup (sv : FlashblocksService FlashblocksServiceTx Z) tasks d' s,
    launch false (inr tt) (inr tt) (NodeCommand (timed_args 1000 250 0 false)) ∅
      = (Ok (FlashblocksNode setup), ∅) /\
    flashblocks_service (X := chain) (fun _ => None) (fun _ _ => inr tt) 3 7 (sample_spec false) false
      (ns_config setup) 5 (Some 0) (disk_of false []) = (Ok sv, tasks, d') /\
    star (handler_step (X := chain) (sv_syncer sv) (fun _ => True)) (sv_handler sv) s /\
    hs_events s = [sync_built] /\ sync_built ∈ hs_built s.
Proof.
  destruct (launch false (inr tt) (inr tt) (NodeCommand (timed_args 1000 250 0 false)) ∅)
    as [[[|setup|]| |] env] eqn:Hl; try discriminate Hl.
  destruct (flashblocks_service (X := chain) (M := Z) (fun _ => None) (fun _ _ => inr tt) 3 7
    (sample_spec false) false (ns_config setup) 5 (Some 0) (disk_of false [])) as [[[sv| |] tasks] d'] eqn:Hs;
    try (injection Hl as <- <-; discriminate Hs).
  assert (Hp : sv_handler sv = close_channels false true new_handler)
    by (injection Hl as <- <-; by injection Hs as <- <- <-).
  assert (He : env = ∅) by (by injection Hl as <- <-). subst env.
  set (s1 := send_built sync_built (sv_handler sv)).
  set (s2 := on_built true false sync_built [] s1).
  exists setup, sv, tasks, d', s2.
  assert (H2 : star (handler_step (X := chain) (sv_syncer sv) (fun _ => True)) (sv_handler sv) s2).
  { unfold s2, s1. rewrite Hp. eapply star_step; [by apply step_send_built|].
    eapply star_step; [by apply step_built|apply star_refl]. }
  split; [reflexivity|]. split; [exact Hs|]. split; [exact H2|].
  assert (Hev : hs_events s2 = [sync_built]) by (unfold s2, s1; by rewrite Hp).
  split; [exact Hev|].
  destruct (launched_service_sound (X := chain) (It := pool_iter) (M := Z) false (inr tt) (inr tt)
    (timed_args 1000 250 0 false) ∅ ∅ setup (fun _ => None) (fun _ _ => inr tt) 3 7 (sample_spec false) false
    5 (Some 0) (disk_of false []) d' sv tasks Hl) as (_ & _ & Hh & _).
  - unfold u64_times, in_u64, U64_MOD. cbn. lia.
  - split; [cbn; lia|done].
  - cbn. unfold U64_MAX. lia.
  - cbn. lia.
  - intros sg Hsg. discriminate Hsg.
  - exact Hs.
  - specialize (Hh _ _ H2). rewrite Hev in Hh.
    apply Forall_cons_1 in Hh as [[Hin|[Hf _]] _]; [exact Hin|discriminate Hf].
Defined.
