(* ===== verification/MockTx.v ===== *)
(** * Mock pool transactions

    Models [mock_tx.rs]: the transaction type the unit tests of the transaction iterator put into the
    pool, a mock transaction of reth with the flashblock range, and the factory that creates them.
    [MockTransaction] is reth's: its variants with the fields that [mock_tx.rs] reads; how reth creates
    and converts one is a parameter. *)

From S2P Require Import Prelude External PoolTx.

(** ** Data *)

Inductive TxKind : Type := TxCreate | TxCall (to : Address).

(** The fields all variants have. *)
Record MockFields : Type := mkMockFields {
  mf_hash : B256;
  mf_sender : Address;
  mf_nonce : Z;
  mf_gas_limit : Z;
  mf_value : Z;
  mf_input : Bytes;
  mf_size : Z;
  mf_cost : Z;
}.

Inductive MockTransaction : Type :=
| MockLegacy (f : MockFields) (chain_id : option Z) (gas_price : Z) (to : TxKind)
| MockEip2930 (f : MockFields) (chain_id : Z) (gas_price : Z) (to : TxKind) (access_list : list Z)
| MockEip1559 (f : MockFields) (chain_id : Z) (max_fee_per_gas max_priority_fee_per_gas : Z)
    (to : TxKind) (access_list : list Z)
| MockEip4844 (f : MockFields) (chain_id : Z)
    (max_fee_per_gas max_priority_fee_per_gas max_fee_per_blob_gas : Z) (to : Address)
    (access_list : list Z) (blob_versioned_hashes : list B256) (sidecar : Z)
| MockEip7702 (f : MockFields) (chain_id : Z) (max_fee_per_gas max_priority_fee_per_gas : Z)
    (to : Address) (access_list authorization_list : list Z).

Definition mock_fields (t : MockTransaction) : MockFields :=
  match t with
  | MockLegacy f _ _ _ | MockEip2930 f _ _ _ _ | MockEip1559 f _ _ _ _ _
  | MockEip4844 f _ _ _ _ _ _ _ _ | MockEip7702 f _ _ _ _ _ _ => f
  end.

Record MockFbTransaction : Type := mkMockFb {
  mock_inner : MockTransaction;
  mock_reverted_hashes : option (list B256);
  mock_flashblock_number_min : option Z;
  mock_flashblock_number_max : option Z;
}.

Inductive TransactionOrigin : Type := OriginLocal | OriginExternal | OriginPrivate.

(** [ValidPoolTransaction]: the identifier stands for reth's [TransactionId]. *)
Record MockValidFbTx : Type := mkMockValid {
  mv_transaction : MockFbTransaction;
  mv_transaction_id : Z;
  mv_propagate : bool;
  mv_timestamp : Z;
  mv_origin : TransactionOrigin;
  mv_authority_ids : option (list Z);
}.

(** ** The factory *)

Section Factory.
(** [MockTransactionFactory]: hands out the identifier of a transaction. *)
Context {Factory : Type} (factory_tx_id : Factory -> MockTransaction -> Z * Factory).

Record MockFbTransactionFactory : Type := mkFactory { factory : Factory }.
Implicit Type self : MockFbTransactionFactory.

Definition tx_id self (tx : MockFbTransaction) : Z * MockFbTransactionFactory :=
  let '(id, f) := factory_tx_id (factory self) (mock_inner tx) in (id, mkFactory f).

Definition validated_with_origin self (now : Z) (origin : TransactionOrigin)
    (transaction : MockFbTransaction) : MockValidFbTx * MockFbTransactionFactory :=
  let '(transaction_id, self) := tx_id self transaction in
  (mkMockValid transaction transaction_id false now origin None, self).

Definition validated self (now : Z) (transaction : MockFbTransaction)
    : MockValidFbTx * MockFbTransactionFactory :=
  validated_with_origin self now OriginExternal transaction.

(** [mock] is what reth's [MockTransaction::legacy], [eip1559] or [eip4844] gives. *)
Definition create_legacy self (now : Z) (mock : MockTransaction)
    : MockValidFbTx * MockFbTransactionFactory :=
  validated self now (mkMockFb mock None None None).

Definition create_eip1559 self (now : Z) (mock : MockTransaction)
    : MockValidFbTx * MockFbTransactionFactory :=
  validated self now (mkMockFb mock None None None).

Definition create_eip4844 self (now : Z) (mock : MockTransaction)
    : MockValidFbTx * MockFbTransactionFactory :=
  validated self now (mkMockFb mock None None None).

Definition create_legacy_fb self (now : Z) (mock : MockTransaction) (min max : option Z)
    : MockValidFbTx * MockFbTransactionFactory :=
  validated self now (mkMockFb mock None min max).

End Factory.

(** ** [PoolTransaction], [InMemorySize] and [Typed2718] *)

Definition mock_hash (t : MockFbTransaction) : B256 := mf_hash (mock_fields (mock_inner t)).
Definition mock_sender (t : MockFbTransaction) : Address := mf_sender (mock_fields (mock_inner t)).
Definition mock_sender_ref (t : MockFbTransaction) : Address := mf_sender (mock_fields (mock_inner t)).
Definition mock_cost (t : MockFbTransaction) : Z := mf_cost (mock_fields (mock_inner t)).
Definition mock_size (t : MockFbTransaction) : Z := mf_size (mock_fields (mock_inner t)).

(** The variant of a mock transaction, as reth names it. *)
Definition mock_type (t : MockTransaction) : TxType :=
  match t with
  | MockLegacy _ _ _ _ => Legacy
  | MockEip1559 _ _ _ _ _ _ => Eip1559
  | MockEip4844 _ _ _ _ _ _ _ _ _ => Eip4844
  | MockEip2930 _ _ _ _ _ => Eip2930
  | MockEip7702 _ _ _ _ _ _ _ => Eip7702
  end.
Definition mock_ty (t : MockFbTransaction) : TxType := mock_type (mock_inner t).

(** ** [Transaction] *)

Definition mock_chain_id (t : MockFbTransaction) : option Z :=
  match mock_inner t with
  | MockLegacy _ chain_id _ _ => chain_id
  | MockEip1559 _ chain_id _ _ _ _ | MockEip4844 _ chain_id _ _ _ _ _ _ _
  | MockEip2930 _ chain_id _ _ _ | MockEip7702 _ chain_id _ _ _ _ _ => Some chain_id
  end.

Definition mock_nonce (t : MockFbTransaction) : Z := mf_nonce (mock_fields (mock_inner t)).
Definition mock_gas_limit (t : MockFbTransaction) : Z := mf_gas_limit (mock_fields (mock_inner t)).
Definition mock_value (t : MockFbTransaction) : Z := mf_value (mock_fields (mock_inner t)).
Definition mock_input (t : MockFbTransaction) : Bytes := mf_input (mock_fields (mock_inner t)).

Definition mock_gas_price (t : MockFbTransaction) : option Z :=
  match mock_inner t with
  | MockLegacy _ _ gas_price _ | MockEip2930 _ _ gas_price _ _ => Some gas_price
  | _ => None
  end.

Definition mock_max_fee_per_gas (t : MockFbTransaction) : Z :=
  match mock_inner t with
  | MockLegacy _ _ gas_price _ | MockEip2930 _ _ gas_price _ _ => gas_price
  | MockEip1559 _ _ max_fee _ _ _ | MockEip4844 _ _ max_fee _ _ _ _ _ _
  | MockEip7702 _ _ max_fee _ _ _ _ => max_fee
  end.

Definition mock_max_priority_fee_per_gas (t : MockFbTransaction) : option Z :=
  match mock_inner t with
  | MockLegacy _ _ _ _ | MockEip2930 _ _ _ _ _ => None
  | MockEip1559 _ _ _ tip _ _ | MockEip4844 _ _ _ tip _ _ _ _ _
  | MockEip7702 _ _ _ tip _ _ _ => Some tip
  end.

Definition mock_max_fee_per_blob_gas (t : MockFbTransaction) : option Z :=
  match mock_inner t with MockEip4844 _ _ _ _ blob _ _ _ _ => Some blob | _ => None end.

Definition priority_fee_or_price (t : MockFbTransaction) : Z :=
  match mock_inner t with
  | MockLegacy _ _ gas_price _ | MockEip2930 _ _ gas_price _ _ => gas_price
  | MockEip1559 _ _ _ tip _ _ | MockEip4844 _ _ _ tip _ _ _ _ _
  | MockEip7702 _ _ _ tip _ _ _ => tip
  end.

(** The sum is one of [u128]. *)
Definition U128_MOD : Z := 2 ^ 128.
Definition add128 (a b : Z) : Z := (a + b) mod U128_MOD.

Definition effective_gas_price (t : MockFbTransaction) (base_fee : option Z) : Z :=
  match base_fee with
  | None => mock_max_fee_per_gas t
  | Some base_fee =>
      let tip := saturating_sub (mock_max_fee_per_gas t) base_fee in
      match mock_max_priority_fee_per_gas t with
      | Some max_tip => if max_tip <? tip then add128 max_tip base_fee else mock_max_fee_per_gas t
      | None => mock_max_fee_per_gas t
      end
  end.

Definition is_dynamic_fee (t : MockFbTransaction) : bool :=
  match mock_inner t with MockLegacy _ _ _ _ | MockEip2930 _ _ _ _ _ => false | _ => true end.

Definition mock_kind (t : MockFbTransaction) : TxKind :=
  match mock_inner t with
  | MockLegacy _ _ _ to | MockEip1559 _ _ _ _ to _ | MockEip2930 _ _ _ to _ => to
  | MockEip4844 _ _ _ _ _ to _ _ _ | MockEip7702 _ _ _ _ to _ _ => TxCall to
  end.

Definition kind_is_create (k : TxKind) : bool := match k with TxCreate => true | TxCall _ => false end.

Definition is_create (t : MockFbTransaction) : bool :=
  match mock_inner t with
  | MockLegacy _ _ _ to | MockEip1559 _ _ _ _ to _ | MockEip2930 _ _ _ to _ => kind_is_create to
  | MockEip4844 _ _ _ _ _ _ _ _ _ | MockEip7702 _ _ _ _ _ _ _ => false
  end.

Definition mock_access_list (t : MockFbTransaction) : option (list Z) :=
  match mock_inner t with
  | MockLegacy _ _ _ _ => None
  | MockEip1559 _ _ _ _ _ l | MockEip4844 _ _ _ _ _ _ l _ _ | MockEip2930 _ _ _ _ l
  | MockEip7702 _ _ _ _ _ l _ => Some l
  end.

Definition blob_versioned_hashes (t : MockFbTransaction) : option (list B256) :=
  match mock_inner t with MockEip4844 _ _ _ _ _ _ _ hashes _ => Some hashes | _ => None end.

Definition authorization_list (t : MockFbTransaction) : option (list Z) :=
  match mock_inner t with MockEip7702 _ _ _ _ _ _ auths => Some auths | _ => None end.

(** ** [EthPoolTransaction] *)

Definition mock_take_blob (t : MockFbTransaction) : EthBlobTransactionSidecar :=
  match mock_inner t with
  | MockEip4844 _ _ _ _ _ _ _ _ sidecar => PresentSidecar sidecar
  | _ => NoSidecar
  end.

Definition mock_validate_blob (t : MockFbTransaction) (_blob _settings : Z)
    : outcome BlobTransactionValidationError unit :=
  match mock_inner t with
  | MockEip4844 _ _ _ _ _ _ _ _ _ => Ok tt
  | _ => Err (NotBlobTransaction (mock_type (mock_inner t)))
  end.

Section Conversions.
(** Reth's conversions: to a consensus transaction with its signer, to a pooled transaction with a
    sidecar, which fails for what is no blob transaction, and back to a mock transaction. *)
Context {Consensus Pooled : Type}.
Context (into : MockTransaction -> Consensus * Address) (of_pooled : Pooled * Address -> MockTransaction).
Context (consensus_into_pooled_eip4844 : Consensus -> Z -> option Pooled).

Definition mock_into_consensus (t : MockFbTransaction) : Consensus * Address := into (mock_inner t).

Definition mock_from_pooled (pooled : Pooled * Address) : MockFbTransaction :=
  mkMockFb (of_pooled pooled) None None None.

Definition mock_try_into_pooled_eip4844 (t : MockFbTransaction) (sidecar : Z) : option (Pooled * Address) :=
  let '(tx, signer) := mock_into_consensus t in
  (fun tx => (tx, signer)) <$> consensus_into_pooled_eip4844 tx sidecar.

Definition mock_try_from_eip4844 (tx : Consensus * Address) (sidecar : Z) : option MockFbTransaction :=
  let '(tx, signer) := tx in
  mock_from_pooled <$> ((fun tx => (tx, signer)) <$> consensus_into_pooled_eip4844 tx sidecar).

(** Where both conversions succeed they agree: what [try_from_eip4844] makes of a transaction's
    consensus form is the pooled form, without the flashblock range. *)
Lemma mock_eip4844_conversions t sidecar :
  mock_try_from_eip4844 (mock_into_consensus t) sidecar
    = mock_from_pooled <$> mock_try_into_pooled_eip4844 t sidecar.
Proof. unfold mock_try_from_eip4844, mock_try_into_pooled_eip4844. by destruct (mock_into_consensus t). Qed.

End Conversions.

(** ** [MaybeFlashblockFilter] *)

Definition mock_with_flashblock_number_min (t : MockFbTransaction) (m : option Z) : MockFbTransaction :=
  mkMockFb (mock_inner t) (mock_reverted_hashes t) m (mock_flashblock_number_max t).
Definition mock_with_flashblock_number_max (t : MockFbTransaction) (m : option Z) : MockFbTransaction :=
  mkMockFb (mock_inner t) (mock_reverted_hashes t) (mock_flashblock_number_min t) m.

(** What the iterator sees of a mock transaction, as a transaction of the pool: the iterator is generic
    in the transactions, and reads the hash, the sender, the nonce and the range only. *)
Definition as_pooled (t : MockFbTransaction) : FBPooledTransaction :=
  mkFB (mkPooled
          (mkRecovered
             (mkTx (mock_hash t) (mock_ty t) (Some (mock_sender t)) (mock_nonce t) (mock_gas_limit t)
                (mock_max_fee_per_gas t) (priority_fee_or_price t)
                (match mock_kind t with TxCall a => a | TxCreate => 0 end) (mock_input t) [])
             (mock_sender t))
          None None 0)
    (mock_reverted_hashes t) (mock_flashblock_number_min t) (mock_flashblock_number_max t).

(** ** Properties *)

(** The price a transaction pays at a base fee it can pay is the base fee with its tip, but never more
    than its maximum; the sum does not overflow.  A transaction without a tip pays its gas price. *)
Theorem effective_gas_price_spec t base :
  0 <= base <= mock_max_fee_per_gas t -> mock_max_fee_per_gas t < U128_MOD ->
  (forall tip, mock_max_priority_fee_per_gas t = Some tip -> 0 <= tip) ->
  effective_gas_price t (Some base) =
    match mock_max_priority_fee_per_gas t with
    | Some tip => Z.min (mock_max_fee_per_gas t) (base + tip)
    | None => mock_max_fee_per_gas t
    end /\
  base <= effective_gas_price t (Some base) <= mock_max_fee_per_gas t.
Proof.
  intros Hb Hm Ht. unfold effective_gas_price, saturating_sub, add128.
  destruct (mock_max_priority_fee_per_gas t) as [tip|]; [|split; [done|lia]]. specialize (Ht _ eq_refl).
  destruct (Z.ltb_spec tip (Z.max 0 (mock_max_fee_per_gas t - base))).
  - rewrite Z.mod_small by lia. lia.
  - lia.
Qed.

Lemma effective_gas_price_spec_witness :
  effective_gas_price
    (mkMockFb (MockEip1559 (mkMockFields 1 2 0 21000 0 [] 0 0) 1 100 7 TxCreate []) None None None)
    (Some 50) = 57.
Proof.
  destruct (effective_gas_price_spec
    (mkMockFb (MockEip1559 (mkMockFields 1 2 0 21000 0 [] 0 0) 1 100 7 TxCreate []) None None None) 50)
    as [H _]; [vm_compute; split; discriminate|vm_compute; reflexivity|intros tip [= <-]; lia|exact H].
Defined.

(** The accessors agree on the kind of a transaction: it has a tip exactly when its fee is dynamic, and
    a gas price exactly when it is not; it creates a contract exactly when its kind says so; and it has
    a blob, which validates, exactly when it is of the blob type. *)
Theorem mock_accessors_agree t :
  is_dynamic_fee t = bool_decide (is_Some (mock_max_priority_fee_per_gas t)) /\
  is_dynamic_fee t = negb (bool_decide (is_Some (mock_gas_price t))) /\
  is_create t = kind_is_create (mock_kind t) /\
  (mock_take_blob t <> NoSidecar <-> mock_ty t = Eip4844) /\
  (is_ok (mock_validate_blob t 0 0) = true <-> mock_ty t = Eip4844) /\
  (is_Some (blob_versioned_hashes t) <-> mock_ty t = Eip4844) /\
  (is_Some (authorization_list t) <-> mock_ty t = Eip7702).
Proof.
  unfold is_dynamic_fee, mock_max_priority_fee_per_gas, mock_gas_price, is_create, mock_kind, mock_take_blob,
    mock_validate_blob, blob_versioned_hashes, authorization_list, mock_ty.
  destruct (mock_inner t); simpl; split_and!; try done; rewrite ?is_Some_alt; split; done.
Qed.
