(* ===== verification/UnitTests.v ===== *)
(** * The repository's unit tests

    The tests that stand in the modelled files, run against the model: [primitives/bundle.rs],
    [gas_limiter/mod.rs], [builders/flashblocks/best_txs.rs], [sidecar/client.rs] and
    [builders/generator.rs]; that of [crates/p2p]; and those of the quote server
    ([crates/tdx-quote-provider/tests/simple.rs]).  A test is a computation; it passes when it returns and fails when an
    assertion or an [unwrap] panics. *)

From S2P Require Import Prelude External P2p P2pBuild GasLimiter Bundle PoolTx BestTxs Sidecar ExecInfo Context Timing BuildPayload Generator Quote Attestation QuoteServer MockTx.

(** ** Assertions *)

Definition test : Type := outcome unit unit.

Definition assert (b : bool) : test := if b then Ok tt else Panic.
Definition assert_eq {A} `{EqDecision A} (a b : A) : test := assert (bool_decide (a = b)).

(** [Result::unwrap] and [Option::unwrap]. *)
Definition unwrap {E A} (r : outcome E A) : outcome unit A :=
  match r with Ok a => Ok a | _ => Panic end.
Definition unwrap_opt {A} (o : option A) : outcome unit A := expect o.

(** ** [primitives/bundle.rs] *)
Module BundleTests.

Instance error_eq_dec : EqDecision BundleConditionalError.
Proof. solve_decision. Defined.

(** The error a call returned, if any. *)
Definition error_of {E A} (r : outcome E A) : option E :=
  match r with Err e => Some e | _ => None end.

Definition default_bundle : Bundle := mkBundle [] None None None None None None None.
Definition bundle_of (block_min block_max fb_min fb_max : option Z) : Bundle :=
  mkBundle [] None block_min block_max fb_min fb_max None None.

(** The block range of the conditional, asserted. *)
Definition check_blocks (bundle : Bundle) (last_block : Z) (min max : option Z) : test :=
  let? result := unwrap (conditional bundle last_block) in
  let? _ := assert_eq (tc_block_number_min (transaction_conditional result)) min in
  assert_eq (tc_block_number_max (transaction_conditional result)) max.

Definition check_flashblocks (bundle : Bundle) (last_block : Z) (min max : option Z) : test :=
  let? result := unwrap (conditional bundle last_block) in
  let? _ := assert_eq (bc_flashblock_number_min result) min in
  assert_eq (bc_flashblock_number_max result) max.

Definition check_error (bundle : Bundle) (last_block : Z) (e : BundleConditionalError) : test :=
  assert_eq (error_of (conditional bundle last_block)) (Some e).

Definition test_bundle_conditional_no_bounds : test :=
  let last_block := 1000 in
  check_blocks default_bundle last_block None (Some (last_block + MAX_BLOCK_RANGE_BLOCKS)).
Definition test_bundle_conditional_with_valid_bounds : test :=
  check_blocks (bundle_of (Some 1002) (Some 1005) None None) 1000 (Some 1002) (Some 1005).
Definition test_bundle_conditional_min_greater_than_max : test :=
  check_error (bundle_of (Some 1010) (Some 1005) None None) 1000 (MinGreaterThanMax 1010 1005).
Definition test_bundle_conditional_max_in_past : test :=
  check_error (bundle_of None (Some 999) None None) 1000 (MaxBlockInPast 999 1000).
Definition test_bundle_conditional_max_too_high : test :=
  check_error (bundle_of None (Some 1020) None None) 1000 (MaxBlockTooHigh 1020 1000 1010).
Definition test_bundle_conditional_min_too_high_for_default_range : test :=
  check_error (bundle_of (Some 1015) None None None) 1000 (MinTooHighForDefaultRange 1015 1010).
Definition test_bundle_conditional_with_only_min : test :=
  check_blocks (bundle_of (Some 1005) None None None) 1000 (Some 1005) (Some 1010).
Definition test_bundle_conditional_with_only_max : test :=
  check_blocks (bundle_of None (Some 1008) None None) 1000 None (Some 1008).
Definition test_bundle_conditional_min_lower_than_last_block : test :=
  check_blocks (bundle_of (Some 999) None None None) 1000 (Some 999) (Some 1010).
Definition test_bundle_conditional_flashblock_min_greater_than_max : test :=
  check_error (bundle_of None None (Some 105) (Some 100)) 1000 (FlashblockMinGreaterThanMax 105 100).
Definition test_bundle_conditional_with_valid_flashblock_range : test :=
  check_flashblocks (bundle_of None None (Some 100) (Some 105)) 1000 (Some 100) (Some 105).
Definition test_bundle_conditional_with_only_flashblock_min : test :=
  check_flashblocks (bundle_of None None (Some 100) None) 1000 (Some 100) None.
Definition test_bundle_conditional_with_only_flashblock_max : test :=
  check_flashblocks (bundle_of None None None (Some 105)) 1000 None (Some 105).
Definition test_bundle_conditional_flashblock_equal_values : test :=
  check_flashblocks (bundle_of None None (Some 100) (Some 100)) 1000 (Some 100) (Some 100).

Definition all : list test :=
  [test_bundle_conditional_no_bounds; test_bundle_conditional_with_valid_bounds;
   test_bundle_conditional_min_greater_than_max; test_bundle_conditional_max_in_past;
   test_bundle_conditional_max_too_high; test_bundle_conditional_min_too_high_for_default_range;
   test_bundle_conditional_with_only_min; test_bundle_conditional_with_only_max;
   test_bundle_conditional_min_lower_than_last_block;
   test_bundle_conditional_flashblock_min_greater_than_max;
   test_bundle_conditional_with_valid_flashblock_range;
   test_bundle_conditional_with_only_flashblock_min;
   test_bundle_conditional_with_only_flashblock_max;
   test_bundle_conditional_flashblock_equal_values].

End BundleTests.

(** ** [gas_limiter/mod.rs] *)
Module LimiterTests.

Definition create_test_config (max_gas refill_rate cleanup_interval : Z) : GasLimiterArgs :=
  mkGasLimiterArgs true max_gas refill_rate cleanup_interval.

(** The address whose bytes all are [b]. *)
Definition repeated_address (b : Z) : Address := fold_left (fun a _ => a * 256 + b) (seq 0 20) 0.
Definition test_address : Address := repeated_address 1.

(** A call of [consume_gas] that is asserted to be granted or refused. *)
Definition consume (address gas : Z) (granted : bool) (limiter : AddressGasLimiter)
    : outcome unit AddressGasLimiter :=
  let '(r, limiter) := consume_gas limiter address gas in
  let? _ := assert (Bool.eqb (is_ok r) granted) in
  Ok limiter.

Definition test_basic_refill : test :=
  let limiter := new_limiter (create_test_config 1000 200 10) in
  let? limiter := consume test_address 1000 true limiter in
  let? limiter := consume test_address 1 false limiter in
  let limiter := refresh limiter 1 in
  let? limiter := consume test_address 200 true limiter in
  let? _ := consume test_address 1 false limiter in
  Ok tt.

Definition test_over_capacity_request : test :=
  let limiter := new_limiter (create_test_config 1000 100 10) in
  let '(result, limiter) := consume_gas limiter test_address 1500 in
  let? _ := assert (negb (is_ok result)) in
  let? _ :=
    match result with
    | Err (AddressLimitExceeded _ _ available) => assert_eq available 1000
    | _ => Ok tt
    end in
  let? _ := consume test_address 1000 true limiter in
  Ok tt.

(** The limiter at the end of the test. *)
Definition multiple_users : outcome unit AddressGasLimiter :=
  let limiter := new_limiter (create_test_config 10000000 1000000 100) in
  let searcher1 := repeated_address 1 in
  let searcher2 := repeated_address 2 in
  let attacker := repeated_address 3 in
  let? limiter := consume searcher1 500000 true limiter in
  let? limiter := consume searcher2 750000 true limiter in
  let? limiter := consume attacker 15000000 false limiter in
  let? limiter := consume attacker 5000000 true limiter in
  let? limiter := consume attacker 6000000 false limiter in
  let limiter := refresh limiter 1 in
  let? limiter := consume searcher1 1000000 true limiter in
  let? limiter := consume searcher2 1000000 true limiter in
  consume attacker 1000000 true limiter.
Definition test_multiple_users : test := let? _ := multiple_users in Ok tt.

Definition all : list test := [test_basic_refill; test_over_capacity_request; test_multiple_users].

(** What the searchers and the attacker have left at the end of the last test.  Its comments say 9.5 and
    9.25 million for the searchers: a refill does not fill a bucket beyond its capacity. *)
Lemma multiple_users_balances :
  (fun l => (fun a => available <$> (i ← limiter_inner l; address_buckets i !! repeated_address a)) <$>
    [1; 2; 3]) <$> (match multiple_users with Ok l => Some l | _ => None end)
  = Some [Some 9000000; Some 9000000; Some 5000000].
Proof. vm_compute. reflexivity. Qed.

End LimiterTests.

(** ** [builders/flashblocks/best_txs.rs] *)
Module BestTests.
Import TestPool.

(** Reth's mock transactions are random; here they are numbered, each with a sender of its own, and so
    are their identifiers.  The pool orders transactions of the same priority by when they came. *)
Definition mock_of (n : Z) : MockFields := mkMockFields n (100 + n) 0 21000 0 [] 0 0.
Definition legacy (n : Z) : MockTransaction := MockLegacy (mock_of n) (Some 1) 10 TxCreate.
Definition eip1559 (n : Z) : MockTransaction := MockEip1559 (mock_of n) 1 10 10 TxCreate [].
Definition counter_id (next : Z) (_ : MockTransaction) : Z * Z := (next, next + 1).

Definition Pool : Type := list MockValidFbTx.
Definition best (pool : Pool) : pool_iter := mkIter (as_pooled ∘ mv_transaction <$> pool) [].

Definition next_hash (it : BestFlashblocksTxs pool_iter)
    : outcome unit (FBPooledTransaction * BestFlashblocksTxs pool_iter) :=
  let '(r, it) := best_next it in
  let? tx := unwrap_opt r in
  Ok (tx, it).

(** [assert!(iterator.next(()).is_none())] *)
Definition assert_empty (it : BestFlashblocksTxs pool_iter)
    : outcome unit (BestFlashblocksTxs pool_iter) :=
  let '(r, it) := best_next it in
  let? _ := assert (bool_decide (r = None)) in
  Ok it.

Definition simple_pool : Pool :=
  let f := mkFactory 0 in
  let '(tx_1, f) := create_eip1559 counter_id f 0 (eip1559 1) in
  let '(tx_2, f) := create_eip1559 counter_id f 0 (eip1559 2) in
  let '(tx_3, f) := create_eip1559 counter_id f 0 (eip1559 3) in
  [tx_1; tx_2; tx_3].

Definition test_simple_case : test :=
  let pool := simple_pool in
  let iterator := new_best (best pool) in
  let iterator := refresh_iterator iterator (best pool) 0 in
  let? (tx1, iterator) := next_hash iterator in
  let? (tx2, iterator) := next_hash iterator in
  let iterator := best_mark_invalid iterator (fb_sender tx2) (fb_nonce tx2) in
  let? (tx3, iterator) := next_hash iterator in
  let? iterator := assert_empty iterator in
  let iterator := mark_commited iterator [fb_hash tx1; fb_hash tx3] in
  let iterator := refresh_iterator iterator (best pool) 1 in
  let? (tx2, iterator) := next_hash iterator in
  let? iterator := assert_empty iterator in
  let iterator := mark_commited iterator [fb_hash tx2] in
  let iterator := refresh_iterator iterator (best pool) 2 in
  let? _ := assert_empty iterator in
  Ok tt.

Definition bundle_pool : Pool :=
  let f := mkFactory 0 in
  let '(tx_1, f) := create_legacy_fb counter_id f 0 (legacy 1) None None in
  let '(tx_2, f) := create_legacy_fb counter_id f 0 (legacy 2) None (Some 1) in
  let '(tx_3, f) := create_legacy_fb counter_id f 0 (legacy 3) (Some 1) None in
  let '(tx_4, f) := create_legacy_fb counter_id f 0 (legacy 4) (Some 2) (Some 3) in
  [tx_1; tx_2; tx_3; tx_4].

(** A flashblock: the iterator yields exactly the transactions with these hashes. *)
Fixpoint yields_hashes (hashes : list B256) (it : BestFlashblocksTxs pool_iter)
    : outcome unit (BestFlashblocksTxs pool_iter) :=
  match hashes with
  | [] => assert_empty it
  | h :: hashes =>
      let? (tx, it) := next_hash it in
      let? _ := assert_eq (fb_hash tx) h in
      yields_hashes hashes it
  end.

Definition test_bundle_case : test :=
  let pool := bundle_pool in
  let iterator := new_best (best pool) in
  let? iterator := yields_hashes [1; 2] (refresh_iterator iterator (best pool) 0) in
  let? iterator := yields_hashes [1; 2; 3] (refresh_iterator iterator (best pool) 1) in
  let? iterator := yields_hashes [1; 3; 4] (refresh_iterator iterator (best pool) 2) in
  let? iterator := yields_hashes [1; 3; 4] (refresh_iterator iterator (best pool) 3) in
  let? _ := yields_hashes [1; 3] (refresh_iterator iterator (best pool) 4) in
  Ok tt.

Definition all : list test := [test_simple_case; test_bundle_case].

End BestTests.

(** ** [sidecar/client.rs] *)
Module SidecarTests.

Definition test_disabled_client : test := assert (negb (is_enabled default_sidecar_config)).
Definition test_enabled_client : test :=
  assert (is_enabled (mkSidecarConfig "http://localhost:8082"
    (poll_timeout_ms default_sidecar_config) (max_retries default_sidecar_config))).

Definition all : list test := [test_disabled_client; test_enabled_client].

End SidecarTests.

(** ** [builders/generator.rs] *)
Module GeneratorTests.

(** A cell on its own: that of a job nobody else uses. *)
Definition new_cell : Store Z :=
  push_job (mkJob (mkPayloadConfig (mkSealedHeader 0 0 0 0 0)
                     (mkAttributes 0 0 0 0 0 [] None false [] None (fun _ => inr []) (fun _ => inr [])))
              [] 0 0 Running None ∅) (with_builder false 0).
Definition set (v : Z) (s : Store Z) : Store Z := cell_set 0 v s.

(** Awaiting the future of a cell: it is polled now, and again after every event; [None] when it is
    still pending after the last. *)
Fixpoint await (events : list (Store Z -> Store Z)) (s : Store Z) : option Z :=
  match wait_poll 0 s with
  | Ready v => Some v
  | Pending => match events with [] => None | e :: events => await events (e s) end
  end.

Definition test_block_cell_wait_for_value : test :=
  let? result := unwrap_opt (await [set 42] new_cell) in
  assert_eq result 42.

Definition test_block_cell_immediate_value : test :=
  let? result := unwrap_opt (await [] (set 42 new_cell)) in
  assert_eq result 42.

(** Both waiters see the one value. *)
Definition test_block_cell_multiple_waiters : test :=
  let? result1 := unwrap_opt (await [set 42] new_cell) in
  let? result2 := unwrap_opt (await [set 42] new_cell) in
  let? _ := assert_eq result1 42 in
  assert_eq result2 42.

Definition test_block_cell_update_value : test :=
  let? result := unwrap_opt (await [] (set 43 (set 42 new_cell))) in
  assert_eq result 43.

(** [MockBuilder]: its events, and [try_build], which waits for the cancellation.  The list says what
    the token answers from one round of the loop to the next; a loop that is never cancelled has not
    returned when the list ends. *)
Inductive BlockEvent : Type := Started | Cancelled.
Instance event_eq_dec : EqDecision BlockEvent.
Proof. solve_decision. Defined.

Fixpoint mock_loop (is_cancelled : list bool) (events : list BlockEvent)
    : option (outcome PayloadBuilderError unit * list BlockEvent) :=
  match is_cancelled with
  | [] => None
  | true :: _ => Some (Ok tt, events ++ [Cancelled])
  | false :: rest => mock_loop rest events
  end.
Definition mock_try_build (is_cancelled : list bool) (events : list BlockEvent)
    : option (outcome PayloadBuilderError unit * list BlockEvent) :=
  mock_loop is_cancelled (events ++ [Started]).

(** [test_job_deadline], at the time [now]. *)
Definition test_job_deadline (now : SystemTime) : test :=
  let deadline := job_deadline ((now + from_secs 2) / SECOND) now in
  let? _ := assert (deadline <=? from_secs 2) in
  let? _ := assert (from_secs 0 <? deadline) in
  let deadline := job_deadline ((now - from_secs 10) / SECOND) now in
  let? _ := assert_eq deadline (from_secs 1) in
  let deadline := job_deadline (now / SECOND) now in
  assert_eq deadline (from_secs 1).

(** A job of the generator and its build task: the job is polled at the times given, the task looks at
    its token after each poll; the events of the builder. *)
Definition run_job (attr : OpPayloadBuilderAttributes) (latest : SealedHeader) (now : SystemTime)
    (resolve : bool) (polls : list SystemTime) (s : Store Z)
    : outcome PayloadBuilderError (option (list BlockEvent)) * Store Z :=
  let by_hash h := inr (if h =? sh_hash latest then Some latest else None) in
  let '(r, s) := new_payload_job (inr (Some latest)) by_hash attr now s in
  match r with
  | Ok j =>
      let s := if resolve then resolve_kind j s else s in
      let '(answers, s) :=
        fold_left (fun '(answers, s) t =>
          let s := snd (job_poll j t s) in
          (answers ++ [match st_jobs s !! j with
                       | Some job => token_cancelled (job_cancel job) s
                       | None => false
                       end], s)) polls ([], s) in
      (Ok (snd <$> mock_try_build answers []), s)
  | Err e => (Err e, s)
  | Panic => (Panic, s)
  end.

Definition default_attributes (parent : B256) : OpPayloadBuilderAttributes :=
  mkAttributes parent 0 0 0 0 [] None false [] None (fun _ => inr []) (fun _ => inr []).

(** [test_payload_generator]: a job that is awaited until its deadline, and one that is resolved. *)
Definition test_payload_generator (latest : SealedHeader) (now : SystemTime) : test :=
  let generator := with_builder false (from_secs 1) in
  let attr := default_attributes (sh_hash latest) in
  let '(events, generator) :=
    run_job attr latest now false [now; now + from_secs 1; now + from_secs 2] generator in
  let? events := unwrap events in
  let? _ := assert_eq events (Some [Started; Cancelled]) in
  let '(events, _) := run_job attr latest (now + from_secs 3) true [now + from_secs 3] generator in
  let? events := unwrap events in
  assert_eq events (Some [Started; Cancelled]).

Definition all : list test :=
  [test_block_cell_wait_for_value; test_block_cell_immediate_value; test_block_cell_multiple_waiters;
   test_block_cell_update_value; test_job_deadline (from_millis 1700000000123);
   test_payload_generator (mkSealedHeader 77 10 30000000 0 0) (from_millis 1700000000123)].

(** [test_job_deadline] passes whenever it is run. *)
Lemma test_job_deadline_always now : 0 <= now -> test_job_deadline now = Ok tt.
Proof.
  intros Hn. unfold test_job_deadline, job_deadline, saturating_sub, from_secs, SECOND, assert_eq.
  pose proof (Z.div_add now 2 1000000000 ltac:(lia)) as H2.
  pose proof (Z.div_add now (-10) 1000000000 ltac:(lia)) as H10.
  replace (now - 10 * 1000000000) with (now + -10 * 1000000000) by lia. rewrite H2, H10.
  replace (Z.max 0 (now / 1000000000 + 2 - now / 1000000000)) with 2 by lia.
  replace (Z.max 0 (now / 1000000000 + -10 - now / 1000000000)) with 0 by lia.
  replace (Z.max 0 (now / 1000000000 - now / 1000000000)) with 0 by lia. reflexivity.
Qed.

End GeneratorTests.

(** ** [crates/p2p/src/lib.rs] *)
Module P2pTests.
Import TestNet.

Definition TEST_AGENT_VERSION : string := "test/1.0.0".
Definition TEST_PROTOCOL : StreamProtocol := 7.

Record TestMessage : Type := mkTestMessage { content : Text }.
Instance message_eq_dec : EqDecision TestMessage.
Proof. solve_decision. Defined.

(** A message is its content as a JSON string; the content of the test has nothing to escape. *)
Definition QUOTE : Z := 34.
Definition unquote (s : Text) : option Text :=
  match s with
  | c :: s' =>
      if (c =? QUOTE) && bool_decide (last s' = Some QUOTE) then Some (removelast s') else None
  | [] => None
  end.
#[local] Instance test_messages : P2p.Message TestMessage := {|
  msg_protocol _ := TEST_PROTOCOL;
  msg_to_string m := inr ([QUOTE] ++ content m ++ [QUOTE]);
  msg_from_str s := match unquote s with Some t => inr (mkTestMessage t) | None => inl 0 end;
|}.

(** Everything libp2p is asked for succeeds. *)
#[local] Instance willing : Libp2p := {|
  hex_bytes _ := None;
  keypair_try_from_bytes _ := inl 0;
  dns_transport := inr tt;
  noise_config _ := inr tt;
  mdns_behaviour _ := inr tt;
  listen_on _ := inr tt;
  dial_address _ := inr tt;
|}.

Definition local_addr (port : Z) : Multiaddr := [OtherPart 127; OtherPart port].

(** The second node dials the first, connects, and is given the message; the first reads what arrives
    on the stream, and hands it to the receiver of its protocol. *)
Definition two_nodes_can_connect_and_message : test :=
  let? node1 :=
    unwrap (try_build 1 0
      (with_protocol TEST_PROTOCOL (with_agent_version TEST_AGENT_VERSION
         (with_listen_addr (local_addr 9000) new_node_builder)))) in
  let? addrs1 := unwrap (multiaddrs (bn_peer_id node1) (bn_listen_addrs node1)) in
  let? node2 :=
    unwrap (try_build 2 1
      (with_agent_version TEST_AGENT_VERSION (with_listen_addr (local_addr 9001)
         (with_protocol TEST_PROTOCOL (with_known_peers addrs1 new_node_builder))))) in
  let message := mkTestMessage (text "message") in
  let events :=
    [ConnectionEstablished (bn_peer_id node1) opened; Outgoing message (fun _ => true) (fun l => l)] in
  let? (running2, _) := unwrap (run_node node2 events) in
  let? _ := assert_eq (nd_dialed running2) [(bn_peer_id node1, local_addr 9000)] in
  let? stream := unwrap_opt (stream_of (nd_streams running2) (bn_peer_id node1) TEST_PROTOCOL) in
  let? _ := unwrap_opt (bn_incoming_rxs node1 !! TEST_PROTOCOL) in
  let '(_, received) :=
    handle_incoming_stream (M := TestMessage)
      (read_lines (on_stream (bn_peer_id node1) stream (nd_sent running2))) in
  assert_eq received [message].

Definition all : list test := [two_nodes_can_connect_and_message].

End P2pTests.

(** ** [crates/tdx-quote-provider/tests/simple.rs] *)
Module QuoteServerTests.
Import TestAttestation TestQuoteServer.

(** The file of the mock provider, and everything else as in the quote server of [Attestation]. *)
Definition quote_bin : Bytes := [4; 0; 2; 0; 129].
#[local] Instance mock_files : ServerExternals := {|
  get_attestation_report_raw_with_options := test_device;
  read_mock_file path := if bool_decide (path = text "tests/test_data/quote.bin") then inr quote_bin else inl 2;
  json_message _ := [];
|}.

(** [TestHarness]: a server with the mock provider, once it listens. *)
Definition harness : QuoteProvider :=
  new_server (mkServerConfig (text "127.0.0.1:4000") true (text "tests/test_data/quote.bin")).

(** A request of the harness: the body, unless the status is an error. *)
Definition request (server : option QuoteProvider) (path : Text) : outcome ClientError Bytes :=
  match server with
  | None => Err (RequestFailed 0)
  | Some p => let? _ := error_for_status (status (route p path)) in Ok (body (route p path))
  end.
Definition healthcheck (server : option QuoteProvider) : outcome ClientError unit :=
  let? _ := request server (text "/healthz") in Ok tt.
Definition attest (server : option QuoteProvider) (app_data : Text) : outcome ClientError Bytes :=
  request server (text "/attest/" ++ app_data).

Definition test_healthcheck : test :=
  let? _ := assert (negb (is_ok (healthcheck None))) in
  assert (is_ok (healthcheck (Some harness))).

Definition test_mock_attest : test :=
  let report_data := hex_encode (repeat 0 64) in
  let response := attest (Some harness) report_data in
  let? _ := assert (is_ok response) in
  let? body := unwrap response in
  assert_eq body quote_bin.

Definition test_attest_invalid_report_data : test :=
  let? _ := assert (negb (is_ok (attest (Some harness) (text "invalid")))) in
  assert (negb (is_ok (attest (Some harness) (text "aede")))).

Definition all : list test := [test_healthcheck; test_mock_attest; test_attest_invalid_report_data].

End QuoteServerTests.

(** ** Properties *)

(** The unit tests pass: every assertion the repository makes about bundles, the gas limiter, the
    transaction iterator, the sidecar client, the job generator, the peer-to-peer node and the quote
    server holds of the model. *)
Theorem unit_tests_pass :
  Forall (fun t => t = Ok tt)
    (BundleTests.all ++ LimiterTests.all ++ BestTests.all ++ SidecarTests.all ++ GeneratorTests.all ++
     P2pTests.all ++ QuoteServerTests.all).
Proof. repeat constructor; vm_compute; reflexivity. Qed.
